(* ===== verification/_CoqProject ===== *)
-Q . S2P
Prelude.v
Protocol.v
Driver.v
DriverSteps.v
DriverInv.v
DriverSafe.v
DriverProps.v
DriverProgress.v
DriverSerial.v
DriverWake.v
DriverSignals.v
Requests.v
DriverSpec.v
DriverRefines.v
DriverCalls.v
RequestProps.v
Conduit.v
ConduitDriver.v
Kernel.v
Calls.v
VFSModel.v
Demo.v
InodeAlloc.v
Inode.v
Dir.v
DirProps.v
Readdir.v
ReaddirEnds.v
Permission.v
File.v
FileProps.v
Symlink.v
Export.v
Mount.v
Session.v
Operations.v
Signal.v
