(* ===== verification/Prelude.v ===== *)
(** * uvfs: a verification of the user-space virtual file system

    uvfs is a Linux kernel module with which a process, the server, provides a file
    system.  The kernel calls the module's operations; each operation writes a request
    into a transaction, hands it to the server through a device, waits, and acts on the
    reply.  This library models the module's C code and proves what it does.

    ** The program and its model

    - src/protocol.h - Protocol.v.  Structures are data of the type [ctype], from which
      [sizeof] and [offsetof] are computed; requests and replies are bytes of one union,
      and members are read and written at their offsets.
    - src/driver.c, the device - Driver.v has the state (the static variables and the heap
      of transactions of src/uvfs.h) and one computation for each stretch of code that
      holds the lock, each copy and each unlocked access, named after the function it
      comes from ([uvfsd_read_pass], [make_request_check], ...).  DriverSteps.v has the
      tasks and interleaves them: [run] performs one such stretch, [enabled] says when,
      [polite] what a server that follows the protocol does, [reachable] what can happen.
      - DriverInv.v, DriverSafe.v: the invariant, and its preservation by each action.
      - DriverProps.v: memory safety, no request is lost, when a request is done, what the
        last close does; and runs in which the driver fails.
      - DriverProgress.v: the waits end.
      - DriverSerial.v, DriverWake.v, DriverSignals.v: serial numbers, the wait queue of
        the servers, the signal masks.
      - DriverSpec.v, DriverRefines.v: an abstract conduit (a phase for each transaction
        and a queue of requests) that the driver refines event by event; from it, that a
        client finds exactly its own reply, and that requests are served in order.
      - DriverCalls.v: [uvfsd_read] and [uvfsd_write] as whole calls, with all their
        checks and returns; that a reply to what has been read reaches the transaction it
        came from, once; and that the calls are the runs of their actions.
    - The requests (src/dir.c, src/file.c, src/super.c, src/symlink.c) - Requests.v: one
      function for each kind, its stores in the order of the code; RequestProps.v: the
      driver accepts them, the server reads back what was asked, and what else leaks.
    - The interface between the driver and the file system - Conduit.v: the class
      [Conduit] of what an operation does with a transaction, and its laws.
      ConduitDriver.v composes the stretches of Driver.v into [uvfs_make_request] with
      one server and proves the laws of it.  The theorems on operations are proved from
      the laws alone.
    - The kernel - Kernel.v: inodes, dentries, pages and super blocks as stores indexed by
      address, so that two arguments may be the same object.  The kernel's functions are
      members of the class [VFS] (and of [FileVFS] in File.v), their documented behaviour
      is [VFSLaws]; VFSModel.v is a kernel that satisfies it.  Calls.v: the rules for
      requests and for the kernel's objects.  Demo.v: a server and a kernel to run on.
    - The operations, each file with the definitions, the specification and the theorems:
      InodeAlloc.v and Inode.v (src/super.c: memory, cache and refreshing of inodes),
      Dir.v and DirProps.v (src/dir.c: lookup, create, remove, rename, revalidate),
      Readdir.v and ReaddirEnds.v (src/dir.c: uvfs_readdir), Permission.v (src/dir.c:
      uvfs_permission), File.v and FileProps.v (src/file.c), Symlink.v (src/symlink.c),
      Export.v (src/super.c: the NFS interface), Mount.v (src/super.c: mounting and
      statistics; src/driver.c: loading the module), Operations.v (src/operations.c).
    - Session.v: any sequence of these operations.
    - src/uvfs_signal.cc - Signal.v, run on the driver's own open, ioctl and close.

    ** Conventions

    A computation is a state transformer that may fault, [M S A := S -> option (A * S)]
    below; a fault is an access the C program must not make: through a pointer that is
    not live, or outside an object.  [wp m Q s] says that [m] runs from [s] without a
    fault to a result and a state that satisfy [Q], so that every theorem of this form
    states both that the code returns and what it does.  Error codes are negative
    integers as in the code.  Integers are [Z]; [u16], [u32], [s32], [u64] are the
    conversions the code makes.

    ** What the theorems show

    - For every interleaving with any number of servers and clients that follow the
      protocol: the driver touches no freed memory (with one exception, which is
      exhibited), loses no request, wakes whoever has to be woken, answers everything on
      the last close, and refines the abstract conduit; live serial numbers are distinct.
    - For a request: it round-trips through the bytes; [uvfs_make_request] with one server
      is that server's answer; the reply is the client's own; a client that is answered or
      killed returns.  [uvfsd_read] and [uvfsd_write] return on every branch, with the
      errors of their checks.
    - For every operation: the one request it makes, with its arguments, what it returns,
      and what becomes of the inodes, dentries, pages and super blocks, for every reply of
      the server and every failure of the kernel; and that it gives its transaction back.
      Where an operation trusts the server (the counts in replies to READ, READLINK and
      READDIR) the trust is a named hypothesis, and an example shows what happens
      without.
    - For the whole: the inode cache has one inode per file after any sequence of calls.

    ** Bounds and fuel

    - [uvfs_readdir] has a bound on the number of requests.  [uvfs_readdir_complete]: one
      more than there are entries left is enough; [uvfs_readdir_terminates]: so is any
      number above the positions left, if replies go forward; [uvfs_readdir_stalls]: if
      they do not, no bound is enough, and the code does not return.
    - [drain], the loops of [uvfsd_release], go round as often as the list is long, which
      empties it (lemmas [drain_requests], [drain_replies]).
    - The search for the end of a string goes to the end of the union it lies in.
    - At most [open_max] files are open, so that the use count does not overflow.

    ** Assumptions

    An LP64 little-endian machine with pages of 4096 bytes, and a kernel from 2.6.32 on,
    whose branch of the conditional code is the one modelled ([uvfs_decode_fh] and
    [uvfs_get_dentry] of the older branch, which share code with it, are modelled too).
    A task that has the device open opens it once.  The spin lock excludes; stretches of
    code under it are atomic.  The laws of [VFSLaws] and [FileVFSLaws] are the kernel's
    documented behaviour.

    ** Not modelled

    The slab allocator and the kernel's own functions (parameters); what is only printed
    ([dprintk], [displayFhandle], the texts of the command); the branches for kernels
    before 2.6.32 that differ in the names and signatures of kernel functions; module
    reference counts, which the kernel keeps; licences and build files.  Two operations
    of the file system that run at once are not interleaved with each other: the kernel
    locks the inodes they share; their requests are, in the driver. *)

From stdpp Require Import prelude gmap list strings.
From Stdlib Require Import ZArith Lia.

#[export] Set Warnings "-clear-no-such-hyp".

#[global] Open Scope Z_scope.

(** ** Machine integers

    The module is compiled for an LP64 kernel: [int] and [unsigned] are 32 bits
    wide, [long], [size_t], [pgoff_t] and [loff_t] 64 bits.  An integer is a [Z]
    and every conversion between widths is written out. *)

Definition u16 (z : Z) : Z := z mod 2 ^ 16.
Definition u32 (z : Z) : Z := z mod 2 ^ 32.
Definition u64 (z : Z) : Z := z mod 2 ^ 64.
Definition s32 (z : Z) : Z := (z + 2 ^ 31) mod 2 ^ 32 - 2 ^ 31.
Definition s64 (z : Z) : Z := (z + 2 ^ 63) mod 2 ^ 64 - 2 ^ 63.

Definition int_range (z : Z) : Prop := -2 ^ 31 <= z < 2 ^ 31.
Definition uint_range (z : Z) : Prop := 0 <= z < 2 ^ 32.

(** C's truth value of an integer. *)
Definition truthy (z : Z) : bool := negb (z =? 0).

(** The test of a flag. *)
Lemma truthy_land_bit x n : 0 <= n -> truthy (Z.land x (2 ^ n)) = Z.testbit x n.
Proof.
  intros Hn. unfold truthy. destruct (Z.testbit x n) eqn:E.
  - apply negb_true_iff, Z.eqb_neq. intros H0. apply (f_equal (fun z => Z.testbit z n)) in H0.
    by rewrite Z.land_spec, E, Z.pow2_bits_true, Z.bits_0 in H0.
  - apply negb_false_iff, Z.eqb_eq, Z.bits_inj'. intros i Hi. rewrite Z.land_spec, Z.bits_0.
    destruct (decide (i = n)) as [->|Hne]; [by rewrite E|].
    rewrite Z.pow2_bits_false by lia. apply andb_false_r.
Qed.

(** ** Byte memory

    A block of memory is the function from offsets to the bytes they hold.  The
    bounds of a block are checked by the code that uses it, not by the block. *)

Abbreviation mem := (Z -> Z).

Definition in_range (off len i : Z) : bool := (off <=? i) && (i <? off + len).

Definition byte_of (v i : Z) : Z := (v / 256 ^ i) mod 256.
Definition rd8 (m : mem) (i : Z) : Z := m i mod 256.

(** A little-endian 32-bit store, and the loads of an [unsigned] and an [int]. *)
Definition wr32 (off v : Z) (m : mem) : mem :=
  fun i => if in_range off 4 i then byte_of v (i - off) else m i.
Definition rd32 (off : Z) (m : mem) : Z :=
  rd8 m off + 2 ^ 8 * rd8 m (off + 1) + 2 ^ 16 * rd8 m (off + 2) + 2 ^ 24 * rd8 m (off + 3).
Definition rd32s (off : Z) (m : mem) : Z := s32 (rd32 off m).

(** [memcpy] into a block, and the bytes of a range. *)
Definition wr_bytes (off : Z) (l : list Z) (m : mem) : mem :=
  fun i => if in_range off (Z.of_nat (length l)) i
           then nth (Z.to_nat (i - off)) l 0 else m i.
Definition rd_bytes (off n : Z) (m : mem) : list Z :=
  map (fun k => rd8 m (off + Z.of_nat k)) (seq 0 (Z.to_nat n)).

Definition is_byte (b : Z) : Prop := 0 <= b < 256.

(** Two blocks hold the same bytes in a range. *)
Definition mem_agree (off n : Z) (m m' : mem) : Prop :=
  forall i, off <= i < off + n -> rd8 m i = rd8 m' i.

(** A block holding the given bytes. *)
Definition mem_of (l : list Z) : mem := fun i => nth (Z.to_nat i) l 0.

(** [u |> f |> g] stores first by [f], then by [g]. *)
Declare Scope uvfs_scope.
Delimit Scope uvfs_scope with uvfs.
Notation "u |> f" := (f u) (at level 69, left associativity, only parsing) : uvfs_scope.
#[global] Open Scope uvfs_scope.

(** ** A state monad with memory faults

    [None] is undefined behaviour: an access to freed memory or outside an
    object.  A C function that returns normally is a [Some]. *)

Definition M (S A : Type) : Type := S -> option (A * S).

#[export] Instance M_ret {S} : MRet (M S) := fun A a s => Some (a, s).
#[export] Instance M_bind {S} : MBind (M S) :=
  fun A B f m s => match m s with Some (a, s') => f a s' | None => None end.

Definition fault {S A} : M S A := fun _ => None.
Definition gets {S A} (f : S -> A) : M S A := fun s => Some (f s, s).
Definition modify {S} (f : S -> S) : M S unit := fun s => Some (tt, f s).

Definition whenb {S} (b : bool) (m : M S unit) : M S unit :=
  if b then m else mret tt.

(** Total correctness: the computation does not fault, and its result and final
    state satisfy the postcondition. *)
Definition wp {S A} (m : M S A) (Q : A -> S -> Prop) (s : S) : Prop :=
  match m s with Some (a, s') => Q a s' | None => False end.

(** A computation whose steps all relate the states before and after by [R]. *)
Definition respects {S A} (R : S -> S -> Prop) (m : M S A) : Prop :=
  forall s a s', m s = Some (a, s') -> R s s'.

(** ** Lemmas on integers *)

Lemma u32_range z : uint_range (u32 z).
Proof. apply Z.mod_pos_bound. lia. Qed.

Lemma u32_small z : uint_range z -> u32 z = z.
Proof. apply Z.mod_small. Qed.

Lemma u32_idem z : u32 (u32 z) = u32 z.
Proof. apply u32_small, u32_range. Qed.

Lemma s32_range z : int_range (s32 z).
Proof.
  unfold s32, int_range.
  pose proof (Z.mod_pos_bound (z + 2 ^ 31) (2 ^ 32) ltac:(lia)). lia.
Qed.

Lemma s32_small z : int_range z -> s32 z = z.
Proof. unfold s32, int_range. intros ?. rewrite Z.mod_small; lia. Qed.

Lemma s32_u32 z : s32 (u32 z) = s32 z.
Proof. unfold s32, u32. by rewrite Zplus_mod_idemp_l. Qed.

Lemma u16_range z : 0 <= u16 z < 2 ^ 16.
Proof. apply Z.mod_pos_bound. lia. Qed.

Lemma s64_small z : - 2 ^ 63 <= z < 2 ^ 63 -> s64 z = z.
Proof. unfold s64. intros ?. rewrite Z.mod_small; lia. Qed.

Lemma u64_small z : 0 <= z < 2 ^ 64 -> u64 z = z.
Proof. apply Z.mod_small. Qed.

(** ** Lemmas on blocks *)

Lemma in_range_spec off len i : in_range off len i = true <-> off <= i < off + len.
Proof. unfold in_range. rewrite andb_true_iff, Z.leb_le, Z.ltb_lt. lia. Qed.

Lemma in_range_false off len i : in_range off len i = false <-> i < off \/ off + len <= i.
Proof. unfold in_range. rewrite andb_false_iff, Z.leb_gt, Z.ltb_ge. lia. Qed.

Lemma rd8_byte m i : is_byte (rd8 m i).
Proof. apply Z.mod_pos_bound. lia. Qed.

Lemma rd8_wr32_in off v m k :
  0 <= k < 4 -> rd8 (wr32 off v m) (off + k) = byte_of v k.
Proof.
  intros Hk. unfold rd8, wr32.
  rewrite (proj2 (in_range_spec _ _ _)) by lia.
  unfold byte_of. rewrite Zmod_mod. by replace (off + k - off) with k by lia.
Qed.

Lemma rd8_wr32_out off v m i :
  i < off \/ off + 4 <= i -> rd8 (wr32 off v m) i = rd8 m i.
Proof.
  intros Hi. unfold rd8, wr32. by rewrite (proj2 (in_range_false _ _ _)) by lia.
Qed.

Lemma rd8_wr_bytes_out off l m i :
  i < off \/ off + Z.of_nat (length l) <= i -> rd8 (wr_bytes off l m) i = rd8 m i.
Proof.
  intros Hi. unfold rd8, wr_bytes. by rewrite (proj2 (in_range_false _ _ _)) by lia.
Qed.

Lemma rd8_wr_bytes_in off l m i :
  off <= i < off + Z.of_nat (length l) ->
  rd8 (wr_bytes off l m) i = nth (Z.to_nat (i - off)) l 0 mod 256.
Proof.
  intros Hi. unfold rd8, wr_bytes. by rewrite (proj2 (in_range_spec _ _ _)) by lia.
Qed.

(** The bytes of a 32-bit value determine it. *)
Lemma bytes_of_u32 v :
  byte_of v 0 + 2 ^ 8 * byte_of v 1 + 2 ^ 16 * byte_of v 2 + 2 ^ 24 * byte_of v 3 = u32 v.
Proof.
  unfold byte_of, u32.
  change (256 ^ 0) with 1. change (256 ^ 1) with 256.
  change (256 ^ 2) with (256 * 256). change (256 ^ 3) with (256 * 256 * 256).
  rewrite <- !Z.div_div, Z.div_1_r by lia.
  change (2 ^ 32) with (256 * (256 * (256 * 256))).
  rewrite !(Z.rem_mul_r) by lia. lia.
Qed.

Lemma rd32_wr32 off v m : rd32 off (wr32 off v m) = u32 v.
Proof.
  pose proof (rd8_wr32_in off v m 0 ltac:(lia)) as H0. rewrite Z.add_0_r in H0.
  unfold rd32. rewrite H0, !rd8_wr32_in by lia. apply bytes_of_u32.
Qed.

Lemma rd32s_wr32 off v m : rd32s off (wr32 off v m) = s32 v.
Proof. unfold rd32s. by rewrite rd32_wr32, s32_u32. Qed.

Lemma rd32_agree off m m' : mem_agree off 4 m m' -> rd32 off m = rd32 off m'.
Proof. intros H. unfold rd32. by rewrite !H by lia. Qed.

Lemma rd32_wr32_ne off off' v m :
  off + 4 <= off' \/ off' + 4 <= off -> rd32 off (wr32 off' v m) = rd32 off m.
Proof. intros ?. apply rd32_agree. intros i ?. apply rd8_wr32_out. lia. Qed.

Lemma rd32_wr_bytes_ne off off' l m :
  off + 4 <= off' \/ off' + Z.of_nat (length l) <= off ->
  rd32 off (wr_bytes off' l m) = rd32 off m.
Proof. intros ?. apply rd32_agree. intros i ?. apply rd8_wr_bytes_out. lia. Qed.

Lemma rd32_range off m : uint_range (rd32 off m).
Proof.
  unfold rd32, uint_range.
  pose proof (rd8_byte m off). pose proof (rd8_byte m (off + 1)).
  pose proof (rd8_byte m (off + 2)). pose proof (rd8_byte m (off + 3)).
  unfold is_byte in *. lia.
Qed.

Lemma rd32s_range off m : int_range (rd32s off m).
Proof. apply s32_range. Qed.

Lemma length_rd_bytes off n m : length (rd_bytes off n m) = Z.to_nat n.
Proof. unfold rd_bytes. by rewrite length_map, length_seq. Qed.

Lemma nth_rd_bytes off n m k :
  (k < Z.to_nat n)%nat -> nth k (rd_bytes off n m) 0 = rd8 m (off + Z.of_nat k).
Proof.
  intros Hk. unfold rd_bytes.
  rewrite (nth_indep _ 0 (rd8 m (off + Z.of_nat 0)))
    by (rewrite length_map, length_seq; lia).
  rewrite (map_nth (fun k => rd8 m (off + Z.of_nat k))), seq_nth by lia. done.
Qed.

Lemma rd_bytes_agree off n m m' :
  rd_bytes off n m = rd_bytes off n m' <-> mem_agree off n m m'.
Proof.
  split.
  - intros E i Hi. set (k := Z.to_nat (i - off)).
    pose proof (nth_rd_bytes off n m k ltac:(lia)) as H1.
    pose proof (nth_rd_bytes off n m' k ltac:(lia)) as H2.
    rewrite E in H1. replace (off + Z.of_nat k) with i in * by lia. congruence.
  - intros H. unfold rd_bytes. apply map_ext_in.
    intros k Hk%in_seq. apply H. lia.
Qed.

Lemma rd_bytes_wr_bytes off l m :
  Forall is_byte l -> rd_bytes off (Z.of_nat (length l)) (wr_bytes off l m) = l.
Proof.
  intros Hl. apply nth_ext with 0 0; rewrite length_rd_bytes; [lia|].
  intros k Hk. rewrite nth_rd_bytes, rd8_wr_bytes_in by lia.
  replace (Z.to_nat (off + Z.of_nat k - off)) with k by lia.
  apply Z.mod_small. apply (proj1 (List.Forall_forall is_byte l) Hl), nth_In. lia.
Qed.

Lemma rd8_mem_of n m i : 0 <= i < n -> rd8 (mem_of (rd_bytes 0 n m)) i = rd8 m i.
Proof.
  intros Hi. unfold rd8 at 1, mem_of. rewrite nth_rd_bytes by lia.
  replace (0 + Z.of_nat (Z.to_nat i)) with i by lia. apply Zmod_mod.
Qed.

Lemma mem_of_agree n m : mem_agree 0 n (mem_of (rd_bytes 0 n m)) m.
Proof. intros i Hi. apply rd8_mem_of. lia. Qed.

Lemma rd_bytes_wr32_ne off n off' v m :
  off + n <= off' \/ off' + 4 <= off -> rd_bytes off n (wr32 off' v m) = rd_bytes off n m.
Proof. intros ?. apply rd_bytes_agree. intros i ?. apply rd8_wr32_out. lia. Qed.

Lemma rd_bytes_wr_bytes_ne off n off' l m :
  off + n <= off' \/ off' + Z.of_nat (length l) <= off ->
  rd_bytes off n (wr_bytes off' l m) = rd_bytes off n m.
Proof. intros ?. apply rd_bytes_agree. intros i ?. apply rd8_wr_bytes_out. lia. Qed.

Lemma mem_agree_sub off n off' n' m m' :
  mem_agree off n m m' -> off <= off' -> off' + n' <= off + n -> mem_agree off' n' m m'.
Proof. intros H ?? i ?. apply H. lia. Qed.

Lemma mem_agree_wr32 off n off' v m m' :
  mem_agree off n m m' -> mem_agree off n (wr32 off' v m) (wr32 off' v m').
Proof.
  intros H i Hi. unfold rd8, wr32. destruct (in_range off' 4 i); [done|]. by apply H.
Qed.

Lemma mem_agree_wr_bytes off n off' l m m' :
  mem_agree off n m m' -> mem_agree off n (wr_bytes off' l m) (wr_bytes off' l m').
Proof.
  intros H i Hi. unfold rd8, wr_bytes.
  destruct (in_range off' _ i); [done|]. by apply H.
Qed.

#[export] Instance mem_agree_equiv off n : Equivalence (mem_agree off n).
Proof.
  split; [intros m i ?; done | intros m m' H i ?; symmetry; by apply H |].
  intros m1 m2 m3 H12 H23 i ?. by rewrite H12, H23 by lia.
Qed.

#[export] Instance rd_bytes_proper off n : Proper (mem_agree off n ==> eq) (rd_bytes off n).
Proof. intros m m' H. by apply rd_bytes_agree. Qed.

(** ** Lemmas on the monad *)

Section wp_lemmas.
Context {S A B : Type}.
Implicit Types (m : M S A) (s : S).

Lemma wp_ret (a : A) (Q : A -> S -> Prop) s : Q a s -> wp (mret a) Q s.
Proof. done. Qed.

Lemma wp_bind m (f : A -> M S B) (Q : B -> S -> Prop) s :
  wp m (fun a s' => wp (f a) Q s') s -> wp (m ≫= f) Q s.
Proof. unfold wp, mbind, M_bind. by destruct (m s) as [[a s']|]. Qed.

Lemma wp_mono m (Q Q' : A -> S -> Prop) s :
  wp m Q s -> (forall a s', Q a s' -> Q' a s') -> wp m Q' s.
Proof. unfold wp. destruct (m s) as [[a s']|]; eauto. Qed.

Lemma wp_elim m (Q : A -> S -> Prop) s :
  wp m Q s -> exists a s', m s = Some (a, s') /\ Q a s'.
Proof. unfold wp. destruct (m s) as [[a s']|]; [eauto|done]. Qed.

Lemma wp_intro m (Q : A -> S -> Prop) s a s' :
  m s = Some (a, s') -> Q a s' -> wp m Q s.
Proof. unfold wp. by intros ->. Qed.

Lemma wp_gets (f : S -> A) (Q : A -> S -> Prop) s : Q (f s) s -> wp (gets f) Q s.
Proof. done. Qed.
End wp_lemmas.

Lemma wp_modify {S} (f : S -> S) (Q : unit -> S -> Prop) s :
  Q tt (f s) -> wp (modify f) Q s.
Proof. done. Qed.

Section respects_lemmas.
Context {S : Type} (R : S -> S -> Prop) `{!PreOrder R}.

Lemma respects_ret {A} (a : A) : respects R (mret a).
Proof. intros s a' s' [= _ <-]. reflexivity. Qed.

Lemma respects_gets {A} (f : S -> A) : respects R (gets f).
Proof. intros s a' s' [= _ <-]. reflexivity. Qed.

Lemma respects_fault {A} : respects R (fault : M S A).
Proof. by intros s a s'. Qed.

Lemma respects_modify (f : S -> S) : (forall s, R s (f s)) -> respects R (modify f).
Proof. intros H s a s' [= _ <-]. apply H. Qed.

Lemma respects_bind {A B} (m : M S A) (f : A -> M S B) :
  respects R m -> (forall a, respects R (f a)) -> respects R (m ≫= f).
Proof.
  intros Hm Hf s b s'. unfold mbind, M_bind.
  destruct (m s) as [[a s1]|] eqn:E; [|done]. intros E'.
  transitivity s1; [by eapply Hm|by eapply Hf].
Qed.

Lemma respects_whenb (b : bool) (m : M S unit) : respects R m -> respects R (whenb b m).
Proof. destruct b; [done|]. intros _. apply respects_ret. Qed.
End respects_lemmas.

(** ** Automation *)

Create HintDb uvfs.
#[export] Hint Resolve u32_range s32_range rd32_range rd32s_range rd8_byte : uvfs.
#[export] Hint Resolve mem_agree_wr32 mem_agree_wr_bytes : uvfs.

Create HintDb respects.
#[export] Hint Resolve respects_ret respects_gets respects_fault respects_whenb : respects.

(** [respects] goes through the instructions of a computation. *)
Ltac respects_go :=
  repeat first
  [ solve [eauto with respects typeclass_instances]
  | apply respects_bind; [typeclasses eauto| |intros ?]
  | apply respects_whenb; [typeclasses eauto|]
  | match goal with
    | |- respects _ (match ?x with _ => _ end) => destruct x
    | |- respects _ (if ?x then _ else _) => destruct x
    end ].

(** [wp_step] runs one instruction of a computation. *)
Ltac wp_step :=
  first [ apply wp_bind | apply wp_ret | apply wp_gets | apply wp_modify ]; cbv beta.

(** [inv_some] solves equations between results of computations. *)
Ltac inv_some :=
  repeat match goal with
  | H : Some _ = Some _ |- _ => injection H as H; subst
  | H : (_, _) = (_, _) |- _ => injection H as H; subst
  | H : None = Some _ |- _ => discriminate H
  | H : Some _ = None |- _ => discriminate H
  end.
