(* ===== verification/Protocol.v ===== *)
(** * The kernel to user-space protocol (protocol.h)

    Structure declarations are data: a [ctype] lists the members in order, and
    [sizeof] and [offsetof] compute the layout the C compiler gives them.  A
    member is then read and written at its offset in the union [u] of a
    transaction, so that requests and replies overlay each other as they do in
    the program.  *)

From stdpp Require Import prelude gmap list strings.
From Stdlib Require Import ZArith Lia.
From S2P Require Import Prelude.

Open Scope string_scope.
Open Scope list_scope.
Open Scope Z_scope.

(** ** C types and their layout *)

Inductive ctype : Type :=
| CInt
| CUnsigned
| CChars (n : Z)
| CStruct (members : list (string * ctype))
| CUnion (members : list (string * ctype)).

Definition align_up (off a : Z) : Z := (off + a - 1) / a * a.

Fixpoint alignof (t : ctype) : Z :=
  match t with
  | CInt | CUnsigned => 4
  | CChars _ => 1
  | CStruct ms | CUnion ms =>
      (fix go (l : list (string * ctype)) : Z :=
         match l with [] => 1 | (_, t') :: l' => Z.max (alignof t') (go l') end) ms
  end.

Fixpoint sizeof (t : ctype) : Z :=
  match t with
  | CInt | CUnsigned => 4
  | CChars n => n
  | CStruct ms =>
      align_up
        ((fix go (l : list (string * ctype)) (off : Z) : Z :=
            match l with
            | [] => off
            | (_, t') :: l' => go l' (align_up off (alignof t') + sizeof t')
            end) ms 0)
        (alignof t)
  | CUnion ms =>
      align_up
        ((fix go (l : list (string * ctype)) : Z :=
            match l with [] => 0 | (_, t') :: l' => Z.max (sizeof t') (go l') end) ms)
        (alignof t)
  end.

Fixpoint offset_in (l : list (string * ctype)) (f : string) (off : Z) : option Z :=
  match l with
  | [] => None
  | (g, t) :: l' =>
      let here := align_up off (alignof t) in
      if bool_decide (f = g) then Some here else offset_in l' f (here + sizeof t)
  end.

Definition members (t : ctype) : list (string * ctype) :=
  match t with CStruct ms | CUnion ms => ms | _ => [] end.

(** A member that the structure does not have is at no valid offset. *)
Definition offsetof (t : ctype) (f : string) : Z :=
  match t with
  | CStruct ms => default (-1) (offset_in ms f 0)
  | CUnion _ => 0
  | _ => -1
  end.

(** ** Constants *)

Definition PAGE_CACHE_SIZE : Z := 4096.
Definition UVFS_MAX_NAMELEN : Z := 256.
Definition UVFS_MAX_PATHLEN : Z := 1024.
Definition UVFS_BUFFSIZE : Z := 2048.

Definition ATTR_MODE : Z := 1.
Definition ATTR_UID : Z := 2.
Definition ATTR_GID : Z := 4.
Definition ATTR_SIZE : Z := 8.
Definition ATTR_ATIME : Z := 16.
Definition ATTR_MTIME : Z := 32.
Definition ATTR_CTIME : Z := 64.

Definition UVFS_IOCTL_SHUTDOWN : Z := 42.
Definition UVFS_IOCTL_STATUS : Z := 43.
Definition UVFS_IOCTL_USE_COUNT : Z := 44.
Definition UVFS_IOCTL_MOUNT : Z := 45.

Definition UVFS_WRITE : Z := 1.
Definition UVFS_READ : Z := 2.
Definition UVFS_CREATE : Z := 3.
Definition UVFS_LOOKUP : Z := 4.
Definition UVFS_UNLINK : Z := 5.
Definition UVFS_SYMLINK : Z := 6.
Definition UVFS_MKDIR : Z := 7.
Definition UVFS_RMDIR : Z := 8.
Definition UVFS_RENAME : Z := 9.
Definition UVFS_READDIR : Z := 10.
Definition UVFS_SETATTR : Z := 11.
Definition UVFS_GETATTR : Z := 12.
Definition UVFS_STATFS : Z := 13.
Definition UVFS_READ_SUPER : Z := 14.
Definition UVFS_READLINK : Z := 15.
Definition UVFS_SHUTDOWN : Z := 16.

(** Error numbers of the kernel (asm-generic/errno.h, linux/errno.h). *)
Definition ENOENT : Z := 2.
Definition EIO : Z := 5.
Definition ENOMEM : Z := 12.
Definition EACCES : Z := 13.
Definition EFAULT : Z := 14.
Definition EINVAL : Z := 22.
Definition EROFS : Z := 30.
Definition ENAMETOOLONG : Z := 36.
Definition ENOTEMPTY : Z := 39.
Definition EREMOTE : Z := 66.
Definition ECOMM : Z := 70.
Definition ESTALE : Z := 116.
Definition ERESTARTSYS : Z := 512.

(** ** Component structures *)

Definition vfs_fspid_s : ctype :=
  CStruct [("fs_sbxid", CUnsigned); ("fs_sfuid", CUnsigned)].

Definition vfs_narid_s : ctype :=
  CStruct [("na_ipaddr", CUnsigned); ("na_aruid", CUnsigned)].

Definition uvfs_fhandle_s : ctype :=
  CStruct [("no_mntid", CUnsigned); ("no_flags", CChars 4); ("no_narid", vfs_narid_s);
           ("no_sbxid", CUnsigned); ("no_fspid", vfs_fspid_s); ("no_blank2", CUnsigned)].

Definition uvfs_timespec_s : ctype :=
  CStruct [("tv_sec", CUnsigned); ("tv_nsec", CUnsigned)].

Definition uvfs_attr_s : ctype :=
  CStruct [("i_mode", CUnsigned); ("i_nlink", CUnsigned); ("i_uid", CUnsigned);
           ("i_gid", CUnsigned); ("i_size", CUnsigned); ("i_atime", uvfs_timespec_s);
           ("i_mtime", uvfs_timespec_s); ("i_ctime", uvfs_timespec_s);
           ("i_blksize", CUnsigned); ("i_blocks", CUnsigned); ("devno", CInt)].

(** ** Requests *)

Definition uvfs_generic_req_s : ctype :=
  CStruct [("type", CInt); ("serial", CInt); ("size", CInt)].

Definition uvfs_file_write_req_s : ctype :=
  CStruct [("type", CInt); ("serial", CInt); ("size", CInt);
           ("uid", CUnsigned); ("gid", CUnsigned); ("fh", uvfs_fhandle_s);
           ("count", CUnsigned); ("offset", CUnsigned); ("buff", CChars PAGE_CACHE_SIZE)].

Definition uvfs_file_read_req_s : ctype :=
  CStruct [("type", CInt); ("serial", CInt); ("size", CInt);
           ("uid", CUnsigned); ("gid", CUnsigned); ("fh", uvfs_fhandle_s);
           ("count", CInt); ("offset", CInt)].

Definition uvfs_create_req_s : ctype :=
  CStruct [("type", CInt); ("serial", CInt); ("size", CInt);
           ("uid", CUnsigned); ("gid", CUnsigned); ("fh", uvfs_fhandle_s);
           ("mode", CInt); ("namelen", CUnsigned); ("name", CChars UVFS_MAX_NAMELEN)].

Definition uvfs_lookup_req_s : ctype :=
  CStruct [("type", CInt); ("serial", CInt); ("size", CInt);
           ("uid", CUnsigned); ("gid", CUnsigned); ("fh", uvfs_fhandle_s);
           ("namelen", CInt); ("name", CChars UVFS_MAX_NAMELEN)].

Definition uvfs_unlink_req_s : ctype :=
  CStruct [("type", CInt); ("serial", CInt); ("size", CInt);
           ("uid", CUnsigned); ("gid", CUnsigned); ("fh", uvfs_fhandle_s);
           ("namelen", CInt); ("name", CChars UVFS_MAX_NAMELEN)].

Definition uvfs_symlink_req_s : ctype :=
  CStruct [("type", CInt); ("serial", CInt); ("size", CInt);
           ("uid", CUnsigned); ("gid", CUnsigned); ("fh", uvfs_fhandle_s);
           ("name", CChars UVFS_MAX_NAMELEN); ("namelen", CInt);
           ("sympath", CChars UVFS_MAX_PATHLEN); ("symlen", CInt)].

Definition uvfs_mkdir_req_s : ctype :=
  CStruct [("type", CInt); ("serial", CInt); ("size", CInt);
           ("uid", CUnsigned); ("gid", CUnsigned); ("mode", CInt); ("fh", uvfs_fhandle_s);
           ("namelen", CInt); ("name", CChars UVFS_MAX_NAMELEN)].

Definition uvfs_rmdir_req_s : ctype :=
  CStruct [("type", CInt); ("serial", CInt); ("size", CInt);
           ("uid", CUnsigned); ("gid", CUnsigned); ("fh", uvfs_fhandle_s);
           ("namelen", CInt); ("name", CChars UVFS_MAX_NAMELEN)].

Definition uvfs_rename_req_s : ctype :=
  CStruct [("type", CInt); ("serial", CInt); ("size", CInt);
           ("uid", CUnsigned); ("gid", CUnsigned); ("fh_old", uvfs_fhandle_s);
           ("old_name", CChars UVFS_MAX_NAMELEN); ("old_namelen", CInt);
           ("fh_new", uvfs_fhandle_s);
           ("new_name", CChars UVFS_MAX_NAMELEN); ("new_namelen", CInt)].

Definition uvfs_readdir_req_s : ctype :=
  CStruct [("type", CInt); ("serial", CInt); ("size", CInt);
           ("uid", CUnsigned); ("gid", CUnsigned); ("fh", uvfs_fhandle_s);
           ("entry_no", CInt)].

Definition uvfs_setattr_req_s : ctype :=
  CStruct [("type", CInt); ("serial", CInt); ("size", CInt);
           ("uid", CUnsigned); ("gid", CUnsigned); ("fh", uvfs_fhandle_s);
           ("ia_valid", CUnsigned); ("ia_uid", CUnsigned); ("ia_gid", CUnsigned);
           ("ia_size", CUnsigned); ("ia_atime", uvfs_timespec_s);
           ("ia_mtime", uvfs_timespec_s); ("ia_ctime", uvfs_timespec_s);
           ("ia_mode", CUnsigned)].

Definition uvfs_getattr_req_s : ctype :=
  CStruct [("type", CInt); ("serial", CInt); ("size", CInt);
           ("uid", CUnsigned); ("gid", CUnsigned); ("fh", uvfs_fhandle_s)].

Definition uvfs_statfs_req_s : ctype :=
  CStruct [("type", CInt); ("serial", CInt); ("size", CInt); ("fh", uvfs_fhandle_s)].

Definition uvfs_read_super_req_s : ctype :=
  CStruct [("type", CInt); ("serial", CInt); ("size", CInt);
           ("uid", CUnsigned); ("gid", CUnsigned); ("arglength", CInt);
           ("buff", CChars UVFS_MAX_PATHLEN)].

Definition uvfs_readlink_req_s : ctype :=
  CStruct [("type", CInt); ("serial", CInt); ("size", CInt);
           ("uid", CUnsigned); ("gid", CUnsigned); ("fh", uvfs_fhandle_s)].

Definition uvfs_shutdown_req_s : ctype :=
  CStruct [("type", CInt); ("serial", CInt); ("size", CInt)].

Definition uvfs_request_u : ctype :=
  CUnion [("generic", uvfs_generic_req_s); ("file_write", uvfs_file_write_req_s);
          ("file_read", uvfs_file_read_req_s); ("create", uvfs_create_req_s);
          ("lookup", uvfs_lookup_req_s); ("unlink", uvfs_unlink_req_s);
          ("symlink", uvfs_symlink_req_s); ("mkdir", uvfs_mkdir_req_s);
          ("rmdir", uvfs_rmdir_req_s); ("rename", uvfs_rename_req_s);
          ("readdir", uvfs_readdir_req_s); ("setattr", uvfs_setattr_req_s);
          ("getattr", uvfs_getattr_req_s); ("statfs", uvfs_statfs_req_s);
          ("read_super", uvfs_read_super_req_s); ("readlink", uvfs_readlink_req_s);
          ("shutdown", uvfs_shutdown_req_s)].

(** ** Replies *)

Definition uvfs_generic_rep_s : ctype :=
  CStruct [("type", CInt); ("serial", CInt); ("size", CInt); ("error", CInt)].

Definition uvfs_file_write_rep_s : ctype :=
  CStruct [("type", CInt); ("serial", CInt); ("size", CInt); ("error", CInt);
           ("bytes_written", CUnsigned)].

Definition uvfs_file_read_rep_s : ctype :=
  CStruct [("type", CInt); ("serial", CInt); ("size", CInt); ("error", CInt);
           ("bytes_read", CInt); ("buff", CChars PAGE_CACHE_SIZE)].

Definition uvfs_create_rep_s : ctype :=
  CStruct [("type", CInt); ("serial", CInt); ("size", CInt); ("error", CInt);
           ("fh", uvfs_fhandle_s); ("a", uvfs_attr_s)].

Definition uvfs_lookup_rep_s : ctype :=
  CStruct [("type", CInt); ("serial", CInt); ("size", CInt); ("error", CInt);
           ("fh", uvfs_fhandle_s); ("a", uvfs_attr_s)].

Definition uvfs_unlink_rep_s : ctype :=
  CStruct [("type", CInt); ("serial", CInt); ("size", CInt); ("error", CInt)].

Definition uvfs_symlink_rep_s : ctype :=
  CStruct [("type", CInt); ("serial", CInt); ("size", CInt); ("error", CInt);
           ("fh", uvfs_fhandle_s); ("a", uvfs_attr_s)].

Definition uvfs_mkdir_rep_s : ctype :=
  CStruct [("type", CInt); ("serial", CInt); ("size", CInt); ("error", CInt);
           ("fh", uvfs_fhandle_s); ("a", uvfs_attr_s)].

Definition uvfs_rmdir_rep_s : ctype :=
  CStruct [("type", CInt); ("serial", CInt); ("size", CInt); ("error", CInt)].

Definition uvfs_rename_rep_s : ctype :=
  CStruct [("type", CInt); ("serial", CInt); ("size", CInt); ("error", CInt)].

Definition uvfs_dirent_s : ctype :=
  CStruct [("length", CInt); ("ino", CInt); ("index", CInt)].

Definition uvfs_readdir_rep_s : ctype :=
  CStruct [("type", CInt); ("serial", CInt); ("size", CInt); ("error", CInt);
           ("count", CInt); ("data", CChars UVFS_BUFFSIZE)].

Definition uvfs_setattr_rep_s : ctype :=
  CStruct [("type", CInt); ("serial", CInt); ("size", CInt); ("error", CInt)].

Definition uvfs_getattr_rep_s : ctype :=
  CStruct [("type", CInt); ("serial", CInt); ("size", CInt); ("error", CInt);
           ("a", uvfs_attr_s)].

Definition uvfs_statfs_rep_s : ctype :=
  CStruct [("type", CInt); ("serial", CInt); ("size", CInt); ("error", CInt);
           ("f_type", CInt); ("f_bsize", CInt); ("f_blocks", CInt); ("f_bfree", CInt);
           ("f_bavail", CInt); ("f_files", CInt); ("f_ffree", CInt); ("f_namelen", CInt)].

Definition uvfs_read_super_rep_s : ctype :=
  CStruct [("type", CInt); ("serial", CInt); ("size", CInt); ("error", CInt);
           ("s_blocksize", CUnsigned); ("s_blocksize_bits", CUnsigned);
           ("s_magic", CUnsigned); ("fh", uvfs_fhandle_s); ("a", uvfs_attr_s)].

Definition uvfs_readlink_rep_s : ctype :=
  CStruct [("type", CInt); ("serial", CInt); ("size", CInt); ("error", CInt);
           ("len", CInt); ("buff", CChars UVFS_MAX_PATHLEN)].

Definition uvfs_shutdown_rep_s : ctype :=
  CStruct [("type", CInt); ("serial", CInt); ("size", CInt); ("error", CInt)].

Definition uvfs_reply_u : ctype :=
  CUnion [("generic", uvfs_generic_rep_s); ("file_write", uvfs_file_write_rep_s);
          ("file_read", uvfs_file_read_rep_s); ("create", uvfs_create_rep_s);
          ("lookup", uvfs_lookup_rep_s); ("unlink", uvfs_unlink_rep_s);
          ("symlink", uvfs_symlink_rep_s); ("mkdir", uvfs_mkdir_rep_s);
          ("rmdir", uvfs_rmdir_rep_s); ("rename", uvfs_rename_rep_s);
          ("readdir", uvfs_readdir_rep_s); ("setattr", uvfs_setattr_rep_s);
          ("getattr", uvfs_getattr_rep_s); ("statfs", uvfs_statfs_rep_s);
          ("read_super", uvfs_read_super_rep_s); ("readlink", uvfs_readlink_rep_s);
          ("shutdown", uvfs_shutdown_rep_s)].

(** The anonymous union [u] of a transaction (uvfs.h). *)
Definition transaction_u : ctype :=
  CUnion [("request", uvfs_request_u); ("reply", uvfs_reply_u)].

(** ** Values of the component structures

    [no_flags] is four characters; it is only ever copied, and is kept as the
    32-bit word they form. *)

Record fhandle := FHandle {
  no_mntid : Z; no_flags : Z; na_ipaddr : Z; na_aruid : Z;
  no_sbxid : Z; fs_sbxid : Z; fs_sfuid : Z; no_blank2 : Z }.

Record attr := Attr {
  a_mode : Z; a_nlink : Z; a_uid : Z; a_gid : Z; a_size : Z;
  a_atime_sec : Z; a_atime_nsec : Z; a_mtime_sec : Z; a_mtime_nsec : Z;
  a_ctime_sec : Z; a_ctime_nsec : Z; a_blksize : Z; a_blocks : Z; a_devno : Z }.

Definition fhandle_wf (h : fhandle) : Prop :=
  uint_range (no_mntid h) /\ uint_range (no_flags h) /\ uint_range (na_ipaddr h) /\
  uint_range (na_aruid h) /\ uint_range (no_sbxid h) /\ uint_range (fs_sbxid h) /\
  uint_range (fs_sfuid h) /\ uint_range (no_blank2 h).

Definition attr_wf (a : attr) : Prop :=
  uint_range (a_mode a) /\ uint_range (a_nlink a) /\ uint_range (a_uid a) /\
  uint_range (a_gid a) /\ uint_range (a_size a) /\ uint_range (a_atime_sec a) /\
  uint_range (a_atime_nsec a) /\ uint_range (a_mtime_sec a) /\
  uint_range (a_mtime_nsec a) /\ uint_range (a_ctime_sec a) /\
  uint_range (a_ctime_nsec a) /\ uint_range (a_blksize a) /\ uint_range (a_blocks a) /\
  int_range (a_devno a).

(** ** Member access *)

Definition set_int (t : ctype) (f : string) (v : Z) (u : mem) : mem := wr32 (offsetof t f) v u.
Definition get_int (t : ctype) (f : string) (u : mem) : Z := rd32s (offsetof t f) u.
Definition get_uint (t : ctype) (f : string) (u : mem) : Z := rd32 (offsetof t f) u.

(** [memcpy(request->f, l, length l)]. *)
Definition set_chars (t : ctype) (f : string) (l : list Z) (u : mem) : mem :=
  wr_bytes (offsetof t f) l u.

Definition fh_off (f : string) : Z := offsetof uvfs_fhandle_s f.
Definition narid_off (f : string) : Z := fh_off "no_narid" + offsetof vfs_narid_s f.
Definition fspid_off (f : string) : Z := fh_off "no_fspid" + offsetof vfs_fspid_s f.

(** Structure assignment of a file handle at offset [off], and its value there. *)
Definition put_fh (off : Z) (h : fhandle) (u : mem) : mem :=
  wr32 (off + fh_off "no_mntid") (no_mntid h)
  (wr32 (off + fh_off "no_flags") (no_flags h)
  (wr32 (off + narid_off "na_ipaddr") (na_ipaddr h)
  (wr32 (off + narid_off "na_aruid") (na_aruid h)
  (wr32 (off + fh_off "no_sbxid") (no_sbxid h)
  (wr32 (off + fspid_off "fs_sbxid") (fs_sbxid h)
  (wr32 (off + fspid_off "fs_sfuid") (fs_sfuid h)
  (wr32 (off + fh_off "no_blank2") (no_blank2 h) u))))))).

Definition fh_at (off : Z) (u : mem) : fhandle :=
  FHandle (rd32 (off + fh_off "no_mntid") u) (rd32 (off + fh_off "no_flags") u)
    (rd32 (off + narid_off "na_ipaddr") u) (rd32 (off + narid_off "na_aruid") u)
    (rd32 (off + fh_off "no_sbxid") u) (rd32 (off + fspid_off "fs_sbxid") u)
    (rd32 (off + fspid_off "fs_sfuid") u) (rd32 (off + fh_off "no_blank2") u).

Definition set_fh (t : ctype) (f : string) (h : fhandle) (u : mem) : mem :=
  put_fh (offsetof t f) h u.
Definition get_fh (t : ctype) (f : string) (u : mem) : fhandle := fh_at (offsetof t f) u.

Definition at_off (f : string) : Z := offsetof uvfs_attr_s f.
Definition ts_sec (f : string) : Z := at_off f + offsetof uvfs_timespec_s "tv_sec".
Definition ts_nsec (f : string) : Z := at_off f + offsetof uvfs_timespec_s "tv_nsec".

Definition put_attr (off : Z) (a : attr) (u : mem) : mem :=
  wr32 (off + at_off "i_mode") (a_mode a)
  (wr32 (off + at_off "i_nlink") (a_nlink a)
  (wr32 (off + at_off "i_uid") (a_uid a)
  (wr32 (off + at_off "i_gid") (a_gid a)
  (wr32 (off + at_off "i_size") (a_size a)
  (wr32 (off + ts_sec "i_atime") (a_atime_sec a)
  (wr32 (off + ts_nsec "i_atime") (a_atime_nsec a)
  (wr32 (off + ts_sec "i_mtime") (a_mtime_sec a)
  (wr32 (off + ts_nsec "i_mtime") (a_mtime_nsec a)
  (wr32 (off + ts_sec "i_ctime") (a_ctime_sec a)
  (wr32 (off + ts_nsec "i_ctime") (a_ctime_nsec a)
  (wr32 (off + at_off "i_blksize") (a_blksize a)
  (wr32 (off + at_off "i_blocks") (a_blocks a)
  (wr32 (off + at_off "devno") (a_devno a) u))))))))))))).

Definition attr_at (off : Z) (u : mem) : attr :=
  Attr (rd32 (off + at_off "i_mode") u) (rd32 (off + at_off "i_nlink") u)
    (rd32 (off + at_off "i_uid") u) (rd32 (off + at_off "i_gid") u)
    (rd32 (off + at_off "i_size") u)
    (rd32 (off + ts_sec "i_atime") u) (rd32 (off + ts_nsec "i_atime") u)
    (rd32 (off + ts_sec "i_mtime") u) (rd32 (off + ts_nsec "i_mtime") u)
    (rd32 (off + ts_sec "i_ctime") u) (rd32 (off + ts_nsec "i_ctime") u)
    (rd32 (off + at_off "i_blksize") u) (rd32 (off + at_off "i_blocks") u)
    (rd32s (off + at_off "devno") u).

Definition get_attr (t : ctype) (f : string) (u : mem) : attr := attr_at (offsetof t f) u.
Definition set_attr (t : ctype) (f : string) (a : attr) (u : mem) : mem :=
  put_attr (offsetof t f) a u.

(** ** Automation *)

#[global] Arguments offsetof : simpl never.
#[global] Arguments sizeof : simpl never.

(** [layout] computes every offset and size in sight. *)
Ltac layout :=
  unfold set_int, get_int, get_uint, set_chars, set_fh, get_fh, set_attr, get_attr,
    put_fh, fh_at, put_attr, attr_at, ts_sec, ts_nsec, at_off, narid_off, fspid_off,
    fh_off in *;
  repeat match goal with
  | |- context [offsetof ?t ?f] =>
      let v := eval vm_compute in (offsetof t f) in change (offsetof t f) with v
  | |- context [sizeof ?t] =>
      let v := eval vm_compute in (sizeof t) in change (sizeof t) with v
  end.

(** [mem_simpl] reads through stores, after [layout]. *)
Ltac mem_simpl :=
  repeat first
  [ rewrite rd32_wr32 | rewrite rd32s_wr32
  | rewrite rd32_wr32_ne by lia
  | unfold rd32s; rewrite rd32_wr32_ne by lia; fold (rd32s) ].

(** ** Lemmas *)

Lemma fh_at_put_fh off h u : fhandle_wf h -> fh_at off (put_fh off h u) = h.
Proof.
  intros (?&?&?&?&?&?&?&?). destruct h. layout. unfold fhandle_wf in *. cbn in *.
  f_equal; (repeat rewrite rd32_wr32_ne by lia); rewrite rd32_wr32; by apply u32_small.
Qed.

Lemma fh_at_wf off u : fhandle_wf (fh_at off u).
Proof. repeat split; cbn; apply rd32_range. Qed.

Lemma attr_at_put_attr off a u : attr_wf a -> attr_at off (put_attr off a u) = a.
Proof.
  intros (?&?&?&?&?&?&?&?&?&?&?&?&?&?). destruct a. layout. cbn in *.
  f_equal; unfold rd32s; (repeat rewrite rd32_wr32_ne by lia); rewrite rd32_wr32;
    rewrite ?s32_u32; first [by apply u32_small | by apply s32_small].
Qed.

Lemma attr_at_wf off u : attr_wf (attr_at off u).
Proof. repeat split; cbn; first [apply rd32_range | apply rd32s_range]. Qed.
