(* ===== verification/Driver.v ===== *)
(** * The driver: conduit from kernel to user space (driver.c, uvfs.h)

    The state of the driver is its static variables and the heap of live
    transactions.  Every stretch of code that holds [Uvfs_lock] is one
    computation; so is every copy made outside the lock, and every other access
    to a transaction.  DriverSteps.v interleaves them. *)

From stdpp Require Import prelude gmap list strings.
From Stdlib Require Import ZArith Lia.
From S2P Require Import Prelude Protocol.

Open Scope string_scope.
Open Scope list_scope.
Open Scope Z_scope.

(** ** State *)

Abbreviation ptr := nat.
Abbreviation task := nat.

(** [struct _uvfs_transaction_s].  The list node is represented by the pointer's
    place in [Uvfs_requests] or [Uvfs_replies].  Only the task that allocated a
    transaction waits on its [fs_queue]: [t_asleep] says that it does and has not
    been woken. *)
Record transaction := Transaction {
  t_u : mem;
  t_serial : Z;
  t_in_use : bool;
  t_abort : bool;
  t_answered : bool;
  t_asleep : bool }.

(** The static variables.  [Uvfs_driver_queue] lists the tasks on the wait queue
    in order, each with whether it has been woken. *)
Record driver := Driver {
  uvfs_use_count : Z;
  ShuttingDown : bool;
  Serial_number : Z;
  Uvfs_requests : list ptr;
  Uvfs_replies : list ptr;
  Uvfs_driver_queue : list (task * bool);
  heap : gmap ptr transaction }.

(** The values of the static variables when the module is loaded. *)
Definition driver_init : driver := Driver 0 false 0 [] [] [] ∅.

Definition set_use_count (n : Z) (d : driver) : driver :=
  Driver n (ShuttingDown d) (Serial_number d) (Uvfs_requests d) (Uvfs_replies d)
    (Uvfs_driver_queue d) (heap d).
Definition set_ShuttingDown (b : bool) (d : driver) : driver :=
  Driver (uvfs_use_count d) b (Serial_number d) (Uvfs_requests d) (Uvfs_replies d)
    (Uvfs_driver_queue d) (heap d).
Definition set_Serial_number (n : Z) (d : driver) : driver :=
  Driver (uvfs_use_count d) (ShuttingDown d) n (Uvfs_requests d) (Uvfs_replies d)
    (Uvfs_driver_queue d) (heap d).
Definition set_lists (rq rp : list ptr) (d : driver) : driver :=
  Driver (uvfs_use_count d) (ShuttingDown d) (Serial_number d) rq rp
    (Uvfs_driver_queue d) (heap d).
Definition set_queue (q : list (task * bool)) (d : driver) : driver :=
  Driver (uvfs_use_count d) (ShuttingDown d) (Serial_number d) (Uvfs_requests d)
    (Uvfs_replies d) q (heap d).
Definition set_heap (h : gmap ptr transaction) (d : driver) : driver :=
  Driver (uvfs_use_count d) (ShuttingDown d) (Serial_number d) (Uvfs_requests d)
    (Uvfs_replies d) (Uvfs_driver_queue d) h.

Definition with_u (f : mem -> mem) (t : transaction) : transaction :=
  Transaction (f (t_u t)) (t_serial t) (t_in_use t) (t_abort t) (t_answered t) (t_asleep t).
Definition with_in_use (b : bool) (t : transaction) : transaction :=
  Transaction (t_u t) (t_serial t) b (t_abort t) (t_answered t) (t_asleep t).
Definition with_abort (b : bool) (t : transaction) : transaction :=
  Transaction (t_u t) (t_serial t) (t_in_use t) b (t_answered t) (t_asleep t).
Definition with_answered (b : bool) (t : transaction) : transaction :=
  Transaction (t_u t) (t_serial t) (t_in_use t) (t_abort t) b (t_asleep t).
Definition with_asleep (b : bool) (t : transaction) : transaction :=
  Transaction (t_u t) (t_serial t) (t_in_use t) (t_abort t) (t_answered t) b.

(** ** Memory, lists and wait queues *)

(** Every access through a transaction pointer faults unless it is live. *)
Definition get_trans (p : ptr) : M driver transaction :=
  fun d => match heap d !! p with Some t => Some (t, d) | None => None end.

Definition upd_trans (p : ptr) (f : transaction -> transaction) : M driver unit :=
  fun d => match heap d !! p with
           | Some t => Some (tt, set_heap (<[p := f t]> (heap d)) d)
           | None => None
           end.

Definition remove_ptr (p : ptr) (l : list ptr) : list ptr := filter (fun q => q <> p) l.

(** [list_del_init(&trans->list)]: off whichever list the node is on, if any. *)
Definition list_del_init (p : ptr) : M driver unit :=
  _ ← get_trans p;
  modify (fun d => set_lists (remove_ptr p (Uvfs_requests d))
                             (remove_ptr p (Uvfs_replies d)) d).

Definition list_add_tail_requests (p : ptr) : M driver unit :=
  _ ← get_trans p;
  modify (fun d => set_lists (Uvfs_requests d ++ [p]) (Uvfs_replies d) d).

Definition list_add_tail_replies (p : ptr) : M driver unit :=
  _ ← get_trans p;
  modify (fun d => set_lists (Uvfs_requests d) (Uvfs_replies d ++ [p]) d).

(** [wake_up_interruptible] wakes the first exclusive waiter that sleeps. *)
Fixpoint wake_first (q : list (task * bool)) : list (task * bool) :=
  match q with
  | [] => []
  | (s, false) :: q' => (s, true) :: q'
  | (s, true) :: q' => (s, true) :: wake_first q'
  end.

Definition wake_up_driver_queue : M driver unit :=
  modify (fun d => set_queue (wake_first (Uvfs_driver_queue d)) d).

Definition add_wait_queue_exclusive (s : task) : M driver unit :=
  modify (fun d => set_queue (Uvfs_driver_queue d ++ [(s, false)]) d).

Definition remove_wait_queue (s : task) : M driver unit :=
  modify (fun d => set_queue (filter (fun e => fst e <> s) (Uvfs_driver_queue d)) d).

(** [wake_up(&trans->fs_queue)]. *)
Definition wake_up_fs_queue (p : ptr) : M driver unit := upd_trans p (with_asleep false).

Definition set_error (e : Z) : mem -> mem := set_int uvfs_generic_rep_s "error" e.

(** ** Opening and closing the device *)

Definition uvfsd_open : M driver Z :=
  modify (fun d => set_use_count (s32 (uvfs_use_count d + 1)) d);;
  mret 0.

(** The body of the loops of [uvfsd_release]. *)
Definition release_one (p : ptr) : M driver unit :=
  list_del_init p;;
  upd_trans p (with_u (set_error (- EIO)));;
  upd_trans p (with_answered true);;
  wake_up_fs_queue p.

(** [while (!list_empty(&list)) { ... }], at most [fuel] times round. *)
Fixpoint drain (sel : driver -> list ptr) (fuel : nat) : M driver unit :=
  match fuel with
  | O => mret tt
  | S n =>
      l ← gets sel;
      match l with
      | [] => mret tt
      | p :: _ => release_one p;; drain sel n
      end
  end.

Definition uvfsd_release : M driver Z :=
  modify (fun d => set_use_count (s32 (uvfs_use_count d - 1)) d);;
  n ← gets uvfs_use_count;
  whenb (n =? 0) (
    rq ← gets Uvfs_requests;
    drain Uvfs_requests (length rq);;
    rp ← gets Uvfs_replies;
    drain Uvfs_replies (length rp);;
    modify (set_ShuttingDown false);;
    modify (set_Serial_number 0));;
  mret 0.

(** ** Reading a request *)

(** The check of the size of the caller's buffer. *)
Definition uvfsd_read_check (count : Z) : option Z :=
  if count <? sizeof uvfs_request_u then Some (- EIO) else None.

Inductive read_pass := PassShutdown | PassSleep | PassTake (p : ptr).

(** One evaluation of the loop condition with the lock held, and what follows
    it up to the next release of the lock. *)
Definition uvfsd_read_pass (me : task) : M driver read_pass :=
  sd ← gets ShuttingDown;
  rq ← gets Uvfs_requests;
  if sd : bool then mret PassShutdown
  else match rq with
       | [] => add_wait_queue_exclusive me;; mret PassSleep
       | p :: _ =>
           list_del_init p;;
           list_add_tail_replies p;;
           wake_up_driver_queue;;
           upd_trans p (with_in_use true);;
           mret (PassTake p)
       end.

(** After [schedule]: [None] is the return of [-ERESTARTSYS]. *)
Definition uvfsd_read_woken (me : task) (signal_pending : bool) : M driver (option read_pass) :=
  remove_wait_queue me;;
  if signal_pending then mret None
  else r ← uvfsd_read_pass me; mret (Some r).

(** The shutdown request is a local variable, [stack] its initial bytes; [ret] is
    the result of [copy_to_user].  Returns the result and the bytes copied. *)
Definition shutdown_request (stack : mem) : mem :=
  set_int uvfs_shutdown_req_s "size" (sizeof uvfs_shutdown_req_s)
  (set_int uvfs_shutdown_req_s "type" UVFS_SHUTDOWN stack).

Definition uvfsd_read_shutdown (stack : mem) (ret : Z) : M driver (Z * list Z) :=
  let req := shutdown_request stack in
  let size := get_int uvfs_shutdown_req_s "size" req in
  wake_up_driver_queue;;
  mret (if truthy ret then - EIO else size, rd_bytes 0 size req).

(** [copy_to_user(buff, request, request->size)], outside the lock. *)
Definition uvfsd_read_copy (p : ptr) : M driver (list Z) :=
  t ← get_trans p;
  let size := get_int uvfs_generic_req_s "size" (t_u t) in
  if (0 <=? size) && (size <=? sizeof transaction_u)
  then mret (rd_bytes 0 size (t_u t)) else fault.

(** The second critical section. *)
Definition uvfsd_read_done (p : ptr) : M driver unit :=
  upd_trans p (with_in_use false);;
  t ← get_trans p;
  whenb (t_abort t) (wake_up_fs_queue p).

(** The return, which reads [request->size] after the lock is released. *)
Definition uvfsd_read_return (p : ptr) (ret : Z) : M driver Z :=
  if truthy ret then mret (- EIO)
  else t ← get_trans p; mret (get_int uvfs_generic_req_s "size" (t_u t)).

(** ** Writing a reply *)

(** The reply's header as the first [copy_from_user] reads it: [buff] is the
    caller's buffer, [ret] the result of the copy.  [inl] is an error. *)
Definition uvfsd_write_check (count : Z) (buff : mem) (ret : Z) : Z + (Z * Z) :=
  if count <? sizeof uvfs_generic_rep_s then inl (- EIO)
  else if truthy ret then inl (- EFAULT)
  else
    let size := get_int uvfs_generic_rep_s "size" buff in
    if negb (u64 size =? count) then inl (- EINVAL)
    else inr (get_int uvfs_generic_rep_s "serial" buff, size).

(** The search for the transaction, in the order of [Uvfs_replies]. *)
Fixpoint find_reply (l : list ptr) (serial : Z) : M driver (option ptr) :=
  match l with
  | [] => mret None
  | p :: l' =>
      t ← get_trans p;
      if t_serial t =? serial then mret (Some p) else find_reply l' serial
  end.

Definition uvfsd_write_take (serial : Z) : M driver (option ptr) :=
  rp ← gets Uvfs_replies;
  o ← find_reply rp serial;
  match o with
  | None => mret None
  | Some p =>
      list_del_init p;;
      upd_trans p (with_in_use true);;
      mret (Some p)
  end.

(** [copy_from_user(&trans->u.reply, buff, reply.size)]: the bytes that could not
    be copied, [ret] of them, are zero.  The caller may have changed [buff] since
    the header was read.  A copy that leaves the union is a fault. *)
Definition uvfsd_write_copy (p : ptr) (buff : mem) (size ret : Z) : M driver unit :=
  _ ← get_trans p;
  if (0 <=? size) && (size <=? sizeof transaction_u) then
    upd_trans p (with_u (wr_bytes 0 (rd_bytes 0 (size - ret) buff ++
                                     replicate (Z.to_nat ret) 0)))
  else fault.

Definition uvfsd_write_done (p : ptr) : M driver unit :=
  upd_trans p (with_in_use false);;
  upd_trans p (with_answered true);;
  wake_up_fs_queue p.

Definition uvfsd_write_return (size ret : Z) : Z := if truthy ret then - EIO else size.

(** ** Control *)

Definition Op_names : list string :=
  ["NULL"; "write"; "read"; "create"; "lookup"; "unlink"; "symlink"; "mkdir"; "rmdir";
   "rename"; "readdir"; "setattr"; "getattr"; "statfs"; "read_super"; "readlink";
   "shutdown"; "LAST + 1"].

Definition op_name (type : Z) : option string :=
  if type <? 0 then None else Op_names !! Z.to_nat type.

(** One line of the status report; a type outside [Op_names] is a fault. *)
Definition status_line (p : ptr) : M driver (Z * string) :=
  t ← get_trans p;
  match op_name (get_int uvfs_generic_req_s "type" (t_u t)) with
  | Some s => mret (t_serial t, s)
  | None => fault
  end.

Fixpoint status_lines (l : list ptr) : M driver (list (Z * string)) :=
  match l with
  | [] => mret []
  | p :: l' => x ← status_line p; r ← status_lines l'; mret (x :: r)
  end.

(** [mounted] says whether the file system type has super blocks.  The result
    comes with the report printed. *)
Definition uvfsd_ioctl (mounted : bool) (cmd : Z) :
    M driver (Z * list (Z * string) * list (Z * string)) :=
  if cmd =? UVFS_IOCTL_SHUTDOWN then
    modify (set_ShuttingDown true);;
    wake_up_driver_queue;;
    mret (0, [], [])
  else if cmd =? UVFS_IOCTL_STATUS then
    rq ← gets Uvfs_requests;
    a ← status_lines rq;
    rp ← gets Uvfs_replies;
    b ← status_lines rp;
    mret (0, a, b)
  else if cmd =? UVFS_IOCTL_MOUNT then mret (if mounted then 1 else 0, [], [])
  else n ← gets uvfs_use_count; mret (n, [], []).

(** ** Making a request *)

(** [kmalloc] returned [alloc]: a fresh pointer with the bytes found there, or
    NULL.  A pointer that is already live cannot be returned. *)
Definition uvfs_new_transaction (alloc : option (ptr * mem)) : M driver (option ptr) :=
  match alloc with
  | None => mret None
  | Some (p, u) =>
      h ← gets heap;
      match h !! p with
      | Some _ => fault
      | None =>
          n ← gets Serial_number;
          modify (set_Serial_number (s32 (n + 1)));;
          modify (fun d => set_heap
            (<[p := Transaction u n false false false false]> (heap d)) d);;
          mret (Some p)
      end
  end.

Definition kfree (p : ptr) : M driver unit :=
  _ ← get_trans p;
  modify (fun d => set_heap (delete p (heap d)) d).

(** The first critical section: [false] when there is no server. *)
Definition make_request_submit (p : ptr) : M driver bool :=
  n ← gets uvfs_use_count;
  if n =? 0 then
    upd_trans p (with_u (set_error (- EIO)));; mret false
  else
    list_add_tail_requests p;;
    wake_up_driver_queue;;
    mret true.

(** The signal masks: a [sigset_t] is one 64-bit word. *)
Definition SIGKILL : Z := 9.
Definition sigmask (sig : Z) : Z := Z.shiftl 1 (sig - 1).
Definition ALLOWED_SIGS : Z := sigmask SIGKILL.
Definition lnot64 (z : Z) : Z := u64 (Z.lnot z).
Definition siginitsetinv (mask : Z) : Z := lnot64 mask.

Definition make_request_mask (oldset : Z) : Z :=
  siginitsetinv (Z.land ALLOWED_SIGS (lnot64 oldset)).

(** [signal_pending] after [recalc_sigpending]. *)
Definition signal_pending (pending blocked : Z) : bool :=
  truthy (Z.land pending (lnot64 blocked)).

(** [wait_event_interruptible(trans->fs_queue, trans->answered)]: whether the wait
    is over, which takes the task off the wait queue; if not the task sleeps. *)
Definition make_request_wait (p : ptr) (sig : bool) : M driver bool :=
  t ← get_trans p;
  if t_answered t || sig then upd_trans p (with_asleep false);; mret true
  else upd_trans p (with_asleep true);; mret false.

(** The critical section after the wait: [false] when the transaction is in use
    and the task has to wait for that to end. *)
Definition make_request_check (p : ptr) (sig : bool) : M driver bool :=
  if sig then
    t ← get_trans p;
    if t_in_use t then
      upd_trans p (with_abort true);; mret false
    else
      list_del_init p;;
      upd_trans p (with_u (set_error (- ERESTARTSYS)));; mret true
  else mret true.

(** [wait_event(trans->fs_queue, !trans->in_use)]. *)
Definition make_request_wait_idle (p : ptr) : M driver bool :=
  t ← get_trans p;
  if t_in_use t then upd_trans p (with_asleep true);; mret false
  else upd_trans p (with_asleep false);; mret true.

(** The rest of the critical section after that wait. *)
Definition make_request_aborted (p : ptr) : M driver unit :=
  list_del_init p;;
  upd_trans p (with_u (set_error (- ERESTARTSYS))).

(** ** Execution on live transactions *)

(** [exec] runs a computation on a driver whose lookups are known. *)
Ltac exec_unfold :=
  unfold list_del_init, list_add_tail_requests, list_add_tail_replies,
    wake_up_driver_queue, add_wait_queue_exclusive, remove_wait_queue, wake_up_fs_queue,
    whenb, mbind, M_bind, mret, M_ret, gets, modify, get_trans, upd_trans, fault in *.

Ltac exec_step :=
  first
  [ progress cbn [heap uvfs_use_count ShuttingDown Serial_number Uvfs_requests Uvfs_replies
      Uvfs_driver_queue set_heap set_lists set_queue set_use_count set_ShuttingDown
      set_Serial_number get_trans upd_trans t_in_use t_abort t_answered t_asleep t_serial
      with_u with_in_use with_abort with_answered with_asleep mbind M_bind mret M_ret]
  | match goal with H : heap ?d !! ?p = _ |- context [heap ?d !! ?p] => rewrite H end
  | rewrite lookup_insert_eq
  | rewrite insert_insert_eq ].

Ltac exec :=
  exec_unfold; repeat exec_step;
  unfold set_heap, set_lists, set_queue, set_use_count, set_ShuttingDown, set_Serial_number;
  cbn [heap uvfs_use_count ShuttingDown Serial_number Uvfs_requests Uvfs_replies
       Uvfs_driver_queue].

(** A transaction that is on neither list is not affected by [list_del_init]. *)
Lemma remove_ptr_elem p q l : q ∈ remove_ptr p l <-> q <> p /\ q ∈ l.
Proof. unfold remove_ptr. by rewrite list_elem_of_filter. Qed.

Lemma remove_ptr_id p l : p ∉ l -> remove_ptr p l = l.
Proof.
  induction l as [|q l IH]; [done|]. intros [Hq Hl]%not_elem_of_cons. unfold remove_ptr in *.
  rewrite filter_cons_True by done. by rewrite IH.
Qed.

Lemma remove_ptr_cons p l : remove_ptr p (p :: l) = remove_ptr p l.
Proof. unfold remove_ptr. rewrite filter_cons_False; [done|naive_solver]. Qed.

Lemma remove_ptr_nodup p l : NoDup l -> NoDup (remove_ptr p l).
Proof. apply NoDup_filter. Qed.

Lemma remove_both_nodup p l k : NoDup (l ++ k) -> NoDup (remove_ptr p l ++ remove_ptr p k).
Proof. unfold remove_ptr. rewrite <- filter_app. apply NoDup_filter. Qed.

(** ** What each critical section does *)

Lemma get_trans_live d p t : heap d !! p = Some t -> get_trans p d = Some (t, d).
Proof. intros Hp. exec. done. Qed.

Lemma bind_eq {S A B} (m : M S A) (f : A -> M S B) s a s' :
  m s = Some (a, s') -> (m ≫= f) s = f a s'.
Proof. unfold mbind, M_bind. by intros ->. Qed.

Lemma get_trans_bind {A} p d t (f : transaction -> M driver A) :
  heap d !! p = Some t -> (get_trans p ≫= f) d = f t d.
Proof. intros Hp. unfold mbind, M_bind. by rewrite (get_trans_live d p t). Qed.

Lemma write_check_size count buff n size :
  0 <= count < 2 ^ 63 -> uvfsd_write_check count buff 0 = inr (n, size) ->
  size = get_int uvfs_generic_rep_s "size" buff /\ sizeof uvfs_generic_rep_s <= size /\
  n = get_int uvfs_generic_rep_s "serial" buff.
Proof.
  intros Hc. unfold uvfsd_write_check. destruct (Z.ltb_spec count (sizeof uvfs_generic_rep_s)); [done|].
  cbn [truthy Z.eqb negb]. destruct (Z.eqb_spec (u64 (get_int uvfs_generic_rep_s "size" buff)) count)
    as [E|]; [|done]. cbn [negb]. intros [= <- <-]. split; [done|]. split; [|done].
  pose proof (rd32s_range (offsetof uvfs_generic_rep_s "size") buff) as Hr.
  unfold get_int in *. set (z := rd32s _ buff) in *. unfold int_range in Hr.
  destruct (Z.neg_nonneg_cases z) as [Hz|Hz].
  - exfalso. unfold u64 in E. rewrite <- (Z_mod_plus_full z 1), Z.mod_small in E by lia. lia.
  - rewrite u64_small in E by lia. lia.
Qed.

Lemma read_pass_take d me p l t :
  ShuttingDown d = false -> Uvfs_requests d = p :: l -> heap d !! p = Some t ->
  uvfsd_read_pass me d =
  Some (PassTake p,
        Driver (uvfs_use_count d) false (Serial_number d)
          (remove_ptr p l) (remove_ptr p (Uvfs_replies d) ++ [p])
          (wake_first (Uvfs_driver_queue d)) (<[p := with_in_use true t]> (heap d))).
Proof.
  intros Hs Hr Hp. unfold uvfsd_read_pass. exec_unfold. rewrite Hs, Hr. exec.
  by rewrite Hs, Hr, remove_ptr_cons.
Qed.

Lemma read_pass_sleep d me :
  ShuttingDown d = false -> Uvfs_requests d = [] ->
  uvfsd_read_pass me d = Some (PassSleep, set_queue (Uvfs_driver_queue d ++ [(me, false)]) d).
Proof. intros Hs Hr. unfold uvfsd_read_pass. exec_unfold. by rewrite Hs, Hr. Qed.

Lemma read_pass_shutdown d me :
  ShuttingDown d = true -> uvfsd_read_pass me d = Some (PassShutdown, d).
Proof. intros Hs. unfold uvfsd_read_pass. exec_unfold. by rewrite Hs. Qed.

Lemma read_pass_inv d me p d1 :
  uvfsd_read_pass me d = Some (PassTake p, d1) ->
  exists l t, Uvfs_requests d = p :: l /\ heap d !! p = Some t /\
    d1 = Driver (uvfs_use_count d) false (Serial_number d)
           (remove_ptr p l) (remove_ptr p (Uvfs_replies d) ++ [p])
           (wake_first (Uvfs_driver_queue d)) (<[p := with_in_use true t]> (heap d)).
Proof.
  destruct (ShuttingDown d) eqn:Esd; [by rewrite read_pass_shutdown|].
  destruct (Uvfs_requests d) as [|q l] eqn:Erq; [by rewrite read_pass_sleep|].
  destruct (heap d !! q) as [t|] eqn:Et.
  - rewrite (read_pass_take d me q l t) by done. intros [= <- <-]. by exists l, t.
  - unfold uvfsd_read_pass. exec_unfold. by rewrite Esd, Erq, Et.
Qed.

(** Every pass ends in one of these three ways if the queued requests are live. *)
Lemma read_pass_cases d :
  (forall p, p ∈ Uvfs_requests d -> is_Some (heap d !! p)) ->
  ShuttingDown d = true \/ ShuttingDown d = false /\ Uvfs_requests d = [] \/
  exists p l t, ShuttingDown d = false /\ Uvfs_requests d = p :: l /\ heap d !! p = Some t.
Proof.
  intros Hl. destruct (ShuttingDown d); [by left|right].
  destruct (Uvfs_requests d) as [|p l]; [by left|right].
  destruct (Hl p) as [t Ht]; [set_solver|]. by exists p, l, t.
Qed.

Lemma read_done_spec d p t :
  heap d !! p = Some t ->
  uvfsd_read_done p d =
  Some (tt, set_heap (<[p := with_asleep (t_asleep t && negb (t_abort t))
                               (with_in_use false t)]> (heap d)) d).
Proof.
  intros Hp. unfold uvfsd_read_done. exec. destruct t as [u n b [] a s]; exec.
  - by rewrite andb_false_r.
  - by rewrite andb_true_r.
Qed.

Lemma write_take_none d serial :
  (forall p, p ∈ Uvfs_replies d -> exists t, heap d !! p = Some t /\ t_serial t <> serial) ->
  uvfsd_write_take serial d = Some (None, d).
Proof.
  intros Hl. unfold uvfsd_write_take. exec_unfold.
  assert (find_reply (Uvfs_replies d) serial d = Some (None, d)) as ->; [|done].
  revert Hl. induction (Uvfs_replies d) as [|p l IH]; intros Hl; [done|]. cbn. exec_unfold.
  destruct (Hl p) as (t & -> & Hne); [set_solver|].
  rewrite (proj2 (Z.eqb_neq _ _)) by done. apply IH. set_solver.
Qed.

Lemma find_reply_some d serial l1 p l2 t :
  (forall q, q ∈ l1 -> exists t, heap d !! q = Some t /\ t_serial t <> serial) ->
  heap d !! p = Some t -> t_serial t = serial ->
  find_reply (l1 ++ p :: l2) serial d = Some (Some p, d).
Proof.
  intros Hl Hp Hs. induction l1 as [|q l1 IH]; cbn; exec_unfold.
  - by rewrite Hp, Hs, Z.eqb_refl.
  - destruct (Hl q) as (t' & -> & Hne); [set_solver|].
    rewrite (proj2 (Z.eqb_neq _ _)) by done. apply IH. set_solver.
Qed.

Lemma write_take_some d serial l1 p l2 t :
  Uvfs_replies d = l1 ++ p :: l2 ->
  (forall q, q ∈ l1 -> exists t, heap d !! q = Some t /\ t_serial t <> serial) ->
  heap d !! p = Some t -> t_serial t = serial ->
  uvfsd_write_take serial d =
  Some (Some p, set_heap (<[p := with_in_use true t]> (heap d))
                  (set_lists (remove_ptr p (Uvfs_requests d))
                             (remove_ptr p (Uvfs_replies d)) d)).
Proof.
  intros Hr Hl Hp Hs. unfold uvfsd_write_take. exec_unfold.
  rewrite Hr, (find_reply_some d serial l1 p l2 t) by done. rewrite <- Hr. exec. done.
Qed.

(** The search ends in one of these two ways if the transactions are live. *)
Lemma find_reply_cases d serial l :
  (forall p, p ∈ l -> is_Some (heap d !! p)) ->
  (forall p, p ∈ l -> exists t, heap d !! p = Some t /\ t_serial t <> serial) \/
  exists l1 p l2 t, l = l1 ++ p :: l2 /\ heap d !! p = Some t /\ t_serial t = serial /\
    (forall q, q ∈ l1 -> exists t, heap d !! q = Some t /\ t_serial t <> serial).
Proof.
  induction l as [|p l IH]; intros Hl; [left; set_solver|].
  destruct (Hl p) as [t Ht]; [set_solver|].
  destruct (decide (t_serial t = serial)) as [Hs|Hs].
  { right. exists [], p, l, t. split_and!; try done. set_solver. }
  destruct IH as [IH|(l1 & q & l2 & t' & -> & ? & ? & Hq)]; [set_solver|..].
  - left. intros q [->|Hq]%elem_of_cons; eauto.
  - right. exists (p :: l1), q, l2, t'. split_and!; try done.
    intros q' [->|Hq']%elem_of_cons; eauto.
Qed.

Lemma write_done_spec d p t :
  heap d !! p = Some t ->
  uvfsd_write_done p d =
  Some (tt, set_heap (<[p := with_asleep false (with_answered true (with_in_use false t))]>
                        (heap d)) d).
Proof. intros Hp. unfold uvfsd_write_done. exec. done. Qed.

Lemma new_transaction_spec d p u :
  heap d !! p = None ->
  uvfs_new_transaction (Some (p, u)) d =
  Some (Some p, Driver (uvfs_use_count d) (ShuttingDown d) (s32 (Serial_number d + 1))
                  (Uvfs_requests d) (Uvfs_replies d) (Uvfs_driver_queue d)
                  (<[p := Transaction u (Serial_number d) false false false false]> (heap d))).
Proof. intros Hp. unfold uvfs_new_transaction. exec. done. Qed.

Lemma submit_down d p t :
  uvfs_use_count d = 0 -> heap d !! p = Some t ->
  make_request_submit p d =
  Some (false, set_heap (<[p := with_u (set_error (- EIO)) t]> (heap d)) d).
Proof. intros Hn Hp. unfold make_request_submit. exec. rewrite (proj2 (Z.eqb_eq _ _) Hn). exec. done. Qed.

Lemma submit_up d p t :
  uvfs_use_count d <> 0 -> heap d !! p = Some t ->
  make_request_submit p d =
  Some (true, set_queue (wake_first (Uvfs_driver_queue d))
                (set_lists (Uvfs_requests d ++ [p]) (Uvfs_replies d) d)).
Proof.
  intros Hn Hp. unfold make_request_submit. exec.
  rewrite (proj2 (Z.eqb_neq _ _)) by done. exec. done.
Qed.

Lemma wait_spec d p t sig :
  heap d !! p = Some t ->
  make_request_wait p sig d =
  Some (t_answered t || sig,
        set_heap (<[p := with_asleep (negb (t_answered t || sig)) t]> (heap d)) d).
Proof.
  intros Hp. unfold make_request_wait. exec. by destruct (t_answered t || sig); exec.
Qed.

Lemma check_no_signal d p : make_request_check p false d = Some (true, d).
Proof. done. Qed.

Lemma check_in_use d p t :
  heap d !! p = Some t -> t_in_use t = true ->
  make_request_check p true d =
  Some (false, set_heap (<[p := with_abort true t]> (heap d)) d).
Proof. intros Hp Hu. unfold make_request_check. exec. rewrite Hu. exec. done. Qed.

Lemma check_idle d p t :
  heap d !! p = Some t -> t_in_use t = false ->
  make_request_check p true d =
  Some (true, set_heap (<[p := with_u (set_error (- ERESTARTSYS)) t]> (heap d))
                (set_lists (remove_ptr p (Uvfs_requests d))
                           (remove_ptr p (Uvfs_replies d)) d)).
Proof. intros Hp Hu. unfold make_request_check. exec. rewrite Hu. exec. done. Qed.

Lemma wait_idle_spec d p t :
  heap d !! p = Some t ->
  make_request_wait_idle p d =
  Some (negb (t_in_use t), set_heap (<[p := with_asleep (t_in_use t) t]> (heap d)) d).
Proof.
  intros Hp. unfold make_request_wait_idle. exec. by destruct (t_in_use t); exec.
Qed.

Lemma aborted_spec d p t :
  heap d !! p = Some t ->
  make_request_aborted p d =
  Some (tt, set_heap (<[p := with_u (set_error (- ERESTARTSYS)) t]> (heap d))
              (set_lists (remove_ptr p (Uvfs_requests d))
                         (remove_ptr p (Uvfs_replies d)) d)).
Proof. intros Hp. unfold make_request_aborted. exec. done. Qed.

Lemma kfree_spec d p t :
  heap d !! p = Some t -> kfree p d = Some (tt, set_heap (delete p (heap d)) d).
Proof. intros Hp. unfold kfree. exec. done. Qed.

(** *** Draining a list *)

Definition failed (t : transaction) : transaction :=
  with_asleep false (with_answered true (with_u (set_error (- EIO)) t)).

Definition fail_in (l : list ptr) (h : gmap ptr transaction) : gmap ptr transaction :=
  map_imap (fun p t => Some (if bool_decide (p ∈ l) then failed t else t)) h.

Lemma lookup_fail_in l h p :
  fail_in l h !! p = (fun t => if bool_decide (p ∈ l) then failed t else t) <$> h !! p.
Proof. unfold fail_in. rewrite map_lookup_imap. by destruct (h !! p). Qed.

Lemma fail_in_nil h : fail_in [] h = h.
Proof. apply map_eq. intros p. rewrite lookup_fail_in. by destruct (h !! p). Qed.

Lemma fail_in_cons p l h t :
  p ∉ l -> h !! p = Some t -> fail_in l (<[p := failed t]> h) = fail_in (p :: l) h.
Proof.
  intros Hn Hp. apply map_eq. intros q. rewrite !lookup_fail_in.
  destruct (decide (p = q)) as [->|Hne].
  - rewrite lookup_insert_eq, Hp. cbn. rewrite bool_decide_eq_false_2 by done.
    by rewrite bool_decide_eq_true_2 by set_solver.
  - rewrite lookup_insert_ne by done. destruct (h !! q) as [t'|]; [|done]. cbn. f_equal.
    by rewrite (bool_decide_ext (q ∈ p :: l) (q ∈ l)) by (rewrite elem_of_cons; naive_solver).
Qed.

Lemma release_one_spec d p t :
  heap d !! p = Some t ->
  release_one p d =
  Some (tt, set_heap (<[p := failed t]> (heap d))
              (set_lists (remove_ptr p (Uvfs_requests d))
                         (remove_ptr p (Uvfs_replies d)) d)).
Proof. intros Hp. unfold release_one. exec. done. Qed.

Lemma drain_step sel n d p l d' :
  sel d = p :: l -> release_one p d = Some (tt, d') -> drain sel (S n) d = drain sel n d'.
Proof. intros Hs He. cbn. exec_unfold. by rewrite Hs, He. Qed.

Lemma fail_in_live l h p : is_Some (fail_in l h !! p) <-> is_Some (h !! p).
Proof. rewrite lookup_fail_in. by rewrite fmap_is_Some. Qed.

Lemma fail_in_app l k h : (forall p, p ∈ l -> p ∉ k) ->
  fail_in k (fail_in l h) = fail_in (l ++ k) h.
Proof.
  intros Hd. apply map_eq. intros p. rewrite !lookup_fail_in.
  destruct (h !! p) as [t|]; [|done]. cbn. f_equal.
  rewrite (bool_decide_ext (p ∈ l ++ k) (p ∈ l \/ p ∈ k)) by apply elem_of_app.
  specialize (Hd p). repeat case_bool_decide; naive_solver.
Qed.

(** The loops of [uvfsd_release]: as many turns as there are transactions empty
    the list, whatever else is queued. *)
Lemma drain_requests l d :
  Uvfs_requests d = l -> NoDup l ->
  (forall p, p ∈ l -> is_Some (heap d !! p) /\ p ∉ Uvfs_replies d) ->
  drain Uvfs_requests (length l) d =
  Some (tt, set_heap (fail_in l (heap d)) (set_lists [] (Uvfs_replies d) d)).
Proof.
  revert d. induction l as [|p l IH]; intros d Hl Hnd Hlive.
  - cbn. exec_unfold. rewrite fail_in_nil. destruct d. by cbn in *; subst.
  - apply NoDup_cons in Hnd as [Hp Hnd]. destruct (Hlive p) as [[t Ht] Hr]; [set_solver|].
    pose proof (release_one_spec d p t Ht) as E1.
    rewrite Hl, remove_ptr_cons, !remove_ptr_id in E1 by done.
    cbn [length]. rewrite (drain_step _ _ _ _ _ _ Hl E1), IH; [|done|done|].
    + unfold set_heap, set_lists. cbn. by rewrite fail_in_cons.
    + intros q Hq. cbn. destruct (Hlive q) as [Hq1 Hq2]; [set_solver|]. split; [|done].
      rewrite lookup_insert_ne; [done|]. by intros ->.
Qed.

Lemma drain_replies l d :
  Uvfs_replies d = l -> NoDup l ->
  (forall p, p ∈ l -> is_Some (heap d !! p) /\ p ∉ Uvfs_requests d) ->
  drain Uvfs_replies (length l) d =
  Some (tt, set_heap (fail_in l (heap d)) (set_lists (Uvfs_requests d) [] d)).
Proof.
  revert d. induction l as [|p l IH]; intros d Hl Hnd Hlive.
  - cbn. exec_unfold. rewrite fail_in_nil. destruct d. by cbn in *; subst.
  - apply NoDup_cons in Hnd as [Hp Hnd]. destruct (Hlive p) as [[t Ht] Hr]; [set_solver|].
    pose proof (release_one_spec d p t Ht) as E1.
    rewrite Hl, remove_ptr_cons, !remove_ptr_id in E1 by done.
    cbn [length]. rewrite (drain_step _ _ _ _ _ _ Hl E1), IH; [|done|done|].
    + unfold set_heap, set_lists. cbn. by rewrite fail_in_cons.
    + intros q Hq. cbn. destruct (Hlive q) as [Hq1 Hq2]; [set_solver|]. split; [|done].
      rewrite lookup_insert_ne; [done|]. by intros ->.
Qed.

(** The last close answers everything that is queued, and resets the counters. *)
Lemma release_last d :
  s32 (uvfs_use_count d - 1) = 0 ->
  NoDup (Uvfs_requests d ++ Uvfs_replies d) ->
  (forall p, p ∈ Uvfs_requests d ++ Uvfs_replies d -> is_Some (heap d !! p)) ->
  uvfsd_release d =
  Some (0, Driver 0 false 0 [] [] (Uvfs_driver_queue d)
             (fail_in (Uvfs_requests d ++ Uvfs_replies d) (heap d))).
Proof.
  intros Hc (Hn1 & Hn2 & Hn3)%NoDup_app Hlive.
  unfold uvfsd_release. exec_unfold. cbn [uvfs_use_count set_use_count]. rewrite Hc.
  cbn [Z.eqb Uvfs_requests set_use_count].
  rewrite (drain_requests (Uvfs_requests d)); [|done|done|].
  2:{ intros p Hp. split; [apply Hlive; set_solver|by apply Hn2]. }
  cbn [Uvfs_replies set_heap set_lists set_use_count].
  rewrite (drain_replies (Uvfs_replies d)); [|done|done|].
  2:{ intros p Hp. split; [|cbn; set_solver]. cbn. apply fail_in_live, Hlive. set_solver. }
  cbn. do 2 f_equal. unfold set_heap, set_lists, set_ShuttingDown, set_Serial_number. cbn.
  by rewrite fail_in_app.
Qed.

Lemma release_more d :
  s32 (uvfs_use_count d - 1) <> 0 ->
  uvfsd_release d = Some (0, set_use_count (s32 (uvfs_use_count d - 1)) d).
Proof.
  intros Hc. unfold uvfsd_release. exec_unfold. cbn [uvfs_use_count set_use_count].
  by rewrite (proj2 (Z.eqb_neq _ _)).
Qed.
