(* ===== verification/DriverSteps.v ===== *)
(** * Interleavings of the driver (driver.c)

    Client tasks run [uvfs_make_request] on their own transactions, server tasks
    read requests from the device and write replies to it.  An action is one
    critical section, one copy or one unlocked access of one task; a run is a
    sequence of enabled actions. *)

From stdpp Require Import prelude gmap list strings.
From Stdlib Require Import ZArith Lia.
From S2P Require Import Prelude Protocol Driver.

Open Scope string_scope.
Open Scope list_scope.
Open Scope Z_scope.

(** ** Configurations *)

(** Where a client task is.  A task without an entry holds no transaction. *)
Inductive client_pc :=
| CBuilt (p : ptr)                 (* allocated, the request is being built *)
| CWait (p : ptr)                  (* in wait_event_interruptible *)
| CCheck (p : ptr) (by_sig : bool) (* that wait is over *)
| CAbort (p : ptr)                 (* in wait_event(!in_use) *)
| CDone (p : ptr).                 (* uvfs_make_request has returned *)

(** Where a server task is.  A task has an entry while it has the device open. *)
Inductive server_pc :=
| SIdle
| SShutdown                        (* about to hand out the shutdown request *)
| SSleep                           (* asleep in uvfsd_read *)
| SCopyOut (p : ptr)               (* has taken p, copying the request out *)
| SReadDone (p : ptr) (ret : Z)    (* the copy is over *)
| SReturn (p : ptr) (ret : Z)      (* has released the lock, about to return *)
| SCopyIn (p : ptr) (buff : mem) (size : Z)  (* has found p, copying the reply in *)
| SWriteDone (p : ptr).            (* the copy is over *)

Record config := Config {
  drv : driver;
  clients : gmap task client_pc;
  servers : gmap task server_pc }.

Definition config_init : config := Config driver_init ∅ ∅.

Definition cptr (pc : client_pc) : ptr :=
  match pc with CBuilt p | CWait p | CCheck p _ | CAbort p | CDone p => p end.

(** The transaction a server has marked [in_use]. *)
Definition touch (pc : server_pc) : option ptr :=
  match pc with
  | SCopyOut p | SReadDone p _ | SCopyIn p _ _ | SWriteDone p => Some p
  | _ => None
  end.

(** ** Actions *)

Inductive action :=
| AOpen (s : task)
| AClose (s : task)
| AIoctl (s : task) (mounted : bool) (cmd : Z)
| ANew (c : task) (p : ptr) (u : mem)
| ABuild (c : task) (f : mem -> mem)
| ASubmit (c : task)
| AWait (c : task) (sig : bool)
| ACheck (c : task) (sig : bool)
| AWaitIdle (c : task)
| AFree (c : task)
| ARead (s : task)
| AShutdownOut (s : task) (stack : mem) (ret : Z)
| AWoken (s : task) (sig : bool)
| ACopyOut (s : task) (ret : Z)
| AReadDone (s : task)
| AReturn (s : task)
| AWrite (s : task) (count : Z) (buff : mem)
| ACopyIn (s : task) (buff : mem) (ret : Z)
| AWriteDone (s : task).

(** What a request has to look like when it is submitted: Dir.v, File.v and the
    other clients of the driver establish it. *)
Definition request_ok (serial : Z) (u : mem) : Prop :=
  1 <= get_int uvfs_generic_req_s "type" u < UVFS_SHUTDOWN /\
  get_int uvfs_generic_req_s "serial" u = serial /\
  sizeof uvfs_generic_req_s <= get_int uvfs_generic_req_s "size" u <= sizeof uvfs_request_u.

(** Open files are limited far below [INT_MAX]. *)
Definition open_max : Z := 1048576.

(** The conditions of an action that are not the task's own checks: that the task
    is at that point, and what the kernel guarantees of its environment. *)
Definition enabled (a : action) (c : config) : Prop :=
  match a with
  | AOpen s => servers c !! s = None /\ Z.of_nat (size (servers c)) < open_max
  | AClose s | AIoctl s _ _ | ARead s => servers c !! s = Some SIdle
  | AWrite s count _ => servers c !! s = Some SIdle /\ 0 <= count < 2 ^ 63
  | ANew cl p _ => clients c !! cl = None /\ heap (drv c) !! p = None
  | ABuild cl f => exists p t, clients c !! cl = Some (CBuilt p) /\
                    heap (drv c) !! p = Some t /\ request_ok (t_serial t) (f (t_u t))
  | ASubmit cl => exists p t, clients c !! cl = Some (CBuilt p) /\
                    heap (drv c) !! p = Some t /\ request_ok (t_serial t) (t_u t)
  | AWait cl sig => exists p, clients c !! cl = Some (CWait p) /\
                    (sig = true \/ forall t, heap (drv c) !! p = Some t -> t_asleep t = false)
  | ACheck cl sig => exists p b, clients c !! cl = Some (CCheck p b) /\ (b = true -> sig = true)
  | AWaitIdle cl => exists p, clients c !! cl = Some (CAbort p) /\
                    (forall t, heap (drv c) !! p = Some t -> t_asleep t = false)
  | AFree cl => exists p, clients c !! cl = Some (CDone p)
  | AShutdownOut s _ _ => servers c !! s = Some SShutdown
  | AWoken s sig => servers c !! s = Some SSleep /\
                    ((s, true) ∈ Uvfs_driver_queue (drv c) \/ sig = true)
  | ACopyOut s _ => exists p, servers c !! s = Some (SCopyOut p)
  | AReadDone s => exists p ret, servers c !! s = Some (SReadDone p ret)
  | AReturn s => exists p ret, servers c !! s = Some (SReturn p ret)
  | ACopyIn s _ ret => exists p b size, servers c !! s = Some (SCopyIn p b size) /\
                       0 <= ret <= size
  | AWriteDone s => exists p, servers c !! s = Some (SWriteDone p)
  end.

(** ** Execution *)

(** Run a driver computation inside a configuration. *)
Definition on_drv {A} (m : M driver A) : M config A :=
  fun c => match m (drv c) with
           | Some (a, d) => Some (a, Config d (clients c) (servers c))
           | None => None
           end.

Definition put_client (cl : task) (pc : client_pc) : M config unit :=
  modify (fun c => Config (drv c) (<[cl := pc]> (clients c)) (servers c)).
Definition drop_client (cl : task) : M config unit :=
  modify (fun c => Config (drv c) (delete cl (clients c)) (servers c)).
Definition put_server (s : task) (pc : server_pc) : M config unit :=
  modify (fun c => Config (drv c) (clients c) (<[s := pc]> (servers c))).
Definition drop_server (s : task) : M config unit :=
  modify (fun c => Config (drv c) (clients c) (delete s (servers c))).

Definition after_pass (s : task) (r : read_pass) : M config unit :=
  put_server s (match r with
                      | PassShutdown => SShutdown
                      | PassSleep => SSleep
                      | PassTake p => SCopyOut p
                      end).

Definition run (a : action) : M config unit :=
  match a with
  | AOpen s => on_drv uvfsd_open;; put_server s SIdle
  | AClose s => on_drv uvfsd_release;; drop_server s
  | AIoctl s mounted cmd => on_drv (uvfsd_ioctl mounted cmd);; mret tt
  | ANew cl p u => on_drv (uvfs_new_transaction (Some (p, u)));; put_client cl (CBuilt p)
  | ABuild cl f =>
      pc ← gets (fun c => clients c !! cl);
      match pc with
      | Some (CBuilt p) => on_drv (upd_trans p (with_u f))
      | _ => mret tt
      end
  | ASubmit cl =>
      pc ← gets (fun c => clients c !! cl);
      match pc with
      | Some (CBuilt p) =>
          b ← on_drv (make_request_submit p);
          put_client cl (if b : bool then CWait p else CDone p)
      | _ => mret tt
      end
  | AWait cl sig =>
      pc ← gets (fun c => clients c !! cl);
      match pc with
      | Some (CWait p) =>
          t ← on_drv (get_trans p);
          b ← on_drv (make_request_wait p sig);
          if b : bool then put_client cl (CCheck p (negb (t_answered t))) else mret tt
      | _ => mret tt
      end
  | ACheck cl sig =>
      pc ← gets (fun c => clients c !! cl);
      match pc with
      | Some (CCheck p _) =>
          b ← on_drv (make_request_check p sig);
          put_client cl (if b : bool then CDone p else CAbort p)
      | _ => mret tt
      end
  | AWaitIdle cl =>
      pc ← gets (fun c => clients c !! cl);
      match pc with
      | Some (CAbort p) =>
          b ← on_drv (make_request_wait_idle p);
          if b : bool
          then on_drv (make_request_aborted p);; put_client cl (CDone p)
          else mret tt
      | _ => mret tt
      end
  | AFree cl =>
      pc ← gets (fun c => clients c !! cl);
      match pc with
      | Some (CDone p) => on_drv (kfree p);; drop_client cl
      | _ => mret tt
      end
  | ARead s => r ← on_drv (uvfsd_read_pass s); after_pass s r
  | AShutdownOut s stack ret =>
      on_drv (uvfsd_read_shutdown stack ret);; put_server s SIdle
  | AWoken s sig =>
      o ← on_drv (uvfsd_read_woken s sig);
      match o with None => put_server s SIdle | Some r => after_pass s r end
  | ACopyOut s ret =>
      pc ← gets (fun c => servers c !! s);
      match pc with
      | Some (SCopyOut p) => on_drv (uvfsd_read_copy p);; put_server s (SReadDone p ret)
      | _ => mret tt
      end
  | AReadDone s =>
      pc ← gets (fun c => servers c !! s);
      match pc with
      | Some (SReadDone p ret) => on_drv (uvfsd_read_done p);; put_server s (SReturn p ret)
      | _ => mret tt
      end
  | AReturn s =>
      pc ← gets (fun c => servers c !! s);
      match pc with
      | Some (SReturn p ret) => on_drv (uvfsd_read_return p ret);; put_server s SIdle
      | _ => mret tt
      end
  | AWrite s count buff =>
      match uvfsd_write_check count buff 0 with
      | inl _ => mret tt
      | inr (serial, size) =>
          o ← on_drv (uvfsd_write_take serial);
          match o with
          | Some p => put_server s (SCopyIn p buff size)
          | None => mret tt
          end
      end
  | ACopyIn s buff ret =>
      pc ← gets (fun c => servers c !! s);
      match pc with
      | Some (SCopyIn p _ size) =>
          on_drv (uvfsd_write_copy p buff size ret);; put_server s (SWriteDone p)
      | _ => mret tt
      end
  | AWriteDone s =>
      pc ← gets (fun c => servers c !! s);
      match pc with
      | Some (SWriteDone p) => on_drv (uvfsd_write_done p);; put_server s SIdle
      | _ => mret tt
      end
  end.

(** A server that follows the protocol replies to a request only once the read
    that fetched it has copied it, and its replies fit the reply union. *)
Definition polite (a : action) (c : config) : Prop :=
  match a with
  | AWrite s count buff =>
      get_int uvfs_generic_rep_s "size" buff <= sizeof uvfs_reply_u /\
      (forall s' pc p t, servers c !! s' = Some pc -> touch pc = Some p ->
       heap (drv c) !! p = Some t ->
       t_serial t <> get_int uvfs_generic_rep_s "serial" buff)
  | _ => True
  end.

Definition step (c c' : config) : Prop :=
  exists a, enabled a c /\ polite a c /\ run a c = Some (tt, c').

Definition any_step (c c' : config) : Prop :=
  exists a, enabled a c /\ run a c = Some (tt, c').

Definition reachable (c : config) : Prop := rtc step config_init c.

(** An action that is enabled and faults. *)
Definition faults (a : action) (c : config) : Prop := enabled a c /\ run a c = None.

(** Runs of given actions, to exhibit particular interleavings. *)
Fixpoint run_all (l : list action) (c : config) : option config :=
  match l with
  | [] => Some c
  | a :: l' => match run a c with Some (_, c') => run_all l' c' | None => None end
  end.

(** ** Relations between the drivers of two configurations *)

Definition drv_rel (R : driver -> driver -> Prop) (c c' : config) : Prop := R (drv c) (drv c').

#[export] Instance drv_rel_preorder R `{!PreOrder R} : PreOrder (drv_rel R).
Proof.
  split; [intros c; unfold drv_rel; reflexivity|].
  intros c1 c2 c3. unfold drv_rel. apply transitivity.
Qed.

Lemma respects_on_drv {A} R (m : M driver A) :
  respects R m -> respects (drv_rel R) (on_drv m).
Proof.
  intros H c a c'. unfold on_drv. destruct (m (drv c)) as [[b d]|] eqn:E; [|done].
  intros [= _ <-]. by eapply H.
Qed.

Lemma respects_pcs R `{!PreOrder R} :
  (forall cl pc, respects (drv_rel R) (put_client cl pc)) /\
  (forall cl, respects (drv_rel R) (drop_client cl)) /\
  (forall s pc, respects (drv_rel R) (put_server s pc)) /\
  (forall s, respects (drv_rel R) (drop_server s)) /\
  (forall s r, respects (drv_rel R) (after_pass s r)).
Proof. split_and!; intros; intros c a c' [= _ <-]; unfold drv_rel; reflexivity. Qed.

(** [respects_run H] proves that an action respects [R], [H] being [respects_pcs R]. *)
Ltac respects_run H :=
  let H1 := fresh in let H2 := fresh in let H3 := fresh in let H4 := fresh in
  let H5 := fresh in
  destruct H as (H1 & H2 & H3 & H4 & H5);
  repeat first
  [ solve [eauto with respects typeclass_instances]
  | apply respects_bind; [typeclasses eauto| |intros ?]
  | apply respects_on_drv; respects_go
  | match goal with
    | |- respects _ (match ?x with _ => _ end) => destruct x
    | |- respects _ (if ?x then _ else _) => destruct x
    end ].
