(* ===== verification/DriverInv.v ===== *)
(** * The invariant of the driver

    [inv] ties together the lists, the flags of each transaction and the points
    its client and its servers have reached.  It is preserved by every step of a
    server that follows the protocol, and under it no critical section and no
    copy touches a transaction that has been freed. *)

From stdpp Require Import prelude gmap list strings.
From Stdlib Require Import ZArith Lia.
From S2P Require Import Prelude Protocol Driver DriverSteps.

Open Scope string_scope.
Open Scope list_scope.
Open Scope Z_scope.

(** ** The invariant *)

(** Nobody but the owner can reach the transaction. *)
Definition quiet (t : transaction) (rq rp : bool) (tch : option server_pc) : Prop :=
  rq = false /\ rp = false /\ tch = None /\ t_in_use t = false.

(** The transaction has been submitted: it is on a list, being copied, or answered. *)
Definition in_flight (t : transaction) (rq rp : bool) (tch : option server_pc) : Prop :=
  match tch with
  | None =>
      t_in_use t = false /\
      (t_answered t = false /\ xorb rq rp = true /\ request_ok (t_serial t) (t_u t) \/
       t_answered t = true /\ rq = false /\ rp = false)
  | Some (SCopyOut _ | SReadDone _ _) =>
      t_in_use t = true /\ t_answered t = false /\ rq = false /\ rp = true /\
      request_ok (t_serial t) (t_u t)
  | Some (SCopyIn _ _ size) =>
      t_in_use t = true /\ t_answered t = false /\ rq = false /\ rp = false /\
      0 <= size <= sizeof uvfs_reply_u
  | Some (SWriteDone _) =>
      t_in_use t = true /\ t_answered t = false /\ rq = false /\ rp = false
  | Some _ => False
  end.

Definition error_of (t : transaction) : Z := get_int uvfs_generic_rep_s "error" (t_u t).

(** The state of a transaction agrees with where its client is. *)
Definition local (t : transaction) (pc : client_pc) (rq rp : bool) (tch : option server_pc)
    : Prop :=
  match pc with
  | CBuilt _ => quiet t rq rp tch /\ t_answered t = false /\ t_abort t = false /\
                t_asleep t = false
  | CWait _ => in_flight t rq rp tch /\ t_abort t = false /\
               (t_asleep t = true -> t_answered t = false)
  | CCheck _ by_sig => in_flight t rq rp tch /\ t_abort t = false /\ t_asleep t = false /\
                       (by_sig = false -> t_answered t = true)
  | CAbort _ => in_flight t rq rp tch /\ t_abort t = true /\
                (t_asleep t = true -> t_in_use t = true)
  | CDone _ => quiet t rq rp tch /\ t_asleep t = false /\
               (t_answered t = true \/ error_of t = - EIO \/ error_of t = - ERESTARTSYS)
  end.

Definition owns (c : config) (cl : task) (pc : client_pc) (p : ptr) : Prop :=
  clients c !! cl = Some pc /\ cptr pc = p.
Definition touches (c : config) (s : task) (pc : server_pc) (p : ptr) : Prop :=
  servers c !! s = Some pc /\ touch pc = Some p.

Definition toucher (c : config) (p : ptr) (tch : option server_pc) : Prop :=
  match tch with
  | None => forall s pc, ~ touches c s pc p
  | Some pc => exists s, touches c s pc p /\ forall s' pc', touches c s' pc' p -> s' = s
  end.

Definition owner (c : config) (p : ptr) (pc : client_pc) : Prop :=
  exists cl, owns c cl pc p /\ forall cl' pc', owns c cl' pc' p -> cl' = cl.

Definition rq (c : config) (p : ptr) : bool := bool_decide (p ∈ Uvfs_requests (drv c)).
Definition rp (c : config) (p : ptr) : bool := bool_decide (p ∈ Uvfs_replies (drv c)).

Definition ok_at (c : config) (p : ptr) : Prop :=
  match heap (drv c) !! p with
  | None => (forall cl pc, ~ owns c cl pc p) /\ (forall s pc, ~ touches c s pc p) /\
            rq c p = false /\ rp c p = false
  | Some t => exists pc tch, owner c p pc /\ toucher c p tch /\
              local t pc (rq c p) (rp c p) tch
  end.

(** The tasks on the wait queue are those asleep in [uvfsd_read]. *)
Definition queue_ok (c : config) : Prop :=
  NoDup (map fst (Uvfs_driver_queue (drv c))) /\
  forall s, s ∈ map fst (Uvfs_driver_queue (drv c)) <-> servers c !! s = Some SSleep.

Definition count_ok (c : config) : Prop :=
  uvfs_use_count (drv c) = Z.of_nat (size (servers c)) /\
  uvfs_use_count (drv c) <= open_max.

Record inv (c : config) : Prop := Inv {
  inv_ok : forall p, ok_at c p;
  inv_nodup : NoDup (Uvfs_requests (drv c) ++ Uvfs_replies (drv c));
  inv_queue : queue_ok c;
  inv_count : count_ok c }.

(** ** Frame: what an action leaves alone *)

Lemma ok_at_frame c c' p :
  heap (drv c') !! p = heap (drv c) !! p ->
  (p ∈ Uvfs_requests (drv c') <-> p ∈ Uvfs_requests (drv c)) ->
  (p ∈ Uvfs_replies (drv c') <-> p ∈ Uvfs_replies (drv c)) ->
  (forall cl pc, owns c' cl pc p <-> owns c cl pc p) ->
  (forall s pc, touches c' s pc p <-> touches c s pc p) ->
  ok_at c p -> ok_at c' p.
Proof.
  intros Hh Hq Hr Ho Ht. unfold ok_at. rewrite Hh.
  assert (rq c' p = rq c p) as -> by (unfold rq; by apply bool_decide_ext).
  assert (rp c' p = rp c p) as -> by (unfold rp; by apply bool_decide_ext).
  destruct (heap (drv c) !! p) as [t|].
  - intros (pc & tch & (cl & Hcl & Hu) & Htch & Hl). exists pc, tch. split; [|split; [|done]].
    + exists cl. split; [by apply Ho|]. intros ?? ?%Ho. eauto.
    + destruct tch as [spc|]; cbn in *.
      * destruct Htch as (s & Hs & Hsu). exists s. split; [by apply Ht|].
        intros ?? ?%Ht. eauto.
      * intros s pc' Hx%Ht. by eapply Htch.
  - intros (H1 & H2 & ? & ?). split; [|split; [|done]].
    + intros cl pc Hx%Ho. by eapply H1.
    + intros s pc Hx%Ht. by eapply H2.
Qed.

(** What the clients and servers of a configuration do with [p]. *)
Definition same_owners (c c' : config) (p : ptr) : Prop :=
  forall cl pc, owns c' cl pc p <-> owns c cl pc p.
Definition same_touchers (c c' : config) (p : ptr) : Prop :=
  forall s pc, touches c' s pc p <-> touches c s pc p.

Lemma same_owners_eq c c' p : clients c' = clients c -> same_owners c c' p.
Proof. intros E cl pc. unfold owns. by rewrite E. Qed.

Lemma same_touchers_eq c c' p : servers c' = servers c -> same_touchers c c' p.
Proof. intros E s pc. unfold touches. by rewrite E. Qed.

Lemma same_owners_put c c' p cl0 pc1 :
  clients c' = <[cl0 := pc1]> (clients c) -> cptr pc1 <> p ->
  (forall pc0, clients c !! cl0 = Some pc0 -> cptr pc0 <> p) -> same_owners c c' p.
Proof.
  intros E Hnew Hold cl pc. unfold owns. rewrite E.
  destruct (decide (cl0 = cl)) as [->|Hne]; [rewrite lookup_insert_eq|by rewrite lookup_insert_ne].
  split; intros [H1 H2]; exfalso; naive_solver.
Qed.

Lemma same_owners_drop c c' p cl0 :
  clients c' = delete cl0 (clients c) ->
  (forall pc0, clients c !! cl0 = Some pc0 -> cptr pc0 <> p) -> same_owners c c' p.
Proof.
  intros E Hold cl pc. unfold owns. rewrite E.
  destruct (decide (cl0 = cl)) as [->|Hne]; [rewrite lookup_delete_eq|by rewrite lookup_delete_ne].
  split; intros [H1 H2]; exfalso; naive_solver.
Qed.

Lemma same_touchers_put c c' p s0 pc1 :
  servers c' = <[s0 := pc1]> (servers c) -> touch pc1 <> Some p ->
  (forall pc0, servers c !! s0 = Some pc0 -> touch pc0 <> Some p) -> same_touchers c c' p.
Proof.
  intros E Hnew Hold s pc. unfold touches. rewrite E.
  destruct (decide (s0 = s)) as [->|Hne]; [rewrite lookup_insert_eq|by rewrite lookup_insert_ne].
  split; intros [H1 H2]; exfalso; naive_solver.
Qed.

Lemma same_touchers_drop c c' p s0 :
  servers c' = delete s0 (servers c) ->
  (forall pc0, servers c !! s0 = Some pc0 -> touch pc0 <> Some p) -> same_touchers c c' p.
Proof.
  intros E Hold s pc. unfold touches. rewrite E.
  destruct (decide (s0 = s)) as [->|Hne]; [rewrite lookup_delete_eq|by rewrite lookup_delete_ne].
  split; intros [H1 H2]; exfalso; naive_solver.
Qed.

(** The owner and the toucher of the transaction an action is about. *)
Lemma owner_same c c' p pc : same_owners c c' p -> owner c p pc -> owner c' p pc.
Proof.
  intros E (cl & H & Hu). exists cl. split; [by apply E|]. intros ?? Hx%E. eauto.
Qed.

Lemma owner_put c c' p cl pc0 pc1 :
  clients c' = <[cl := pc1]> (clients c) -> cptr pc1 = p -> owns c cl pc0 p ->
  (exists pc, owner c p pc) -> owner c' p pc1.
Proof.
  intros E Hp Ho (pc & cl0 & H & Hu). pose proof (Hu _ _ Ho) as ->. exists cl0.
  unfold owns in *. rewrite E. split; [by rewrite lookup_insert_eq|].
  intros cl' pc' [H1 H2]. destruct (decide (cl0 = cl')) as [|Hne]; [done|].
  rewrite lookup_insert_ne in H1 by done. by eapply Hu.
Qed.

Lemma owner_new c c' p cl pc1 :
  clients c' = <[cl := pc1]> (clients c) -> cptr pc1 = p ->
  (forall cl pc, ~ owns c cl pc p) -> owner c' p pc1.
Proof.
  intros E Hp Hno. exists cl. unfold owns in *. rewrite E.
  split; [by rewrite lookup_insert_eq|]. intros cl' pc' [H1 H2].
  destruct (decide (cl = cl')) as [|Hne]; [done|].
  rewrite lookup_insert_ne in H1 by done. by destruct (Hno cl' pc').
Qed.

Lemma toucher_same c c' p tch : same_touchers c c' p -> toucher c p tch -> toucher c' p tch.
Proof.
  intros E. destruct tch as [pc|]; cbn.
  - intros (s & H & Hu). exists s. split; [by apply E|]. intros ?? Hx%E. eauto.
  - intros H s pc Hx%E. by eapply H.
Qed.

Lemma toucher_start c c' p s pc1 :
  servers c' = <[s := pc1]> (servers c) -> touch pc1 = Some p ->
  toucher c p None -> toucher c' p (Some pc1).
Proof.
  intros E Hp Hno. exists s. unfold touches. rewrite E. split; [by rewrite lookup_insert_eq|].
  intros s' pc' [H1 H2]. destruct (decide (s = s')) as [|Hne]; [done|].
  rewrite lookup_insert_ne in H1 by done. by destruct (Hno s' pc').
Qed.

Lemma toucher_move c c' p s pc0 pc1 :
  servers c' = <[s := pc1]> (servers c) -> touch pc1 = Some p ->
  touches c s pc0 p -> toucher c p (Some pc0) -> toucher c' p (Some pc1).
Proof.
  intros E Hp Ht (s0 & H & Hu). pose proof (Hu _ _ Ht) as ->. exists s0.
  unfold touches in *. rewrite E. split; [by rewrite lookup_insert_eq|].
  intros s' pc' [H1 H2]. destruct (decide (s0 = s')) as [|Hne]; [done|].
  rewrite lookup_insert_ne in H1 by done. by eapply Hu.
Qed.

Lemma toucher_end c c' p s pc0 pc1 :
  servers c' = <[s := pc1]> (servers c) -> touch pc1 = None ->
  touches c s pc0 p -> toucher c p (Some pc0) -> toucher c' p None.
Proof.
  intros E Hp Ht (s0 & H & Hu) s' pc' [H1 H2]. pose proof (Hu _ _ Ht) as ->.
  rewrite E in H1. destruct (decide (s0 = s')) as [->|Hne].
  - rewrite lookup_insert_eq in H1. congruence.
  - rewrite lookup_insert_ne in H1 by done. apply Hne. symmetry. by apply (Hu s' pc').
Qed.

Lemma ok_at_live c p t pc tch :
  heap (drv c) !! p = Some t -> owner c p pc -> toucher c p tch ->
  local t pc (rq c p) (rp c p) tch -> ok_at c p.
Proof. intros Hp ???. unfold ok_at. rewrite Hp. by exists pc, tch. Qed.

(** An action about [p] only has to be checked at [p]. *)
Lemma inv_at c c' p :
  inv c ->
  (forall q, q <> p ->
     heap (drv c') !! q = heap (drv c) !! q /\
     (q ∈ Uvfs_requests (drv c') <-> q ∈ Uvfs_requests (drv c)) /\
     (q ∈ Uvfs_replies (drv c') <-> q ∈ Uvfs_replies (drv c)) /\
     same_owners c c' q /\ same_touchers c c' q) ->
  NoDup (Uvfs_requests (drv c') ++ Uvfs_replies (drv c')) ->
  queue_ok c' -> count_ok c' -> ok_at c' p -> inv c'.
Proof.
  intros Hinv Hq ??? Hp. split; try done. intros q.
  destruct (decide (q = p)) as [->|Hne]; [done|].
  destruct (Hq q Hne) as (?&?&?&?&?). by eapply ok_at_frame, (inv_ok c Hinv).
Qed.

(** An action that leaves every transaction alone. *)
Lemma inv_none c c' :
  inv c ->
  heap (drv c') = heap (drv c) ->
  Uvfs_requests (drv c') = Uvfs_requests (drv c) ->
  Uvfs_replies (drv c') = Uvfs_replies (drv c) ->
  (forall q, same_owners c c' q) -> (forall q, same_touchers c c' q) ->
  queue_ok c' -> count_ok c' -> inv c'.
Proof.
  intros Hinv Hh Hq Hr Ho Ht ??. split; try done.
  - intros p. apply (ok_at_frame c); rewrite ?Hh, ?Hq, ?Hr; try done.
    + apply Ho.
    + apply Ht.
    + apply (inv_ok c Hinv).
  - rewrite Hq, Hr. apply (inv_nodup c Hinv).
Qed.

(** The wait queue. *)
Lemma wake_first_tasks q : map fst (wake_first q) = map fst q.
Proof. induction q as [|[s []] q IH]; cbn; congruence. Qed.

Lemma queue_ok_same c c' :
  map fst (Uvfs_driver_queue (drv c')) = map fst (Uvfs_driver_queue (drv c)) ->
  (forall s, servers c' !! s = Some SSleep <-> servers c !! s = Some SSleep) ->
  queue_ok c -> queue_ok c'.
Proof. intros Hq Hs [H1 H2]. unfold queue_ok. rewrite Hq. split; [done|]. intros s. by rewrite H2, Hs. Qed.

Lemma same_sleep_put c c' s pc1 :
  servers c' = <[s := pc1]> (servers c) -> pc1 <> SSleep -> servers c !! s <> Some SSleep ->
  forall s', servers c' !! s' = Some SSleep <-> servers c !! s' = Some SSleep.
Proof.
  intros E H1 H2 s'. rewrite E. destruct (decide (s = s')) as [->|Hne].
  - rewrite lookup_insert_eq. naive_solver.
  - by rewrite lookup_insert_ne.
Qed.

Lemma count_ok_same c c' :
  uvfs_use_count (drv c') = uvfs_use_count (drv c) ->
  size (servers c') = size (servers c) -> count_ok c -> count_ok c'.
Proof. unfold count_ok. by intros -> ->. Qed.

Lemma size_put (m : gmap task server_pc) s pc0 pc1 :
  m !! s = Some pc0 -> size (<[s := pc1]> m) = size m.
Proof. intros H. apply map_size_insert_Some. eauto. Qed.

(** ** Reading the invariant *)

Section facts.
Context (c : config) (Hinv : inv c).

Lemma owner_live cl pc p :
  owns c cl pc p ->
  exists t tch, heap (drv c) !! p = Some t /\ owner c p pc /\ toucher c p tch /\
    local t pc (rq c p) (rp c p) tch.
Proof.
  intros Ho. pose proof (inv_ok c Hinv p) as Hp. unfold ok_at in Hp.
  destruct (heap (drv c) !! p) as [t|] eqn:Eh.
  - destruct Hp as (pc' & tch & Hown & ? & ?). exists t, tch.
    destruct Hown as (cl' & [Hcl Hptr] & Hu). pose proof (Hu _ _ Ho) as ->.
    destruct Ho as [Ho1 Ho2]. rewrite Hcl in Ho1. injection Ho1 as ->.
    split_and!; try done. exists cl'. split; [done|]. eauto.
  - destruct Hp as [Hp _]. by destruct (Hp cl pc).
Qed.

Lemma toucher_live s pc p :
  touches c s pc p ->
  exists t cpc, heap (drv c) !! p = Some t /\ owner c p cpc /\
    toucher c p (Some pc) /\ local t cpc (rq c p) (rp c p) (Some pc).
Proof.
  intros Ho. pose proof (inv_ok c Hinv p) as Hp. unfold ok_at in Hp.
  destruct (heap (drv c) !! p) as [t|] eqn:Eh.
  - destruct Hp as (cpc & tch & Hown & Ht & Hl). exists t, cpc.
    destruct tch as [pc'|]; [|by destruct (Ht s pc)].
    destruct Ht as (s' & [Hs' Hp'] & Hu). pose proof (Hu _ _ Ho) as ->.
    destruct Ho as [Ho1 Ho2]. rewrite Hs' in Ho1. injection Ho1 as ->.
    split_and!; try done. exists s'. split; [done|]. eauto.
  - destruct Hp as (_ & Hp & _). by destruct (Hp s pc).
Qed.

Lemma listed_live p :
  p ∈ Uvfs_requests (drv c) ++ Uvfs_replies (drv c) ->
  exists t cpc tch, heap (drv c) !! p = Some t /\ owner c p cpc /\
    toucher c p tch /\ local t cpc (rq c p) (rp c p) tch.
Proof.
  intros Hin. pose proof (inv_ok c Hinv p) as Hp. unfold ok_at in Hp.
  destruct (heap (drv c) !! p) as [t|] eqn:Eh.
  - destruct Hp as (cpc & tch & ? & ? & ?). by exists t, cpc, tch.
  - destruct Hp as (_ & _ & Hq & Hr). unfold rq, rp in *.
    apply bool_decide_eq_false in Hq, Hr. set_solver.
Qed.
End facts.

(** Two owners of one transaction are the same task. *)
Lemma owner_unique c p pc cl1 pc1 cl2 pc2 :
  owner c p pc -> owns c cl1 pc1 p -> owns c cl2 pc2 p -> cl1 = cl2.
Proof. intros (cl & _ & Hu) H1 H2. by rewrite (Hu _ _ H1), (Hu _ _ H2). Qed.
