(* ===== verification/DriverSafe.v ===== *)
(** * Preservation of the driver's invariant, and memory safety

    One lemma per action: in a configuration that satisfies the invariant the
    action runs without a fault and the invariant holds afterwards. *)

From stdpp Require Import prelude gmap list strings.
From Stdlib Require Import ZArith Lia.
From S2P Require Import Prelude Protocol Driver DriverSteps DriverInv.

Open Scope string_scope.
Open Scope list_scope.
Open Scope Z_scope.

(** ** Automation *)

Lemma on_drv_eq {A} (m : M driver A) c a d :
  m (drv c) = Some (a, d) -> on_drv m c = Some (a, Config d (clients c) (servers c)).
Proof. unfold on_drv. by intros ->. Qed.

Lemma on_drv_config {A} (m : M driver A) d cls srv a d' :
  m d = Some (a, d') -> on_drv m (Config d cls srv) = Some (a, Config d' cls srv).
Proof. apply (on_drv_eq m (Config d cls srv)). Qed.

Definition safe (a : action) (c : config) : Prop :=
  exists c', run a c = Some (tt, c') /\ inv c'.

Lemma rq_true c p : rq c p = true <-> p ∈ Uvfs_requests (drv c).
Proof. apply bool_decide_eq_true. Qed.
Lemma rp_true c p : rp c p = true <-> p ∈ Uvfs_replies (drv c).
Proof. apply bool_decide_eq_true. Qed.
Lemma rq_false c p : rq c p = false <-> p ∉ Uvfs_requests (drv c).
Proof. apply bool_decide_eq_false. Qed.
Lemma rp_false c p : rp c p = false <-> p ∉ Uvfs_replies (drv c).
Proof. apply bool_decide_eq_false. Qed.

Lemma rq_same c c' p : Uvfs_requests (drv c') = Uvfs_requests (drv c) -> rq c' p = rq c p.
Proof. unfold rq. by intros ->. Qed.
Lemma rp_same c c' p : Uvfs_replies (drv c') = Uvfs_replies (drv c) -> rp c' p = rp c p.
Proof. unfold rp. by intros ->. Qed.

Lemma not_removed p l : p ∉ remove_ptr p l.
Proof. rewrite remove_ptr_elem. naive_solver. Qed.

Lemma read_copy_spec_at d p t :
  heap d !! p = Some t -> request_ok (t_serial t) (t_u t) ->
  uvfsd_read_copy p d = Some (rd_bytes 0 (get_int uvfs_generic_req_s "size" (t_u t)) (t_u t), d).
Proof.
  intros Hd (_ & _ & Hs). unfold uvfsd_read_copy. rewrite (get_trans_bind p d t) by done.
  revert Hs. set (size := get_int _ _ _). layout. intros Hs.
  rewrite (proj2 (Z.leb_le 0 size)), (proj2 (Z.leb_le size 4156)) by lia. done.
Qed.

(** [run_bind E] runs the driver computation whose result [E] states. *)
Ltac run_unfold := unfold run, mbind, M_bind, mret, M_ret, gets, modify, put_client,
  drop_client, put_server, drop_server, after_pass.
Ltac run_bind E :=
  first [rewrite (on_drv_eq _ _ _ _ E) | rewrite (on_drv_config _ _ _ _ _ _ E)];
  cbn [drv clients servers].

(** The obligations of [inv_at] for the other transactions. *)
Ltac others :=
  let q := fresh "q" in let Hq := fresh "Hq" in
  intros q Hq; cbn [drv heap Uvfs_requests Uvfs_replies set_heap set_lists set_queue];
  split_and!;
  [ rewrite ?lookup_insert_ne, ?lookup_delete_ne by congruence; done
  | rewrite ?elem_of_app, ?remove_ptr_elem, ?list_elem_of_singleton; tauto
  | rewrite ?elem_of_app, ?remove_ptr_elem, ?list_elem_of_singleton; tauto
  | first [ by apply same_owners_eq
          | eapply same_owners_put; [done|cbn; congruence|];
            intros ? ?; simplify_eq; cbn; congruence
          | eapply same_owners_drop; [done|]; intros ? ?; simplify_eq; cbn; congruence ]
  | first [ by apply same_touchers_eq
          | eapply same_touchers_put; [done|cbn; congruence|];
            intros ? ?; simplify_eq; cbn; congruence ] ].

(** ** Facts about transactions in flight *)

Lemma error_set e t : int_range e -> error_of (with_u (set_error e) t) = e.
Proof.
  intros He. unfold error_of, set_error. layout. cbn. rewrite rd32s_wr32. by apply s32_small.
Qed.

Lemma in_flight_answered t rqb rpb tch :
  in_flight t rqb rpb tch -> t_answered t = true -> quiet t rqb rpb tch.
Proof.
  unfold in_flight, quiet. destruct tch as [[]|]; intuition congruence.
Qed.

Lemma in_flight_idle t rqb rpb tch :
  in_flight t rqb rpb tch -> t_in_use t = false -> tch = None.
Proof. unfold in_flight. destruct tch as [[]|]; intuition congruence. Qed.

Lemma in_flight_waiting t rqb rpb tch :
  in_flight t rqb rpb tch -> t_answered t = false -> tch = None ->
  request_ok (t_serial t) (t_u t).
Proof. unfold in_flight. intros H ? ->. intuition congruence. Qed.

(** ** The client's actions *)

(** [client_at c Hinv p] leaves the lists and the transaction [p] itself. *)
Ltac client_at c Hinv p :=
  eexists; split; [done|]; apply (inv_at c _ p);
  [ exact Hinv | others |
  | apply (queue_ok_same c); [by cbn; rewrite ?wake_first_tasks|done|apply (inv_queue c Hinv)]
  | apply (count_ok_same c); [done|done|apply (inv_count c Hinv)] | ].

Ltac same_owner c := eapply (owner_same c); [by apply same_owners_eq|done].
Ltac same_toucher c := eapply (toucher_same c); [by apply same_touchers_eq|done].
Ltac moved_owner c := eapply (owner_put c); [done|done|done|by eexists].

Section client.
Context (c : config) (Hinv : inv c).

Lemma safe_new cl p u : enabled (ANew cl p u) c -> safe (ANew cl p u) c.
Proof.
  intros [Hcl Hp]. pose proof (inv_ok c Hinv p) as Hok. unfold ok_at in Hok.
  rewrite Hp in Hok. destruct Hok as (Hno & Hnt & Hq & Hr).
  unfold safe. run_unfold. run_bind (new_transaction_spec (drv c) p u Hp).
  client_at c Hinv p; [apply (inv_nodup c Hinv)|].
  eapply ok_at_live; [apply lookup_insert_eq|by eapply owner_new| |].
  - eapply (toucher_same c _ _ None); [by apply same_touchers_eq|]. intros s pc. apply Hnt.
  - cbn. unfold quiet. rewrite (rq_same c), (rp_same c) by done. naive_solver.
Qed.

Lemma safe_build cl f : enabled (ABuild cl f) c -> safe (ABuild cl f) c.
Proof.
  intros (p & t & Hcl & Hp & _).
  destruct (owner_live c Hinv cl (CBuilt p) p) as (t' & tch & Hp' & Ho & Ht & Hl); [done|].
  simplify_eq. unfold safe. run_unfold. rewrite Hcl. unfold on_drv, upd_trans. rewrite Hp.
  client_at c Hinv p; [apply (inv_nodup c Hinv)|].
  eapply ok_at_live; [apply lookup_insert_eq|same_owner c|same_toucher c|].
  by rewrite (rq_same c), (rp_same c).
Qed.

Lemma safe_submit cl : enabled (ASubmit cl) c -> safe (ASubmit cl) c.
Proof.
  intros (p & t & Hcl & Hp & Hreq).
  destruct (owner_live c Hinv cl (CBuilt p) p) as (t' & tch & Hp' & Ho & Ht & Hl); [done|].
  simplify_eq. destruct Hl as ((Hq & Hr & -> & Hiu) & Ha & Hab & Has).
  apply rq_false in Hq as Hq'. apply rp_false in Hr as Hr'.
  unfold safe. run_unfold. rewrite Hcl.
  destruct (decide (uvfs_use_count (drv c) = 0)) as [Hz|Hz].
  - run_bind (submit_down (drv c) p t Hz Hp).
    client_at c Hinv p; [apply (inv_nodup c Hinv)|].
    eapply ok_at_live; [apply lookup_insert_eq|moved_owner c|same_toucher c|].
    rewrite (rq_same c), (rp_same c) by done. cbn. unfold quiet.
    split_and!; try done. right; left. by apply error_set.
  - run_bind (submit_up (drv c) p t Hz Hp).
    client_at c Hinv p.
    + cbn. rewrite <- app_assoc, Permutation_app_comm, <- app_assoc. cbn.
      apply NoDup_cons. rewrite Permutation_app_comm. split; [set_solver|].
      apply (inv_nodup c Hinv).
    + eapply ok_at_live; [done|moved_owner c|same_toucher c|].
      rewrite (rp_same c) by done. cbn.
      rewrite Hr, (proj2 (rq_true _ _)) by (cbn; set_solver). naive_solver.
Qed.

Lemma safe_wait cl sig : enabled (AWait cl sig) c -> safe (AWait cl sig) c.
Proof.
  intros (p & Hcl & _).
  destruct (owner_live c Hinv cl (CWait p) p) as (t & tch & Hp & Ho & Ht & Hl); [done|].
  destruct Hl as (Hf & Hab & Has).
  unfold safe. run_unfold. rewrite Hcl. run_bind (get_trans_live _ _ _ Hp).
  run_bind (wait_spec (drv c) p t sig Hp).
  destruct (t_answered t || sig) eqn:E.
  - client_at c Hinv p; [apply (inv_nodup c Hinv)|].
    eapply ok_at_live; [apply lookup_insert_eq|moved_owner c|same_toucher c|].
    rewrite (rq_same c), (rp_same c) by done. cbn. split_and!; try done.
    by destruct (t_answered t).
  - client_at c Hinv p; [apply (inv_nodup c Hinv)|].
    eapply ok_at_live; [apply lookup_insert_eq|same_owner c|same_toucher c|].
    rewrite (rq_same c), (rp_same c) by done. cbn. split_and!; try done.
    by apply orb_false_elim in E as [-> _].
Qed.

Lemma list_del_nodup p :
  NoDup (remove_ptr p (Uvfs_requests (drv c)) ++ remove_ptr p (Uvfs_replies (drv c))).
Proof. apply remove_both_nodup, (inv_nodup c Hinv). Qed.

(** A transaction that is off the lists and in nobody's hands. *)
Lemma quiet_removed c' p t :
  Uvfs_requests (drv c') = remove_ptr p (Uvfs_requests (drv c)) ->
  Uvfs_replies (drv c') = remove_ptr p (Uvfs_replies (drv c)) ->
  t_in_use t = false -> quiet t (rq c' p) (rp c' p) None.
Proof.
  intros Eq Er Hiu. unfold quiet, rq, rp. rewrite Eq, Er.
  rewrite !bool_decide_eq_false_2 by apply not_removed. done.
Qed.

Lemma safe_check cl sig : enabled (ACheck cl sig) c -> safe (ACheck cl sig) c.
Proof.
  intros (p & b & Hcl & Hb).
  destruct (owner_live c Hinv cl (CCheck p b) p) as (t & tch & Hp & Ho & Ht & Hl); [done|].
  destruct Hl as (Hf & Hab & Has & Han).
  unfold safe. run_unfold. rewrite Hcl. destruct sig.
  - destruct (t_in_use t) eqn:Eu.
    + run_bind (check_in_use (drv c) p t Hp Eu).
      client_at c Hinv p; [apply (inv_nodup c Hinv)|].
      eapply ok_at_live; [apply lookup_insert_eq|moved_owner c|same_toucher c|].
      rewrite (rq_same c), (rp_same c) by done. done.
    + run_bind (check_idle (drv c) p t Hp Eu).
      assert (tch = None) as -> by by eapply in_flight_idle.
      client_at c Hinv p; [apply list_del_nodup|].
      eapply ok_at_live; [apply lookup_insert_eq|moved_owner c|same_toucher c|].
      split; [by apply quiet_removed|]. split; [done|]. right; right. by apply error_set.
  - run_bind (check_no_signal (drv c) p).
    destruct b; [by specialize (Hb eq_refl)|]. specialize (Han eq_refl).
    destruct (in_flight_answered _ _ _ _ Hf Han) as (Hq & Hr & -> & Hiu).
    client_at c Hinv p; [apply (inv_nodup c Hinv)|].
    eapply ok_at_live; [done|moved_owner c|same_toucher c|].
    rewrite (rq_same c), (rp_same c) by done. unfold local, quiet. naive_solver.
Qed.

Lemma safe_wait_idle cl : enabled (AWaitIdle cl) c -> safe (AWaitIdle cl) c.
Proof.
  intros (p & Hcl & _).
  destruct (owner_live c Hinv cl (CAbort p) p) as (t & tch & Hp & Ho & Ht & Hl); [done|].
  destruct Hl as (Hf & Hab & Has).
  unfold safe. run_unfold. rewrite Hcl.
  run_bind (wait_idle_spec (drv c) p t Hp). destruct (t_in_use t) eqn:Eu; cbn [negb].
  - client_at c Hinv p; [apply (inv_nodup c Hinv)|].
    eapply ok_at_live; [apply lookup_insert_eq|same_owner c|same_toucher c|].
    rewrite (rq_same c), (rp_same c) by done. done.
  - assert (tch = None) as -> by by eapply in_flight_idle.
    run_bind (aborted_spec (set_heap (<[p := with_asleep false t]> (heap (drv c))) (drv c))
                p _ (lookup_insert_eq _ p _)).
    cbn [heap set_heap]. rewrite insert_insert_eq.
    client_at c Hinv p; [apply list_del_nodup|].
    eapply ok_at_live; [apply lookup_insert_eq|moved_owner c|same_toucher c|].
    split; [by apply quiet_removed|]. split; [done|]. right; right. by apply error_set.
Qed.

Lemma safe_free cl : enabled (AFree cl) c -> safe (AFree cl) c.
Proof.
  intros (p & Hcl).
  destruct (owner_live c Hinv cl (CDone p) p) as (t & tch & Hp & Ho & Ht & Hl); [done|].
  destruct Hl as ((Hq & Hr & -> & Hiu) & Has & _).
  unfold safe. run_unfold. rewrite Hcl. run_bind (kfree_spec (drv c) p t Hp).
  client_at c Hinv p; [apply (inv_nodup c Hinv)|].
  unfold ok_at. cbn. rewrite lookup_delete_eq. split_and!; try done.
  intros cl' pc [H1 H2]. destruct Ho as (cl0 & H0 & Hu).
  pose proof (Hu cl (CDone p) (conj Hcl eq_refl)) as ->. cbn in H1.
  destruct (decide (cl0 = cl')) as [->|Hne]; [by rewrite lookup_delete_eq in H1|].
  rewrite lookup_delete_ne in H1 by done. apply Hne. symmetry. by apply (Hu cl' pc).
Qed.
End client.

(** ** The servers' actions *)

(** [server_at c Hinv s p] for an action in which server [s], awake before and
    after, changes the transaction [p]. *)
Ltac server_queue c Hinv s :=
  apply (queue_ok_same c);
  [ by cbn; rewrite ?wake_first_tasks
  | eapply (same_sleep_put c); [done|done|congruence]
  | apply (inv_queue c Hinv) ].
Ltac server_count c Hinv :=
  apply (count_ok_same c); [done|by eapply size_put|apply (inv_count c Hinv)].
Ltac server_at c Hinv s p :=
  eexists; split; [done|]; apply (inv_at c _ p);
  [ exact Hinv | others | | server_queue c Hinv s | server_count c Hinv | ].
Ltac server_none c Hinv s :=
  apply (inv_none c);
  [ exact Hinv | done | done | done | intros ?; by apply same_owners_eq
  | intros ?; eapply same_touchers_put; [done|done|]; intros ? ?; simplify_eq; done
  | server_queue c Hinv s | server_count c Hinv ].

Section server.
Context (c : config) (Hinv : inv c).

(** A listed transaction is one whose client waits for it. *)
Lemma listed_in_flight p :
  p ∈ Uvfs_requests (drv c) ++ Uvfs_replies (drv c) ->
  exists t pc tch, heap (drv c) !! p = Some t /\ owner c p pc /\ toucher c p tch /\
    local t pc (rq c p) (rp c p) tch /\ in_flight t (rq c p) (rp c p) tch /\
    t_answered t = false /\ request_ok (t_serial t) (t_u t) /\
    (tch = None \/ rp c p = true).
Proof.
  intros Hin. destruct (listed_live c Hinv p Hin) as (t & pc & tch & Hp & Ho & Ht & Hl).
  assert (rq c p = true \/ rp c p = true) as Hb.
  { apply elem_of_app in Hin as [?|?]; [left; by apply rq_true|right; by apply rp_true]. }
  exists t, pc, tch.
  assert (in_flight t (rq c p) (rp c p) tch) as Hf
    by (destruct pc; cbn in Hl; unfold quiet in Hl; intuition congruence).
  split_and!; try done; unfold in_flight in Hf; destruct tch as [[]|];
    intuition congruence.
Qed.

Lemma requests_live p : p ∈ Uvfs_requests (drv c) -> is_Some (heap (drv c) !! p).
Proof.
  intros Hp. destruct (listed_in_flight p) as (t & ? & ? & Ht & _); [set_solver|eauto].
Qed.

Lemma replies_live p : p ∈ Uvfs_replies (drv c) -> is_Some (heap (drv c) !! p).
Proof.
  intros Hp. destruct (listed_in_flight p) as (t & ? & ? & Ht & _); [set_solver|eauto].
Qed.

(** A server acts on a transaction that is in flight. *)
Lemma local_flight t t' cpc b1 b2 tch b1' b2' tch' :
  local t cpc b1 b2 tch -> in_flight t b1 b2 tch -> t_answered t = false ->
  in_flight t' b1' b2' tch' -> t_abort t' = t_abort t ->
  (t_asleep t' = true ->
   t_asleep t = true /\ t_answered t' = false /\ (t_in_use t' = true \/ t_abort t = false)) ->
  local t' cpc b1' b2' tch'.
Proof using Type.
  intros Hl Hf Ha Hf' Hab Hs.
  destruct cpc; cbn in *; unfold quiet in *.
  - exfalso. destruct Hl as ((-> & -> & -> & _) & _). cbn in Hf. intuition congruence.
  - split_and!; [done|intuition congruence|naive_solver].
  - split_and!; [done|intuition congruence| |intuition congruence].
    destruct (t_asleep t') eqn:E; [|done]. destruct (Hs eq_refl). intuition congruence.
  - split_and!; [done|intuition congruence|]. intros E. destruct (Hs E) as (_ & _ & [?|?]); [done|].
    intuition congruence.
  - exfalso. destruct Hl as ((-> & -> & -> & _) & _). cbn in Hf. intuition congruence.
Qed.

Lemma touched_flight s pc p :
  servers c !! s = Some pc -> touch pc = Some p ->
  exists t cpc, heap (drv c) !! p = Some t /\ owner c p cpc /\ toucher c p (Some pc) /\
    local t cpc (rq c p) (rp c p) (Some pc) /\ in_flight t (rq c p) (rp c p) (Some pc).
Proof.
  intros Hs Hp. destruct (toucher_live c Hinv s pc p) as (t & cpc & ? & ? & ? & Hl); [done|].
  exists t, cpc. split_and!; try done.
  destruct cpc; cbn in Hl; unfold quiet in Hl; intuition congruence.
Qed.

Lemma safe_read s : servers c !! s = Some SIdle -> safe (ARead s) c.
Proof.
  intros Hs. unfold safe. run_unfold.
  destruct (read_pass_cases (drv c) requests_live)
    as [Hsd|[(Hsd & Hrq)|(p & l & t & Hsd & Hrq & Hp)]].
  - run_bind (read_pass_shutdown (drv c) s Hsd). eexists. split; [done|].
    server_none c Hinv s.
  - run_bind (read_pass_sleep (drv c) s Hsd Hrq). eexists. split; [done|].
    apply (inv_none c); [exact Hinv|done|done|done|intros ?; by apply same_owners_eq| | |].
    + intros ?; eapply same_touchers_put; [done|done|]; intros ? ?; by simplify_eq.
    + destruct (inv_queue c Hinv) as [H1 H2]. split; cbn; rewrite map_app; cbn.
      * apply NoDup_app. split; [done|]. split; [|apply NoDup_singleton].
        intros x Hx ->%list_elem_of_singleton. apply H2 in Hx. congruence.
      * intros x. rewrite elem_of_app, list_elem_of_singleton, H2.
        destruct (decide (s = x)) as [->|Hne].
        -- rewrite lookup_insert_eq. naive_solver.
        -- rewrite lookup_insert_ne by done. naive_solver.
    + server_count c Hinv.
  - run_bind (read_pass_take (drv c) s p l t Hsd Hrq Hp).
    destruct (listed_in_flight p) as (t' & pc & tch & Hp' & Ho & Ht & Hl & Hf & Ha & Hreq & Hor);
      [rewrite Hrq; set_solver|]. simplify_eq.
    assert (rq c p = true) as Hq by (apply rq_true; rewrite Hrq; set_solver).
    assert (tch = None) as ->.
    { unfold in_flight in Hf. destruct tch as [[]|]; intuition congruence. }
    assert (rp c p = false) as Hr.
    { rewrite Hq in Hf. cbn in Hf. destruct (rp c p); cbn in Hf; intuition congruence. }
    eexists. split; [done|]. apply (inv_at c _ p); [exact Hinv| | | | |].
    + rewrite <- (remove_ptr_cons p l), <- Hrq. others.
    + cbn. rewrite app_assoc. rewrite <- (remove_ptr_cons p l), <- Hrq. apply NoDup_app.
      split; [apply list_del_nodup, Hinv|]. split; [|apply NoDup_singleton].
      intros x Hx ->%list_elem_of_singleton. by apply elem_of_app in Hx as [?%not_removed|?%not_removed].
    + server_queue c Hinv s.
    + server_count c Hinv.
    + eapply ok_at_live; [apply lookup_insert_eq|same_owner c|by eapply toucher_start|].
      eapply local_flight; [done|done|done| |done|cbn; naive_solver].
      cbn. split_and!; try done.
      * apply rq_false. cbn. apply not_removed.
      * apply rp_true. cbn. set_solver.
Qed.

(** Waking up takes the task off the wait queue. *)
Lemma inv_woken s :
  servers c !! s = Some SSleep ->
  exists d, remove_wait_queue s (drv c) = Some (tt, d) /\
    ShuttingDown d = ShuttingDown (drv c) /\ Uvfs_requests d = Uvfs_requests (drv c) /\
    inv (Config d (clients c) (<[s := SIdle]> (servers c))).
Proof.
  intros Hs. eexists. split_and!; [done..|].
  apply (inv_none c); [exact Hinv|done|done|done|intros ?; by apply same_owners_eq| | |].
  - intros ?; eapply same_touchers_put; [done|done|]; intros ? ?; by simplify_eq.
  - destruct (inv_queue c Hinv) as [H1 H2].
    assert (forall q, map fst (filter (fun e : task * bool => fst e <> s) q)
                      = filter (fun x => x <> s) (map fst q)) as E.
    { induction q as [|[x b] q IH]; [done|]. cbn [map fst].
      destruct (decide (x = s)) as [->|Hne].
      - by rewrite !filter_cons_False by naive_solver.
      - rewrite !filter_cons_True by done. cbn. by rewrite IH. }
    split; cbn; rewrite E; [by apply NoDup_filter|].
    intros x. rewrite list_elem_of_filter, H2. destruct (decide (s = x)) as [->|Hne].
    + rewrite lookup_insert_eq. naive_solver.
    + rewrite lookup_insert_ne by done. naive_solver.
  - server_count c Hinv.
Qed.

Lemma safe_shutdown_out s stack ret :
  servers c !! s = Some SShutdown -> safe (AShutdownOut s stack ret) c.
Proof.
  intros Hs. unfold safe. run_unfold.
  eexists. split; [done|]. server_none c Hinv s.
Qed.

Lemma safe_copy_out s ret : enabled (ACopyOut s ret) c -> safe (ACopyOut s ret) c.
Proof.
  intros (p & Hs). destruct (touched_flight s (SCopyOut p) p Hs eq_refl)
    as (t & cpc & Hp & Ho & Ht & Hl & Hf).
  pose proof Hf as (Hiu & Ha & Hq & Hr & Hreq).
  unfold safe. run_unfold. rewrite Hs.
  pose proof (read_copy_spec_at (drv c) p t Hp Hreq) as E.
  run_bind E. server_at c Hinv s p; [apply (inv_nodup c Hinv)|].
  eapply ok_at_live; [done|same_owner c|by eapply (toucher_move c)|].
  rewrite (rq_same c), (rp_same c) by done. eapply local_flight; [done..|tauto].
Qed.

Lemma safe_read_done s : enabled (AReadDone s) c -> safe (AReadDone s) c.
Proof.
  intros (p & ret & Hs). destruct (touched_flight s (SReadDone p ret) p Hs eq_refl)
    as (t & cpc & Hp & Ho & Ht & Hl & Hf).
  pose proof Hf as (Hiu & Ha & Hq & Hr & Hreq).
  unfold safe. run_unfold. rewrite Hs. run_bind (read_done_spec (drv c) p t Hp).
  server_at c Hinv s p; [apply (inv_nodup c Hinv)|].
  eapply ok_at_live; [apply lookup_insert_eq|same_owner c|by eapply (toucher_end c)|].
  rewrite (rq_same c), (rp_same c) by done. eapply local_flight; [done..| |done|].
  - cbn. rewrite Hq, Hr. split; [done|]. left. done.
  - cbn. intros [-> Hab]%andb_true_iff. by destruct (t_abort t); auto.
Qed.

Lemma inv_return s c' :
  enabled (AReturn s) c -> run (AReturn s) c = Some (tt, c') -> inv c'.
Proof.
  intros (p & ret & Hs). run_unfold. rewrite Hs. unfold on_drv, uvfsd_read_return.
  intros E. assert (c' = Config (drv c) (clients c) (<[s := SIdle]> (servers c))) as ->.
  { revert E. exec_unfold. destruct (truthy ret); [by intros [= <-]|].
    destruct (heap (drv c) !! p); [by intros [= <-]|done]. }
  server_none c Hinv s.
Qed.
Lemma safe_write s count buff :
  enabled (AWrite s count buff) c -> polite (AWrite s count buff) c ->
  safe (AWrite s count buff) c.
Proof.
  intros [Hs Hcount] [Hfit Hpol]. unfold safe. run_unfold.
  destruct (uvfsd_write_check count buff 0) as [e|[serial size]] eqn:Echk; [by exists c|].
  assert (serial = get_int uvfs_generic_rep_s "serial" buff /\ 0 <= size <= sizeof uvfs_reply_u)
    as [-> Hsize].
  { revert Echk. unfold uvfsd_write_check.
    destruct (count <? _); [done|]. destruct (truthy 0) eqn:E0; [done|].
    destruct (u64 (get_int uvfs_generic_rep_s "size" buff) =? count) eqn:Eu; [|done].
    apply Z.eqb_eq in Eu. cbn. intros [= <- <-]. split; [done|]. split; [|done].
    pose proof (rd32s_range (offsetof uvfs_generic_rep_s "size") buff) as Hr.
    fold (get_int uvfs_generic_rep_s "size" buff) in Hr. unfold int_range in Hr.
    destruct (Z.le_gt_cases 0 (get_int uvfs_generic_rep_s "size" buff)) as [|Hneg]; [done|].
    exfalso. unfold u64 in Eu. rewrite <- (Z_mod_plus_full _ 1) in Eu.
    rewrite Z.mod_small in Eu; lia. }
  destruct (find_reply_cases (drv c) (get_int uvfs_generic_rep_s "serial" buff)
              (Uvfs_replies (drv c)) replies_live)
    as [Hno|(l1 & p & l2 & t & Hl & Hp & Hser & Hbefore)].
  { run_bind (write_take_none _ _ Hno). eexists. split; [done|].
    apply (inv_none c); [exact Hinv|done|done|done|intros ?; by apply same_owners_eq
      |intros ?; by apply same_touchers_eq| |].
    - apply (queue_ok_same c); [done|done|apply (inv_queue c Hinv)].
    - apply (count_ok_same c); [done|done|apply (inv_count c Hinv)]. }
  run_bind (write_take_some _ _ _ _ _ _ Hl Hbefore Hp Hser).
  destruct (listed_in_flight p) as (t' & pc & tch & Hp' & Ho & Ht & Hl' & Hf & Ha & Hreq & Hor);
    [rewrite Hl; set_solver|]. simplify_eq.
  assert (tch = None) as ->.
  { destruct tch as [spc|]; [|done]. exfalso. destruct Ht as (s' & [Hs' Ht'] & _).
    by eapply (Hpol s' spc p t). }
  server_at c Hinv s p; [apply list_del_nodup, Hinv|].
  eapply ok_at_live; [apply lookup_insert_eq|same_owner c|by eapply toucher_start|].
  eapply local_flight; [done|done|done| |done|cbn; tauto].
  destruct Hsize. cbn. split_and!; try done.
  - apply rq_false, not_removed.
  - apply rp_false, not_removed.
Qed.

Lemma safe_copy_in s buff ret : enabled (ACopyIn s buff ret) c -> safe (ACopyIn s buff ret) c.
Proof.
  intros (p & b & size & Hs & Hret).
  destruct (touched_flight s (SCopyIn p b size) p Hs eq_refl)
    as (t & cpc & Hp & Ho & Ht & Hl & Hf).
  pose proof Hf as (Hiu & Ha & Hq & Hr & Hsize).
  unfold safe. run_unfold. rewrite Hs.
  assert (uvfsd_write_copy p buff size ret (drv c) =
    Some (tt, set_heap (<[p := with_u (wr_bytes 0 (rd_bytes 0 (size - ret) buff ++
                                        replicate (Z.to_nat ret) 0)) t]> (heap (drv c)))
                       (drv c))) as E.
  { unfold uvfsd_write_copy. exec_unfold. rewrite Hp. revert Hsize. layout. intros Hsize.
    rewrite (proj2 (andb_true_iff _ _)) by (rewrite !Z.leb_le; lia). by rewrite Hp. }
  run_bind E. server_at c Hinv s p; [apply (inv_nodup c Hinv)|].
  eapply ok_at_live; [apply lookup_insert_eq|same_owner c|by eapply (toucher_move c)|].
  rewrite (rq_same c), (rp_same c) by done. eapply local_flight; [done..| |done|cbn; tauto].
  done.
Qed.

Lemma safe_write_done s : enabled (AWriteDone s) c -> safe (AWriteDone s) c.
Proof.
  intros (p & Hs). destruct (touched_flight s (SWriteDone p) p Hs eq_refl)
    as (t & cpc & Hp & Ho & Ht & Hl & Hf).
  pose proof Hf as (Hiu & Ha & Hq & Hr).
  unfold safe. run_unfold. rewrite Hs. run_bind (write_done_spec (drv c) p t Hp).
  server_at c Hinv s p; [apply (inv_nodup c Hinv)|].
  eapply ok_at_live; [apply lookup_insert_eq|same_owner c|by eapply (toucher_end c)|].
  rewrite (rq_same c), (rp_same c) by done. eapply local_flight; [done..| |done|done].
  cbn. rewrite Hq, Hr. tauto.
Qed.

Lemma safe_open s : enabled (AOpen s) c -> safe (AOpen s) c.
Proof.
  intros [Hs Hmax]. unfold safe. run_unfold. eexists. split; [done|].
  destruct (inv_count c Hinv) as [Hc1 Hc2].
  apply (inv_none c); [exact Hinv|done|done|done|intros ?; by apply same_owners_eq| | |].
  - intros ?; eapply same_touchers_put; [done|done|]. intros ? ?; simplify_eq.
  - apply (queue_ok_same c); [done| |apply (inv_queue c Hinv)].
    eapply (same_sleep_put c); [done|done|congruence].
  - unfold count_ok. cbn. rewrite map_size_insert_None by done. rewrite Hc1.
    unfold open_max in *. rewrite s32_small by (unfold int_range; lia). lia.
Qed.

Lemma status_lines_ok l :
  (forall p, p ∈ l -> p ∈ Uvfs_requests (drv c) ++ Uvfs_replies (drv c)) ->
  exists r, status_lines l (drv c) = Some (r, drv c).
Proof.
  induction l as [|p l IH]; intros Hl; [by eexists|].
  destruct IH as [r Hr]; [set_solver|].
  destruct (listed_in_flight p) as (t & _ & _ & Hp & _ & _ & _ & _ & _ & (Hty & _) & _);
    [set_solver|].
  unfold UVFS_SHUTDOWN in Hty. cbn [status_lines]. unfold status_line. exec_unfold. rewrite Hp.
  set (ty := get_int uvfs_generic_req_s "type" (t_u t)) in *.
  assert (exists nm, op_name ty = Some nm) as [nm ->].
  { unfold op_name. rewrite (proj2 (Z.ltb_ge _ _)) by lia. apply lookup_lt_is_Some.
    unfold Op_names. cbn [length]. lia. }
  rewrite Hr. by eexists.
Qed.

Lemma safe_ioctl s mounted cmd :
  enabled (AIoctl s mounted cmd) c -> safe (AIoctl s mounted cmd) c.
Proof.
  intros Hs. unfold safe. run_unfold.
  assert (exists r d, uvfsd_ioctl mounted cmd (drv c) = Some (r, d) /\
    heap d = heap (drv c) /\ Uvfs_requests d = Uvfs_requests (drv c) /\
    Uvfs_replies d = Uvfs_replies (drv c) /\ uvfs_use_count d = uvfs_use_count (drv c) /\
    map fst (Uvfs_driver_queue d) = map fst (Uvfs_driver_queue (drv c)))
    as (r & d & E & Hh & Hq & Hr & Hn & Hw).
  { unfold uvfsd_ioctl. exec_unfold. destruct (cmd =? UVFS_IOCTL_SHUTDOWN).
    { do 2 eexists. split; [done|]. cbn. by rewrite wake_first_tasks. }
    destruct (cmd =? UVFS_IOCTL_STATUS).
    { destruct (status_lines_ok (Uvfs_requests (drv c))) as [r1 E1]; [set_solver|].
      destruct (status_lines_ok (Uvfs_replies (drv c))) as [r2 E2]; [set_solver|].
      rewrite E1, E2. by do 2 eexists. }
    destruct (cmd =? UVFS_IOCTL_MOUNT); by do 2 eexists. }
  run_bind E. eexists. split; [done|].
  apply (inv_none c); [exact Hinv|done|done|done|intros ?; by apply same_owners_eq
    |intros ?; by apply same_touchers_eq| |].
  - apply (queue_ok_same c); [done|done|apply (inv_queue c Hinv)].
  - apply (count_ok_same c); [done|done|apply (inv_count c Hinv)].
Qed.
End server.

Lemma safe_woken c s sig : inv c -> enabled (AWoken s sig) c -> safe (AWoken s sig) c.
Proof.
  intros Hinv [Hs _]. destruct (inv_woken c Hinv s Hs) as (d & Ed & Hsd & Hrq & Hinv1).
  unfold safe. run_unfold. unfold uvfsd_read_woken, on_drv. exec_unfold.
  unfold remove_wait_queue, modify in Ed. injection Ed as Ed. rewrite Ed. destruct sig.
  - eexists. split; [done|]. done.
  - destruct (safe_read _ Hinv1 s) as (c' & E & Hinv'); [cbn; apply lookup_insert_eq|].
    revert E. run_unfold. unfold on_drv. cbn [drv clients servers].
    destruct (uvfsd_read_pass s d) as [[r d']|]; [|done]. intros [= <-]. revert Hinv'.
    cbn [drv clients servers]. rewrite insert_insert_eq. by eexists.
Qed.

(** *** Closing the device *)

Section close.
Context (c : config) (Hinv : inv c).

Lemma close_more s :
  servers c !! s = Some SIdle -> uvfs_use_count (drv c) <> 1 -> safe (AClose s) c.
Proof.
  intros Hs Hn. destruct (inv_count c Hinv) as [Hc1 Hc2].
  assert (size (servers c) <> 0%nat) as Hne by (eapply map_size_ne_0_lookup_2; eauto).
  unfold open_max in *.
  assert (s32 (uvfs_use_count (drv c) - 1) = uvfs_use_count (drv c) - 1) as Es
    by (apply s32_small; unfold int_range; lia).
  unfold safe. run_unfold. run_bind (release_more (drv c) ltac:(rewrite Es; lia)).
  eexists. split; [done|].
  apply (inv_none c); [exact Hinv|done|done|done|intros ?; by apply same_owners_eq| | |].
  - intros ?; eapply same_touchers_drop; [done|]; intros ? ?; by simplify_eq.
  - apply (queue_ok_same c); [done| |apply (inv_queue c Hinv)].
    intros s'. cbn. destruct (decide (s = s')) as [->|Hns].
    + rewrite lookup_delete_eq. naive_solver congruence.
    + by rewrite lookup_delete_ne.
  - unfold count_ok. cbn. rewrite Es, map_size_delete, Hs. cbn. unfold open_max. lia.
Qed.

Lemma only_server s :
  servers c !! s = Some SIdle -> uvfs_use_count (drv c) = 1 ->
  forall s' pc, servers c !! s' = Some pc -> s' = s /\ pc = SIdle.
Proof.
  intros Hs Hn s' pc Hs'. destruct (inv_count c Hinv) as [Hc1 _].
  destruct (decide (s' = s)) as [->|Hne]; [naive_solver congruence|]. exfalso.
  assert (delete s (servers c) = ∅) as E.
  { apply map_size_empty_inv. rewrite map_size_delete, Hs. cbn. lia. }
  assert (delete s (servers c) !! s' = Some pc) as E' by by rewrite lookup_delete_ne.
  by rewrite E in E'.
Qed.

Lemma safe_close s : enabled (AClose s) c -> safe (AClose s) c.
Proof.
  intros Hs. destruct (decide (uvfs_use_count (drv c) = 1)) as [Hn|Hn];
    [|by apply close_more].
  pose proof (only_server s Hs Hn) as Honly.
  unfold safe. run_unfold.
  run_bind (release_last (drv c) ltac:(by rewrite Hn) (inv_nodup c Hinv)
    (fun p Hp => match listed_live c Hinv p Hp with
                 | ex_intro _ t (ex_intro _ _ (ex_intro _ _ (conj H _))) => mk_is_Some _ t H
                 end)).
  eexists. split; [done|]. split; cbn.
  - intros p. pose proof (inv_ok c Hinv p) as Hp. unfold ok_at in *. cbn.
    rewrite lookup_fail_in. destruct (heap (drv c) !! p) as [t|] eqn:Eh; cbn.
    + destruct Hp as (pc & tch & Ho & Ht & Hl). exists pc, None.
      split; [same_owner c|].
      assert (tch = None) as ->.
      { destruct tch as [spc|]; [|done]. destruct Ht as (s' & [Hs' Ht'] & _).
        by destruct (Honly _ _ Hs') as [_ ->]. }
      split. { intros s' pc' [H1 H2]. cbn in H1. apply lookup_delete_Some in H1 as [_ H1].
               by destruct (Honly _ _ H1) as [_ ->]. }
      unfold rq, rp. cbn. rewrite (bool_decide_eq_false_2 (p ∈ [])) by apply not_elem_of_nil.
      case_bool_decide as Hin.
      * destruct (listed_in_flight c Hinv p Hin)
          as (t' & pc' & tch & Hp' & Ho' & Ht' & Hl' & Hf & Ha & _). simplify_eq.
        destruct pc; cbn in Hl |- *; unfold quiet in *;
          try (intuition congruence).
        all: exfalso; destruct Hl as ((Hq & Hr & _) & _);
             apply rq_false in Hq; apply rp_false in Hr; set_solver.
      * assert (rq c p = false /\ rp c p = false) as [Hq Hr]
          by (rewrite rq_false, rp_false; set_solver).
        by rewrite Hq, Hr in Hl.
    + destruct Hp as (Hno & Hnt & Hq & Hr). split; [done|]. split.
      * intros s' pc' [H1 H2]. cbn in H1. apply lookup_delete_Some in H1 as [_ H1].
        by apply (Hnt s' pc').
      * unfold rq, rp. cbn. rewrite (bool_decide_eq_false_2 (p ∈ [])) by apply not_elem_of_nil. done.
  - apply NoDup_nil_2.
  - apply (queue_ok_same c); [done| |apply (inv_queue c Hinv)].
    intros s'. cbn. destruct (decide (s = s')) as [->|Hns].
    + rewrite lookup_delete_eq. naive_solver congruence.
    + by rewrite lookup_delete_ne.
  - destruct (inv_count c Hinv) as [Hc1 _]. unfold count_ok, open_max. cbn.
    rewrite map_size_delete, Hs. cbn. lia.
Qed.
End close.
