(* ===== verification/DriverProps.v ===== *)
(** * What the driver guarantees, and what it does not (driver.c)

    The first part states the guarantees for every interleaving with a server
    that follows the protocol.  The second exhibits interleavings in which the
    driver fails: they are runs of concrete actions, found by evaluation. *)

From stdpp Require Import prelude gmap list strings.
From Stdlib Require Import ZArith Lia.
From S2P Require Import Prelude Protocol Driver DriverSteps DriverInv DriverSafe.

Open Scope string_scope.
Open Scope list_scope.
Open Scope Z_scope.

(** ** Executable runs *)

Definition request_okb (serial : Z) (u : mem) : bool :=
  let type := get_int uvfs_generic_req_s "type" u in
  let size := get_int uvfs_generic_req_s "size" u in
  (1 <=? type) && (type <? UVFS_SHUTDOWN) &&
  (get_int uvfs_generic_req_s "serial" u =? serial) &&
  (sizeof uvfs_generic_req_s <=? size) && (size <=? sizeof uvfs_request_u).

Definition is_idle (o : option server_pc) : bool :=
  match o with Some SIdle => true | _ => false end.

Definition enabledb (a : action) (c : config) : bool :=
  match a with
  | AOpen s => negb (bool_decide (is_Some (servers c !! s))) &&
               (Z.of_nat (size (servers c)) <? open_max)
  | AClose s | AIoctl s _ _ | ARead s => is_idle (servers c !! s)
  | AWrite s count _ => is_idle (servers c !! s) && (0 <=? count) && (count <? 2 ^ 63)
  | ANew cl p _ => negb (bool_decide (is_Some (clients c !! cl))) &&
                   negb (bool_decide (is_Some (heap (drv c) !! p)))
  | ABuild cl f =>
      match clients c !! cl with
      | Some (CBuilt p) => match heap (drv c) !! p with
                           | Some t => request_okb (t_serial t) (f (t_u t))
                           | None => false
                           end
      | _ => false
      end
  | ASubmit cl =>
      match clients c !! cl with
      | Some (CBuilt p) => match heap (drv c) !! p with
                           | Some t => request_okb (t_serial t) (t_u t)
                           | None => false
                           end
      | _ => false
      end
  | AWait cl sig =>
      match clients c !! cl with
      | Some (CWait p) => sig || match heap (drv c) !! p with
                                 | Some t => negb (t_asleep t)
                                 | None => true
                                 end
      | _ => false
      end
  | ACheck cl sig => match clients c !! cl with Some (CCheck _ b) => implb b sig | _ => false end
  | AWaitIdle cl =>
      match clients c !! cl with
      | Some (CAbort p) => match heap (drv c) !! p with
                           | Some t => negb (t_asleep t)
                           | None => true
                           end
      | _ => false
      end
  | AFree cl => match clients c !! cl with Some (CDone _) => true | _ => false end
  | AShutdownOut s _ _ => match servers c !! s with Some SShutdown => true | _ => false end
  | AWoken s sig =>
      match servers c !! s with
      | Some SSleep => bool_decide ((s, true) ∈ Uvfs_driver_queue (drv c)) || sig
      | _ => false
      end
  | ACopyOut s _ => match servers c !! s with Some (SCopyOut _) => true | _ => false end
  | AReadDone s => match servers c !! s with Some (SReadDone _ _) => true | _ => false end
  | AReturn s => match servers c !! s with Some (SReturn _ _) => true | _ => false end
  | ACopyIn s _ ret =>
      match servers c !! s with
      | Some (SCopyIn _ _ size) => (0 <=? ret) && (ret <=? size)
      | _ => false
      end
  | AWriteDone s => match servers c !! s with Some (SWriteDone _) => true | _ => false end
  end.

Definition politeb (a : action) (c : config) : bool :=
  match a with
  | AWrite s count buff =>
      (get_int uvfs_generic_rep_s "size" buff <=? sizeof uvfs_reply_u) &&
      forallb (fun e : task * server_pc =>
                 match touch (snd e) with
                 | None => true
                 | Some p => match heap (drv c) !! p with
                             | Some t => negb (t_serial t =?
                                               get_int uvfs_generic_rep_s "serial" buff)
                             | None => true
                             end
                 end) (map_to_list (servers c))
  | _ => true
  end.

(** Run a list of actions, each of which has to be enabled and satisfy [ok]. *)
Fixpoint runs (ok : action -> config -> bool) (l : list action) (c : config) : option config :=
  match l with
  | [] => Some c
  | a :: l' =>
      if enabledb a c && ok a c
      then match run a c with Some (_, c') => runs ok l' c' | None => None end
      else None
  end.

Lemma request_okb_sound serial u : request_okb serial u = true -> request_ok serial u.
Proof.
  unfold request_okb, request_ok. rewrite !andb_true_iff, !Z.leb_le, Z.ltb_lt, Z.eqb_eq. lia.
Qed.

Lemma is_idle_sound o : is_idle o = true -> o = Some SIdle.
Proof. by destruct o as [[]|]. Qed.

Lemma enabledb_sound a c : enabledb a c = true -> enabled a c.
Proof.
  destruct a; cbn; intros H;
    repeat match goal with
    | H : context [match ?x with _ => _ end] |- _ => destruct x eqn:?; try discriminate H
    end; rewrite ?andb_true_iff, ?orb_true_iff, ?negb_true_iff, ?bool_decide_eq_true,
      ?bool_decide_eq_false, ?Z.leb_le, ?Z.ltb_lt, <- ?eq_None_not_Some in *;
    try (by eauto using request_okb_sound, is_idle_sound).
  - do 2 eexists. eauto using request_okb_sound.
  - do 2 eexists. eauto using request_okb_sound.
  - eexists. split; [done|]. naive_solver.
  - eexists. split; [done|]. right. congruence.
  - do 2 eexists. split; [done|]. by destruct by_sig, sig.
  - eexists. split; [done|]. naive_solver.
  - eexists. split; [done|]. congruence.
  - destruct H as ((H & ?) & ?). eauto using is_idle_sound.
Qed.

Lemma politeb_sound a c : politeb a c = true -> polite a c.
Proof.
  destruct a; try done. cbn. rewrite andb_true_iff, Z.leb_le, forallb_forall.
  intros [Hfit Hall]. split; [done|]. intros s' pc p t Hs Ht Hp.
  specialize (Hall (s', pc)). cbn in Hall. rewrite Ht, Hp in Hall.
  apply Z.eqb_neq, negb_true_iff, Hall, list_elem_of_In, elem_of_map_to_list. done.
Qed.

Lemma runs_any l c c' : runs (fun _ _ => true) l c = Some c' -> rtc any_step c c'.
Proof.
  revert c. induction l as [|a l IH]; intros c; cbn; [by intros [= ->]|].
  destruct (enabledb a c) eqn:Ee; [|done]. cbn.
  destruct (run a c) as [[[] c1]|] eqn:Er; [|done]. intros H. eapply rtc_l; [|by apply IH].
  exists a. split; [by apply enabledb_sound|done].
Qed.

Lemma runs_step l c c' : runs politeb l c = Some c' -> rtc step c c'.
Proof.
  revert c. induction l as [|a l IH]; intros c; cbn; [by intros [= ->]|].
  destruct (enabledb a c) eqn:Ee; [|done]. destruct (politeb a c) eqn:Ep; [|done]. cbn.
  destruct (run a c) as [[[] c1]|] eqn:Er; [|done]. intros H. eapply rtc_l; [|by apply IH].
  exists a. split_and!; [by apply enabledb_sound|by apply politeb_sound|done].
Qed.

(** ** The invariant holds in every reachable configuration *)

Lemma inv_init : inv config_init.
Proof.
  split; cbn.
  - intros p. unfold ok_at. cbn. rewrite lookup_empty. split_and!; try done.
    + intros cl pc [H _]. cbn in H. by rewrite lookup_empty in H.
    + intros s pc [H _]. cbn in H. by rewrite lookup_empty in H.
  - apply NoDup_nil_2.
  - split; cbn; [apply NoDup_nil_2|]. intros s. rewrite lookup_empty. split; [|done].
    by intros ?%not_elem_of_nil.
  - split; [reflexivity|]. unfold open_max. cbn. lia.
Qed.

Lemma safe_action a c :
  inv c -> enabled a c -> polite a c -> (forall s, a <> AReturn s) -> safe a c.
Proof.
  intros Hinv He Hp Ha. destruct a; try (by destruct (Ha s)).
  - by apply safe_open.
  - by apply safe_close.
  - by apply safe_ioctl.
  - by apply safe_new.
  - by apply safe_build.
  - by apply safe_submit.
  - by apply safe_wait.
  - by apply safe_check.
  - by apply safe_wait_idle.
  - by apply safe_free.
  - by apply safe_read.
  - by apply safe_shutdown_out.
  - by apply safe_woken.
  - by apply safe_copy_out.
  - by apply safe_read_done.
  - by apply safe_write.
  - by apply safe_copy_in.
  - by apply safe_write_done.
Qed.

Lemma inv_step c c' : inv c -> step c c' -> inv c'.
Proof.
  intros Hinv (a & He & Hp & Hr).
  destruct a; try (destruct (safe_action _ c Hinv He Hp) as (c'' & E & ?);
    [done|rewrite E in Hr; by simplify_eq]).
  by eapply inv_return.
Qed.

Lemma inv_reachable c : reachable c -> inv c.
Proof.
  intros H. unfold reachable in H.
  enough (forall c0, inv c0 -> rtc step c0 c -> inv c) as Hg by exact (Hg _ inv_init H).
  clear H. intros c0 Hi H. induction H as [|c0 c1 c2 Hs _ IH]; [done|].
  by apply IH, (inv_step c0).
Qed.

(** ** Example runs *)

Definition demo_config (l : list action) : config :=
  default config_init (runs politeb l config_init).
Definition rude_config (l : list action) : config :=
  default config_init (runs (fun _ _ => true) l config_init).

Definition completes (ok : action -> config -> bool) (l : list action) : bool :=
  match runs ok l config_init with Some _ => true | None => false end.

Lemma demo_reachable l : completes politeb l = true -> reachable (demo_config l).
Proof.
  unfold completes, demo_config. destruct (runs _ _ _) as [c|] eqn:E; [|done].
  intros _. by eapply runs_step.
Qed.

Lemma rude_reachable l :
  completes (fun _ _ => true) l = true -> rtc any_step config_init (rude_config l).
Proof.
  unfold completes, rude_config. destruct (runs _ _ _) as [c|] eqn:E; [|done].
  intros _. by eapply runs_any.
Qed.

(** A complete GETATTR request with the given serial number, and a reply. *)
Definition demo_request (serial : Z) (u : mem) : mem :=
  set_int uvfs_getattr_req_s "type" UVFS_GETATTR
  (set_int uvfs_getattr_req_s "serial" serial
  (set_int uvfs_getattr_req_s "size" (sizeof uvfs_getattr_req_s) u)).
Definition demo_reply (serial size error : Z) : mem :=
  set_int uvfs_generic_rep_s "type" UVFS_GETATTR
  (set_int uvfs_generic_rep_s "serial" serial
  (set_int uvfs_generic_rep_s "size" size
  (set_int uvfs_generic_rep_s "error" error (fun _ => 0)))).

(** Task [cl] submits a request in the transaction [p]. *)
Definition demo_submit (cl : task) (p : ptr) (serial : Z) : list action :=
  [ANew cl p (fun _ => 0); ABuild cl (demo_request serial); ASubmit cl].

(** Server 1 fetches the request of task 10. *)
Definition demo_fetch : list action :=
  AOpen 1 :: demo_submit 10 0 0 ++ [AWait 10 false; ARead 1; ACopyOut 1 0; AReadDone 1].

(** Task 10 is killed while server 1 is on its way out of [uvfsd_read]. *)
Definition demo_killed : list action := demo_fetch ++ [AWait 10 true; ACheck 10 true; AFree 10].

(** Server 2 answers while server 1 is still copying the request. *)
Definition rude_early : list action :=
  AOpen 1 :: AOpen 2 :: demo_submit 10 0 0 ++
  [ARead 1; AWrite 2 16 (demo_reply 0 16 0); ACopyIn 2 (demo_reply 0 16 0) 0; AWriteDone 2;
   AWait 10 false; ACheck 10 false; AFree 10].

(** The reply of server 1 is larger than the union it is copied to. *)
Definition rude_large : list action :=
  demo_fetch ++ [AReturn 1; AWrite 1 5000 (demo_reply 0 5000 0)].

(** Two requests are queued; the server that is woken has a signal pending. *)
Definition demo_lost_wakeup : list action :=
  AOpen 1 :: AOpen 2 :: ARead 1 :: ARead 2 :: demo_submit 10 0 0 ++ [AWoken 1 true].

(** The device is closed and opened again between two allocations. *)
Definition demo_reopened : list action :=
  [AOpen 1; ANew 10 0 (fun _ => 0); ABuild 10 (demo_request 0); AClose 1; AOpen 1] ++
  demo_submit 11 1 0 ++ [ASubmit 10].

(** ** Guarantees *)

(** C1: with a server that follows the protocol, no critical section of the driver
    and no copy between the driver and its servers touches a transaction that has
    been freed, copies outside the request and reply unions, or reads outside the
    table of operation names, however the tasks interleave.  The return of
    [uvfsd_read] is the one exception. *)
Theorem driver_memory_safe c a :
  reachable c -> polite a c -> (forall s, a <> AReturn s) -> ~ faults a c.
Proof.
  intros Hr Hp Ha [He Hf].
  destruct (safe_action a c (inv_reachable c Hr) He Hp Ha) as (c' & E & _). congruence.
Qed.

Lemma driver_memory_safe_witness :
  ~ faults (AClose 1) (demo_config (demo_fetch ++ [AReturn 1])).
Proof.
  apply driver_memory_safe; [|done|done].
  apply demo_reachable. by vm_compute.
Defined.

(** The case analysis the liveness theorems share. *)
Lemma no_request_lost_inv c cl p t :
  inv c -> owns c cl (CWait p) p -> heap (drv c) !! p = Some t -> t_answered t = false ->
  p ∈ Uvfs_requests (drv c) \/ p ∈ Uvfs_replies (drv c) \/ exists s pc, touches c s pc p.
Proof.
  intros Hi Ho Hp Ha. destruct (owner_live c Hi _ _ _ Ho) as (t' & tch & Hp' & _ & Ht & Hl).
  simplify_eq. destruct Hl as (Hf & _). destruct tch as [spc|].
  - destruct Ht as (s & Hs & _). eauto.
  - destruct Hf as (_ & [(_ & Hx & _)|(Hx & _)]); [|congruence].
    destruct (rq c p) eqn:Eq; [left; by apply rq_true|].
    destruct (rp c p) eqn:Er; [right; left; by apply rp_true|done].
Qed.

(** C4: a submitted request is never lost: as long as its client waits and it has
    not been answered it is on one of the two lists, or a server is writing its
    reply. *)
Theorem no_request_lost c cl p t :
  reachable c -> owns c cl (CWait p) p -> heap (drv c) !! p = Some t ->
  t_answered t = false ->
  p ∈ Uvfs_requests (drv c) \/ p ∈ Uvfs_replies (drv c) \/
  exists s pc, touches c s pc p.
Proof. intros Hr%inv_reachable. by apply no_request_lost_inv. Qed.

Lemma no_request_lost_witness :
  exists c t, heap (drv c) !! 0%nat = Some t /\
  (0%nat ∈ Uvfs_requests (drv c) \/ 0%nat ∈ Uvfs_replies (drv c) \/
   exists s pc, touches c s pc 0%nat).
Proof.
  exists (demo_config demo_fetch).
  destruct (heap (drv (demo_config demo_fetch)) !! 0%nat) as [t|] eqn:E;
    [|by vm_compute in E].
  exists t. split; [done|]. apply (no_request_lost _ 10%nat 0%nat t); [| |done|].
  - apply demo_reachable. by vm_compute.
  - split; by vm_compute.
  - vm_compute in E. by (injection E as <-).
Defined.

(** C23: a client never sleeps through its wake-up: while it sleeps for the answer
    there is none, and while it sleeps for the transaction to become idle some
    server still holds it. *)
Theorem client_wakeup c cl pc p t :
  reachable c -> owns c cl pc p -> heap (drv c) !! p = Some t -> t_asleep t = true ->
  (pc = CWait p /\ t_answered t = false) \/
  (pc = CAbort p /\ exists s spc, touches c s spc p).
Proof.
  intros Hr Ho Hp Has.
  destruct (owner_live c (inv_reachable c Hr) _ _ _ Ho) as (t' & tch & Hp' & _ & Ht & Hl).
  simplify_eq. destruct Ho as [_ Ho]. destruct pc; cbn in Hl, Ho; subst.
  - intuition congruence.
  - left. intuition congruence.
  - intuition congruence.
  - right. split; [done|]. destruct Hl as (Hf & _ & Hu). specialize (Hu Has).
    destruct tch as [spc|]; [|cbn in Hf; intuition congruence].
    destruct Ht as (s & Hs & _). eauto.
  - intuition congruence.
Qed.

(** The interleaving in which task 10 waits for server 1 to finish copying. *)
Definition demo_abort : list action :=
  AOpen 1 :: demo_submit 10 0 0 ++
  [ARead 1; AWait 10 true; ACheck 10 true; AWaitIdle 10].

Lemma client_wakeup_witness :
  exists c t, heap (drv c) !! 0%nat = Some t /\ t_asleep t = true /\
  exists s spc, touches c s spc 0%nat.
Proof.
  exists (demo_config demo_abort).
  destruct (heap (drv (demo_config demo_abort)) !! 0%nat) as [t|] eqn:E;
    [|by vm_compute in E].
  assert (t_asleep t = true) as Hs by (vm_compute in E; by (injection E as <-)).
  exists t. split; [done|]. split; [done|].
  destruct (client_wakeup (demo_config demo_abort) 10%nat (CAbort 0) 0%nat t) as [[H _]|[_ H]].
  - apply demo_reachable. by vm_compute.
  - split; by vm_compute.
  - done.
  - done.
  - discriminate H.
  - exact H.
Defined.

(** C16: [uvfs_make_request] returns only when the server has answered or the reply
    holds [-EIO] or [-ERESTARTSYS]; the transaction is then off the lists and no
    server holds it, so that the caller may read the reply and free it. *)
Theorem request_done c cl p t :
  reachable c -> owns c cl (CDone p) p -> heap (drv c) !! p = Some t ->
  (t_answered t = true \/ error_of t = - EIO \/ error_of t = - ERESTARTSYS) /\
  p ∉ Uvfs_requests (drv c) /\ p ∉ Uvfs_replies (drv c) /\
  forall s pc, ~ touches c s pc p.
Proof.
  intros Hr Ho Hp.
  destruct (owner_live c (inv_reachable c Hr) _ _ _ Ho) as (t' & tch & Hp' & _ & Ht & Hl).
  simplify_eq. destruct Hl as ((Hq & Hr' & -> & _) & _ & Hd).
  split_and!; [done|by apply rq_false|by apply rp_false|apply Ht].
Qed.

Lemma request_done_witness :
  exists c t, heap (drv c) !! 0%nat = Some t /\ error_of t = - ERESTARTSYS /\
  0%nat ∉ Uvfs_replies (drv c).
Proof.
  pose (l := demo_fetch ++ [AWait 10 true; ACheck 10 true]).
  exists (demo_config l).
  destruct (heap (drv (demo_config l)) !! 0%nat) as [t|] eqn:E; [|by vm_compute in E].
  exists t. split; [done|].
  destruct (request_done (demo_config l) 10%nat 0%nat t) as (_ & _ & H & _).
  - apply demo_reachable. by vm_compute.
  - split; by vm_compute.
  - done.
  - split; [vm_compute in E; by (injection E as <-)|exact H].
Defined.

(** C22: when the last server closes the device, everything that is queued is
    answered with [-EIO]: both lists are empty, every client that was waiting for
    an answer has one, and the shutdown flag and the serial numbers start again. *)
Theorem last_close_answers_all c s c' :
  reachable c -> enabled (AClose s) c -> uvfs_use_count (drv c) = 1 ->
  run (AClose s) c = Some (tt, c') ->
  Uvfs_requests (drv c') = [] /\ Uvfs_replies (drv c') = [] /\
  ShuttingDown (drv c') = false /\ Serial_number (drv c') = 0 /\
  forall cl p t, owns c cl (CWait p) p -> heap (drv c) !! p = Some t ->
  exists t', heap (drv c') !! p = Some t' /\ t_answered t' = true /\
  (t_answered t = false -> error_of t' = - EIO /\ t_asleep t' = false).
Proof.
  intros Hr Hs Hn. pose proof (inv_reachable c Hr) as Hinv. run_unfold.
  rewrite (on_drv_eq _ _ _ _ (release_last (drv c) ltac:(by rewrite Hn) (inv_nodup c Hinv)
    (fun p Hp => match listed_live c Hinv p Hp with
                 | ex_intro _ t (ex_intro _ _ (ex_intro _ _ (conj H _))) => mk_is_Some _ t H
                 end))).
  cbn [drv clients servers]. intros [= <-]. cbn. split_and!; try done.
  intros cl p t Ho Hp. rewrite lookup_fail_in, Hp. cbn. eexists. split; [done|].
  destruct (t_answered t) eqn:Ea.
  { split; [|done]. by case_bool_decide. }
  rewrite bool_decide_eq_true_2.
  { split; [done|]. intros _. split; [by apply (error_set (- EIO) t)|done]. }
  apply elem_of_app.
  destruct (no_request_lost_inv c cl p t Hinv Ho Hp Ea) as [?|[?|(s' & pc & Hs' & Ht)]]; auto.
  by destruct (only_server c Hinv s Hs Hn _ _ Hs') as [_ ->].
Qed.

Lemma last_close_answers_all_witness :
  exists c c', run (AClose 1) c = Some (tt, c') /\ Uvfs_replies (drv c') = [].
Proof.
  set (c := demo_config (demo_fetch ++ [AReturn 1])).
  destruct (run (AClose 1) c) as [[[] c']|] eqn:E; [|by vm_compute in E].
  exists c, c'. split; [done|].
  apply (last_close_answers_all c 1%nat c'); [|by vm_compute..|done].
  by apply demo_reachable; vm_compute.
Defined.

(** ** Failures *)

(** C39: [uvfsd_read] reads the size of the request it returns after it has released
    the lock and cleared [in_use].  Even with a server that follows the protocol
    the client can have been killed and have freed the transaction by then. *)
Theorem read_return_use_after_free :
  exists c s, reachable c /\ faults (AReturn s) c.
Proof.
  exists (demo_config demo_killed), 1%nat. split; [by apply demo_reachable; vm_compute|].
  split; [by apply enabledb_sound; vm_compute|by vm_compute].
Qed.

(** C40: a server that answers a request before the read that fetched it is over
    makes the driver copy the request from freed memory, and a reply larger than
    the reply union is copied past the end of the transaction: the driver trusts
    the serial number and the size it is given. *)
Theorem driver_trusts_server :
  (exists c s ret, rtc any_step config_init c /\ faults (ACopyOut s ret) c) /\
  (exists c s buff ret, rtc any_step config_init c /\ faults (ACopyIn s buff ret) c).
Proof.
  split.
  - exists (rude_config rude_early), 1%nat, 0. split; [by apply rude_reachable; vm_compute|].
    split; [by apply enabledb_sound; vm_compute|by vm_compute].
  - exists (rude_config rude_large), 1%nat, (demo_reply 0 5000 0), 0.
    split; [by apply rude_reachable; vm_compute|].
    split; [by apply enabledb_sound; vm_compute|by vm_compute].
Qed.

(** A request whose copy to the server fails is not offered again: the read
    that took it returns [-EIO], and it stays on [Uvfs_replies], unanswered. *)
Theorem failed_copy_strands_request d d1 d2 s p :
  uvfsd_read_pass s d = Some (PassTake p, d1) -> uvfsd_read_done p d1 = Some (tt, d2) ->
  forall ret, ret <> 0 ->
  uvfsd_read_return p ret d2 = Some (- EIO, d2) /\
  p ∉ Uvfs_requests d2 /\ p ∈ Uvfs_replies d2 /\
  exists t t2, heap d !! p = Some t /\ heap d2 !! p = Some t2 /\
               t_answered t2 = t_answered t.
Proof.
  intros (l & t & Erq & Et & ->)%read_pass_inv.
  rewrite (read_done_spec _ p (with_in_use true t)) by apply lookup_insert_eq.
  intros [= <-] ret Hret. split_and!.
  - unfold uvfsd_read_return, truthy. by rewrite (proj2 (Z.eqb_neq _ _) Hret).
  - cbn. apply not_removed.
  - cbn. apply elem_of_app. right. by apply list_elem_of_singleton.
  - cbn. exists t. eexists. split; [done|]. split; [apply lookup_insert_eq|]. by destruct t.
Qed.

Lemma failed_copy_strands_request_witness :
  exists d d1 d2, uvfsd_read_pass 1%nat d = Some (PassTake 0%nat, d1) /\
  uvfsd_read_done 0%nat d1 = Some (tt, d2) /\ 0%nat ∈ Uvfs_replies d2.
Proof.
  set (d := drv (demo_config (AOpen 1 :: demo_submit 10 0 0))).
  destruct (uvfsd_read_pass 1%nat d) as [[r d1]|] eqn:E1; [|by vm_compute in E1].
  assert (r = PassTake 0) as -> by (vm_compute in E1; by injection E1 as <-).
  destruct (uvfsd_read_done 0%nat d1) as [[[] d2]|] eqn:E2;
    [|exfalso; vm_compute in E1; injection E1 as <-; by vm_compute in E2].
  exists d, d1, d2. split_and!; [done|done|].
  by apply (failed_copy_strands_request d d1 d2 1%nat 0%nat E1 E2 1).
Defined.
