(* ===== verification/DriverProgress.v ===== *)
(** * Every call comes to an end (driver.c)

    The waits of [uvfs_make_request] end: once a request is answered, or its client
    is killed, the client returns after a bounded number of its own steps and of
    those of the server that holds the transaction at that moment.  Nobody else has
    to do anything. *)

From stdpp Require Import prelude gmap list strings.
From Stdlib Require Import ZArith Lia.
From S2P Require Import Prelude Protocol Driver DriverSteps DriverInv DriverSafe DriverProps.

Open Scope string_scope.
Open Scope list_scope.
Open Scope Z_scope.

(** The actions [la] can be performed one after the other and lead from [c] to [c']. *)
Fixpoint performs (la : list action) (c c' : config) : Prop :=
  match la with
  | [] => c' = c
  | a :: la' =>
      enabled a c /\ polite a c /\ exists c1, run a c = Some (tt, c1) /\ performs la' c1 c'
  end.

(** What the client [cl] does from the point [pc] of [uvfs_make_request] to its end if
    nobody comes between, [sig] being whether it has a signal pending. *)
Definition client_steps (cl : task) (pc : client_pc) (sig : bool) : list action :=
  match pc with
  | CWait _ => [AWait cl sig; ACheck cl sig]
  | CCheck _ _ => [ACheck cl sig]
  | CAbort _ => [AWaitIdle cl]
  | CBuilt _ | CDone _ => []
  end.

(** Steps of a server in the middle of its copy. *)
Definition server_step (s : task) (a : action) : Prop :=
  match a with
  | ACopyOut x _ | AReadDone x | ACopyIn x _ _ | AWriteDone x => x = s
  | _ => False
  end.

Definition waiting (pc : client_pc) : bool :=
  match pc with CWait _ | CCheck _ _ | CAbort _ => true | _ => false end.

Lemma performs_app la lb c c1 c' :
  performs la c c1 -> performs lb c1 c' -> performs (la ++ lb) c c'.
Proof.
  revert c. induction la as [|a la IH]; cbn; [by intros c ->|].
  intros c (? & ? & c0 & ? & ?) ?. split_and!; [done|done|]. exists c0. auto.
Qed.

Lemma performs_inv la c c' : inv c -> performs la c c' -> inv c'.
Proof.
  revert c. induction la as [|a la IH]; cbn; [by intros c ? ->|].
  intros c Hinv (? & ? & c0 & ? & Hp). eapply IH, Hp. eapply inv_step; [done|]. by exists a.
Qed.

(** An action that is safe can be performed. *)
Lemma performs_one a c :
  inv c -> enabled a c -> polite a c -> (forall s, a <> AReturn s) ->
  exists c1, run a c = Some (tt, c1) /\ inv c1 /\ performs [a] c c1.
Proof.
  intros Hinv He Hp Ha. destruct (safe_action a c Hinv He Hp Ha) as (c1 & Hr & Hi).
  exists c1. split_and!; [done|done|]. cbn. split_and!; [done|done|]. by exists c1.
Qed.

(** ** The server *)

(** The server [s] lets go of [p] within [n] steps of its own. *)
Definition lets_go (n : nat) (s : task) (p : ptr) (c : config) : Prop :=
  exists la c1, (length la <= n)%nat /\ Forall (server_step s) la /\ performs la c c1 /\
    clients c1 = clients c /\ exists t1, heap (drv c1) !! p = Some t1 /\ t_in_use t1 = false.

Lemma lets_go_now c s pc p :
  inv c -> servers c !! s = Some pc ->
  match pc with SReadDone q _ | SWriteDone q => q = p | _ => False end -> lets_go 1 s p c.
Proof.
  intros Hinv Hs Hpc. destruct pc; try done; subst;
    destruct (touched_flight c Hinv s _ p Hs eq_refl) as (t & cpc & Hp & _).
  - destruct (performs_one (AReadDone s) c) as (c1 & Hr & Hi & Hperf);
      [done|by exists p, ret|done|done|].
    exists [AReadDone s], c1. split; [done|]. split; [by repeat constructor|]. split; [done|].
    revert Hr. run_unfold. rewrite Hs. run_bind (read_done_spec (drv c) p t Hp).
    intros [= <-]. split; [done|]. eexists. by split; [apply lookup_insert_eq|].
  - destruct (performs_one (AWriteDone s) c) as (c1 & Hr & Hi & Hperf);
      [done|by exists p|done|done|].
    exists [AWriteDone s], c1. split; [done|]. split; [by repeat constructor|]. split; [done|].
    revert Hr. run_unfold. rewrite Hs. run_bind (write_done_spec (drv c) p t Hp).
    intros [= <-]. split; [done|]. eexists. by split; [apply lookup_insert_eq|].
Qed.

(** A copy is followed by the critical section that ends it. *)
Lemma lets_go_after c s p a c1 pc1 :
  inv c -> enabled a c -> polite a c -> (forall x, a <> AReturn x) -> server_step s a ->
  run a c = Some (tt, c1) -> clients c1 = clients c -> servers c1 !! s = Some pc1 ->
  match pc1 with SReadDone q _ | SWriteDone q => q = p | _ => False end -> lets_go 2 s p c.
Proof.
  intros Hinv He Hp Ha Hst Hr Hcl Hs Hpc.
  destruct (performs_one a c Hinv He Hp Ha) as (c1' & Hr' & Hi & Hperf).
  rewrite Hr in Hr'. injection Hr' as <-.
  destruct (lets_go_now c1 s pc1 p Hi Hs Hpc) as (la & c2 & Hlen & Hall & Hperf' & Hcl' & Ht).
  exists (a :: la), c2. split; [cbn; lia|]. split; [by constructor|].
  split; [by apply (performs_app [a] la c c1)|]. split; [by rewrite Hcl'|done].
Qed.

Lemma lets_go_touch c s spc p : inv c -> touches c s spc p -> lets_go 2 s p c.
Proof.
  intros Hinv [Hs Hto].
  destruct (touched_flight c Hinv s spc p Hs Hto) as (t & cpc & Hp & Ho & Ht & Hl & Hf).
  destruct spc; try done; injection Hto as ->.
  - destruct (safe_action (ACopyOut s 0) c) as (c1 & Hr & _); [done|by exists p|done|done|].
    revert Hr. run_unfold. rewrite Hs. unfold on_drv.
    destruct (uvfsd_read_copy p (drv c)) as [[l d]|] eqn:E; [|done]. intros Hr.
    eapply (lets_go_after c s p (ACopyOut s 0) c1 (SReadDone p 0)); try done; [by exists p| | |];
      [run_unfold; rewrite Hs; unfold on_drv; by rewrite E|by injection Hr as <-|].
    injection Hr as <-. apply lookup_insert_eq.
  - destruct (lets_go_now c s (SReadDone p ret) p Hinv Hs eq_refl) as (la & c1 & ? & ?).
    exists la, c1. split; [lia|done].
  - destruct Hf as (_ & _ & _ & _ & Hsize).
    assert (enabled (ACopyIn s buff 0) c) as He by (exists p, buff, size; split; [done|lia]).
    destruct (safe_action (ACopyIn s buff 0) c) as (c1 & Hr & _); [done..|].
    revert Hr. run_unfold. rewrite Hs. unfold on_drv.
    destruct (uvfsd_write_copy p buff size 0 (drv c)) as [[[] d]|] eqn:E; [|done]. intros Hr.
    eapply (lets_go_after c s p (ACopyIn s buff 0) c1 (SWriteDone p)); try done;
      [run_unfold; rewrite Hs; unfold on_drv; by rewrite E|by injection Hr as <-|].
    injection Hr as <-. apply lookup_insert_eq.
  - destruct (lets_go_now c s (SWriteDone p) p Hinv Hs eq_refl) as (la & c1 & ? & ?).
    exists la, c1. split; [lia|done].
Qed.

(** ** The client *)

(** What the client finds in the union: the answer, or [-ERESTARTSYS] in its place if the
    wait has ended with a signal. *)
Definition found (pc : client_pc) (sig : bool) (u : mem) : mem :=
  match pc with
  | CAbort _ => set_error (- ERESTARTSYS) u
  | _ => if sig then set_error (- ERESTARTSYS) u else u
  end.

(** The client [cl], at [pc] with [u] in the union, returns from there by itself. *)
Definition returns (sig : bool) (cl : task) (pc : client_pc) (p : ptr) (u : mem) (c : config) : Prop :=
  exists c1 t1, performs (client_steps cl pc sig) c c1 /\ owns c1 cl (CDone p) p /\
    heap (drv c1) !! p = Some t1 /\ t_u t1 = found pc sig u.

(** A client that has a reason to return and is past its wait. *)
Lemma returns_check c cl p b t sig :
  inv c -> owns c cl (CCheck p b) p -> heap (drv c) !! p = Some t -> t_in_use t = false ->
  (b = true -> sig = true) -> returns sig cl (CCheck p b) p (t_u t) c.
Proof.
  intros Hinv [Hcl _] Hp Hiu Hb.
  destruct (performs_one (ACheck cl sig) c) as (c1 & Hr & _ & Hperf);
    [done|by exists p, b|done|done|].
  exists c1. cbn [client_steps found]. revert Hr. run_unfold. rewrite Hcl. destruct sig.
  - run_bind (check_idle (drv c) p t Hp Hiu). intros [= <-]. eexists.
    split; [exact Hperf|]. split; [split; [apply lookup_insert_eq|done]|].
    by split; [apply lookup_insert_eq|].
  - run_bind (check_no_signal (drv c) p). intros [= <-]. exists t.
    split; [exact Hperf|]. by split; [split; [apply lookup_insert_eq|done]|].
Qed.

Lemma returns_wait c cl p t sig :
  inv c -> owns c cl (CWait p) p -> heap (drv c) !! p = Some t -> t_in_use t = false ->
  t_answered t = true \/ sig = true -> returns sig cl (CWait p) p (t_u t) c.
Proof.
  intros Hinv [Hcl _] Hp Hiu Hor.
  destruct (owner_live c Hinv cl (CWait p) p) as (t' & tch & Hp' & _ & _ & _ & _ & Has); [done|].
  assert (t' = t) as -> by congruence.
  destruct (performs_one (AWait cl sig) c) as (c1 & Hr & Hi & Hperf); [done| |done|done|].
  { exists p. split; [done|]. destruct sig; [by left|right]. intros ? ?; simplify_eq.
    destruct (t_asleep t) eqn:E; [|done]. destruct Hor; [|done]. by rewrite Has in *. }
  revert Hr. run_unfold. rewrite Hcl. run_bind (get_trans_live _ _ _ Hp).
  run_bind (wait_spec (drv c) p t sig Hp).
  assert (t_answered t || sig = true) as -> by (destruct Hor as [->| ->]; auto with bool).
  intros [= E]. subst c1.
  destruct (returns_check _ cl p (negb (t_answered t)) (with_asleep false t) sig Hi)
    as (c2 & t2 & Hperf' & Hd & Ht2); try done.
  - split; [apply lookup_insert_eq|done].
  - apply lookup_insert_eq.
  - destruct Hor as [->|]; done.
  - exists c2, t2. split; [by eapply (performs_app [_])|done].
Qed.

Lemma returns_abort c cl p t sig :
  inv c -> owns c cl (CAbort p) p -> heap (drv c) !! p = Some t -> t_in_use t = false ->
  returns sig cl (CAbort p) p (t_u t) c.
Proof.
  intros Hinv [Hcl _] Hp Hiu.
  destruct (owner_live c Hinv cl (CAbort p) p) as (t' & tch & Hp' & _ & _ & _ & _ & Has); [done|].
  assert (t' = t) as -> by congruence.
  destruct (performs_one (AWaitIdle cl) c) as (c1 & Hr & Hi & Hperf); [done| |done|done|].
  { exists p. split; [done|]. intros ? ?; simplify_eq.
    destruct (t_asleep t) eqn:E; [|done]. specialize (Has eq_refl). congruence. }
  exists c1. revert Hr. run_unfold. rewrite Hcl. run_bind (wait_idle_spec (drv c) p t Hp). rewrite Hiu.
  cbn [negb]. run_bind (aborted_spec (set_heap (<[p := with_asleep false t]> (heap (drv c)))
    (drv c)) p _ (lookup_insert_eq _ p _)).
  intros [= <-]. eexists. split; [exact Hperf|]. split; [split; [apply lookup_insert_eq|done]|].
  by split; [apply lookup_insert_eq|].
Qed.

(** A client whose transaction is in nobody's hands. *)
Lemma returns_idle c cl pc p t sig :
  inv c -> owns c cl pc p -> waiting pc = true -> heap (drv c) !! p = Some t ->
  t_in_use t = false -> t_answered t = true \/ sig = true ->
  (pc = CCheck p true -> sig = true) -> returns sig cl pc p (t_u t) c.
Proof.
  intros Hinv Ho Hw Hp Hiu Hor Hb. pose proof Ho as [_ E]. destruct pc; try done; cbn in E; subst.
  - by apply returns_wait.
  - apply returns_check; try done. intros ->. by apply Hb.
  - by apply returns_abort.
Qed.

(** C5: a client in [uvfs_make_request] comes out of it.  If its request has been
    answered it returns by itself, whether or not a signal is pending: its own next
    steps, at most two, can be performed at once, and it finds the union as the answer
    has left it unless it has been interrupted ([found]).  If it is being killed and not answered, the same
    steps lead out as soon as no server is copying, to which at most two steps of the
    server that has the transaction lead. *)
Theorem make_request_returns c cl pc p t sig :
  reachable c -> owns c cl pc p -> waiting pc = true -> heap (drv c) !! p = Some t ->
  (pc = CCheck p true -> sig = true) ->
  (t_answered t = true -> returns sig cl pc p (t_u t) c) /\
  (sig = true -> exists s ls c1 t1, (length ls <= 2)%nat /\ Forall (server_step s) ls /\
     (ls <> [] -> exists spc, touches c s spc p) /\ performs ls c c1 /\
     heap (drv c1) !! p = Some t1 /\ returns true cl pc p (t_u t1) c1).
Proof.
  intros Hr%inv_reachable Ho Hw Hp Hb.
  destruct (owner_live c Hr _ _ _ Ho) as (t' & tch & Hp' & _ & Ht & Hl).
  assert (t' = t) as -> by congruence.
  destruct (t_in_use t) eqn:Hiu.
  - assert (in_flight t (rq c p) (rp c p) tch) as Hf by (destruct pc; cbn in Hl; intuition done).
    assert (t_answered t = false) as Ha.
    { unfold in_flight in Hf. destruct tch as [[]|]; intuition congruence. }
    destruct tch as [spc|]; [|cbn in Hf; intuition congruence].
    destruct Ht as (s & Hto & _). split; [congruence|]. intros ->.
    destruct (lets_go_touch c s spc p Hr Hto) as (ls & c1 & Hls & Hfs & Hps & Hcl & t1 & Hp1 & Hiu1).
    exists s, ls, c1, t1. split_and!; eauto.
    apply returns_idle; eauto using performs_inv. destruct Ho as [Ho ?]. split; [by rewrite Hcl|done].
  - split; [intros Ha; apply returns_idle; eauto|]. intros ->.
    exists 0%nat, [], c, t. split_and!; try done; [cbn; lia|]. apply returns_idle; eauto.
Qed.

(** Task 10 is answered while it sleeps, without a signal; and it is killed while server
    1 copies its request. *)
Definition demo_replied : list action :=
  demo_fetch ++ [AReturn 1; AWrite 1 16 (demo_reply 0 16 0); ACopyIn 1 (demo_reply 0 16 0) 0;
                 AWriteDone 1].

Lemma make_request_returns_witness :
  (exists t, heap (drv (demo_config demo_replied)) !! 0%nat = Some t /\
     returns false 10%nat (CWait 0) 0%nat (t_u t) (demo_config demo_replied)) /\
  (exists s ls c1 t1, (length ls <= 2)%nat /\ Forall (server_step s) ls /\
     (ls <> [] -> exists spc, touches (demo_config demo_abort) s spc 0%nat) /\
     performs ls (demo_config demo_abort) c1 /\
     heap (drv c1) !! 0%nat = Some t1 /\ returns true 10%nat (CAbort 0) 0%nat (t_u t1) c1).
Proof.
  split.
  - destruct (heap (drv (demo_config demo_replied)) !! 0%nat) as [t|] eqn:E; [|by vm_compute in E].
    exists t. split; [done|].
    refine (proj1 (make_request_returns (demo_config demo_replied) 10%nat (CWait 0) 0%nat t false
      (demo_reachable demo_replied ltac:(by vm_compute)) ltac:(split; by vm_compute) eq_refl E
      ltac:(discriminate)) _).
    vm_compute in E. by injection E as <-.
  - destruct (heap (drv (demo_config demo_abort)) !! 0%nat) as [t|] eqn:E; [|by vm_compute in E].
    exact (proj2 (make_request_returns (demo_config demo_abort) 10%nat (CAbort 0) 0%nat t true
      (demo_reachable demo_abort ltac:(by vm_compute)) ltac:(split; by vm_compute) eq_refl E
      (fun _ => eq_refl)) eq_refl).
Defined.
