(* ===== verification/DriverSerial.v ===== *)
(** * Serial numbers (driver.c)

    Replies name their transaction by serial number.  While the device stays open
    two live transactions never share one, until the counter wraps; closing the
    device resets the counter although transactions may still be live. *)

From stdpp Require Import prelude gmap list strings.
From Stdlib Require Import ZArith Lia.
From S2P Require Import Prelude Protocol Driver DriverSteps DriverInv DriverSafe DriverProps.

Open Scope string_scope.
Open Scope list_scope.
Open Scope Z_scope.

(** The counter stands still and no transaction gets another serial number. *)
Definition serials_kept (d d' : driver) : Prop :=
  Serial_number d' = Serial_number d /\
  forall p t', heap d' !! p = Some t' ->
  exists t, heap d !! p = Some t /\ t_serial t = t_serial t'.

#[export] Instance serials_kept_preorder : PreOrder serials_kept.
Proof.
  split; [intros d; split; eauto|].
  intros d1 d2 d3 [E1 H1] [E2 H2]. split; [congruence|].
  intros p t3 (t2 & Hp2 & Hs2)%H2. destruct (H1 _ _ Hp2) as (t1 & Hp1 & Hs1).
  exists t1. split; [done|congruence].
Qed.

(** Histories between two openings of the device: [n] transactions have been
    allocated since the module was loaded, and the last server never closed. *)
Inductive history : nat -> config -> Prop :=
| history_init : history 0 config_init
| history_new n c c' cl p u :
    history n c -> enabled (ANew cl p u) c -> run (ANew cl p u) c = Some (tt, c') ->
    history (S n) c'
| history_other n c c' a :
    history n c -> enabled a c -> run a c = Some (tt, c') ->
    (forall cl p u, a <> ANew cl p u) ->
    (forall s, a = AClose s -> s32 (uvfs_use_count (drv c) - 1) <> 0) ->
    history n c'.

(** ** Lemmas *)

Lemma kept_same_heap f :
  (forall d, Serial_number (f d) = Serial_number d /\ heap (f d) = heap d) ->
  respects serials_kept (modify f).
Proof.
  intros Hf. apply respects_modify. intros d. destruct (Hf d) as [E1 E2].
  split; [done|]. rewrite E2. eauto.
Qed.

Lemma kept_upd p f :
  (forall t, t_serial (f t) = t_serial t) -> respects serials_kept (upd_trans p f).
Proof.
  intros Hf d a d'. unfold upd_trans. destruct (heap d !! p) as [t|] eqn:Ep; [|done].
  intros [= _ <-]. split; [done|]. cbn. intros q t'.
  destruct (decide (p = q)) as [->|Hne].
  - rewrite lookup_insert_eq. intros [= <-]. eauto.
  - rewrite lookup_insert_ne by done. eauto.
Qed.

Lemma kept_get p : respects serials_kept (get_trans p).
Proof. intros d a d'. unfold get_trans. destruct (heap d !! p); [|done]. by intros [= _ <-]. Qed.

Lemma kept_free p : respects serials_kept (kfree p).
Proof.
  intros d a d'. unfold kfree. exec_unfold. destruct (heap d !! p); [|done].
  intros [= _ <-]. split; [done|]. cbn. intros q t' [_ H]%lookup_delete_Some. eauto.
Qed.

#[local] Hint Resolve kept_get kept_free : respects.
#[local] Hint Extern 2 (respects serials_kept (upd_trans _ _)) =>
  apply kept_upd; intros ?; reflexivity : respects.
#[local] Hint Extern 2 (respects serials_kept (modify _)) =>
  apply kept_same_heap; intros ?; split; reflexivity : respects.

Lemma kept_list_del p : respects serials_kept (list_del_init p).
Proof. unfold list_del_init. respects_go. Qed.
#[local] Hint Resolve kept_list_del : respects.

Lemma kept_wakes s p :
  respects serials_kept wake_up_driver_queue /\ respects serials_kept (remove_wait_queue s) /\
  respects serials_kept (wake_up_fs_queue p).
Proof.
  unfold wake_up_driver_queue, remove_wait_queue, wake_up_fs_queue. split_and!; respects_go.
Qed.
#[local] Hint Extern 3 (respects serials_kept _) => apply kept_wakes : respects.

Lemma kept_pass s : respects serials_kept (uvfsd_read_pass s).
Proof.
  unfold uvfsd_read_pass, add_wait_queue_exclusive, list_add_tail_replies,
    wake_up_driver_queue. respects_go.
Qed.
#[local] Hint Resolve kept_pass : respects.

Lemma kept_find l serial : respects serials_kept (find_reply l serial).
Proof. induction l; cbn; respects_go. Qed.

Lemma kept_lines l : respects serials_kept (status_lines l).
Proof. induction l; cbn; unfold status_line; respects_go. Qed.
#[local] Hint Resolve kept_find kept_lines : respects.

Lemma kept_release d a d' :
  uvfsd_release d = Some (a, d') -> s32 (uvfs_use_count d - 1) <> 0 -> serials_kept d d'.
Proof. intros E Hn. rewrite release_more in E by done. injection E as _ <-. split; eauto. Qed.

Lemma kept_submit p : respects serials_kept (make_request_submit p).
Proof.
  unfold make_request_submit, list_add_tail_requests, wake_up_driver_queue. respects_go.
Qed.

Lemma kept_waits p sig :
  respects serials_kept (make_request_wait p sig) /\
  respects serials_kept (make_request_check p sig) /\
  respects serials_kept (make_request_wait_idle p) /\
  respects serials_kept (make_request_aborted p).
Proof.
  unfold make_request_wait, make_request_check, make_request_wait_idle, make_request_aborted.
  split_and!; respects_go.
Qed.

Lemma kept_reads p ret :
  respects serials_kept (uvfsd_read_copy p) /\ respects serials_kept (uvfsd_read_done p) /\
  respects serials_kept (uvfsd_read_return p ret).
Proof.
  unfold uvfsd_read_copy, uvfsd_read_done, uvfsd_read_return, wake_up_fs_queue.
  split_and!; respects_go.
Qed.

Lemma kept_writes p serial buff size ret :
  respects serials_kept (uvfsd_write_take serial) /\
  respects serials_kept (uvfsd_write_copy p buff size ret) /\
  respects serials_kept (uvfsd_write_done p).
Proof.
  unfold uvfsd_write_take, uvfsd_write_copy, uvfsd_write_done, wake_up_fs_queue.
  split_and!; respects_go.
Qed.

Lemma kept_rest s mounted cmd stack ret sig :
  respects serials_kept uvfsd_open /\ respects serials_kept (uvfsd_ioctl mounted cmd) /\
  respects serials_kept (uvfsd_read_shutdown stack ret) /\
  respects serials_kept (uvfsd_read_woken s sig).
Proof.
  unfold uvfsd_open, uvfsd_ioctl, uvfsd_read_shutdown, uvfsd_read_woken,
    remove_wait_queue, wake_up_driver_queue.
  split_and!; respects_go.
Qed.

#[local] Hint Resolve kept_submit : respects.
#[local] Hint Extern 3 (respects serials_kept _) =>
  first [ apply kept_waits | apply kept_reads | apply kept_writes | apply kept_rest ] : respects.

(** An action that is neither an allocation nor the last close. *)
Lemma kept_run a c c' :
  run a c = Some (tt, c') -> (forall cl p u, a <> ANew cl p u) ->
  (forall s, a = AClose s -> s32 (uvfs_use_count (drv c) - 1) <> 0) ->
  serials_kept (drv c) (drv c').
Proof.
  intros E Hnew Hclose. destruct a; [|
    unfold run, on_drv, drop_server, modify, mbind, M_bind in E;
    destruct (uvfsd_release (drv c)) as [[r d]|] eqn:Er; [|done];
    injection E as <-; by eapply kept_release; [|apply (Hclose s)]
    |..|]; try (by destruct (Hnew c0 p u)).
  all: refine ((_ : respects (drv_rel serials_kept) (run _)) c tt c' E); cbn [run];
    respects_run (respects_pcs serials_kept).
Qed.

Lemma s32_inj a b : 0 <= a < 2 ^ 32 -> 0 <= b < 2 ^ 32 -> s32 a = s32 b -> a = b.
Proof.
  unfold s32. intros Ha Hb E.
  assert ((a + 2 ^ 31) mod 2 ^ 32 = (b + 2 ^ 31) mod 2 ^ 32) as E' by lia.
  apply (f_equal (fun x => (x - 2 ^ 31) mod 2 ^ 32)) in E'.
  rewrite !Zminus_mod_idemp_l, !Z.add_simpl_r, !Z.mod_small in E' by lia. done.
Qed.

Lemma s32_succ a : s32 (s32 a + 1) = s32 (a + 1).
Proof.
  unfold s32 at 1 3. f_equal. unfold s32.
  replace ((a + 2 ^ 31) mod 2 ^ 32 - 2 ^ 31 + 1 + 2 ^ 31)
    with ((a + 2 ^ 31) mod 2 ^ 32 + 1) by lia.
  rewrite Zplus_mod_idemp_l. f_equal. lia.
Qed.

(** The serial numbers handed out so far. *)
Record hist_inv (n : nat) (d : driver) : Prop := HistInv {
  hist_counter : Serial_number d = s32 (Z.of_nat n);
  hist_used : forall p t, heap d !! p = Some t ->
              exists k, 0 <= k < Z.of_nat n /\ t_serial t = s32 k;
  hist_distinct : Z.of_nat n <= 2 ^ 32 -> forall p q tp tq,
    heap d !! p = Some tp -> heap d !! q = Some tq -> t_serial tp = t_serial tq -> p = q }.

Lemma hist_new n d p u :
  heap d !! p = None -> hist_inv n d ->
  hist_inv (S n) (Driver (uvfs_use_count d) (ShuttingDown d) (s32 (Serial_number d + 1))
                    (Uvfs_requests d) (Uvfs_replies d) (Uvfs_driver_queue d)
                    (<[p := Transaction u (Serial_number d) false false false false]> (heap d))).
Proof.
  intros Hp [Hc Hu Hd]. split; cbn.
  - rewrite Hc, s32_succ. f_equal. lia.
  - intros q t [(<- & <-)|(Hne & Hq)]%lookup_insert_Some; cbn.
    + exists (Z.of_nat n). split; [lia|done].
    + destruct (Hu _ _ Hq) as (k & ? & ?). exists k. split; [lia|done].
  - intros Hn q r tq tr Hq Hr Hs.
    assert (forall x tx, heap d !! x = Some tx -> t_serial tx <> Serial_number d) as Hfresh.
    { intros x tx Hx E. destruct (Hu _ _ Hx) as (k & Hk & Ek).
      rewrite Ek, Hc in E. apply s32_inj in E; lia. }
    apply lookup_insert_Some in Hq as [(<- & <-)|(Hq1 & Hq2)];
      apply lookup_insert_Some in Hr as [(<- & <-)|(Hr1 & Hr2)]; cbn in Hs.
    + done.
    + by destruct (Hfresh _ _ Hr2).
    + by destruct (Hfresh _ _ Hq2).
    + eapply Hd; eauto. lia.
Qed.

Lemma hist_kept n d d' : serials_kept d d' -> hist_inv n d -> hist_inv n d'.
Proof.
  intros [Es Hk] [Hc Hu Hd]. split.
  - congruence.
  - intros p t' (t & Hp & <-)%Hk. eauto.
  - intros Hn p q tp' tq' (tp & Hp & Ep)%Hk (tq & Hq & Eq)%Hk E.
    eapply Hd; eauto. congruence.
Qed.

Lemma history_inv n c : history n c -> hist_inv n (drv c).
Proof.
  induction 1 as [|n c c' cl p u _ IH [_ Hp] Hr|n c c' a _ IH _ Hr Hnew Hclose].
  - split; [done|..]; cbn; [intros p t H|intros _ p q tp tq H];
      by rewrite lookup_empty in H.
  - revert Hr. run_unfold. run_bind (new_transaction_spec (drv c) p u Hp).
    intros [= <-]. by apply hist_new.
  - by eapply hist_kept, IH; eapply kept_run.
Qed.

(** ** Theorems *)

(** C25: as long as the device has not been closed and fewer than 2{^32} transactions
    have been allocated, live transactions have distinct serial numbers, so that a
    reply cannot reach another request than its own. *)
Theorem serials_distinct n c p q tp tq :
  history n c -> Z.of_nat n <= 2 ^ 32 ->
  heap (drv c) !! p = Some tp -> heap (drv c) !! q = Some tq ->
  t_serial tp = t_serial tq -> p = q.
Proof. intros H%history_inv Hn. by apply (hist_distinct _ _ H). Qed.

Lemma serials_distinct_witness :
  exists c t, heap (drv c) !! 7%nat = Some t /\
  forall q tq, heap (drv c) !! q = Some tq -> t_serial t = t_serial tq -> 7%nat = q.
Proof.
  destruct (run (ANew 3%nat 7%nat (fun _ => 0)) config_init) as [[[] c]|] eqn:E;
    [|by vm_compute in E].
  destruct (heap (drv c) !! 7%nat) as [t|] eqn:Et.
  - exists c, t. split; [done|]. intros q tq Hq Es.
    apply (serials_distinct 1 c 7%nat q t tq); [|vm_compute; discriminate|done..].
    by eapply history_new; [apply history_init|apply enabledb_sound; vm_compute|].
  - exfalso. injection E as <-. by vm_compute in Et.
Defined.

(** Closing the device restarts the serial numbers although a transaction that
    was allocated before may still be submitted: with a server that follows the
    protocol two clients can wait for replies to the same serial number. *)
Theorem serials_collide_after_close :
  exists c p q tp tq, reachable c /\ p <> q /\
  p ∈ Uvfs_requests (drv c) /\ q ∈ Uvfs_requests (drv c) /\
  heap (drv c) !! p = Some tp /\ heap (drv c) !! q = Some tq /\ t_serial tp = t_serial tq.
Proof.
  set (c := demo_config demo_reopened).
  assert (t_serial <$> heap (drv c) !! 0%nat = Some 0) as (tp & Ep & Sp)%fmap_Some
    by (by vm_compute).
  assert (t_serial <$> heap (drv c) !! 1%nat = Some 0) as (tq & Eq & Sq)%fmap_Some
    by (by vm_compute).
  exists c, 0%nat, 1%nat, tp, tq.
  split; [by apply demo_reachable; vm_compute|]. split; [done|].
  split; [apply list_elem_of_In; vm_compute; tauto|].
  split; [apply list_elem_of_In; vm_compute; tauto|].
  split; [exact Ep|]. split; [exact Eq|]. by rewrite <- Sp, <- Sq.
Qed.
