(* ===== verification/DriverWake.v ===== *)
(** * No server sleeps through a request (driver.c)

    A server that finds nothing to do sleeps on [Uvfs_driver_queue] as an exclusive
    waiter, so that each wake-up reaches one server only.  As long as no server is
    interrupted by a signal, a queued request always has a server on its way; a
    server that is woken and interrupted at once drops the wake-up. *)

From stdpp Require Import prelude gmap list strings.
From Stdlib Require Import ZArith Lia.
From S2P Require Import Prelude Protocol Driver DriverSteps DriverInv DriverSafe DriverProps.

Open Scope string_scope.
Open Scope list_scope.
Open Scope Z_scope.

(** Runs in which no server that sleeps is interrupted. *)
Definition undisturbed (c c' : config) : Prop :=
  exists a, enabled a c /\ polite a c /\ run a c = Some (tt, c') /\ forall s, a <> AWoken s true.

Definition woken (q : list (task * bool)) : Prop := q = [] \/ exists s, (s, true) ∈ q.

(** There is work, and then somebody has been told. *)
Definition work (d : driver) : Prop := Uvfs_requests d <> [] \/ ShuttingDown d = true.
Definition told (c : config) : Prop :=
  work (drv c) -> woken (Uvfs_driver_queue (drv c)) \/ exists s, servers c !! s = Some SShutdown.

(** No work appears and the wait queue stays as it is. *)
Definition calm (d d' : driver) : Prop :=
  (work d' -> work d) /\ Uvfs_driver_queue d' = Uvfs_driver_queue d.

#[export] Instance calm_preorder : PreOrder calm.
Proof.
  split; [intros d; split; eauto|]. intros d1 d2 d3 [H1 E1] [H2 E2].
  split; [tauto|congruence].
Qed.

(** The server an action moves. *)
Definition mover (a : action) : option task :=
  match a with
  | AOpen s | AClose s | AIoctl s _ _ | ARead s | AShutdownOut s _ _ | AWoken s _
  | ACopyOut s _ | AReadDone s | AReturn s | AWrite s _ _ | ACopyIn s _ _ | AWriteDone s => Some s
  | _ => None
  end.

Definition others_still (o : option task) (c c' : config) : Prop :=
  forall s, o <> Some s -> servers c' !! s = servers c !! s.

#[export] Instance others_still_preorder o : PreOrder (others_still o).
Proof.
  split; [intros c s; done|]. intros c1 c2 c3 H1 H2 s Hs. by rewrite H2, H1.
Qed.

(** ** Lemmas *)

Lemma woken_first q : woken (wake_first q).
Proof.
  induction q as [|[s []] q IH]; cbn; [by left|right|right]; exists s; set_solver.
Qed.

Lemma remove_ptr_nil p l : l = [] -> remove_ptr p l = [].
Proof. by intros ->. Qed.

Lemma calm_modify f :
  (forall d, (work (f d) -> work d) /\ Uvfs_driver_queue (f d) = Uvfs_driver_queue d) ->
  respects calm (modify f).
Proof. intros H. by apply respects_modify. Qed.

Lemma calm_upd p f : respects calm (upd_trans p f).
Proof.
  intros d a d'. unfold upd_trans. destruct (heap d !! p) as [t|]; [|done].
  intros [= _ <-]. split; [done|reflexivity].
Qed.

Lemma calm_get p : respects calm (get_trans p).
Proof. intros d a d'. unfold get_trans. destruct (heap d !! p); [|done]. by intros [= _ <-]. Qed.

#[local] Hint Resolve calm_get calm_upd : respects.
#[local] Hint Extern 2 (respects calm (modify _)) =>
  apply calm_modify; intros ?; split; [done|reflexivity] : respects.

Lemma calm_list_del p : respects calm (list_del_init p).
Proof.
  unfold list_del_init. apply respects_bind; [typeclasses eauto|apply calm_get|intros _].
  apply calm_modify. intros d. split; [|done]. intros [H|H]; [left|by right].
  intros E. by apply H, remove_ptr_nil.
Qed.

Lemma calm_find l serial : respects calm (find_reply l serial).
Proof. induction l; cbn; respects_go. Qed.
Lemma calm_lines l : respects calm (status_lines l).
Proof. induction l; cbn; unfold status_line; respects_go. Qed.
Lemma calm_wakes p : respects calm (wake_up_fs_queue p).
Proof. unfold wake_up_fs_queue. respects_go. Qed.
#[local] Hint Resolve calm_list_del calm_find calm_lines calm_wakes : respects.

Lemma calm_new alloc : respects calm (uvfs_new_transaction alloc).
Proof. unfold uvfs_new_transaction. respects_go. Qed.
Lemma calm_free p : respects calm (kfree p).
Proof. unfold kfree. respects_go. Qed.
Lemma calm_open : respects calm uvfsd_open.
Proof. unfold uvfsd_open. respects_go. Qed.

Lemma calm_waits p sig :
  respects calm (make_request_wait p sig) /\ respects calm (make_request_check p sig) /\
  respects calm (make_request_wait_idle p) /\ respects calm (make_request_aborted p).
Proof.
  unfold make_request_wait, make_request_check, make_request_wait_idle, make_request_aborted.
  split_and!; respects_go.
Qed.

Lemma calm_copies p serial buff size ret :
  respects calm (uvfsd_read_copy p) /\ respects calm (uvfsd_read_done p) /\
  respects calm (uvfsd_read_return p ret) /\ respects calm (uvfsd_write_take serial) /\
  respects calm (uvfsd_write_copy p buff size ret) /\ respects calm (uvfsd_write_done p).
Proof.
  unfold uvfsd_read_copy, uvfsd_read_done, uvfsd_read_return, uvfsd_write_take,
    uvfsd_write_copy, uvfsd_write_done.
  split_and!; respects_go.
Qed.
#[local] Hint Resolve calm_new calm_free calm_open : respects.
#[local] Hint Extern 3 (respects calm _) => first [apply calm_waits|apply calm_copies] : respects.

(** The actions that neither add work nor touch the wait queue. *)
Definition is_calm (a : action) : bool :=
  match a with
  | AClose _ | AIoctl _ _ _ | ASubmit _ | ARead _ | AShutdownOut _ _ _ | AWoken _ _ => false
  | _ => true
  end.

Lemma calm_run a : is_calm a = true -> respects (drv_rel calm) (run a).
Proof. intros Ha. destruct a; try discriminate Ha; cbn [run]; respects_run (respects_pcs calm). Qed.

Lemma still_drv {A} o (m : M driver A) : respects (others_still o) (on_drv m).
Proof.
  intros c x c'. unfold on_drv. destruct (m (drv c)) as [[b d]|]; [|done]. by intros [= _ <-].
Qed.
Lemma still_client o f :
  (forall c, servers (f c) = servers c) -> respects (others_still o) (modify f).
Proof. intros H c x c' [= _ <-] s _. by rewrite H. Qed.
Lemma still_server s f :
  (forall c s', s <> s' -> servers (f c) !! s' = servers c !! s') ->
  respects (others_still (Some s)) (modify f).
Proof. intros H c x c' [= _ <-] s' Hs. apply H. congruence. Qed.
#[local] Hint Resolve still_drv : respects.
#[local] Hint Extern 3 (respects (others_still _) (put_client _ _)) =>
  by apply still_client : respects.
#[local] Hint Extern 3 (respects (others_still _) (drop_client _)) =>
  by apply still_client : respects.
#[local] Hint Extern 3 (respects (others_still _) (put_server _ _)) =>
  apply still_server; intros; by apply lookup_insert_ne : respects.
#[local] Hint Extern 3 (respects (others_still _) (after_pass _ _)) =>
  apply still_server; intros; by apply lookup_insert_ne : respects.
#[local] Hint Extern 3 (respects (others_still _) (drop_server _)) =>
  apply still_server; intros; by apply lookup_delete_ne : respects.

Lemma still_run a : respects (others_still (mover a)) (run a).
Proof. destruct a; cbn [run mover]; respects_go. Qed.

(** A shutdown being handed out survives the actions of others. *)
Lemma shutdown_kept a c c' s :
  run a c = Some (tt, c') -> servers c !! s = Some SShutdown -> mover a <> Some s ->
  servers c' !! s = Some SShutdown.
Proof. intros Hr Hs Hm. by rewrite (still_run a c tt c' Hr s Hm). Qed.

Lemma told_woken c : woken (Uvfs_driver_queue (drv c)) -> told c.
Proof. intros H _. by left. Qed.

Lemma told_idle c : Uvfs_requests (drv c) = [] -> ShuttingDown (drv c) = false -> told c.
Proof. intros E1 E2 [H|H]; congruence. Qed.
#[local] Hint Resolve told_woken told_idle woken_first : uvfs.

(** What one pass of the read loop leaves. *)
Lemma told_pass c s r d :
  uvfsd_read_pass s (drv c) = Some (r, d) -> forall cls srv,
  told (Config d cls (<[s := match r with PassShutdown => SShutdown | PassSleep => SSleep
                                       | PassTake p => SCopyOut p end]> srv)).
Proof.
  intros E cls srv. destruct (ShuttingDown (drv c)) eqn:Esd.
  { rewrite read_pass_shutdown in E by done. injection E as <- <-. intros _. right.
    exists s. apply lookup_insert_eq. }
  destruct (Uvfs_requests (drv c)) as [|p l] eqn:Erq.
  { rewrite read_pass_sleep in E by done. injection E as <- <-. by apply told_idle. }
  destruct r as [| |p'].
  - revert E. unfold uvfsd_read_pass. exec_unfold. rewrite Esd, Erq.
    by repeat case_match.
  - revert E. unfold uvfsd_read_pass. exec_unfold. rewrite Esd, Erq.
    by repeat case_match.
  - apply read_pass_inv in E as (l' & t & _ & _ & ->). apply told_woken, woken_first.
Qed.

Lemma told_calm a c c' :
  is_calm a = true -> enabled a c -> run a c = Some (tt, c') -> told c -> told c'.
Proof.
  intros Ha He Hr Ht Hw. destruct (calm_run a Ha c tt c' Hr) as [Hw' Eq].
  rewrite Eq. destruct (Ht (Hw' Hw)) as [H|[s Hs]]; [by left|]. right. exists s.
  eapply shutdown_kept; [done..|]. intros Hm.
  destruct a; try discriminate Hm; try discriminate Ha; injection Hm as ->; cbn in He;
    naive_solver.
Qed.

Lemma told_close s c c' :
  inv c -> enabled (AClose s) c -> run (AClose s) c = Some (tt, c') -> told c -> told c'.
Proof.
  intros Hinv He Hr Ht. revert Hr. run_unfold.
  destruct (decide (s32 (uvfs_use_count (drv c) - 1) = 0)) as [Hz|Hz].
  - rewrite (on_drv_eq _ c _ _ (release_last (drv c) Hz (inv_nodup c Hinv)
      ltac:(intros p [H|H]%elem_of_app; [by apply requests_live|by apply replies_live]))).
    intros [= <-]. by apply told_idle.
  - rewrite (on_drv_eq _ c _ _ (release_more (drv c) Hz)). intros [= <-] Hw.
    destruct (Ht Hw) as [H|[s' Hs']]; [by left|right]. exists s'. cbn.
    rewrite lookup_delete_ne; [done|]. intros ->. cbn in He. congruence.
Qed.

Lemma told_ioctl s mounted cmd c c' :
  run (AIoctl s mounted cmd) c = Some (tt, c') -> told c -> told c'.
Proof.
  unfold run, uvfsd_ioctl. destruct (cmd =? UVFS_IOCTL_SHUTDOWN) eqn:E.
  - run_unfold. intros [= <-] _. apply told_woken, woken_first.
  - intros Hr Ht. enough (drv_rel calm c c' /\ others_still None c c') as [[H1 H2] H3].
    { intros Hw. rewrite H2. destruct (Ht (H1 Hw)) as [H|[s' Hs']]; [by left|right].
      exists s'. by rewrite H3. }
    split; refine ((_ : respects _ (on_drv _ ≫= fun _ => mret tt)) c tt c' Hr);
      (apply respects_bind; [typeclasses eauto| |intros ?; apply respects_ret; typeclasses eauto]).
    + apply respects_on_drv. respects_go.
    + apply still_drv.
Qed.

Lemma told_submit cl c c' :
  run (ASubmit cl) c = Some (tt, c') -> told c -> told c'.
Proof.
  cbn [run]. unfold mbind at 1, M_bind at 1, gets.
  destruct (clients c !! cl) as [[p|p|p b|p|p]|] eqn:Ec; try (by intros [= <-]).
  unfold make_request_submit, on_drv. exec_unfold.
  destruct (uvfs_use_count (drv c) =? 0);
    destruct (heap (drv c) !! p) eqn:Ep; cbn -[uvfs_use_count]; try done;
    intros [= <-] Ht; [exact Ht|]. apply told_woken, woken_first.
Qed.

Lemma told_step c c' : inv c -> undisturbed c c' -> told c -> told c'.
Proof.
  intros Hinv (a & He & Hp & Hr & Ha) Ht. destruct (is_calm a) eqn:Ec.
  { by eapply told_calm. }
  destruct a; try discriminate Ec.
  - by eapply told_close.
  - by eapply told_ioctl.
  - by eapply told_submit.
  - revert Hr. cbn [run]. unfold on_drv, mbind, M_bind.
    destruct (uvfsd_read_pass s (drv c)) as [[r d]|] eqn:E; [|done].
    unfold after_pass, put_server, modify. intros [= <-]. by eapply told_pass.
  - revert Hr. run_unfold. intros [= <-]. apply told_woken, woken_first.
  - destruct sig; [by destruct (Ha s)|]. revert Hr. cbn [run].
    unfold on_drv, uvfsd_read_woken, mbind, M_bind, remove_wait_queue, modify.
    destruct (uvfsd_read_pass s _) as [[r d]|] eqn:E; [|done].
    unfold after_pass, put_server, modify, mret, M_ret. intros [= <-].
    by eapply (told_pass (Config _ (clients c) (servers c))).
Qed.

Lemma undisturbed_step c c' : undisturbed c c' -> step c c'.
Proof. intros (a & ? & ? & ? & _). by exists a. Qed.

Lemma told_reachable c : rtc undisturbed config_init c -> inv c /\ told c.
Proof.
  intros H. enough (forall c0, inv c0 /\ told c0 -> rtc undisturbed c0 c -> inv c /\ told c) as Hg.
  { apply (Hg config_init); [|done]. split; [apply inv_init|by apply told_idle]. }
  clear H. intros c0 Hi H. induction H as [|c0 c1 c2 Hs _ IH]; [done|]. apply IH.
  destruct Hi as [Hi Ht]. split; [by eapply inv_step, undisturbed_step|by eapply told_step].
Qed.

(** ** Theorems *)

(** C24: while no sleeping server is interrupted by a signal, a queued request (or a
    pending shutdown) is never left to sleeping servers only: if some server sleeps
    in [uvfsd_read] then one that does has been woken and runs, or one is handing
    out the shutdown request and will wake the next. *)
Theorem no_lost_server_wakeup c s :
  rtc undisturbed config_init c ->
  Uvfs_requests (drv c) <> [] \/ ShuttingDown (drv c) = true ->
  servers c !! s = Some SSleep ->
  exists s', enabled (AWoken s' false) c \/ servers c !! s' = Some SShutdown.
Proof.
  intros [Hinv Ht]%told_reachable Hw Hs. destruct (inv_queue c Hinv) as [_ Hq].
  destruct (Ht Hw) as [[E|[s' Hs']]|[s' Hs']].
  - apply Hq in Hs. rewrite E in Hs. by apply not_elem_of_nil in Hs.
  - exists s'. left. split; [|by left]. apply Hq. apply list_elem_of_fmap.
    by exists (s', true).
  - exists s'. by right.
Qed.

Definition demo_waiting : list action := AOpen 1 :: ARead 1 :: demo_submit 10 0 0.

Lemma undisturbed_runs l c c' :
  runs (fun a c => politeb a c && match a with AWoken _ true => false | _ => true end) l c = Some c' ->
  rtc undisturbed c c'.
Proof.
  revert c. induction l as [|a l IH]; intros c; cbn; [by intros [= ->]|].
  destruct (enabledb a c) eqn:Ee; [|done]. destruct (politeb a c) eqn:Ep; [|done].
  cbn. destruct (match a with AWoken _ true => false | _ => true end) eqn:Ea; [|done].
  destruct (run a c) as [[[] c1]|] eqn:Er; [|done]. intros H. eapply rtc_l; [|by apply IH].
  exists a. split_and!; [by apply enabledb_sound|by apply politeb_sound|done|].
  by intros s ->.
Qed.

Lemma no_lost_server_wakeup_witness :
  exists c s', Uvfs_requests (drv c) = [0%nat] /\ servers c !! 1%nat = Some SSleep /\
  (enabled (AWoken s' false) c \/ servers c !! s' = Some SShutdown).
Proof.
  destruct (runs (fun a c => politeb a c && match a with AWoken _ true => false | _ => true end)
              demo_waiting config_init) as [c|] eqn:E; [|by vm_compute in E].
  assert (Uvfs_requests <$> (drv <$> Some c) = Some [0%nat]) as Erq
    by (rewrite <- E; by vm_compute).
  assert (Some c ≫= (fun c => servers c !! 1%nat) = Some SSleep) as Es
    by (rewrite <- E; by vm_compute).
  cbn in Erq, Es. injection Erq as Erq.
  destruct (no_lost_server_wakeup c 1%nat) as [s' Hs'];
    [exact (undisturbed_runs _ _ _ E)|left; rewrite Erq; discriminate|exact Es|].
  exists c, s'. exact (conj Erq (conj Es Hs')).
Defined.

(** A server that is woken for a request and has a signal pending returns
    [-ERESTARTSYS] without passing the wake-up on: the request stays queued while
    another server sleeps, and no sleeping server has been woken for it. *)
Theorem lost_wakeup_on_signal :
  exists c, reachable c /\ Uvfs_requests (drv c) = [0%nat] /\
  servers c = {[1%nat := SIdle; 2%nat := SSleep]} /\ ShuttingDown (drv c) = false /\
  Uvfs_driver_queue (drv c) = [(2%nat, false)] /\ forall s, ~ enabled (AWoken s false) c.
Proof.
  exists (demo_config demo_lost_wakeup).
  assert (Uvfs_driver_queue (drv (demo_config demo_lost_wakeup)) = [(2%nat, false)]) as Eq
    by (by vm_compute).
  split; [by apply demo_reachable; vm_compute|]. split; [by vm_compute|].
  split; [by vm_compute|]. split; [by vm_compute|]. split; [exact Eq|].
  intros s [_ [H|H]]; [|done]. rewrite Eq in H.
  apply list_elem_of_singleton in H. discriminate H.
Qed.
