(* ===== verification/DriverSignals.v ===== *)
(** * Signals during a request (driver.c)

    [uvfs_make_request] masks signals while it waits, so that a file-system call
    is interrupted by SIGKILL only.  A signal set is one 64-bit word, bit [s - 1]
    standing for signal [s]. *)

From stdpp Require Import prelude gmap list strings.
From Stdlib Require Import ZArith Lia.
From S2P Require Import Prelude Protocol Driver.

Open Scope string_scope.
Open Scope list_scope.
Open Scope Z_scope.

(** Whether a signal is in a set. *)
Definition sigismember (set sig : Z) : bool := Z.testbit set (sig - 1).

(** ** Lemmas *)

Lemma testbit_u64 z i : Z.testbit (u64 z) i = (i <? 64) && Z.testbit z i.
Proof.
  unfold u64. destruct (Z.ltb_spec i 64) as [Hi|Hi].
  - destruct (Z.neg_nonneg_cases i); [by rewrite !Z.testbit_neg_r|].
    by rewrite Z.mod_pow2_bits_low by lia.
  - by rewrite Z.mod_pow2_bits_high by lia.
Qed.

Lemma testbit_lnot64 z i : 0 <= i -> Z.testbit (lnot64 z) i = (i <? 64) && negb (Z.testbit z i).
Proof. intros Hi. unfold lnot64. by rewrite testbit_u64, Z.lnot_spec. Qed.

Lemma testbit_sigmask sig i : 1 <= sig -> 0 <= i -> Z.testbit (sigmask sig) i = (i =? sig - 1).
Proof.
  intros Hs Hi. unfold sigmask. rewrite Z.shiftl_spec by lia.
  destruct (Z.eqb_spec i (sig - 1)) as [->|Hne]; [by rewrite Z.sub_diag|].
  destruct (Z.neg_nonneg_cases (i - (sig - 1))); [by rewrite Z.testbit_neg_r|].
  change 1 with (2 ^ 0). rewrite Z.pow2_bits_false by lia. done.
Qed.

(** The set blocked during the wait: everything but an unblocked SIGKILL. *)
Lemma testbit_make_request_mask oldset i :
  0 <= i < 64 ->
  Z.testbit (make_request_mask oldset) i =
  negb ((i =? SIGKILL - 1) && negb (Z.testbit oldset i)).
Proof.
  intros Hi. unfold make_request_mask, siginitsetinv, ALLOWED_SIGS.
  rewrite testbit_lnot64, Z.land_spec, testbit_sigmask, testbit_lnot64 by (unfold SIGKILL; lia).
  by rewrite (proj2 (Z.ltb_lt i 64)) by lia.
Qed.

Lemma unblocked oldset :
  lnot64 (make_request_mask oldset) = Z.land (sigmask SIGKILL) (lnot64 oldset).
Proof.
  apply Z.bits_inj'. intros i Hi.
  rewrite testbit_lnot64, Z.land_spec, testbit_sigmask, testbit_lnot64 by (unfold SIGKILL; lia).
  destruct (Z.ltb_spec i 64).
  - rewrite testbit_make_request_mask, negb_involutive by lia. done.
  - by rewrite andb_false_r.
Qed.

(** ** Theorems *)

(** The wait of [uvfs_make_request] is interruptible by SIGKILL alone: with the
    mask it installs [signal_pending] holds exactly when SIGKILL is pending and the
    caller had not blocked it. *)
Theorem only_kill_interrupts pending oldset :
  signal_pending pending (make_request_mask oldset) =
  sigismember pending SIGKILL && negb (sigismember oldset SIGKILL).
Proof.
  unfold signal_pending. rewrite unblocked, Z.land_assoc.
  set (b := sigismember pending SIGKILL && negb (sigismember oldset SIGKILL)).
  enough (Z.land (Z.land pending (sigmask SIGKILL)) (lnot64 oldset) =
          if b then sigmask SIGKILL else 0) as -> by (by destruct b).
  apply Z.bits_inj'. intros i Hi.
  rewrite !Z.land_spec, testbit_sigmask, testbit_lnot64 by (unfold SIGKILL; lia).
  destruct (Z.eqb_spec i (SIGKILL - 1)) as [->|Hne].
  - rewrite andb_true_r. change (SIGKILL - 1 <? 64) with true. cbn [andb].
    fold (sigismember pending SIGKILL) (sigismember oldset SIGKILL) b.
    destruct b; [by vm_compute|by rewrite Z.bits_0].
  - rewrite andb_false_r. destruct b; [|by rewrite Z.bits_0].
    rewrite testbit_sigmask by (unfold SIGKILL; lia). by rewrite (proj2 (Z.eqb_neq _ _)).
Qed.
