(* ===== verification/Requests.v ===== *)
(** * The requests of the file system (dir.c, file.c, super.c, symlink.c)

    Every request is built in the union of a transaction by a sequence of stores;
    here is one function per kind of request, its stores in the order of the code.
    [parse_request] is the server's reading of the bytes it is given. *)

From stdpp Require Import prelude gmap list strings.
From Stdlib Require Import ZArith Lia.
From S2P Require Import Prelude Protocol DriverSteps.

Open Scope string_scope.
Open Scope list_scope.
Open Scope Z_scope.

Definition len (l : list Z) : Z := Z.of_nat (length l).

(** ** Building requests *)

Section builders.
Variables (serial uid gid : Z) (fh : fhandle).

Definition create_request (mode : Z) (name : list Z) (u : mem) : mem :=
  let t := uvfs_create_req_s in
  u |> set_int t "type" UVFS_CREATE
    |> set_int t "serial" serial
    |> set_int t "size" (offsetof t "name" + len name)
    |> set_chars t "name" name
    |> set_int t "namelen" (len name)
    |> set_fh t "fh" fh
    |> set_int t "uid" uid
    |> set_int t "gid" gid
    |> set_int t "mode" mode.

Definition lookup_request (name : list Z) (u : mem) : mem :=
  let t := uvfs_lookup_req_s in
  u |> set_int t "type" UVFS_LOOKUP
    |> set_int t "serial" serial
    |> set_int t "size" (offsetof t "name" + len name)
    |> set_chars t "name" name
    |> set_int t "namelen" (len name)
    |> set_int t "uid" uid
    |> set_int t "gid" gid
    |> set_fh t "fh" fh.

Definition unlink_request (name : list Z) (u : mem) : mem :=
  let t := uvfs_unlink_req_s in
  u |> set_int t "type" UVFS_UNLINK
    |> set_int t "serial" serial
    |> set_int t "size" (offsetof t "name" + len name)
    |> set_int t "uid" uid
    |> set_int t "gid" gid
    |> set_fh t "fh" fh
    |> set_chars t "name" name
    |> set_int t "namelen" (len name).

Definition symlink_request (name path : list Z) (u : mem) : mem :=
  let t := uvfs_symlink_req_s in
  u |> set_int t "type" UVFS_SYMLINK
    |> set_int t "serial" serial
    |> set_int t "size" (sizeof t)
    |> set_int t "uid" uid
    |> set_int t "gid" gid
    |> set_fh t "fh" fh
    |> set_chars t "name" name
    |> set_int t "namelen" (len name)
    |> set_chars t "sympath" path
    |> set_int t "symlen" (len path).

Definition mkdir_request (mode : Z) (name : list Z) (u : mem) : mem :=
  let t := uvfs_mkdir_req_s in
  u |> set_int t "type" UVFS_MKDIR
    |> set_int t "serial" serial
    |> set_int t "size" (offsetof t "name" + len name)
    |> set_chars t "name" name
    |> set_int t "namelen" (len name)
    |> set_fh t "fh" fh
    |> set_int t "uid" uid
    |> set_int t "gid" gid
    |> set_int t "mode" mode.

Definition rmdir_request (name : list Z) (u : mem) : mem :=
  let t := uvfs_rmdir_req_s in
  u |> set_int t "type" UVFS_RMDIR
    |> set_int t "serial" serial
    |> set_int t "size" (offsetof t "name" + len name)
    |> set_int t "uid" uid
    |> set_int t "gid" gid
    |> set_fh t "fh" fh
    |> set_chars t "name" name
    |> set_int t "namelen" (len name).

Definition rename_request (old_name : list Z) (fh_new : fhandle) (new_name : list Z)
    (u : mem) : mem :=
  let t := uvfs_rename_req_s in
  u |> set_int t "type" UVFS_RENAME
    |> set_int t "serial" serial
    |> set_int t "size" (sizeof t)
    |> set_int t "uid" uid
    |> set_int t "gid" gid
    |> set_fh t "fh_old" fh
    |> set_chars t "old_name" old_name
    |> set_int t "old_namelen" (len old_name)
    |> set_fh t "fh_new" fh_new
    |> set_chars t "new_name" new_name
    |> set_int t "new_namelen" (len new_name).

Definition readdir_request (entry_no : Z) (u : mem) : mem :=
  let t := uvfs_readdir_req_s in
  u |> set_int t "type" UVFS_READDIR
    |> set_int t "serial" serial
    |> set_int t "size" (sizeof t)
    |> set_int t "entry_no" entry_no
    |> set_int t "uid" uid
    |> set_int t "gid" gid
    |> set_fh t "fh" fh.

Definition getattr_request (u : mem) : mem :=
  let t := uvfs_getattr_req_s in
  u |> set_int t "type" UVFS_GETATTR
    |> set_int t "serial" serial
    |> set_int t "size" (sizeof t)
    |> set_int t "uid" uid
    |> set_int t "gid" gid
    |> set_fh t "fh" fh.

Definition statfs_request (u : mem) : mem :=
  let t := uvfs_statfs_req_s in
  u |> set_int t "type" UVFS_STATFS
    |> set_int t "serial" serial
    |> set_int t "size" (sizeof t)
    |> set_fh t "fh" fh.

Definition read_super_request (arg : list Z) (u : mem) : mem :=
  let t := uvfs_read_super_req_s in
  u |> set_int t "type" UVFS_READ_SUPER
    |> set_int t "serial" serial
    |> set_int t "size" (offsetof t "buff" + len arg)
    |> set_int t "uid" uid
    |> set_int t "gid" gid
    |> set_int t "arglength" (len arg)
    |> set_chars t "buff" arg.

Definition readlink_request (u : mem) : mem :=
  let t := uvfs_readlink_req_s in
  u |> set_int t "type" UVFS_READLINK
    |> set_int t "serial" serial
    |> set_int t "size" (sizeof t)
    |> set_int t "uid" uid
    |> set_int t "gid" gid
    |> set_fh t "fh" fh.

Definition write_request (offset : Z) (data : list Z) (u : mem) : mem :=
  let t := uvfs_file_write_req_s in
  u |> set_int t "type" UVFS_WRITE
    |> set_int t "serial" serial
    |> set_int t "size" (offsetof t "buff" + len data)
    |> set_int t "uid" uid
    |> set_int t "gid" gid
    |> set_fh t "fh" fh
    |> set_int t "count" (len data)
    |> set_int t "offset" offset
    |> set_chars t "buff" data.

Definition read_request (offset : Z) (u : mem) : mem :=
  let t := uvfs_file_read_req_s in
  u |> set_int t "type" UVFS_READ
    |> set_int t "serial" serial
    |> set_int t "size" (sizeof t)
    |> set_int t "uid" uid
    |> set_int t "gid" gid
    |> set_fh t "fh" fh
    |> set_int t "count" PAGE_CACHE_SIZE
    |> set_int t "offset" offset.
End builders.

(** [struct iattr], the argument of a SETATTR request (linux/fs.h). *)
Record iattr := IAttr {
  ia_valid : Z; ia_mode : Z; ia_uid : Z; ia_gid : Z; ia_size : Z;
  ia_atime : Z * Z; ia_mtime : Z * Z; ia_ctime : Z * Z }.

(** The member [g] of the time [f] of a SETATTR request. *)
Definition set_time (f g : string) (v : Z) : mem -> mem :=
  wr32 (offsetof uvfs_setattr_req_s f + offsetof uvfs_timespec_s g) v.

Definition setattr_request (serial uid gid : Z) (fh : fhandle) (a : iattr) (u : mem) : mem :=
  let t := uvfs_setattr_req_s in
  u |> set_int t "type" UVFS_SETATTR
    |> set_int t "serial" serial
    |> set_int t "size" (sizeof t)
    |> set_int t "uid" uid
    |> set_int t "gid" gid
    |> set_fh t "fh" fh
    |> set_int t "ia_valid" (ia_valid a)
    |> set_int t "ia_mode" (ia_mode a)
    |> set_int t "ia_uid" (ia_uid a)
    |> set_int t "ia_gid" (ia_gid a)
    |> set_int t "ia_size" (ia_size a)
    |> set_time "ia_atime" "tv_sec" (ia_atime a).1
    |> set_time "ia_atime" "tv_nsec" (ia_atime a).2
    |> set_time "ia_mtime" "tv_sec" (ia_mtime a).1
    |> set_time "ia_mtime" "tv_nsec" (ia_mtime a).2
    |> set_time "ia_ctime" "tv_sec" (ia_ctime a).1
    |> set_time "ia_ctime" "tv_nsec" (ia_ctime a).2.

(** ** Requests as values *)

Inductive request :=
| RqCreate (uid gid : Z) (fh : fhandle) (mode : Z) (name : list Z)
| RqLookup (uid gid : Z) (fh : fhandle) (name : list Z)
| RqUnlink (uid gid : Z) (fh : fhandle) (name : list Z)
| RqSymlink (uid gid : Z) (fh : fhandle) (name path : list Z)
| RqMkdir (uid gid : Z) (fh : fhandle) (mode : Z) (name : list Z)
| RqRmdir (uid gid : Z) (fh : fhandle) (name : list Z)
| RqRename (uid gid : Z) (fh : fhandle) (old_name : list Z) (fh_new : fhandle)
    (new_name : list Z)
| RqReaddir (uid gid : Z) (fh : fhandle) (entry_no : Z)
| RqSetattr (uid gid : Z) (fh : fhandle) (a : iattr)
| RqGetattr (uid gid : Z) (fh : fhandle)
| RqStatfs (fh : fhandle)
| RqReadSuper (uid gid : Z) (arg : list Z)
| RqReadlink (uid gid : Z) (fh : fhandle)
| RqWrite (uid gid : Z) (fh : fhandle) (offset : Z) (data : list Z)
| RqRead (uid gid : Z) (fh : fhandle) (offset : Z).

Definition build (r : request) (serial : Z) : mem -> mem :=
  match r with
  | RqCreate uid gid fh mode name => create_request serial uid gid fh mode name
  | RqLookup uid gid fh name => lookup_request serial uid gid fh name
  | RqUnlink uid gid fh name => unlink_request serial uid gid fh name
  | RqSymlink uid gid fh name path => symlink_request serial uid gid fh name path
  | RqMkdir uid gid fh mode name => mkdir_request serial uid gid fh mode name
  | RqRmdir uid gid fh name => rmdir_request serial uid gid fh name
  | RqRename uid gid fh old fh_new new => rename_request serial uid gid fh old fh_new new
  | RqReaddir uid gid fh n => readdir_request serial uid gid fh n
  | RqSetattr uid gid fh a => setattr_request serial uid gid fh a
  | RqGetattr uid gid fh => getattr_request serial uid gid fh
  | RqStatfs fh => statfs_request serial fh
  | RqReadSuper uid gid arg => read_super_request serial uid gid arg
  | RqReadlink uid gid fh => readlink_request serial uid gid fh
  | RqWrite uid gid fh off data => write_request serial uid gid fh off data
  | RqRead uid gid fh off => read_request serial uid gid fh off
  end.

(** The bytes of a request that the device hands to the server. *)
Definition delivered (u : mem) : list Z :=
  rd_bytes 0 (get_int uvfs_generic_req_s "size" u) u.

(** ** The server's side: reading a request back

    Not part of the program: the inverse that the protocol suggests. *)

Definition get_chars (t : ctype) (f : string) (n : Z) (u : mem) : list Z :=
  rd_bytes (offsetof t f) n u.
Definition get_time (f : string) (u : mem) : Z * Z :=
  (rd32 (offsetof uvfs_setattr_req_s f + offsetof uvfs_timespec_s "tv_sec") u,
   rd32 (offsetof uvfs_setattr_req_s f + offsetof uvfs_timespec_s "tv_nsec") u).

Definition parse_as (type : Z) (u : mem) : option request :=
  let i t f := get_int t f u in
  let g t f := get_uint t f u in
  let h t f := get_fh t f u in
  let s t f l := get_chars t f (get_uint t l u) u in
      (if type =? UVFS_CREATE then let t := uvfs_create_req_s in
         Some (RqCreate (g t "uid") (g t "gid") (h t "fh") (i t "mode") (s t "name" "namelen"))
       else if type =? UVFS_LOOKUP then let t := uvfs_lookup_req_s in
         Some (RqLookup (g t "uid") (g t "gid") (h t "fh") (s t "name" "namelen"))
       else if type =? UVFS_UNLINK then let t := uvfs_unlink_req_s in
         Some (RqUnlink (g t "uid") (g t "gid") (h t "fh") (s t "name" "namelen"))
       else if type =? UVFS_SYMLINK then let t := uvfs_symlink_req_s in
         Some (RqSymlink (g t "uid") (g t "gid") (h t "fh") (s t "name" "namelen")
                 (s t "sympath" "symlen"))
       else if type =? UVFS_MKDIR then let t := uvfs_mkdir_req_s in
         Some (RqMkdir (g t "uid") (g t "gid") (h t "fh") (i t "mode") (s t "name" "namelen"))
       else if type =? UVFS_RMDIR then let t := uvfs_rmdir_req_s in
         Some (RqRmdir (g t "uid") (g t "gid") (h t "fh") (s t "name" "namelen"))
       else if type =? UVFS_RENAME then let t := uvfs_rename_req_s in
         Some (RqRename (g t "uid") (g t "gid") (h t "fh_old") (s t "old_name" "old_namelen")
                 (h t "fh_new") (s t "new_name" "new_namelen"))
       else if type =? UVFS_READDIR then let t := uvfs_readdir_req_s in
         Some (RqReaddir (g t "uid") (g t "gid") (h t "fh") (i t "entry_no"))
       else if type =? UVFS_SETATTR then let t := uvfs_setattr_req_s in
         Some (RqSetattr (g t "uid") (g t "gid") (h t "fh")
                 (IAttr (g t "ia_valid") (g t "ia_mode") (g t "ia_uid") (g t "ia_gid")
                    (g t "ia_size") (get_time "ia_atime" u) (get_time "ia_mtime" u)
                    (get_time "ia_ctime" u)))
       else if type =? UVFS_GETATTR then let t := uvfs_getattr_req_s in
         Some (RqGetattr (g t "uid") (g t "gid") (h t "fh"))
       else if type =? UVFS_STATFS then Some (RqStatfs (h uvfs_statfs_req_s "fh"))
       else if type =? UVFS_READ_SUPER then let t := uvfs_read_super_req_s in
         Some (RqReadSuper (g t "uid") (g t "gid") (s t "buff" "arglength"))
       else if type =? UVFS_READLINK then let t := uvfs_readlink_req_s in
         Some (RqReadlink (g t "uid") (g t "gid") (h t "fh"))
       else if type =? UVFS_WRITE then let t := uvfs_file_write_req_s in
         Some (RqWrite (g t "uid") (g t "gid") (h t "fh") (g t "offset") (s t "buff" "count"))
       else if type =? UVFS_READ then let t := uvfs_file_read_req_s in
         if i t "count" =? PAGE_CACHE_SIZE
         then Some (RqRead (g t "uid") (g t "gid") (h t "fh") (g t "offset")) else None
       else None).

Definition parse_request (u : mem) : option (Z * request) :=
  r ← parse_as (get_int uvfs_generic_req_s "type" u) u;
  Some (get_int uvfs_generic_req_s "serial" u, r).
