(* ===== verification/DriverSpec.v ===== *)
(** * What the driver promises: an abstract conduit, and a refinement (driver.c)

    The specification knows nothing of lists, flags, wait queues and tasks.  It
    has a cell for every transaction, with the phase of its life, a queue of
    submitted requests and the number of servers.  Its steps carry the events
    that the two sides can see.  [matches] relates a configuration of the driver
    to a state of the specification, and every step of the driver with a server
    that follows the protocol is one of the specification with the same event. *)

From stdpp Require Import prelude gmap list strings.
From Stdlib Require Import ZArith Lia.
From S2P Require Import Prelude Protocol Driver DriverSteps DriverInv DriverSafe DriverProps.
From S2P Require Import Requests.

Open Scope string_scope.
Open Scope list_scope.
Open Scope Z_scope.

(** ** The specification *)

(** The life of a transaction: the request [req] as it was submitted, and the
    reply as the client finds it in the union. *)
Inductive phase :=
| Building (u : mem)
| Queued (req : mem)           (* submitted, no server has it *)
| Fetched (req : mem)          (* handed to a server *)
| Replying (req : mem)         (* a server has begun its reply *)
| Replied (req rep : mem)      (* the reply is copied, not announced *)
| Answered (req rep : mem)     (* announced: the client may return *)
| Finished (req rep : mem).    (* the client has returned *)

Record spec := Spec { cells : gmap ptr phase; queue : list ptr; opens : Z }.

Definition spec_init : spec := Spec ∅ [] 0.

Definition put_cell (p : ptr) (ph : phase) (s : spec) : spec :=
  Spec (<[p := ph]> (cells s)) (queue s) (opens s).
Definition with_requests (q : list ptr) (s : spec) : spec := Spec (cells s) q (opens s).

(** What a kill finds: the request, and what the union holds. *)
Definition pending (ph : phase) : option (mem * mem) :=
  match ph with
  | Queued r | Fetched r => Some (r, r)
  | Answered r u => Some (r, u)
  | _ => None
  end.

(** What the last close does to a transaction. *)
Definition abandon (ph : phase) : phase :=
  match ph with
  | Queued r | Fetched r => Answered r (set_error (- EIO) r)
  | _ => ph
  end.

Inductive event :=
| EOpen
| EClose
| EAlloc (p : ptr)
| ESubmit (p : ptr) (req : mem)
| EFetch (p : ptr)                      (* a server is given the request *)
| EDeliver (p : ptr) (bytes : list Z)   (* its bytes are copied to the server *)
| EClaim (p : ptr) (serial : Z)         (* a server begins a reply *)
| EReply (p : ptr) (bytes : list Z)     (* the bytes of the reply *)
| EReturn (p : ptr) (rep : mem)         (* uvfs_make_request returns *)
| EFree (p : ptr).

Inductive spec_step : option event -> spec -> spec -> Prop :=
| sp_quiet s : spec_step None s s
| sp_open s : spec_step (Some EOpen) s (Spec (cells s) (queue s) (opens s + 1))
| sp_close s :
    opens s <> 1 -> spec_step (Some EClose) s (Spec (cells s) (queue s) (opens s - 1))
| sp_last s :
    opens s = 1 -> spec_step (Some EClose) s (Spec (abandon <$> cells s) [] 0)
| sp_alloc s p u :
    cells s !! p = None -> spec_step (Some (EAlloc p)) s (put_cell p (Building u) s)
| sp_build s p u f :
    cells s !! p = Some (Building u) -> spec_step None s (put_cell p (Building (f u)) s)
| sp_submit s p r :
    opens s <> 0 -> cells s !! p = Some (Building r) ->
    spec_step (Some (ESubmit p r)) s
      (put_cell p (Queued r) (with_requests (queue s ++ [p]) s))
| sp_refuse s p r :
    opens s = 0 -> cells s !! p = Some (Building r) ->
    spec_step (Some (EReturn p (set_error (- EIO) r))) s
      (put_cell p (Finished r (set_error (- EIO) r)) s)
| sp_fetch s p q r :
    queue s = p :: q -> cells s !! p = Some (Queued r) ->
    spec_step (Some (EFetch p)) s (put_cell p (Fetched r) (with_requests q s))
| sp_deliver s p r :
    cells s !! p = Some (Fetched r) -> spec_step (Some (EDeliver p (delivered r))) s s
| sp_claim s p r :
    cells s !! p = Some (Fetched r) ->
    spec_step (Some (EClaim p (get_int uvfs_generic_req_s "serial" r))) s
      (put_cell p (Replying r) s)
| sp_reply s p r l :
    cells s !! p = Some (Replying r) -> len l <= sizeof uvfs_reply_u ->
    spec_step (Some (EReply p l)) s (put_cell p (Replied r (wr_bytes 0 l r)) s)
| sp_answer s p r u :
    cells s !! p = Some (Replied r u) -> spec_step None s (put_cell p (Answered r u) s)
| sp_return s p r u :
    cells s !! p = Some (Answered r u) ->
    spec_step (Some (EReturn p u)) s (put_cell p (Finished r u) s)
| sp_kill s p ph r u :
    cells s !! p = Some ph -> pending ph = Some (r, u) ->
    spec_step (Some (EReturn p (set_error (- ERESTARTSYS) u))) s
      (put_cell p (Finished r (set_error (- ERESTARTSYS) u))
         (with_requests (remove_ptr p (queue s)) s))
| sp_free s p r u :
    cells s !! p = Some (Finished r u) ->
    spec_step (Some (EFree p)) s (Spec (delete p (cells s)) (queue s) (opens s)).

(** ** The events of the driver *)

(** The bytes a reply puts into the union: those that could not be copied are 0. *)
Definition reply_bytes (buff : mem) (size ret : Z) : list Z :=
  rd_bytes 0 (size - ret) buff ++ replicate (Z.to_nat ret) 0.

Definition pass_event (d : driver) : option event :=
  match ShuttingDown d, Uvfs_requests d with
  | false, p :: _ => Some (EFetch p)
  | _, _ => None
  end.

Definition return_event (p : ptr) (d : driver) (f : transaction -> option mem) : option event :=
  t ← heap d !! p; u ← f t; Some (EReturn p u).

(** What the kernel and the server can see of an action. *)
Definition event_of (a : action) (c : config) : option event :=
  let d := drv c in
  match a with
  | AOpen _ => Some EOpen
  | AClose _ => Some EClose
  | ANew _ p _ => Some (EAlloc p)
  | ASubmit cl =>
      match clients c !! cl with
      | Some (CBuilt p) =>
          if uvfs_use_count d =? 0
          then return_event p d (fun t => Some (set_error (- EIO) (t_u t)))
          else t ← heap d !! p; Some (ESubmit p (t_u t))
      | _ => None
      end
  | ACheck cl sig =>
      match clients c !! cl with
      | Some (CCheck p _) =>
          return_event p d (fun t =>
            if sig then if t_in_use t then None else Some (set_error (- ERESTARTSYS) (t_u t))
            else Some (t_u t))
      | _ => None
      end
  | AWaitIdle cl =>
      match clients c !! cl with
      | Some (CAbort p) =>
          return_event p d (fun t =>
            if t_in_use t then None else Some (set_error (- ERESTARTSYS) (t_u t)))
      | _ => None
      end
  | AFree cl => match clients c !! cl with Some (CDone p) => Some (EFree p) | _ => None end
  | ARead _ => pass_event d
  | AWoken _ sig => if sig then None else pass_event d
  | ACopyOut s _ =>
      match servers c !! s with
      | Some (SCopyOut p) =>
          match uvfsd_read_copy p d with Some (l, _) => Some (EDeliver p l) | None => None end
      | _ => None
      end
  | AWrite _ count buff =>
      match uvfsd_write_check count buff 0 with
      | inr (serial, _) =>
          match uvfsd_write_take serial d with
          | Some (Some p, _) => Some (EClaim p serial)
          | _ => None
          end
      | inl _ => None
      end
  | ACopyIn s buff ret =>
      match servers c !! s with
      | Some (SCopyIn p _ size) => Some (EReply p (reply_bytes buff size ret))
      | _ => None
      end
  | _ => None
  end.

(** ** The simulation relation *)

Definition waits (pc : client_pc) : bool :=
  match pc with CWait _ | CCheck _ _ | CAbort _ => true | _ => false end.

Definition at_phase (c : config) (p : ptr) (t : transaction) (ph : phase) : Prop :=
  match ph with
  | Building u => t_u t = u /\ exists cl, owns c cl (CBuilt p) p
  | Queued r => t_u t = r /\ p ∈ Uvfs_requests (drv c)
  | Fetched r => t_u t = r /\ p ∈ Uvfs_replies (drv c)
  | Replying r => t_u t = r /\ exists s b n, touches c s (SCopyIn p b n) p
  | Replied r u => t_u t = u /\ exists s, touches c s (SWriteDone p) p
  | Answered r u => t_u t = u /\ t_answered t = true /\
                    exists cl pc, owns c cl pc p /\ waits pc = true
  | Finished r u => t_u t = u /\ exists cl, owns c cl (CDone p) p
  end.

Definition cell_ok (c : config) (s : spec) (p : ptr) : Prop :=
  match heap (drv c) !! p, cells s !! p with
  | Some t, Some ph => at_phase c p t ph
  | None, None => True
  | _, _ => False
  end.

Record matches (c : config) (s : spec) : Prop := Matches {
  m_cells : forall p, cell_ok c s p;
  m_queue : queue s = Uvfs_requests (drv c);
  m_opens : opens s = uvfs_use_count (drv c) }.

(** The phase by what the invariant says of [p]. *)
Definition shape (t : transaction) (pc : client_pc) (rqb rpb : bool) (tch : option server_pc)
    (ph : phase) : Prop :=
  match ph with
  | Building u => t_u t = u /\ exists p, pc = CBuilt p
  | Queued r => t_u t = r /\ rqb = true
  | Fetched r => t_u t = r /\ rpb = true
  | Replying r => t_u t = r /\ exists p b n, tch = Some (SCopyIn p b n)
  | Replied r u => t_u t = u /\ exists p, tch = Some (SWriteDone p)
  | Answered r u => t_u t = u /\ t_answered t = true /\ waits pc = true
  | Finished r u => t_u t = u /\ exists p, pc = CDone p
  end.

(** ** Reading the relation *)

Lemma owner_is c p pc cl pc' : owner c p pc -> owns c cl pc' p -> pc' = pc.
Proof.
  intros (cl0 & [H0 _] & Hu) Ho. pose proof (Hu _ _ Ho) as ->. destruct Ho as [Ho _]. congruence.
Qed.

Lemma toucher_is c p tch s spc : toucher c p tch -> touches c s spc p -> tch = Some spc.
Proof.
  destruct tch as [pc|]; cbn; [|intros H Ht; by destruct (H s spc)].
  intros (s0 & [H0 _] & Hu) Ht. pose proof (Hu _ _ Ht) as ->. destruct Ht as [Ht _]. congruence.
Qed.

Lemma at_phase_shape c p t pc tch ph :
  owner c p pc -> toucher c p tch -> at_phase c p t ph ->
  shape t pc (rq c p) (rp c p) tch ph.
Proof.
  intros Ho Ht. destruct ph; cbn; intros [? H]; split; try done.
  - destruct H as [cl H]. exists p. symmetry. by eapply owner_is.
  - by apply rq_true.
  - by apply rp_true.
  - destruct H as (s & b & n & H). exists p, b, n. by eapply toucher_is.
  - destruct H as (s & H). exists p. by eapply toucher_is.
  - destruct H as [? (cl & pc' & H & Hw)]. split; [done|]. by rewrite <- (owner_is c p pc cl pc').
  - destruct H as [cl H]. exists p. symmetry. by eapply owner_is.
Qed.

Section read.
Context (c : config) (s : spec) (Hinv : inv c) (Hm : matches c s).

Lemma cell_live p t :
  heap (drv c) !! p = Some t -> exists ph, cells s !! p = Some ph /\ at_phase c p t ph.
Proof.
  intros Hp. pose proof (m_cells c s Hm p) as H. unfold cell_ok in H. rewrite Hp in H.
  destruct (cells s !! p) as [ph|]; [by exists ph|done].
Qed.

Lemma cell_none p : heap (drv c) !! p = None -> cells s !! p = None.
Proof.
  intros Hp. pose proof (m_cells c s Hm p) as H. unfold cell_ok in H. rewrite Hp in H.
  by destruct (cells s !! p).
Qed.

(** The phase of a transaction, from each side of the driver. *)
Lemma cell_shape p t pc tch :
  heap (drv c) !! p = Some t -> owner c p pc -> toucher c p tch ->
  exists ph, cells s !! p = Some ph /\ at_phase c p t ph /\
    shape t pc (rq c p) (rp c p) tch ph.
Proof.
  intros Hp Ho Ht. destruct (cell_live p t Hp) as (ph & Hc & Ha). exists ph.
  split_and!; [done|done|]. by apply at_phase_shape.
Qed.

Lemma cell_built cl p t :
  owns c cl (CBuilt p) p -> heap (drv c) !! p = Some t -> cells s !! p = Some (Building (t_u t)).
Proof.
  intros Hown Hp. destruct (owner_live c Hinv _ _ _ Hown) as (t' & tch & Hp' & Ho & Ht & Hl).
  simplify_eq. destruct (cell_shape p t _ _ Hp Ho Ht) as (ph & Hc & _ & Hs).
  destruct Hl as ((Hq & Hr & -> & Hiu) & Ha & _). rewrite Hq, Hr in Hs.
  destruct ph; cbn in Hs; destruct Hs as [? Hs]; subst; try done; naive_solver.
Qed.

Lemma cell_done cl p t :
  owns c cl (CDone p) p -> heap (drv c) !! p = Some t ->
  exists r, cells s !! p = Some (Finished r (t_u t)).
Proof.
  intros Hown Hp. destruct (owner_live c Hinv _ _ _ Hown) as (t' & tch & Hp' & Ho & Ht & Hl).
  simplify_eq. destruct (cell_shape p t _ _ Hp Ho Ht) as (ph & Hc & _ & Hs).
  destruct Hl as ((Hq & Hr & -> & Hiu) & _). rewrite Hq, Hr in Hs.
  destruct ph; cbn in Hs; destruct Hs as [? Hs]; subst; try done; naive_solver.
Qed.

Lemma cell_queued p t :
  p ∈ Uvfs_requests (drv c) -> heap (drv c) !! p = Some t ->
  cells s !! p = Some (Queued (t_u t)) /\ rp c p = false.
Proof.
  intros Hin Hp. destruct (listed_in_flight c Hinv p) as
    (t' & pc & tch & Hp' & Ho & Ht & Hl & Hf & Ha & _); [set_solver|]. simplify_eq.
  destruct (cell_shape p t _ _ Hp Ho Ht) as (ph & Hc & _ & Hs). apply rq_true in Hin.
  rewrite Hin in *.
  assert (tch = None) as -> by (unfold in_flight in Hf; destruct tch as [[]|]; intuition congruence).
  assert (rp c p = false) as Hr by (cbn in Hf; destruct (rp c p); intuition done).
  rewrite Hr in *. split; [|done].
  destruct ph, pc; cbn in *; unfold quiet in *; naive_solver congruence.
Qed.

Lemma cell_fetched p t :
  p ∈ Uvfs_replies (drv c) -> heap (drv c) !! p = Some t ->
  cells s !! p = Some (Fetched (t_u t)).
Proof.
  intros Hin Hp. destruct (listed_in_flight c Hinv p) as
    (t' & pc & tch & Hp' & Ho & Ht & Hl & Hf & Ha & _); [set_solver|]. simplify_eq.
  destruct (cell_shape p t _ _ Hp Ho Ht) as (ph & Hc & _ & Hs). apply rp_true in Hin.
  rewrite Hin in *.
  destruct ph, pc; cbn in *; unfold quiet in *; destruct tch as [[]|]; cbn in Hf;
    destruct (rq c p); naive_solver congruence.
Qed.

Lemma cell_copying sv p b n t :
  touches c sv (SCopyIn p b n) p -> heap (drv c) !! p = Some t ->
  cells s !! p = Some (Replying (t_u t)).
Proof.
  intros Hto Hp. destruct Hto as [Hsv Ep].
  destruct (touched_flight c Hinv _ _ _ Hsv Ep) as (t' & pc & Hp' & Ho & Ht & Hl & Hf).
  simplify_eq. destruct (cell_shape p t _ _ Hp Ho Ht) as (ph & Hc & _ & Hs).
  cbn in Hf. destruct Hf as (Hiu & Ha & Hq & Hr & _). rewrite Hq, Hr in *.
  destruct ph, pc; cbn in *; unfold quiet in *; naive_solver congruence.
Qed.

Lemma cell_written sv p t :
  touches c sv (SWriteDone p) p -> heap (drv c) !! p = Some t ->
  exists r, cells s !! p = Some (Replied r (t_u t)) /\
            exists cl pc, owns c cl pc p /\ waits pc = true.
Proof.
  intros Hto Hp. destruct Hto as [Hsv Ep].
  destruct (touched_flight c Hinv _ _ _ Hsv Ep) as (t' & pc & Hp' & Ho & Ht & Hl & Hf).
  simplify_eq. destruct (cell_shape p t _ _ Hp Ho Ht) as (ph & Hc & _ & Hs).
  cbn in Hf. destruct Hf as (Hiu & Ha & Hq & Hr). rewrite Hq, Hr in *.
  assert (waits pc = true) as Hw by (destruct pc; cbn in Hl; unfold quiet in Hl; naive_solver).
  destruct Ho as (cl & Ho & _).
  destruct ph, pc; cbn in *; unfold quiet in *; naive_solver congruence.
Qed.

(** A client that waits. *)
Lemma cell_waiting cl pc p t :
  owns c cl pc p -> waits pc = true -> heap (drv c) !! p = Some t -> t_in_use t = false ->
  exists ph r, cells s !! p = Some ph /\ pending ph = Some (r, t_u t) /\
    (t_answered t = true -> ph = Answered r (t_u t)).
Proof.
  intros Hown Hw Hp Hiu.
  destruct (owner_live c Hinv _ _ _ Hown) as (t' & tch & Hp' & Ho & Ht & Hl).
  simplify_eq. destruct (cell_shape p t _ _ Hp Ho Ht) as (ph & Hc & _ & Hs).
  assert (in_flight t (rq c p) (rp c p) tch) as Hf by (destruct pc; cbn in Hl; intuition done).
  pose proof (in_flight_idle _ _ _ _ Hf Hiu) as ->. cbn in Hf. destruct Hf as [_ Hf].
  exists ph. destruct ph; cbn in Hs; destruct Hs as [<- Hs].
  - destruct Hs as [? ->]. done.
  - eexists. split_and!; [done|done|]. intros E. rewrite E in Hf. intuition congruence.
  - eexists. split_and!; [done|done|]. intros E. rewrite E in Hf. intuition congruence.
  - naive_solver.
  - naive_solver.
  - by eexists.
  - destruct Hs as [? ->]. done.
Qed.
End read.

(** ** Frame *)

Lemma at_phase_frame c c' p t ph :
  (p ∈ Uvfs_requests (drv c') <-> p ∈ Uvfs_requests (drv c)) ->
  (p ∈ Uvfs_replies (drv c') <-> p ∈ Uvfs_replies (drv c)) ->
  same_owners c c' p -> same_touchers c c' p ->
  at_phase c p t ph -> at_phase c' p t ph.
Proof.
  intros Hq Hr Ho Ht. unfold same_owners, same_touchers in *.
  destruct ph; cbn; intros [? H]; split; try done.
  - destruct H as [cl H]. exists cl. by apply Ho.
  - by apply Hq.
  - by apply Hr.
  - destruct H as (x & b & n & H). exists x, b, n. by apply Ht.
  - destruct H as (x & H). exists x. by apply Ht.
  - destruct H as [? (cl & pc & H & ?)]. split; [done|]. exists cl, pc. by rewrite Ho.
  - destruct H as [cl H]. exists cl. by apply Ho.
Qed.

(** A step about [p] only has to be checked at [p]. *)
Lemma matches_at c c' s s' p :
  matches c s ->
  (forall q, q <> p ->
     heap (drv c') !! q = heap (drv c) !! q /\
     (q ∈ Uvfs_requests (drv c') <-> q ∈ Uvfs_requests (drv c)) /\
     (q ∈ Uvfs_replies (drv c') <-> q ∈ Uvfs_replies (drv c)) /\
     same_owners c c' q /\ same_touchers c c' q) ->
  (forall q, q <> p -> cells s' !! q = cells s !! q) ->
  queue s' = Uvfs_requests (drv c') -> opens s' = uvfs_use_count (drv c') ->
  cell_ok c' s' p -> matches c' s'.
Proof.
  intros Hm Hq Hc ?? Hp. split; try done. intros q.
  destruct (decide (q = p)) as [->|Hne]; [done|].
  destruct (Hq q Hne) as (Hh&?&?&?&?). pose proof (m_cells c s Hm q) as Hok.
  unfold cell_ok in *. rewrite Hh, (Hc q Hne).
  destruct (heap (drv c) !! q), (cells s !! q); try done. by eapply at_phase_frame.
Qed.

(** A step that leaves every transaction alone. *)
Lemma matches_none c c' s s' :
  matches c s -> heap (drv c') = heap (drv c) ->
  Uvfs_requests (drv c') = Uvfs_requests (drv c) ->
  Uvfs_replies (drv c') = Uvfs_replies (drv c) ->
  (forall q, same_owners c c' q) -> (forall q, same_touchers c c' q) ->
  cells s' = cells s -> queue s' = queue s -> opens s' = uvfs_use_count (drv c') ->
  matches c' s'.
Proof.
  intros Hm Hh Hq Hr Ho Ht Hc Hq' ?. split; [|by rewrite Hq', Hq; apply Hm|done].
  intros p. pose proof (m_cells c s Hm p) as Hok. unfold cell_ok in *. rewrite Hh, Hc.
  destruct (heap (drv c) !! p), (cells s !! p); try done.
  by apply (at_phase_frame c); rewrite ?Hq, ?Hr.
Qed.

(** A step after which the transaction of a waiting client is in the same phase. *)
Lemma at_phase_same c c' p t t' ph cl pc cl' pc' :
  at_phase c p t ph -> t_u t' = t_u t -> t_answered t' = t_answered t ->
  owner c p pc -> owns c cl pc p -> waits pc = true ->
  owns c' cl' pc' p -> waits pc' = true ->
  (p ∈ Uvfs_requests (drv c) -> p ∈ Uvfs_requests (drv c')) ->
  (p ∈ Uvfs_replies (drv c) -> p ∈ Uvfs_replies (drv c')) ->
  (forall s spc, touches c s spc p ->
     match spc with SCopyIn _ _ _ | SWriteDone _ => touches c' s spc p | _ => True end) ->
  at_phase c' p t' ph.
Proof.
  intros Ha Eu Ea Hown Ho Hw Ho' Hw' Hq Hr Ht.
  destruct ph; cbn in *; destruct Ha as [Ha1 Ha]; rewrite Eu; (split; [done|]).
  - destruct Ha as [cl1 Ha]. by pose proof (owner_is _ _ _ _ _ Hown Ha) as <-.
  - auto.
  - auto.
  - destruct Ha as (s & b & n & Ha). exists s, b, n. by apply (Ht _ _ Ha).
  - destruct Ha as (s & Ha). exists s. by apply (Ht _ _ Ha).
  - rewrite Ea. destruct Ha as [Ha _]. eauto.
  - destruct Ha as [cl1 Ha]. by pose proof (owner_is _ _ _ _ _ Hown Ha) as <-.
Qed.
