(* ===== verification/DriverRefines.v ===== *)
(** * The driver refines its specification (driver.c)

    One lemma per action: the step of the driver is a step of the specification
    with the same event.  The refinement theorem follows by induction on the run;
    what the specification says of the life of a request then holds of the driver. *)

From stdpp Require Import prelude gmap list strings.
From Stdlib Require Import ZArith Lia.
From S2P Require Import Prelude Protocol Driver DriverSteps DriverInv DriverSafe DriverProps.
From S2P Require Import Requests DriverSpec.

Open Scope string_scope.
Open Scope list_scope.
Open Scope Z_scope.

Definition simulated (a : action) (c : config) (s : spec) : Prop :=
  forall c', run a c = Some (tt, c') ->
  exists s', spec_step (event_of a c) s s' /\ matches c' s'.

(** [cell p] looks a cell up that a step has changed. *)
Ltac cell := unfold cell_ok; cbn [drv heap set_heap set_lists set_queue put_cell with_requests cells];
  rewrite ?lookup_insert_eq.
Ltac others_cells := let q := fresh in let H := fresh in
  intros q H; cbn [cells put_cell with_requests];
  rewrite ?lookup_insert_ne, ?lookup_delete_ne by congruence; done.

Section client.
Context (c : config) (s : spec) (Hinv : inv c) (Hm : matches c s).

Lemma sim_new cl p u : enabled (ANew cl p u) c -> simulated (ANew cl p u) c s.
Proof.
  intros [Hcl Hp] c'. run_unfold. run_bind (new_transaction_spec (drv c) p u Hp).
  intros [= <-]. eexists. split; [apply sp_alloc; by apply (cell_none c)|].
  apply (matches_at c _ s _ p); [done|others|others_cells|apply Hm|apply Hm|].
  cell. split; [done|]. exists cl. split; [apply lookup_insert_eq|done].
Qed.

Lemma sim_build cl f : enabled (ABuild cl f) c -> simulated (ABuild cl f) c s.
Proof.
  intros (p & t & Hcl & Hp & _) c'. run_unfold. rewrite Hcl.
  unfold on_drv, upd_trans. rewrite Hp. intros [= <-].
  pose proof (cell_built c s Hinv Hm cl p t (conj Hcl eq_refl) Hp) as Hc.
  eexists. split; [by apply (sp_build s p (t_u t) f)|].
  apply (matches_at c _ s _ p); [done|others|others_cells|apply Hm|apply Hm|].
  cell. split; [done|]. by exists cl.
Qed.

Lemma sim_submit cl : enabled (ASubmit cl) c -> simulated (ASubmit cl) c s.
Proof.
  intros (p & t & Hcl & Hp & _) c'. run_unfold. rewrite Hcl.
  pose proof (cell_built c s Hinv Hm cl p t (conj Hcl eq_refl) Hp) as Hc.
  cbn [event_of]. rewrite Hcl. unfold return_event. rewrite Hp.
  destruct (Z.eqb_spec (uvfs_use_count (drv c)) 0) as [Hz|Hz].
  - run_bind (submit_down (drv c) p t Hz Hp). intros [= <-].
    eexists. split; [apply sp_refuse; [by rewrite (m_opens c s Hm)|done]|].
    apply (matches_at c _ s _ p); [done|others|others_cells|apply Hm|apply Hm|].
    cell. split; [done|]. exists cl. split; [apply lookup_insert_eq|done].
  - run_bind (submit_up (drv c) p t Hz Hp). intros [= <-].
    eexists. split; [apply sp_submit; [by rewrite (m_opens c s Hm)|done]|].
    apply (matches_at c _ s _ p); [done|others|others_cells| |apply Hm|].
    + cbn. by rewrite (m_queue c s Hm).
    + cell. rewrite Hp. split; [done|]. cbn. set_solver.
Qed.

Lemma sim_wait cl sig : enabled (AWait cl sig) c -> simulated (AWait cl sig) c s.
Proof.
  intros (p & Hcl & _) c'.
  destruct (owner_live c Hinv cl (CWait p) p) as (t & tch & Hp & Ho & _); [done|].
  destruct (cell_live c s Hm p t Hp) as (ph & Hc & Ha).
  run_unfold. rewrite Hcl. run_bind (get_trans_live _ _ _ Hp).
  run_bind (wait_spec (drv c) p t sig Hp).
  destruct (t_answered t || sig); intros [= <-]; exists s; (split; [apply sp_quiet|]);
    (apply (matches_at c _ s _ p); [done|others|done|apply Hm|apply Hm|]); cell; rewrite Hc;
    (eapply (at_phase_same c _ p t _ ph cl (CWait p) cl);
       [exact Ha|done|done|exact Ho|done|done| | |done|done|by intros ? []]).
  - split; [apply lookup_insert_eq|done].
  - done.
  - by split.
  - done.
Qed.

(** The client returns, with the reply or killed. *)
Lemma sim_returned cl p pc t d :
  owns c cl pc p -> waits pc = true -> heap (drv c) !! p = Some t -> t_in_use t = false ->
  t_answered t = true -> heap d = heap (drv c) ->
  Uvfs_requests d = Uvfs_requests (drv c) -> Uvfs_replies d = Uvfs_replies (drv c) ->
  uvfs_use_count d = uvfs_use_count (drv c) ->
  exists s', spec_step (Some (EReturn p (t_u t))) s s' /\
    matches (Config d (<[cl := CDone p]> (clients c)) (servers c)) s'.
Proof.
  intros Ho Hw Hp Hiu Ha Hh Hq Hr Hn.
  destruct (cell_waiting c s Hinv Hm cl pc p t Ho Hw Hp Hiu) as (ph & r & Hc & _ & ->%(fun x => x Ha)).
  destruct Ho as [Hcl Ho].
  eexists. split; [by eapply sp_return|].
  apply (matches_at c _ s _ p); [done| |others_cells|cbn; by rewrite Hq; apply Hm|cbn; by rewrite Hn; apply Hm|].
  - intros q Hne. cbn. rewrite Hh, Hq, Hr. split_and!; [done..| |by apply same_touchers_eq].
    eapply same_owners_put; [done|cbn; congruence|]. intros ? ?; simplify_eq; cbn; congruence.
  - cell. rewrite Hh, Hp. split; [done|]. exists cl. split; [apply lookup_insert_eq|done].
Qed.

Lemma sim_killed cl p pc t t' d :
  owns c cl pc p -> waits pc = true -> heap (drv c) !! p = Some t -> t_in_use t = false ->
  t_u t' = set_error (- ERESTARTSYS) (t_u t) ->
  heap d = <[p := t']> (heap (drv c)) ->
  Uvfs_requests d = remove_ptr p (Uvfs_requests (drv c)) ->
  Uvfs_replies d = remove_ptr p (Uvfs_replies (drv c)) ->
  uvfs_use_count d = uvfs_use_count (drv c) ->
  exists s', spec_step (Some (EReturn p (set_error (- ERESTARTSYS) (t_u t)))) s s' /\
    matches (Config d (<[cl := CDone p]> (clients c)) (servers c)) s'.
Proof.
  intros Ho Hw Hp Hiu Hu Hh Hq Hr Hn.
  destruct (cell_waiting c s Hinv Hm cl pc p t Ho Hw Hp Hiu) as (ph & r & Hc & Hpend & _).
  destruct Ho as [Hcl Ho].
  eexists. split; [by eapply sp_kill|].
  apply (matches_at c _ s _ p);
    [done| |others_cells|cbn; by rewrite Hq, (m_queue c s Hm)|cbn; by rewrite Hn; apply Hm|].
  - intros q Hne. cbn. rewrite Hh, Hq, Hr, lookup_insert_ne, !remove_ptr_elem by done.
    split_and!; [done|tauto|tauto| |by apply same_touchers_eq].
    eapply same_owners_put; [done|cbn; congruence|]. intros ? ?; simplify_eq; cbn; congruence.
  - cell. rewrite Hh, lookup_insert_eq. split; [done|].
    exists cl. split; [apply lookup_insert_eq|done].
Qed.

Lemma sim_check cl sig : enabled (ACheck cl sig) c -> simulated (ACheck cl sig) c s.
Proof.
  intros (p & b & Hcl & Hb) c'.
  destruct (owner_live c Hinv cl (CCheck p b) p) as (t & tch & Hp & Ho & Ht & Hl); [done|].
  destruct Hl as (Hf & Hab & Has & Han).
  cbn [event_of]. rewrite Hcl. unfold return_event. rewrite Hp. run_unfold. rewrite Hcl.
  destruct sig; cbn [option_bind mbind].
  - destruct (t_in_use t) eqn:Eu; cbn [option_bind mbind].
    + destruct (cell_live c s Hm p t Hp) as (ph & Hc & Ha).
      run_bind (check_in_use (drv c) p t Hp Eu). intros [= <-].
      exists s. split; [apply sp_quiet|].
      apply (matches_at c _ s _ p); [done|others|done|apply Hm|apply Hm|]. cell. rewrite Hc.
      eapply (at_phase_same c _ p t _ ph cl (CCheck p b) cl);
        [exact Ha|done|done|exact Ho|done|done| | |done|done|by intros ? []].
      * split; [apply lookup_insert_eq|done].
      * done.
    + run_bind (check_idle (drv c) p t Hp Eu). intros [= <-].
      by apply (sim_killed cl p (CCheck p b) t (with_u (set_error (- ERESTARTSYS)) t)).
  - run_bind (check_no_signal (drv c) p). intros [= <-].
    destruct b; [by specialize (Hb eq_refl)|]. specialize (Han eq_refl).
    destruct (in_flight_answered _ _ _ _ Hf Han) as (_ & _ & _ & Hiu).
    by apply (sim_returned cl p (CCheck p false) t (drv c)).
Qed.

Lemma sim_wait_idle cl : enabled (AWaitIdle cl) c -> simulated (AWaitIdle cl) c s.
Proof.
  intros (p & Hcl & _) c'.
  destruct (owner_live c Hinv cl (CAbort p) p) as (t & tch & Hp & Ho & Ht & Hl); [done|].
  cbn [event_of]. rewrite Hcl. unfold return_event. rewrite Hp. run_unfold. rewrite Hcl.
  run_bind (wait_idle_spec (drv c) p t Hp). cbn [option_bind mbind].
  destruct (t_in_use t) eqn:Eu; cbn [negb option_bind mbind].
  - destruct (cell_live c s Hm p t Hp) as (ph & Hc & Ha). intros [= <-].
    exists s. split; [apply sp_quiet|].
    apply (matches_at c _ s _ p); [done|others|done|apply Hm|apply Hm|]. cell. rewrite Hc.
    eapply (at_phase_same c _ p t _ ph cl (CAbort p) cl);
      [exact Ha|done|done|exact Ho|done|done|by split|done|done|done|by intros ? []].
  - run_bind (aborted_spec (set_heap (<[p := with_asleep false t]> (heap (drv c))) (drv c))
                p _ (lookup_insert_eq _ p _)).
    intros [= <-].
    apply (sim_killed cl p (CAbort p) t (with_u (set_error (- ERESTARTSYS)) (with_asleep false t)));
      try done. cbn. apply insert_insert_eq.
Qed.

Lemma sim_free cl : enabled (AFree cl) c -> simulated (AFree cl) c s.
Proof.
  intros (p & Hcl) c'.
  destruct (owner_live c Hinv cl (CDone p) p) as (t & tch & Hp & Ho & Ht & Hl); [done|].
  destruct (cell_done c s Hinv Hm cl p t (conj Hcl eq_refl) Hp) as [r Hc].
  cbn [event_of]. rewrite Hcl. run_unfold. rewrite Hcl. run_bind (kfree_spec (drv c) p t Hp).
  intros [= <-]. eexists. split; [by eapply sp_free|].
  apply (matches_at c _ s _ p); [done|others|others_cells|apply Hm|apply Hm|].
  unfold cell_ok. cbn. by rewrite !lookup_delete_eq.
Qed.
End client.

Section server.
Context (c : config) (s : spec) (Hinv : inv c) (Hm : matches c s).

(** A server that moves between points at which it holds no reply. *)
Lemma sim_moved sv pc0 pc1 d :
  servers c !! sv = Some pc0 -> touch pc0 = None -> touch pc1 = None ->
  heap d = heap (drv c) -> Uvfs_requests d = Uvfs_requests (drv c) ->
  Uvfs_replies d = Uvfs_replies (drv c) -> uvfs_use_count d = uvfs_use_count (drv c) ->
  matches (Config d (clients c) (<[sv := pc1]> (servers c))) s.
Proof.
  intros Hs H0 H1 Hh Hq Hr Hn. apply (matches_none c _ s s); try done.
  - intros q. eapply same_touchers_put; [done|congruence|]. intros pc ?. congruence.
  - cbn. rewrite Hn. apply Hm.
Qed.

Lemma requests_head p l : Uvfs_requests (drv c) = p :: l -> remove_ptr p l = l.
Proof.
  intros Hrq. pose proof (inv_nodup c Hinv) as H. rewrite Hrq in H.
  apply NoDup_app in H as [[H _]%NoDup_cons _]. by apply remove_ptr_id.
Qed.

Lemma sim_pass sv r d :
  servers c !! sv = Some SIdle -> uvfsd_read_pass sv (drv c) = Some (r, d) ->
  exists s', spec_step (pass_event (drv c)) s s' /\
    matches (Config d (clients c) (<[sv := match r with
      | PassShutdown => SShutdown | PassSleep => SSleep | PassTake p => SCopyOut p end]>
      (servers c))) s'.
Proof.
  intros Hs. unfold pass_event.
  destruct (read_pass_cases (drv c) (requests_live c Hinv))
    as [Hsd|[(Hsd & Hrq)|(p & l & t & Hsd & Hrq & Hp)]].
  - rewrite (read_pass_shutdown _ _ Hsd), Hsd. intros [= <- <-].
    exists s. split; [apply sp_quiet|]. by eapply sim_moved.
  - rewrite (read_pass_sleep _ _ Hsd Hrq), Hsd, Hrq. intros [= <- <-].
    exists s. split; [apply sp_quiet|]. by eapply sim_moved.
  - rewrite (read_pass_take _ _ _ _ _ Hsd Hrq Hp), Hsd, Hrq. intros [= <- <-].
    assert (p ∈ Uvfs_requests (drv c)) as Hin by (rewrite Hrq; set_solver).
    destruct (cell_queued c s Hinv Hm p t Hin Hp) as [Hc _].
    eexists. split; [eapply sp_fetch; [by rewrite (m_queue c s Hm), Hrq|exact Hc]|].
    apply (matches_at c _ s _ p); [done| |others_cells| |apply Hm|].
    + rewrite <- (remove_ptr_cons p l), <- Hrq. others.
    + cbn. by rewrite requests_head.
    + cell. split; [done|]. cbn. set_solver.
Qed.

Lemma sim_read sv : enabled (ARead sv) c -> simulated (ARead sv) c s.
Proof.
  intros Hs c'. run_unfold. unfold on_drv.
  destruct (uvfsd_read_pass sv (drv c)) as [[r d]|] eqn:E; [|done]. intros [= <-].
  by eapply sim_pass.
Qed.

Lemma sim_shutdown_out sv stack ret :
  enabled (AShutdownOut sv stack ret) c -> simulated (AShutdownOut sv stack ret) c s.
Proof.
  intros Hs c'. run_unfold. intros [= <-]. exists s. split; [apply sp_quiet|]. by eapply sim_moved.
Qed.

(** A server that goes on with a request it has taken. *)
Lemma sim_holding sv pc0 pc1 p t t' :
  servers c !! sv = Some pc0 -> heap (drv c) !! p = Some t ->
  match pc0 with SCopyOut q | SReadDone q _ => q = p | _ => False end ->
  (touch pc1 = None \/ touch pc1 = Some p) ->
  t_u t' = t_u t -> t_answered t' = t_answered t ->
  matches (Config (set_heap (<[p := t']> (heap (drv c))) (drv c)) (clients c)
             (<[sv := pc1]> (servers c))) s.
Proof.
  intros Hs Hp H0 H1 Eu Ea. destruct (cell_live c s Hm p t Hp) as (ph & Hc & Ha).
  apply (matches_at c _ s s p); [done| |done|apply Hm|apply Hm|].
  - intros q Hq. cbn. rewrite lookup_insert_ne by done. split_and!; try done.
    eapply same_touchers_put; [done|naive_solver|]. intros pc Hpc. rewrite Hs in Hpc.
    injection Hpc as <-. destruct pc0; cbn; naive_solver.
  - cell. rewrite Hc. destruct ph; cbn in *; rewrite Eu; try done; (split; [apply Ha|]).
    + destruct Ha as (_ & x & b & n & Hx & ?). exists x, b, n. split; [|done]. cbn.
      rewrite lookup_insert_ne; [done|]. intros ->. by simplify_eq.
    + destruct Ha as (_ & x & Hx & ?). exists x. split; [|done]. cbn.
      rewrite lookup_insert_ne; [done|]. intros ->. by simplify_eq.
    + rewrite Ea. apply Ha.
Qed.

Lemma sim_copy_out sv ret : enabled (ACopyOut sv ret) c -> simulated (ACopyOut sv ret) c s.
Proof.
  intros (p & Hs) c'. destruct (touched_flight c Hinv sv (SCopyOut p) p Hs eq_refl)
    as (t & cpc & Hp & Ho & Ht & Hl & Hf).
  destruct Hf as (Hiu & Ha & Hq & Hr & Hreq). apply rp_true in Hr.
  cbn [event_of]. rewrite Hs. run_unfold. rewrite Hs.
  pose proof (read_copy_spec_at (drv c) p t Hp Hreq) as E.
  run_bind E. rewrite E. intros [= <-]. exists s.
  split; [apply sp_deliver; by apply (cell_fetched c)|].
  pose proof (sim_holding sv _ (SReadDone p ret) p t t Hs Hp eq_refl (or_intror eq_refl)
    eq_refl eq_refl) as H.
  rewrite insert_id in H by done. by destruct (drv c).
Qed.

Lemma sim_read_done sv : enabled (AReadDone sv) c -> simulated (AReadDone sv) c s.
Proof.
  intros (p & ret & Hs) c'. destruct (touched_flight c Hinv sv (SReadDone p ret) p Hs eq_refl)
    as (t & cpc & Hp & _).
  run_unfold. rewrite Hs. run_bind (read_done_spec (drv c) p t Hp). intros [= <-].
  exists s. split; [apply sp_quiet|]. by eapply sim_holding; eauto.
Qed.

Lemma sim_return sv : enabled (AReturn sv) c -> simulated (AReturn sv) c s.
Proof.
  intros (p & ret & Hs) c'. run_unfold. rewrite Hs. unfold on_drv, uvfsd_read_return.
  intros E. assert (c' = Config (drv c) (clients c) (<[sv := SIdle]> (servers c))) as ->.
  { revert E. exec_unfold. destruct (truthy ret); [by intros [= <-]|].
    destruct (heap (drv c) !! p); [by intros [= <-]|done]. }
  exists s. split; [apply sp_quiet|]. by eapply sim_moved.
Qed.

(** The header of a reply. *)
Lemma write_check_inr count buff serial size :
  uvfsd_write_check count buff 0 = inr (serial, size) ->
  serial = get_int uvfs_generic_rep_s "serial" buff /\
  size = get_int uvfs_generic_rep_s "size" buff.
Proof using Type.
  unfold uvfsd_write_check. destruct (count <? _); [done|]. cbn.
  destruct (_ =? count); [|done]. by intros [= <- <-].
Qed.

Lemma sim_write sv count buff :
  enabled (AWrite sv count buff) c -> polite (AWrite sv count buff) c ->
  simulated (AWrite sv count buff) c s.
Proof.
  intros [Hs Hcount] [Hfit Hpol] c'. cbn [event_of]. run_unfold.
  destruct (uvfsd_write_check count buff 0) as [e|[serial size]] eqn:Echk.
  { intros [= <-]. exists s. by split; [apply sp_quiet|]. }
  apply write_check_inr in Echk as [Eser _].
  destruct (find_reply_cases (drv c) serial (Uvfs_replies (drv c)) (replies_live c Hinv))
    as [Hno|(l1 & p & l2 & t & Hl & Hp & Hser & Hbefore)].
  { run_bind (write_take_none _ _ Hno). rewrite (write_take_none _ _ Hno). intros [= <-].
    exists s. split; [apply sp_quiet|]. by destruct c as [[]]. }
  run_bind (write_take_some _ _ _ _ _ _ Hl Hbefore Hp Hser).
  rewrite (write_take_some _ _ _ _ _ _ Hl Hbefore Hp Hser). intros [= <-].
  assert (p ∈ Uvfs_replies (drv c)) as Hin by (rewrite Hl; set_solver).
  pose proof (cell_fetched c s Hinv Hm p t Hin Hp) as Hc.
  destruct (listed_in_flight c Hinv p) as (t' & pc & tch & Hp' & Ho & Ht & Hl' & Hf & Ha & Hreq & _);
    [set_solver|]. simplify_eq.
  assert (rq c p = false) as Hq.
  { apply rp_true in Hin. rewrite Hin in Hf. unfold in_flight in Hf.
    destruct tch as [[]|]; destruct (rq c p); cbn in Hf; intuition congruence. }
  destruct Hreq as (_ & Hreq & _). rewrite <- Hser, <- Hreq.
  eexists. split; [by apply sp_claim|].
  apply (matches_at c _ s _ p); [done|others|others_cells| |apply Hm|].
  - cbn. rewrite remove_ptr_id by by apply rq_false. apply Hm.
  - cell. split; [done|]. do 3 eexists. split; [apply lookup_insert_eq|done].
Qed.

Lemma length_reply_bytes buff size ret :
  0 <= ret <= size -> len (reply_bytes buff size ret) = size.
Proof using Type.
  intros H. unfold len, reply_bytes. rewrite length_app, length_rd_bytes, length_replicate. lia.
Qed.

Lemma sim_copy_in sv buff ret :
  enabled (ACopyIn sv buff ret) c -> simulated (ACopyIn sv buff ret) c s.
Proof.
  intros (p & b & size & Hs & Hret) c'.
  destruct (touched_flight c Hinv sv (SCopyIn p b size) p Hs eq_refl)
    as (t & cpc & Hp & Ho & Ht & Hl & Hf).
  destruct Hf as (Hiu & Ha & Hq & Hr & Hsize).
  pose proof (cell_copying c s Hinv Hm sv p b size t (conj Hs eq_refl) Hp) as Hc.
  cbn [event_of]. rewrite Hs. run_unfold. rewrite Hs.
  assert (uvfsd_write_copy p buff size ret (drv c) =
    Some (tt, set_heap (<[p := with_u (wr_bytes 0 (reply_bytes buff size ret)) t]>
                          (heap (drv c))) (drv c))) as E.
  { unfold uvfsd_write_copy, reply_bytes. exec_unfold. rewrite Hp. revert Hsize. layout. intros Hsize.
    rewrite (proj2 (andb_true_iff _ _)) by (rewrite !Z.leb_le; lia). by rewrite Hp. }
  run_bind E. intros [= <-].
  eexists. split; [apply sp_reply; [done|rewrite length_reply_bytes by done; lia]|].
  apply (matches_at c _ s _ p); [done|others|others_cells|apply Hm|apply Hm|].
  cell. split; [done|]. exists sv. split; [apply lookup_insert_eq|done].
Qed.

Lemma sim_write_done sv : enabled (AWriteDone sv) c -> simulated (AWriteDone sv) c s.
Proof.
  intros (p & Hs) c'.
  destruct (touched_flight c Hinv sv (SWriteDone p) p Hs eq_refl) as (t & cpc & Hp & _).
  destruct (cell_written c s Hinv Hm sv p t (conj Hs eq_refl) Hp) as (r & Hc & Hw).
  run_unfold. rewrite Hs. run_bind (write_done_spec (drv c) p t Hp). intros [= <-].
  eexists. split; [by eapply sp_answer|].
  apply (matches_at c _ s _ p); [done|others|others_cells|apply Hm|apply Hm|].
  cell. by split_and!.
Qed.

Lemma sim_open sv : enabled (AOpen sv) c -> simulated (AOpen sv) c s.
Proof.
  intros [Hs Hmax] c'. run_unfold. intros [= <-]. eexists. split; [apply sp_open|].
  destruct (inv_count c Hinv) as [Hc1 Hc2].
  apply (matches_none c _ s _); try done.
  - intros q. eapply same_touchers_put; [done|done|]. intros pc ?. simplify_eq.
  - cbn. rewrite (m_opens c s Hm), s32_small; [done|]. unfold open_max, int_range in *. lia.
Qed.

Lemma sim_ioctl sv mounted cmd :
  enabled (AIoctl sv mounted cmd) c -> simulated (AIoctl sv mounted cmd) c s.
Proof.
  intros Hs c'. run_unfold. unfold on_drv.
  destruct (uvfsd_ioctl mounted cmd (drv c)) as [[r d]|] eqn:E; [|done]. intros [= <-].
  exists s. split; [apply sp_quiet|].
  assert (heap d = heap (drv c) /\ Uvfs_requests d = Uvfs_requests (drv c) /\
    Uvfs_replies d = Uvfs_replies (drv c) /\ uvfs_use_count d = uvfs_use_count (drv c))
    as (Hh & Hq & Hr & Hn).
  { revert E. unfold uvfsd_ioctl. exec_unfold. destruct (cmd =? UVFS_IOCTL_SHUTDOWN).
    { by intros [= <- <-]. }
    destruct (cmd =? UVFS_IOCTL_STATUS).
    { destruct (status_lines_ok c Hinv (Uvfs_requests (drv c))) as [r1 E1]; [set_solver|].
      destruct (status_lines_ok c Hinv (Uvfs_replies (drv c))) as [r2 E2]; [set_solver|].
      rewrite E1, E2. by intros [= <- <-]. }
    destruct (cmd =? UVFS_IOCTL_MOUNT); by intros [= <- <-]. }
  apply (matches_none c _ s s); try done. cbn. rewrite Hn. apply Hm.
Qed.
End server.

Lemma sim_woken c s sv sig :
  inv c -> matches c s -> enabled (AWoken sv sig) c -> simulated (AWoken sv sig) c s.
Proof.
  intros Hinv Hm [Hs _] c'. destruct (inv_woken c Hinv sv Hs) as (d & Ed & Hsd & Hrq & Hinv1).
  run_unfold. unfold uvfsd_read_woken, on_drv. exec_unfold.
  unfold remove_wait_queue, modify in Ed. injection Ed as Ed. rewrite Ed.
  assert (matches (Config d (clients c) (<[sv := SIdle]> (servers c))) s) as Hm1.
  { eapply sim_moved; try done; by rewrite <- Ed. }
  cbn [event_of]. destruct sig.
  - intros [= <-]. exists s. by split; [apply sp_quiet|].
  - destruct (uvfsd_read_pass sv d) as [[r d']|] eqn:E; [|done]. intros [= <-].
    destruct (sim_pass _ s Hinv1 Hm1 sv r d' (lookup_insert_eq _ _ _) E) as (s' & Hst & Hm').
    revert Hst Hm'. unfold pass_event. cbn [drv clients servers].
    rewrite Hsd, Hrq, insert_insert_eq. by exists s'.
Qed.

(** *** Closing the device *)

(** The transactions the last close answers, and those it leaves alone. *)
Lemma cell_abandoned c s p t :
  inv c -> matches c s -> heap (drv c) !! p = Some t ->
  exists ph, cells s !! p = Some ph /\
    ((p ∈ Uvfs_requests (drv c) ++ Uvfs_replies (drv c)) /\
     abandon ph = Answered (t_u t) (set_error (- EIO) (t_u t)) /\
     (exists cl pc, owns c cl pc p /\ waits pc = true) \/
     (p ∉ Uvfs_requests (drv c) ++ Uvfs_replies (drv c)) /\ abandon ph = ph /\ at_phase c p t ph).
Proof.
  intros Hinv Hm Hp.
  destruct (decide (p ∈ Uvfs_requests (drv c) ++ Uvfs_replies (drv c))) as [Hin|Hin].
  - destruct (listed_in_flight c Hinv p Hin)
      as (t' & pc & tch & Hp' & (cl & Ho & _) & _ & Hl & Hf & Ha & _). simplify_eq.
    assert (waits pc = true) as Hw.
    { destruct pc; cbn in Hl |- *; unfold quiet in Hl; try done;
        destruct Hl as ((Hq & Hr & _) & _); apply rq_false in Hq; apply rp_false in Hr; set_solver. }
    pose proof Hin as [Hin'|Hin']%elem_of_app.
    + destruct (cell_queued c s Hinv Hm p t Hin' Hp) as [Hc _].
      eexists. split; [exact Hc|]. left. split_and!; eauto.
    + pose proof (cell_fetched c s Hinv Hm p t Hin' Hp) as Hc.
      eexists. split; [exact Hc|]. left. split_and!; eauto.
  - destruct (cell_live c s Hm p t Hp) as (ph & Hc & Ha). exists ph. split; [done|]. right.
    split_and!; [done| |done]. destruct ph; try done; cbn in Ha; set_solver.
Qed.

Lemma sim_close c s sv :
  inv c -> matches c s -> enabled (AClose sv) c -> simulated (AClose sv) c s.
Proof.
  intros Hinv Hm Hs c'. destruct (inv_count c Hinv) as [Hc1 Hc2].
  assert (size (servers c) <> 0%nat) as Hne by (eapply map_size_ne_0_lookup_2; eauto).
  cbn [event_of]. run_unfold. destruct (decide (uvfs_use_count (drv c) = 1)) as [Hn|Hn].
  - pose proof (only_server c Hinv sv Hs Hn) as Honly.
    run_bind (release_last (drv c) ltac:(by rewrite Hn) (inv_nodup c Hinv)
      (fun p Hp => match listed_live c Hinv p Hp with
                   | ex_intro _ t (ex_intro _ _ (ex_intro _ _ (conj H _))) => mk_is_Some _ t H
                   end)).
    intros [= <-]. eexists. split; [apply sp_last; by rewrite (m_opens c s Hm)|].
    split; [|done|done]. intros p. unfold cell_ok. cbn. rewrite lookup_fail_in, lookup_fmap.
    destruct (heap (drv c) !! p) as [t|] eqn:Hp; cbn; [|by rewrite (cell_none c s Hm p Hp)].
    destruct (cell_abandoned c s p t Hinv Hm Hp) as (ph & -> & [(Hin & Eph & Hw)|(Hnin & Eph & Ha)]);
      cbn; rewrite Eph.
    + by rewrite bool_decide_eq_true_2.
    + rewrite bool_decide_eq_false_2 by done. destruct ph; cbn in *; try done.
      * by destruct Ha as (_ & x & b & n & [_ [=]]%Honly & _).
      * by destruct Ha as (_ & x & [_ [=]]%Honly & _).
  - assert (s32 (uvfs_use_count (drv c) - 1) = uvfs_use_count (drv c) - 1) as Es
      by (apply s32_small; unfold int_range, open_max in *; lia).
    run_bind (release_more (drv c) ltac:(rewrite Es; lia)). intros [= <-].
    eexists. split; [apply sp_close; by rewrite (m_opens c s Hm)|].
    apply (matches_none c _ s _); try done.
    + intros q. eapply same_touchers_drop; [done|]. cbn in Hs. intros pc ?. by simplify_eq.
    + cbn. by rewrite (m_opens c s Hm), Es.
Qed.

(** ** The refinement *)

Lemma sim_step c s a :
  inv c -> matches c s -> enabled a c -> polite a c -> simulated a c s.
Proof.
  intros Hinv Hm He Hp. destruct a.
  - by apply sim_open.
  - by apply sim_close.
  - by apply sim_ioctl.
  - by apply sim_new.
  - by apply sim_build.
  - by apply sim_submit.
  - by apply sim_wait.
  - by apply sim_check.
  - by apply sim_wait_idle.
  - by apply sim_free.
  - by apply sim_read.
  - by apply sim_shutdown_out.
  - by apply sim_woken.
  - by apply sim_copy_out.
  - by apply sim_read_done.
  - by apply sim_return.
  - by apply sim_write.
  - by apply sim_copy_in.
  - by apply sim_write_done.
Qed.

(** Runs with the events they show. *)
Definition shown (o : option event) : list event := match o with Some e => [e] | None => [] end.

Inductive driver_runs : list event -> config -> config -> Prop :=
| driver_stays c : driver_runs [] c c
| driver_acts l a c c1 c2 :
    driver_runs l c c1 -> enabled a c1 -> polite a c1 -> run a c1 = Some (tt, c2) ->
    driver_runs (l ++ shown (event_of a c1)) c c2.

Inductive spec_runs : list event -> spec -> spec -> Prop :=
| spec_stays s : spec_runs [] s s
| spec_acts l o s s1 s2 :
    spec_runs l s s1 -> spec_step o s1 s2 -> spec_runs (l ++ shown o) s s2.

Lemma driver_runs_reachable l c : driver_runs l config_init c -> reachable c.
Proof.
  intros H. remember config_init as c0. induction H as [c|l a c c1 c2 H IH He Hp Hr]; subst.
  - apply rtc_refl.
  - eapply rtc_r; [by apply IH|]. by exists a.
Qed.

Lemma matches_init : matches config_init spec_init.
Proof. split; [|done|done]. intros p. unfold cell_ok. cbn. by rewrite !lookup_empty. Qed.

Lemma runs_matched l c :
  driver_runs l config_init c ->
  exists s, spec_runs l spec_init s /\ matches c s.
Proof.
  intros H. remember config_init as c0. induction H as [c|l a c c1 c2 H IH He Hp Hr]; subst.
  - exists spec_init. split; [constructor|apply matches_init].
  - destruct (IH eq_refl) as (s & Hs & Hm).
    pose proof (inv_reachable _ (driver_runs_reachable _ _ H)) as Hinv.
    destruct (sim_step c1 s a Hinv Hm He Hp c2 Hr) as (s' & Hst & Hm').
    exists s'. split; [by econstructor|done].
Qed.

(** C2: every run of the driver with a server that follows the protocol shows the
    events of a run of the specification, and ends in a configuration that matches
    the state the specification reaches: the lists, flags and wait queues implement
    a queue of requests that are each answered at most once. *)
Theorem driver_refines_spec l c :
  driver_runs l config_init c ->
  exists s, spec_runs l spec_init s /\ matches c s.
Proof. apply runs_matched. Qed.

(** ** What follows for one request *)

Definition about (e : event) : option ptr :=
  match e with
  | EOpen | EClose => None
  | EAlloc p | ESubmit p _ | EFetch p | EDeliver p _ | EClaim p _ | EReply p _ | EReturn p _
  | EFree p => Some p
  end.

(** The events about [p] since it was last allocated. *)
Definition live_on (p : ptr) (acc : list event) (e : event) : list event :=
  if bool_decide (about e = Some p) then
    match e with EAlloc _ => [e] | _ => acc ++ [e] end
  else acc.
Definition lifetime (p : ptr) (l : list event) : list event := fold_left (live_on p) l [].

Definition submissions (l : list event) : list mem :=
  omap (fun e => match e with ESubmit _ r => Some r | _ => None end) l.
Definition deliveries (l : list event) : list (list Z) :=
  omap (fun e => match e with EDeliver _ b => Some b | _ => None end) l.
Definition claims (l : list event) : list Z :=
  omap (fun e => match e with EClaim _ n => Some n | _ => None end) l.
Definition replies (l : list event) : list (list Z) :=
  omap (fun e => match e with EReply _ b => Some b | _ => None end) l.

(** [r] was submitted, once, and nothing else was handed to servers. *)
Definition asked (r : mem) (l : list event) : Prop :=
  submissions l = [r] /\ Forall (eq (delivered r)) (deliveries l).

Definition unanswered (l : list event) : Prop := claims l = [] /\ replies l = [].

(** One reply [b] was made, to the serial number of [r], and [u] is what it left in
    the union. *)
Definition replied (r u : mem) (l : list event) : Prop :=
  claims l = [get_int uvfs_generic_req_s "serial" r] /\
  exists b, replies l = [b] /\ len b <= sizeof uvfs_reply_u /\ u = wr_bytes 0 b r.

Definition answer (r u : mem) (l : list event) : Prop :=
  replied r u l \/ unanswered l /\ u = set_error (- EIO) r.

(** What the union holds when [uvfs_make_request] returns. *)
Definition outcome (r u : mem) (l : list event) : Prop :=
  answer r u l \/
  exists u', (answer r u' l \/ unanswered l /\ u' = r) /\ u = set_error (- ERESTARTSYS) u'.

Definition refused (u : mem) (l : list event) : Prop :=
  submissions l = [] /\ unanswered l /\ exists r, u = set_error (- EIO) r.

(** The life of a transaction up to each phase. *)
Definition story (ph : phase) (l : list event) : Prop :=
  match ph with
  | Building _ => submissions l = [] /\ deliveries l = [] /\ unanswered l
  | Queued r | Fetched r => asked r l /\ unanswered l
  | Replying r =>
      asked r l /\ claims l = [get_int uvfs_generic_req_s "serial" r] /\ replies l = []
  | Replied r u => asked r l /\ replied r u l
  | Answered r u => asked r l /\ answer r u l
  | Finished r u => refused u l \/ asked r l /\ outcome r u l
  end.

Lemma lifetime_snoc p l e : lifetime p (l ++ [e]) = live_on p (lifetime p l) e.
Proof. unfold lifetime. by rewrite fold_left_app. Qed.

Lemma live_on_other p acc e : about e <> Some p -> live_on p acc e = acc.
Proof. intros H. unfold live_on. by rewrite bool_decide_eq_false_2. Qed.

Lemma live_on_same p acc e :
  about e = Some p -> (forall q, e <> EAlloc q) -> live_on p acc e = acc ++ [e].
Proof.
  intros H Hn. unfold live_on. rewrite bool_decide_eq_true_2 by done.
  destruct e; try done. by destruct (Hn p0).
Qed.

Definition stories (s : spec) (l : list event) : Prop :=
  forall p ph, cells s !! p = Some ph -> story ph (lifetime p l).

(** A step that changes the cell of [p] shows an event about [p] or none. *)
Lemma stories_put s s' o l p ph :
  stories s l -> (forall e, o = Some e -> about e = Some p) ->
  (forall q, q <> p -> cells s' !! q = cells s !! q) -> cells s' !! p = Some ph ->
  story ph (lifetime p (l ++ shown o)) -> stories s' (l ++ shown o).
Proof.
  intros Hs Ho Hq Hp Hph q phq Hcq. destruct (decide (q = p)) as [->|Hne]; [by simplify_eq|].
  rewrite Hq in Hcq by done. destruct o as [e|]; cbn.
  - rewrite lifetime_snoc, live_on_other; [by apply Hs|]. rewrite (Ho e eq_refl). congruence.
  - rewrite app_nil_r. by apply Hs.
Qed.

(** What an event adds to a lifetime. *)
Ltac told := unfold asked, unanswered, replied, submissions, deliveries, claims, replies in *;
  rewrite ?omap_app; cbn [omap list_omap]; rewrite ?app_nil_r.

Lemma asked_snoc r l e :
  asked r l -> match e with ESubmit _ _ | EDeliver _ _ => False | _ => True end ->
  asked r (l ++ [e]).
Proof. unfold asked. told. intros [H1 H2] He. destruct e; try done; cbn; by rewrite !app_nil_r. Qed.

Lemma unanswered_snoc l e :
  unanswered l -> match e with EClaim _ _ | EReply _ _ => False | _ => True end ->
  unanswered (l ++ [e]).
Proof. told. intros [H1 H2] He. destruct e; try done; cbn; by rewrite !app_nil_r. Qed.

Lemma answer_snoc r u l e :
  answer r u l -> match e with EClaim _ _ | EReply _ _ => False | _ => True end ->
  answer r u (l ++ [e]).
Proof.
  intros [[H1 H2]|[H1 H2]] He; [left|right; split; [by apply unanswered_snoc|done]].
  unfold replied. told. destruct e; try done; cbn; by rewrite !app_nil_r.
Qed.

Lemma stories_quiet s s' o l :
  stories s l -> (forall e p, o = Some e -> about e <> Some p) -> cells s' = cells s ->
  stories s' (l ++ shown o).
Proof.
  intros Hs Ho Hc p ph. rewrite Hc. destruct o as [e|]; cbn; [|rewrite app_nil_r; apply Hs].
  rewrite lifetime_snoc, live_on_other by auto. apply Hs.
Qed.

Ltac cell_eq := cbn [cells put_cell with_requests]; by rewrite lookup_insert_eq.
Ltac cell_ne := let q := fresh in let H := fresh in intros q H;
  cbn [cells put_cell with_requests]; by rewrite ?lookup_insert_ne, ?lookup_delete_ne by congruence.
Ltac next_event Hs p H :=
  pose proof (Hs p _ H) as Hstory; eapply (stories_put _ _ _ _ p);
  [done|intros ? [=]; by subst|cell_ne|cell_eq|]; cbn [shown];
  rewrite ?app_nil_r, ?lifetime_snoc, ?live_on_same by done; cbn [story] in *.

Lemma stories_last s l :
  stories s l -> stories (Spec (abandon <$> cells s) [] 0) (l ++ [EClose]).
Proof.
  intros Hs p ph. cbn. rewrite lookup_fmap.
  destruct (cells s !! p) as [ph0|] eqn:Hc; [|done]. intros [= <-].
  rewrite lifetime_snoc, live_on_other by done. pose proof (Hs p ph0 Hc) as H.
  destruct ph0; cbn in *; try done; (split; [apply H|right]); split; try done; apply H.
Qed.

Lemma stories_kill s p ph r u l :
  stories s l -> cells s !! p = Some ph -> pending ph = Some (r, u) ->
  asked r (lifetime p l) /\
  (answer r u (lifetime p l) \/ unanswered (lifetime p l) /\ u = r).
Proof.
  intros Hs Hc Hp. pose proof (Hs p ph Hc) as H.
  destruct ph; cbn in *; simplify_eq; destruct H; eauto.
Qed.

Lemma stories_step o s s' l : spec_step o s s' -> stories s l -> stories s' (l ++ shown o).
Proof.
  intros Hst Hs. destruct Hst.
  - by apply (stories_quiet s).
  - apply (stories_quiet s); [done| |done]. by intros e p [= <-].
  - apply (stories_quiet s); [done| |done]. by intros e p [= <-].
  - by apply stories_last.
  - eapply (stories_put _ _ _ _ p); [done|intros ? [=]; by subst|cell_ne|cell_eq|].
    cbn [shown]. rewrite lifetime_snoc. unfold live_on. by rewrite bool_decide_eq_true_2.
  - next_event Hs p H. done.
  - next_event Hs p H0. destruct Hstory as (H1 & H2 & H3 & H4). told. by rewrite H1, H2, H3, H4.
  - next_event Hs p H0. destruct Hstory as (H1 & H2 & H3). left. split; [|split; [|by exists r]].
    + told. by rewrite H1.
    + by apply unanswered_snoc.
  - next_event Hs p H0. destruct Hstory. by split; [apply asked_snoc|apply unanswered_snoc].
  - intros q ph Hq. cbn [shown]. rewrite lifetime_snoc.
    destruct (decide (q = p)) as [->|Hne]; [|rewrite live_on_other by (cbn; congruence); by apply Hs].
    pose proof (Hs p _ H) as [[H1 H2] H3]. simplify_eq. rewrite live_on_same by done.
    split; [|by apply unanswered_snoc]. told. split; [done|]. apply Forall_app. auto.
  - next_event Hs p H. destruct Hstory as (H1 & H2 & H3). split; [by apply asked_snoc|].
    told. by rewrite H2, H3.
  - next_event Hs p H. destruct Hstory as (H1 & H2 & H3). split; [by apply asked_snoc|].
    told. rewrite H2, H3. split; [done|]. by exists l0.
  - next_event Hs p H. destruct Hstory. split; [done|]. by left.
  - next_event Hs p H. destruct Hstory. right. split; [by apply asked_snoc|]. left.
    by apply answer_snoc.
  - destruct (stories_kill s p ph r u l Hs H H0) as [H1 H2]. next_event Hs p H.
    right. split; [by apply asked_snoc|]. right. exists u. split; [|done].
    destruct H2 as [H2|[H2 ->]]; [left; by apply answer_snoc|right].
    split; [by apply unanswered_snoc|done].
  - intros q ph. cbn. intros [Hne Hq]%lookup_delete_Some.
    rewrite lifetime_snoc, live_on_other by (cbn; congruence). by apply Hs.
Qed.

Lemma stories_runs l s : spec_runs l spec_init s -> stories s l.
Proof.
  intros H. remember spec_init as s0. induction H as [s|l o s s1 s2 H IH Hst]; subst.
  - intros p ph. cbn. by rewrite lookup_empty.
  - by eapply stories_step, IH.
Qed.

(** C3: nothing but its own reply reaches a client.  When [uvfs_make_request] has
    returned, either there was no server and the request was refused; or the request
    was submitted once, servers were handed exactly its bytes, and the union holds
    the request overlaid by the one reply that was made to its serial number, of at
    most the size of the reply union; or, with no reply, [-EIO] from the last close;
    or [-ERESTARTSYS] over one of these, if the client was killed. *)
Theorem reply_integrity l c cl p t :
  driver_runs l config_init c -> owns c cl (CDone p) p -> heap (drv c) !! p = Some t ->
  refused (t_u t) (lifetime p l) \/
  exists r, asked r (lifetime p l) /\ outcome r (t_u t) (lifetime p l).
Proof.
  intros Hl Ho Hp. destruct (runs_matched l c Hl) as (s & Hs & Hm).
  pose proof (inv_reachable c (driver_runs_reachable l c Hl)) as Hinv.
  destruct (cell_done c s Hinv Hm cl p t Ho Hp) as [r Hc].
  destruct (stories_runs l s Hs p _ Hc) as [?|?]; [by left|right; by exists r].
Qed.

(** ** What follows for the order of requests *)

Definition submitted (l : list event) : list ptr :=
  omap (fun e => match e with ESubmit p _ => Some p | _ => None end) l.
Definition fetched (l : list event) : list ptr :=
  omap (fun e => match e with EFetch p => Some p | _ => None end) l.

Lemma remove_ptr_sublist p q : sublist (remove_ptr p q) q.
Proof.
  induction q as [|x q IH]; [constructor|]. unfold remove_ptr in *.
  destruct (decide (x = p)) as [->|Hne].
  - rewrite filter_cons_False by naive_solver. by constructor.
  - rewrite filter_cons_True by done. by constructor.
Qed.

Lemma order_step o s s' l :
  spec_step o s s' -> sublist (fetched l ++ queue s) (submitted l) ->
  sublist (fetched (l ++ shown o) ++ queue s') (submitted (l ++ shown o)).
Proof.
  intros Hst H. unfold fetched, submitted in *.
  destruct Hst; cbn [shown queue put_cell with_requests];
    rewrite ?omap_app; cbn [omap list_omap]; rewrite ?app_nil_r; try done.
  - etrans; [|exact H]. by apply sublist_inserts_r.
  - rewrite app_assoc. by apply sublist_app.
  - rewrite <- app_assoc. cbn. by rewrite H0 in H.
  - etrans; [|exact H]. apply sublist_app; [done|]. apply remove_ptr_sublist.
Qed.

Lemma order_runs l s :
  spec_runs l spec_init s -> sublist (fetched l ++ queue s) (submitted l).
Proof.
  intros H. remember spec_init as s0. induction H as [s|l o s s1 s2 H IH Hst]; subst.
  - constructor.
  - by eapply order_step, IH.
Qed.

(** C17: requests are handed to servers in the order in which they were submitted,
    each submission at most once, and those still queued come after them in that
    order: only killed and abandoned requests are missing. *)
Theorem requests_in_order l c :
  driver_runs l config_init c ->
  sublist (fetched l ++ Uvfs_requests (drv c)) (submitted l).
Proof.
  intros Hl. destruct (runs_matched l c Hl) as (s & Hs & Hm).
  rewrite <- (m_queue c s Hm). by apply order_runs.
Qed.

(** ** Examples *)

(** The events of a run of given actions. *)
Fixpoint events_of (la : list action) (c : config) : list event :=
  match la with
  | [] => []
  | a :: la' =>
      shown (event_of a c) ++
      match run a c with Some (_, c') => events_of la' c' | None => [] end
  end.

Lemma runs_shown la l c0 c c' :
  driver_runs l c0 c -> runs politeb la c = Some c' -> driver_runs (l ++ events_of la c) c0 c'.
Proof.
  revert l c. induction la as [|a la IH]; intros l c Hl; cbn.
  - intros [= <-]. by rewrite app_nil_r.
  - destruct (enabledb a c) eqn:Ee; [|done]. destruct (politeb a c) eqn:Ep; [|done]. cbn.
    destruct (run a c) as [[[] c1]|] eqn:Er; [|done]. intros H. rewrite app_assoc.
    apply IH; [|done]. econstructor; eauto using enabledb_sound, politeb_sound.
Qed.

Lemma demo_shown la :
  completes politeb la = true ->
  driver_runs (events_of la config_init) config_init (demo_config la).
Proof.
  unfold completes, demo_config. destruct (runs _ _ _) as [c|] eqn:E; [|done].
  intros _. apply (runs_shown la []); [constructor|done].
Qed.

(** Server 1 answers the request of task 10, which returns. *)
Definition demo_answered : list action :=
  demo_fetch ++ [AReturn 1; AWrite 1 16 (demo_reply 0 16 0); ACopyIn 1 (demo_reply 0 16 0) 0;
                 AWriteDone 1; AWait 10 false; ACheck 10 false].

Lemma driver_refines_spec_witness :
  exists s, spec_runs (events_of demo_answered config_init) spec_init s /\
            matches (demo_config demo_answered) s.
Proof. apply driver_refines_spec, demo_shown. by vm_compute. Defined.

Lemma reply_integrity_witness :
  exists t, heap (drv (demo_config demo_answered)) !! 0%nat = Some t /\
  let l := lifetime 0 (events_of demo_answered config_init) in
  refused (t_u t) l \/ exists r, asked r l /\ outcome r (t_u t) l.
Proof.
  destruct (heap (drv (demo_config demo_answered)) !! 0%nat) as [t|] eqn:E; [|by vm_compute in E].
  exists t. split; [done|].
  apply (reply_integrity _ (demo_config demo_answered) 10%nat); [|by split; vm_compute|done].
  apply demo_shown. by vm_compute.
Defined.

(** Two requests are queued; one is fetched. *)
Definition demo_two : list action :=
  AOpen 1 :: demo_submit 10 0 0 ++ demo_submit 11 1 1 ++ [ARead 1].

Lemma requests_in_order_witness :
  sublist (fetched (events_of demo_two config_init) ++ Uvfs_requests (drv (demo_config demo_two)))
          (submitted (events_of demo_two config_init)).
Proof. apply requests_in_order, demo_shown. by vm_compute. Defined.

Example demo_order :
  fetched (events_of demo_two config_init) = [0%nat] /\
  Uvfs_requests (drv (demo_config demo_two)) = [1%nat] /\
  submitted (events_of demo_two config_init) = [0%nat; 1%nat].
Proof. by vm_compute. Qed.

(** The reply of 16 bytes is what the client finds, and the only one. *)
Example demo_reply_found :
  map (@length Z) (replies (lifetime 0 (events_of demo_answered config_init))) = [16%nat].
Proof. by vm_compute. Qed.
