(* ===== verification/DriverCalls.v ===== *)
(** * The device's read and write as whole calls (driver.c)

    DriverSteps.v interleaves the critical sections of [uvfsd_read] and [uvfsd_write];
    here they are composed as the code composes them, with every check and every
    return.  Each call is described on all its branches; together they bring a reply to
    the transaction whose request was read; and each is the run of its actions when
    nothing comes between them. *)

From stdpp Require Import prelude gmap list strings.
From Stdlib Require Import ZArith Lia.
From S2P Require Import Prelude Protocol Driver DriverSteps DriverInv DriverSafe DriverProps.
From S2P Require Import Requests DriverSpec.

Open Scope string_scope.
Open Scope list_scope.
Open Scope Z_scope.

(** ** The calls *)

(** What happens while a reader sleeps: the other tasks' effect on the driver, and
    whether a signal is pending when it wakes up. *)
Record nap := Nap { others_do : driver -> driver; nap_signal : bool }.

(** The read once a pass of the loop has been made.  [stack] is what the stack holds
    where the shutdown request will be, [ret] the result of [copy_to_user], the number
    of bytes it could not copy.  The result comes with the bytes the caller has got; a
    reader that is still asleep when the [naps] are over has none. *)
Fixpoint uvfsd_read_loop (me : task) (stack : mem) (ret : Z) (naps : list nap) (r : read_pass) :
    M driver (option (Z * list Z)) :=
  match r with
  | PassShutdown =>
      x ← uvfsd_read_shutdown stack ret;
      mret (Some (fst x, take (length (snd x) - Z.to_nat ret) (snd x)))
  | PassTake p =>
      bytes ← uvfsd_read_copy p;
      uvfsd_read_done p;;
      z ← uvfsd_read_return p ret;
      mret (Some (z, take (length bytes - Z.to_nat ret) bytes))
  | PassSleep =>
      match naps with
      | [] => mret None
      | n :: naps' =>
          modify (others_do n);;
          o ← uvfsd_read_woken me (nap_signal n);
          match o with
          | None => mret (Some (- ERESTARTSYS, []))
          | Some r' => uvfsd_read_loop me stack ret naps' r'
          end
      end
  end.

Definition uvfsd_read (me : task) (count : Z) (stack : mem) (ret : Z) (naps : list nap) :
    M driver (option (Z * list Z)) :=
  match uvfsd_read_check count with
  | Some e => mret (Some (e, []))
  | None => r ← uvfsd_read_pass me; uvfsd_read_loop me stack ret naps r
  end.

(** [buff] is the caller's buffer when the header is read, [buff'] when the reply is;
    [ret] and [ret'] are the results of the two [copy_from_user]. *)
Definition uvfsd_write (count : Z) (buff : mem) (ret : Z) (buff' : mem) (ret' : Z) : M driver Z :=
  match uvfsd_write_check count buff ret with
  | inl e => mret e
  | inr (serial, size) =>
      o ← uvfsd_write_take serial;
      match o with
      | None => mret (- EINVAL)
      | Some p =>
          uvfsd_write_copy p buff' size ret';;
          uvfsd_write_done p;;
          mret (uvfsd_write_return size ret')
      end
  end.

(** ** Specification *)

(** What a read returns, the bytes it hands over, and the driver it leaves. *)
Inductive read_result (me : task) (d : driver) (stack : mem) (ret : Z) :
    option (Z * list Z) -> driver -> Prop :=
| read_shutdown :
    ShuttingDown d = true ->
    read_result me d stack ret
      (Some (if ret =? 0 then sizeof uvfs_shutdown_req_s else - EIO,
             take (Z.to_nat (sizeof uvfs_shutdown_req_s) - Z.to_nat ret)
               (rd_bytes 0 (sizeof uvfs_shutdown_req_s) (shutdown_request stack))))
      (set_queue (wake_first (Uvfs_driver_queue d)) d)
| read_request p l t :
    ShuttingDown d = false -> Uvfs_requests d = p :: l -> heap d !! p = Some t ->
    read_result me d stack ret
      (Some (if ret =? 0 then get_int uvfs_generic_req_s "size" (t_u t) else - EIO,
             take (length (delivered (t_u t)) - Z.to_nat ret) (delivered (t_u t))))
      (Driver (uvfs_use_count d) false (Serial_number d) l (Uvfs_replies d ++ [p])
         (wake_first (Uvfs_driver_queue d))
         (<[p := with_asleep (t_asleep t && negb (t_abort t)) (with_in_use false t)]> (heap d))).

(** The driver when a reader goes to sleep, and when it has woken up from a nap. *)
Definition asleep (me : task) (d : driver) : driver :=
  set_queue (Uvfs_driver_queue d ++ [(me, false)]) d.
Definition awake (me : task) (n : nap) (d : driver) : driver :=
  let d' := others_do n (asleep me d) in
  set_queue (filter (fun e => fst e <> me) (Uvfs_driver_queue d')) d'.

(** A read that sleeps starts again from the driver it finds when it wakes up. *)
Inductive read_runs (me : task) (stack : mem) (ret : Z) :
    list nap -> driver -> option (Z * list Z) -> driver -> Prop :=
| runs_now naps d x d' :
    ShuttingDown d = true \/ Uvfs_requests d <> [] ->
    read_result me d stack ret x d' -> read_runs me stack ret naps d x d'
| runs_asleep d :
    ShuttingDown d = false -> Uvfs_requests d = [] ->
    read_runs me stack ret [] d None (asleep me d)
| runs_signal n naps d :
    ShuttingDown d = false -> Uvfs_requests d = [] -> nap_signal n = true ->
    read_runs me stack ret (n :: naps) d (Some (- ERESTARTSYS, [])) (awake me n d)
| runs_again n naps d x d' :
    ShuttingDown d = false -> Uvfs_requests d = [] -> nap_signal n = false ->
    read_runs me stack ret naps (awake me n d) x d' ->
    read_runs me stack ret (n :: naps) d x d'.

(** The transaction a reply to [serial] is for: the first of [Uvfs_replies]. *)
Definition first_for (serial : Z) (d : driver) (p : ptr) (t : transaction) : Prop :=
  exists l1 l2, Uvfs_replies d = l1 ++ p :: l2 /\ heap d !! p = Some t /\ t_serial t = serial /\
    forall q, q ∈ l1 -> exists t', heap d !! q = Some t' /\ t_serial t' <> serial.

(** What a write returns and the driver it leaves. *)
Inductive write_result (d : driver) (count : Z) (buff : mem) (ret : Z) (buff' : mem) (ret' : Z) :
    Z -> driver -> Prop :=
| write_small :
    count < sizeof uvfs_generic_rep_s -> write_result d count buff ret buff' ret' (- EIO) d
| write_fault :
    sizeof uvfs_generic_rep_s <= count -> ret <> 0 ->
    write_result d count buff ret buff' ret' (- EFAULT) d
| write_mismatch :
    sizeof uvfs_generic_rep_s <= count -> ret = 0 ->
    get_int uvfs_generic_rep_s "size" buff <> count ->
    write_result d count buff ret buff' ret' (- EINVAL) d
| write_unknown :
    sizeof uvfs_generic_rep_s <= count -> ret = 0 ->
    get_int uvfs_generic_rep_s "size" buff = count ->
    (forall p, p ∈ Uvfs_replies d -> exists t, heap d !! p = Some t /\
       t_serial t <> get_int uvfs_generic_rep_s "serial" buff) ->
    write_result d count buff ret buff' ret' (- EINVAL) d
| write_reply_to p t :
    sizeof uvfs_generic_rep_s <= count -> ret = 0 ->
    get_int uvfs_generic_rep_s "size" buff = count ->
    first_for (get_int uvfs_generic_rep_s "serial" buff) d p t ->
    write_result d count buff ret buff' ret' (if ret' =? 0 then count else - EIO)
      (set_heap (<[p := Transaction (wr_bytes 0 (reply_bytes buff' count ret') (t_u t))
                          (t_serial t) false (t_abort t) true false]> (heap d))
         (set_lists (remove_ptr p (Uvfs_requests d)) (remove_ptr p (Uvfs_replies d)) d)).

(** ** Lemmas *)

Lemma truthy_eqb {A} z (x y : A) : (if truthy z then x else y) = (if z =? 0 then y else x).
Proof. unfold truthy. by destruct (z =? 0). Qed.

Lemma shutdown_size stack :
  get_int uvfs_shutdown_req_s "size" (shutdown_request stack) = sizeof uvfs_shutdown_req_s.
Proof. unfold shutdown_request. layout. rewrite rd32s_wr32. by vm_compute. Qed.

(** The driver as the calls rely on it: a transaction is queued once, and what is
    queued is live and well formed. *)
Definition served (d : driver) : Prop :=
  NoDup (Uvfs_requests d ++ Uvfs_replies d) /\
  (forall p, p ∈ Uvfs_requests d -> exists t, heap d !! p = Some t /\ request_ok (t_serial t) (t_u t)) /\
  (forall p, p ∈ Uvfs_replies d -> is_Some (heap d !! p)).

Lemma served_reachable c : reachable c -> served (drv c).
Proof.
  intros Hr. pose proof (inv_reachable c Hr) as Hi.
  split; [apply (inv_nodup c Hi)|]. split; [|apply (replies_live c Hi)].
  intros p Hp. destruct (listed_in_flight c Hi p) as (t & ? & ? & Ht & _ & _ & _ & _ & _ & Hreq & _);
    [set_solver|]. by exists t.
Qed.

Lemma served_awake me n d :
  (forall d', served d' -> served (others_do n d')) -> served d -> served (awake me n d).
Proof. intros Hn Hd. apply (Hn (asleep me d)), Hd. Qed.

(** *** Reading *)

Lemma read_loop_shutdown me stack ret naps d :
  ShuttingDown d = true ->
  exists x d', uvfsd_read_loop me stack ret naps PassShutdown d = Some (x, d') /\
               read_result me d stack ret x d'.
Proof.
  intros Hsd. do 2 eexists. split; [|by apply read_shutdown].
  destruct naps; cbn [uvfsd_read_loop]; unfold uvfsd_read_shutdown; exec_unfold;
    by rewrite !shutdown_size, truthy_eqb; cbn [fst snd]; rewrite length_rd_bytes.
Qed.

Lemma read_return_spec d p t ret :
  heap d !! p = Some t ->
  uvfsd_read_return p ret d =
  Some (if ret =? 0 then get_int uvfs_generic_req_s "size" (t_u t) else - EIO, d).
Proof.
  intros Hp. unfold uvfsd_read_return. rewrite truthy_eqb. destruct (ret =? 0); [|done].
  by rewrite (get_trans_bind p d t).
Qed.

Lemma read_loop_take me stack ret naps d p l t d1 :
  served d -> ShuttingDown d = false -> Uvfs_requests d = p :: l -> heap d !! p = Some t ->
  uvfsd_read_pass me d = Some (PassTake p, d1) ->
  exists x d', uvfsd_read_loop me stack ret naps (PassTake p) d1 = Some (x, d') /\
               read_result me d stack ret x d'.
Proof.
  intros (Hnd & Hreq & _) Hsd Hq Hp Hpass.
  destruct (Hreq p) as (t0 & Ht0 & Hok); [rewrite Hq; set_solver|].
  assert (t0 = t) as -> by congruence.
  rewrite Hq in Hnd. cbn in Hnd. apply NoDup_cons in Hnd as [Hp' _].
  rewrite (read_pass_take d me p l t), !remove_ptr_id in Hpass by set_solver.
  injection Hpass as <-. do 2 eexists. split; [|by eapply read_request].
  set (t1 := with_in_use true t). set (t2 := with_asleep (t_asleep t && negb (t_abort t)) (with_in_use false t)).
  set (d1 := Driver _ _ _ _ _ _ _).
  assert (heap d1 !! p = Some t1) as H1 by apply lookup_insert_eq.
  assert (uvfsd_read_loop me stack ret naps (PassTake p) = (bytes ← uvfsd_read_copy p;
      uvfsd_read_done p;; z ← uvfsd_read_return p ret;
      mret (Some (z, take (length bytes - Z.to_nat ret) bytes)))) as -> by by destruct naps.
  rewrite (bind_eq _ _ _ _ _ (read_copy_spec_at d1 p t1 H1 Hok)).
  rewrite (bind_eq _ _ _ _ _ (read_done_spec d1 p t1 H1)).
  rewrite (bind_eq _ _ _ _ _ (read_return_spec (set_heap (<[p := t2]> (heap d1)) d1) p t2 ret
    (lookup_insert_eq _ _ _))).
  unfold d1, set_heap. cbn [heap]. by rewrite insert_insert_eq.
Qed.

Lemma read_pass_runs me stack ret naps d :
  served d -> Forall (fun n => forall d', served d' -> served (others_do n d')) naps ->
  exists x d', (uvfsd_read_pass me ≫= uvfsd_read_loop me stack ret naps) d = Some (x, d') /\
               read_runs me stack ret naps d x d'.
Proof.
  intros Hd Hn. revert d Hd. induction Hn as [|n naps Hn1 Hn IH]; intros d Hd.
  all: destruct (read_pass_cases d) as [Hsd|[(Hsd & Hq)|(p & l & t & Hsd & Hq & Hp)]];
    [intros p Hp; by destruct (proj1 (proj2 Hd) p Hp) as (t & -> & _)|..].
  1, 4: rewrite (bind_eq _ _ _ _ _ (read_pass_shutdown d me Hsd));
    edestruct (read_loop_shutdown me stack ret) as (x & d' & E & Hx); [done|];
    exists x, d'; split; [exact E|]; constructor; [by left|done].
  2, 4: rewrite (bind_eq _ _ _ _ _ (read_pass_take d me p l t Hsd Hq Hp));
    edestruct (read_loop_take me stack ret) as (x & d' & E & Hx);
      [done..|by apply read_pass_take|];
    exists x, d'; split; [exact E|]; constructor; [right; by rewrite Hq|done].
  - rewrite (bind_eq _ _ _ _ _ (read_pass_sleep d me Hsd Hq)). do 2 eexists.
    split; [done|by apply runs_asleep].
  - rewrite (bind_eq _ _ _ _ _ (read_pass_sleep d me Hsd Hq)). cbn [uvfsd_read_loop].
    destruct (nap_signal n) eqn:Es.
    + do 2 eexists. split; [done|by apply runs_signal].
    + destruct (IH (awake me n d)) as (x & d' & E & Hx); [by apply served_awake|].
      exists x, d'. split; [|by apply runs_again].
      revert E. unfold uvfsd_read_woken. exec_unfold. cbn. fold (asleep me d). unfold awake.
      by destruct (uvfsd_read_pass me _) as [[]|].
Qed.

(** *** Writing *)

(** The write once the header has been checked. *)
Abbreviation write_rest serial size buff' ret' :=
  (o ← uvfsd_write_take serial;
   match o with
   | None => mret (- EINVAL)
   | Some p => uvfsd_write_copy p buff' size ret';; uvfsd_write_done p;;
               mret (uvfsd_write_return size ret')
   end : M driver Z).

(** The transaction [t] with an answer. *)
Abbreviation answered buff' size ret' t :=
  (Transaction (wr_bytes 0 (reply_bytes buff' size ret') (t_u t)) (t_serial t) false
     (t_abort t) true false).

Lemma write_found d serial l1 p l2 t size buff' ret' :
  Uvfs_replies d = l1 ++ p :: l2 ->
  (forall q, q ∈ l1 -> exists t', heap d !! q = Some t' /\ t_serial t' <> serial) ->
  heap d !! p = Some t -> t_serial t = serial ->
  sizeof uvfs_generic_rep_s <= size <= sizeof uvfs_reply_u ->
  write_rest serial size buff' ret' d =
  Some (if ret' =? 0 then size else - EIO,
        set_heap (<[p := answered buff' size ret' t]> (heap d))
          (set_lists (remove_ptr p (Uvfs_requests d)) (remove_ptr p (Uvfs_replies d)) d)).
Proof.
  intros Hl Hq Hp Hs Hb. rewrite (bind_eq _ _ _ _ _ (write_take_some d serial l1 p l2 t Hl Hq Hp Hs)).
  set (d1 := set_heap _ _).
  assert (uvfsd_write_copy p buff' size ret' d1 = Some (tt,
    set_heap (<[p := with_u (wr_bytes 0 (reply_bytes buff' size ret')) (with_in_use true t)]>
                (heap d1)) d1)) as E.
  { unfold uvfsd_write_copy, reply_bytes. exec_unfold.
    assert (heap d1 !! p = Some (with_in_use true t)) as H1 by apply lookup_insert_eq.
    rewrite H1. revert Hb. layout. intros Hb.
    rewrite (proj2 (andb_true_iff _ _)) by (rewrite !Z.leb_le; lia). by rewrite H1. }
  rewrite (bind_eq _ _ _ _ _ E).
  rewrite (bind_eq _ _ _ _ _ (write_done_spec (set_heap _ d1) p _ (lookup_insert_eq _ _ _))).
  unfold uvfsd_write_return. rewrite truthy_eqb. subst d1. clear. unfold set_heap, set_lists.
  cbn [heap uvfs_use_count ShuttingDown Serial_number Uvfs_requests Uvfs_replies
       Uvfs_driver_queue]. by rewrite !insert_insert_eq.
Qed.

Lemma write_take_result d count buff buff' ret' :
  served d -> count = get_int uvfs_generic_rep_s "size" buff ->
  sizeof uvfs_generic_rep_s <= count <= sizeof uvfs_reply_u ->
  exists z d', write_rest (get_int uvfs_generic_rep_s "serial" buff) count buff' ret' d = Some (z, d') /\
    write_result d count buff 0 buff' ret' z d'.
Proof.
  intros (_ & _ & Hrp) Hsz Hb. set (serial := get_int _ "serial" _).
  destruct (find_reply_cases d serial (Uvfs_replies d) Hrp) as [Hno|(l1 & p & l2 & t & Hl & Hp & Hs & Hq)].
  - rewrite (bind_eq _ _ _ _ _ (write_take_none d serial Hno)). do 2 eexists. split; [done|].
    apply write_unknown; [apply Hb|done..].
  - do 2 eexists. split; [by eapply write_found|].
    apply write_reply_to; [apply Hb|done|done|]. by exists l1, l2.
Qed.

Lemma write_check_refused d count buff ret buff' ret' e :
  0 <= count <= sizeof uvfs_reply_u -> uvfsd_write_check count buff ret = inl e ->
  write_result d count buff ret buff' ret' e d.
Proof.
  intros Hc. unfold uvfsd_write_check. rewrite truthy_eqb.
  destruct (Z.ltb_spec count (sizeof uvfs_generic_rep_s)); [intros [= <-]; by apply write_small|].
  destruct (Z.eqb_spec ret 0); [|intros [= <-]; by apply write_fault].
  destruct (Z.eqb_spec (u64 (get_int uvfs_generic_rep_s "size" buff)) count) as [|Hne]; [done|].
  intros [= <-]. apply write_mismatch; [done..|]. intros Hsz. apply Hne.
  rewrite Hsz. apply u64_small. revert Hc. clear. layout. lia.
Qed.

Lemma write_check_passed count buff ret serial size :
  0 <= count < 2 ^ 63 -> uvfsd_write_check count buff ret = inr (serial, size) ->
  ret = 0 /\ serial = get_int uvfs_generic_rep_s "serial" buff /\ size = count /\
  size = get_int uvfs_generic_rep_s "size" buff /\ sizeof uvfs_generic_rep_s <= size.
Proof.
  intros Hc E. assert (ret = 0) as ->.
  { revert E. unfold uvfsd_write_check. rewrite truthy_eqb.
    destruct (count <? _); [done|]. by destruct (Z.eqb_spec ret 0). }
  pose proof (write_check_size _ _ _ _ Hc E) as (-> & Hsz & ->). split_and!; try done.
  revert E. unfold uvfsd_write_check. rewrite truthy_eqb. destruct (count <? _); [done|].
  destruct (Z.eqb_spec (u64 (get_int uvfs_generic_rep_s "size" buff)) count) as [<-|]; [|done].
  intros _. pose proof (rd32s_range (offsetof uvfs_generic_rep_s "size") buff) as Hr.
  symmetry. apply u64_small. fold (get_int uvfs_generic_rep_s "size" buff) in Hr.
  unfold int_range in Hr. set (z := get_int _ _ buff) in *. clearbody z. revert Hsz. layout. lia.
Qed.

(** *** Calls as runs of their actions *)

(** The actions of a read that does not sleep, and of a write. *)
Definition read_actions (s : task) (stack : mem) (ret : Z) (d : driver) : list action :=
  if ShuttingDown d then [ARead s; AShutdownOut s stack ret]
  else [ARead s; ACopyOut s ret; AReadDone s; AReturn s].
Definition write_actions (s : task) (count : Z) (buff buff' : mem) (ret' : Z) : list action :=
  [AWrite s count buff; ACopyIn s buff' ret'; AWriteDone s].

Lemma on_drv_run {A B} (m : M driver A) (k : A -> M config B) c :
  (on_drv m ≫= k) c =
  match m (drv c) with Some (a, d) => k a (Config d (clients c) (servers c)) | None => None end.
Proof. unfold mbind, M_bind, on_drv. by destruct (m (drv c)) as [[a d]|]. Qed.

Lemma read_pass_serving me d r d' :
  ShuttingDown d = false -> uvfsd_read_pass me d = Some (r, d') -> r <> PassShutdown.
Proof.
  intros Hsd. destruct (Uvfs_requests d) as [|p l] eqn:Hq.
  - rewrite read_pass_sleep by done. by intros [= <- _].
  - destruct (heap d !! p) as [t|] eqn:Hp.
    + rewrite (read_pass_take d me p l t) by done. by intros [= <- _].
    + unfold uvfsd_read_pass. exec_unfold. by rewrite Hsd, Hq, Hp.
Qed.

Lemma bind_run {S A B} (m : M S A) (f : A -> M S B) s :
  (m ≫= f) s = match m s with Some (a, s') => f a s' | None => None end.
Proof. reflexivity. Qed.

(** An action of an idle server that is at another point does nothing. *)
Ltac at_pc := unfold put_server, modify, mret, M_ret; rewrite bind_run; cbn [gets servers drv clients];
  rewrite ?lookup_insert_eq.

Lemma read_is_run s stack ret count c :
  sizeof uvfs_request_u <= count ->
  option_map drv (run_all (read_actions s stack ret (drv c)) c) =
  option_map snd (uvfsd_read s count stack ret [] (drv c)).
Proof.
  intros Hc. unfold uvfsd_read, uvfsd_read_check. rewrite (proj2 (Z.ltb_ge _ _) Hc).
  unfold read_actions. destruct (ShuttingDown (drv c)) eqn:Hsd.
  - rewrite (bind_eq _ _ _ _ _ (read_pass_shutdown (drv c) s Hsd)).
    cbn [run_all run]. rewrite on_drv_run, (read_pass_shutdown (drv c) s Hsd). reflexivity.
  - cbn [run_all run]. rewrite on_drv_run, (bind_run (uvfsd_read_pass s)).
    destruct (uvfsd_read_pass s (drv c)) as [[r d]|] eqn:E; [|reflexivity].
    assert (r <> PassShutdown) as Hr by by eapply read_pass_serving.
    destruct r as [| |p]; [done|..]; unfold after_pass; at_pc.
    + do 2 (at_pc). done.
    + cbn [uvfsd_read_loop]. rewrite on_drv_run, bind_run. cbn [drv servers clients].
      destruct (uvfsd_read_copy p d) as [[bytes d1]|]; [|done].
      at_pc. rewrite on_drv_run, bind_run. cbn [drv servers clients].
      destruct (uvfsd_read_done p d1) as [[[] d2]|]; [|done].
      at_pc. rewrite on_drv_run, bind_run. cbn [drv servers clients].
      by destruct (uvfsd_read_return p ret d2) as [[z d3]|].
Qed.

Lemma write_is_run s count buff buff' ret' c :
  servers c !! s = Some SIdle ->
  option_map drv (run_all (write_actions s count buff buff' ret') c) =
  option_map snd (uvfsd_write count buff 0 buff' ret' (drv c)).
Proof.
  intros Hs. unfold write_actions, uvfsd_write. cbn [run_all run].
  destruct (uvfsd_write_check count buff 0) as [e|[serial size]].
  - do 2 (at_pc; rewrite Hs). done.
  - rewrite on_drv_run, bind_run.
    destruct (uvfsd_write_take serial (drv c)) as [[[p|] d]|]; [| |done].
    + at_pc. rewrite on_drv_run, bind_run. cbn [drv servers clients].
      destruct (uvfsd_write_copy p buff' size ret' d) as [[[] d1]|]; [|done].
      at_pc. rewrite on_drv_run, bind_run. cbn [drv servers clients].
      by destruct (uvfsd_write_done p d1) as [[[] d2]|].
    + do 2 (at_pc; rewrite Hs). done.
Qed.

(** *** A reply to what has been read *)

(** The driver after a read of the oldest request has been completed. *)
Definition handed_out (d : driver) (p : ptr) (l : list ptr) (t : transaction) : driver :=
  Driver (uvfs_use_count d) false (Serial_number d) l (Uvfs_replies d ++ [p])
    (wake_first (Uvfs_driver_queue d))
    (<[p := with_asleep (t_asleep t && negb (t_abort t)) (with_in_use false t)]> (heap d)).

Lemma length_delivered t :
  request_ok (t_serial t) (t_u t) ->
  len (delivered (t_u t)) = get_int uvfs_generic_req_s "size" (t_u t).
Proof.
  intros (_ & _ & Hs). unfold len, delivered. rewrite length_rd_bytes.
  assert (0 <= sizeof uvfs_generic_req_s) by by vm_compute. lia.
Qed.

Lemma delivered_serial t :
  request_ok (t_serial t) (t_u t) ->
  get_int uvfs_generic_req_s "serial" (mem_of (delivered (t_u t))) = t_serial t.
Proof.
  intros (_ & Hser & Hs & _). rewrite <- Hser. unfold delivered.
  set (size := get_int _ "size" _) in *. clearbody size. unfold get_int, rd32s. f_equal.
  apply rd32_agree. eapply (mem_agree_sub 0); [apply mem_of_agree|by vm_compute|].
  etransitivity; [|exact Hs]. by vm_compute.
Qed.

Lemma read_oldest me count stack d p l t :
  served d -> ShuttingDown d = false -> Uvfs_requests d = p :: l -> heap d !! p = Some t ->
  sizeof uvfs_request_u <= count ->
  (p ∉ l /\ p ∉ Uvfs_replies d) /\ request_ok (t_serial t) (t_u t) /\
  uvfsd_read me count stack 0 [] d =
    Some (Some (len (delivered (t_u t)), delivered (t_u t)), handed_out d p l t).
Proof.
  intros Hd Hsd Hq Hp Hc. pose proof Hd as (Hnd & Hreq & _).
  destruct (Hreq p) as (t0 & Ht0 & Hok); [rewrite Hq; set_solver|].
  assert (t0 = t) as -> by congruence. split; [|split; [done|]].
  { rewrite Hq in Hnd. apply NoDup_cons in Hnd as [Hp' _]. set_solver. }
  destruct (read_pass_runs me stack 0 [] d Hd) as (x & d' & E & Hx); [constructor|].
  unfold uvfsd_read, uvfsd_read_check. rewrite (proj2 (Z.ltb_ge _ _) Hc).
  transitivity (Some (x, d')); [exact E|].
  inversion Hx as [? ? ? ? _ Hres| | |]; subst; [|congruence].
  inversion Hres as [|p' l' t' _ Hq' Hp']; subst; [congruence|].
  rewrite Hq in Hq'. injection Hq' as <- <-. assert (t' = t) as -> by congruence.
  change (Z.to_nat 0) with 0%nat. by rewrite Nat.sub_0_r, firstn_all, length_delivered.
Qed.

Lemma write_check_ok n buff :
  sizeof uvfs_generic_rep_s <= n <= sizeof uvfs_reply_u ->
  get_int uvfs_generic_rep_s "size" buff = n ->
  uvfsd_write_check n buff 0 = inr (get_int uvfs_generic_rep_s "serial" buff, n).
Proof.
  intros Hn Hsz. unfold uvfsd_write_check. rewrite (proj2 (Z.ltb_ge _ _)) by apply Hn.
  cbn [truthy Z.eqb negb]. rewrite Hsz, u64_small, Z.eqb_refl; [done|].
  revert Hn. clear. layout. lia.
Qed.

Lemma write_to_last d p l t n buff :
  Uvfs_requests d = p :: l -> heap d !! p = Some t ->
  (p ∉ l /\ p ∉ Uvfs_replies d) ->
  (forall q, q ∈ Uvfs_replies d ->
     exists t', heap d !! q = Some t' /\ t_serial t' <> t_serial t) ->
  sizeof uvfs_generic_rep_s <= n <= sizeof uvfs_reply_u ->
  get_int uvfs_generic_rep_s "size" buff = n ->
  get_int uvfs_generic_rep_s "serial" buff = t_serial t ->
  exists d2 t2, uvfsd_write n buff 0 buff 0 (handed_out d p l t) = Some (n, d2) /\
    Uvfs_requests d2 = l /\ Uvfs_replies d2 = Uvfs_replies d /\
    heap d2 = <[p := t2]> (heap d) /\ t_u t2 = wr_bytes 0 (rd_bytes 0 n buff) (t_u t) /\
    fst <$> make_request_wait p false d2 = Some true /\
    uvfsd_write n buff 0 buff 0 d2 = Some (- EINVAL, d2).
Proof.
  intros Hq Hp [Hpl Hpr] Hothers Hn Hsz Hs. set (d1 := handed_out d p l t).
  assert (forall dx, uvfsd_write n buff 0 buff 0 dx = write_rest (t_serial t) n buff 0 dx) as Ew.
  { intros dx. unfold uvfsd_write. by rewrite write_check_ok, Hs by done. }
  assert (forall q, q ∈ Uvfs_replies d -> p <> q) as Hne by (by intros q ? ->).
  assert (forall tx q, q ∈ Uvfs_replies d ->
    exists t', <[p := tx]> (heap d) !! q = Some t' /\ t_serial t' <> t_serial t) as Hno
    by (intros tx q Hx; rewrite lookup_insert_ne by auto; auto).
  set (t1 := with_asleep (t_asleep t && negb (t_abort t)) (with_in_use false t)).
  pose proof (write_found d1 (t_serial t) (Uvfs_replies d) p [] t1 n buff 0 eq_refl) as E.
  specialize (E (Hno t1)
    (lookup_insert_eq _ _ _) eq_refl Hn).
  assert (remove_ptr p (Uvfs_replies d ++ [p]) = Uvfs_replies d) as Hrm.
  { unfold remove_ptr. rewrite filter_app. change (filter _ [p]) with (remove_ptr p [p]).
    rewrite remove_ptr_cons, app_nil_r. by apply remove_ptr_id. }
  cbn [Z.eqb] in E. change (heap d1) with (<[p := t1]> (heap d)) in E.
  change (Uvfs_requests d1) with l in E. change (Uvfs_replies d1) with (Uvfs_replies d ++ [p]) in E.
  rewrite insert_insert_eq, Hrm, remove_ptr_id in E by done.
  do 2 eexists. rewrite !Ew. split; [exact E|]. cbn [Uvfs_requests Uvfs_replies heap set_heap set_lists].
  split; [done|]. split; [done|]. split; [done|]. split; [|split].
  - unfold reply_bytes. cbn. by rewrite Z.sub_0_r, app_nil_r.
  - rewrite (wait_spec _ p _ false (lookup_insert_eq _ _ _)). done.
  - match goal with |- _ ?dx = _ =>
      rewrite (bind_eq _ _ _ _ _ (write_take_none dx (t_serial t) (Hno _))) end. done.
Qed.

(** ** Theorems *)

(** C6: [uvfsd_read] always returns or sleeps, on every driver whose queued
    transactions are live and well formed and whatever the other tasks do while it
    sleeps.  A buffer that is too small is refused with [-EIO] before anything is
    looked at; while the file system is being shut down it hands over the shutdown
    request and passes the wake-up on; otherwise it moves the oldest request to the
    replies, wakes the next reader, and hands over exactly the bytes of the request
    that could be copied, with its size as the result or [-EIO]; it sleeps only when
    there is nothing to do, and a signal then makes it return [-ERESTARTSYS]. *)
Theorem uvfsd_read_correct me count stack ret naps d :
  served d -> Forall (fun n => forall d', served d' -> served (others_do n d')) naps ->
  exists x d', uvfsd_read me count stack ret naps d = Some (x, d') /\
    if count <? sizeof uvfs_request_u then x = Some (- EIO, []) /\ d' = d
    else read_runs me stack ret naps d x d'.
Proof.
  intros Hd Hn. unfold uvfsd_read, uvfsd_read_check. destruct (count <? _); [by do 2 eexists|].
  by apply read_pass_runs.
Qed.

(** C7: [uvfsd_write] returns on every branch: [-EIO] for a reply shorter than its
    header, [-EFAULT] if the header cannot be read, [-EINVAL] if its size is not the
    caller's or if no request that is waiting for a reply has its serial number.
    Otherwise the first of these requests leaves the replies, its union starts with
    the bytes of the reply, the task that waits for it is woken, and the result is
    [count], or [-EIO] when some of the bytes could not be read: the request counts
    as answered all the same. *)
Theorem uvfsd_write_correct count buff ret buff' ret' d :
  served d -> 0 <= count <= sizeof uvfs_reply_u -> 0 <= ret' <= count ->
  exists z d', uvfsd_write count buff ret buff' ret' d = Some (z, d') /\
    write_result d count buff ret buff' ret' z d'.
Proof.
  intros Hd Hc Hr. unfold uvfsd_write.
  destruct (uvfsd_write_check count buff ret) as [e|[serial size]] eqn:E.
  - do 2 eexists. split; [done|]. by apply write_check_refused.
  - apply write_check_passed in E as (-> & -> & -> & Hs & Hmin); [|revert Hc; layout; lia].
    by apply write_take_result; [..|split; [|apply Hc]].
Qed.

(** The calls are the interleaved actions put together: run without interruption from an
    idle server, the actions of a read or a write leave the driver that the call leaves,
    and fault where it faults. *)
Lemma calls_are_runs s c count count' stack ret buff buff' ret' :
  servers c !! s = Some SIdle -> sizeof uvfs_request_u <= count ->
  option_map drv (run_all (read_actions s stack ret (drv c)) c) =
    option_map snd (uvfsd_read s count stack ret [] (drv c)) /\
  option_map drv (run_all (write_actions s count' buff buff' ret') c) =
    option_map snd (uvfsd_write count' buff 0 buff' ret' (drv c)).
Proof.
  intros Hs Hc. split; [by apply read_is_run|by apply write_is_run].
Qed.

(** C8: a server that answers what it reads answers the right client, once.  [uvfsd_read]
    returns the size of the oldest request with that many bytes; [uvfsd_write], given any
    reply that fits and carries the serial number found in these bytes, then takes all of
    it, and it lies at the start of the union of the transaction the bytes came from,
    whose client stops waiting; every other transaction is as it was, and so are the
    lists but for that request.  The same reply is refused the second time.  The serial
    numbers of the requests that wait for a reply differ (DriverSerial.v). *)
Theorem reply_finds_request me c p l t count stack :
  let d := drv c in
  reachable c -> ShuttingDown d = false -> Uvfs_requests d = p :: l -> heap d !! p = Some t ->
  (forall q, q ∈ Uvfs_replies d ->
     exists t', heap d !! q = Some t' /\ t_serial t' <> t_serial t) ->
  sizeof uvfs_request_u <= count ->
  exists bytes d1, uvfsd_read me count stack 0 [] d = Some (Some (len bytes, bytes), d1) /\
  forall n buff, sizeof uvfs_generic_rep_s <= n <= sizeof uvfs_reply_u ->
    get_int uvfs_generic_rep_s "size" buff = n ->
    get_int uvfs_generic_rep_s "serial" buff =
      get_int uvfs_generic_req_s "serial" (mem_of bytes) ->
    exists d2 t2, uvfsd_write n buff 0 buff 0 d1 = Some (n, d2) /\
      Uvfs_requests d2 = l /\ Uvfs_replies d2 = Uvfs_replies d /\
      heap d2 = <[p := t2]> (heap d) /\ t_u t2 = wr_bytes 0 (rd_bytes 0 n buff) (t_u t) /\
      fst <$> make_request_wait p false d2 = Some true /\
      uvfsd_write n buff 0 buff 0 d2 = Some (- EINVAL, d2).
Proof.
  intros d Hr Hsd Hq Hp Hser Hc. pose proof (served_reachable c Hr) as Hd. fold d in Hd.
  destruct (read_oldest me count stack d p l t) as (Hnl & Hok & E); [done..|].
  eexists _, _. split; [exact E|]. intros n buff Hn Hsz. rewrite delivered_serial by done. intros Hs.
  apply write_to_last; try done.
Qed.

(** ** Examples *)

(** Server 1 goes to sleep on an empty driver; task 10 submits a request meanwhile. *)
Definition demo_nap (sig : bool) : nap :=
  Nap (fun _ => drv (demo_config ([AOpen 1; ARead 1] ++ demo_submit 10 0 0))) sig.
Definition demo_open : driver := drv (demo_config [AOpen 1]).

(** What a call returns: its result and the number of bytes handed over. *)
Definition outcome_of (o : option (option (Z * list Z) * driver)) : option (option (Z * nat)) :=
  option_map (fun r => option_map (fun x => (fst x, length (snd x))) (fst r)) o.

Example demo_read_outcomes :
  outcome_of (uvfsd_read 1 (sizeof uvfs_request_u) (fun _ => 0) 0 [demo_nap false] demo_open) =
    Some (Some (sizeof uvfs_getattr_req_s, Z.to_nat (sizeof uvfs_getattr_req_s))) /\
  outcome_of (uvfsd_read 1 (sizeof uvfs_request_u) (fun _ => 0) 5 [demo_nap false] demo_open) =
    Some (Some (- EIO, Z.to_nat (sizeof uvfs_getattr_req_s - 5))) /\
  outcome_of (uvfsd_read 1 (sizeof uvfs_request_u) (fun _ => 0) 0 [demo_nap true] demo_open) =
    Some (Some (- ERESTARTSYS, 0%nat)) /\
  outcome_of (uvfsd_read 1 (sizeof uvfs_request_u) (fun _ => 0) 0 [] demo_open) = Some None /\
  outcome_of (uvfsd_read 1 (sizeof uvfs_request_u - 1) (fun _ => 0) 0 [] demo_open) =
    Some (Some (- EIO, 0%nat)).
Proof. by vm_compute. Qed.

(** A reply whose bytes cannot be read: the writer gets an error and the client an
    answer. *)
Example demo_write_fault :
  option_map (fun r => (fst r, option_map t_answered (heap (snd r) !! 0%nat)))
    (uvfsd_write 16 (demo_reply 0 16 0) 0 (demo_reply 0 16 0) 3 (drv (demo_config demo_fetch))) =
  Some (- EIO, Some true).
Proof. by vm_compute. Qed.

Lemma uvfsd_read_correct_witness :
  exists x d', uvfsd_read 1 (sizeof uvfs_request_u) (fun _ => 0) 0 [demo_nap false] demo_open
                 = Some (x, d') /\
    if sizeof uvfs_request_u <? sizeof uvfs_request_u then x = Some (- EIO, []) /\ d' = demo_open
    else read_runs 1 (fun _ => 0) 0 [demo_nap false] demo_open x d'.
Proof.
  apply uvfsd_read_correct.
  - apply served_reachable, demo_reachable. by vm_compute.
  - constructor; [|constructor]. intros d' _.
    apply (served_reachable (demo_config ([AOpen 1; ARead 1] ++ demo_submit 10 0 0))),
      demo_reachable. by vm_compute.
Defined.

Lemma uvfsd_write_correct_witness :
  exists z d', uvfsd_write 16 (demo_reply 0 16 0) 0 (demo_reply 0 16 0) 3
                 (drv (demo_config demo_fetch)) = Some (z, d') /\
    write_result (drv (demo_config demo_fetch)) 16 (demo_reply 0 16 0) 0 (demo_reply 0 16 0) 3 z d'.
Proof.
  apply uvfsd_write_correct; [|by vm_compute|by vm_compute].
  apply served_reachable, demo_reachable. by vm_compute.
Defined.

(** Server 1 reads the request of task 10 while another one is queued. *)
Definition demo_queue : list action := AOpen 1 :: demo_submit 10 0 0 ++ demo_submit 11 1 1.

Lemma reply_finds_request_witness :
  exists bytes d1, uvfsd_read 1 (sizeof uvfs_request_u) (fun _ => 0) 0 [] (drv (demo_config demo_queue))
      = Some (Some (len bytes, bytes), d1) /\
  exists d2, uvfsd_write 16 (demo_reply 0 16 0) 0 (demo_reply 0 16 0) 0 d1 = Some (16, d2) /\
    Uvfs_requests d2 = [1%nat] /\
    uvfsd_write 16 (demo_reply 0 16 0) 0 (demo_reply 0 16 0) 0 d2 = Some (- EINVAL, d2).
Proof.
  destruct (heap (drv (demo_config demo_queue)) !! 0%nat) as [t|] eqn:E; [|by vm_compute in E].
  destruct (reply_finds_request 1%nat (demo_config demo_queue) 0%nat [1%nat] t
    (sizeof uvfs_request_u) (fun _ => 0) (demo_reachable demo_queue ltac:(by vm_compute))
    ltac:(by vm_compute) ltac:(by vm_compute) E) as (bytes & d1 & E1 & H).
  - assert (Uvfs_replies (drv (demo_config demo_queue)) = []) as -> by by vm_compute.
    intros q Hq. exact (False_ind _ (not_elem_of_nil q Hq)).
  - apply Z.le_refl.
  - exists bytes, d1. split; [exact E1|].
    assert (get_int uvfs_generic_req_s "serial" (mem_of bytes) = 0) as Hs.
    { assert (option_map (fun r => option_map (fun x => get_int uvfs_generic_req_s "serial" (mem_of (snd x)))
        (fst r)) (uvfsd_read 1 (sizeof uvfs_request_u) (fun _ => 0) 0 [] (drv (demo_config demo_queue)))
        = Some (Some 0)) as E0 by by vm_compute.
      rewrite E1 in E0. apply (inj Some), (inj Some) in E0. exact E0. }
    assert (get_int uvfs_generic_rep_s "serial" (demo_reply 0 16 0) = 0) as Hs' by (vm_compute; reflexivity).
    assert (get_int uvfs_generic_rep_s "size" (demo_reply 0 16 0) = 16) as Hz by (vm_compute; reflexivity).
    assert (sizeof uvfs_generic_rep_s <= 16 <= sizeof uvfs_reply_u) as Hb by (vm_compute; split; discriminate).
    pose proof (H 16 (demo_reply 0 16 0) Hb Hz (eq_trans Hs' (eq_sym Hs))) as H1.
    destruct H1 as (d2 & t2 & E2 & Hq & _ & _ & _ & _ & E3).
    exists d2. split; [exact E2|]. split; [exact Hq|exact E3].
Defined.
