(* ===== verification/RequestProps.v ===== *)
(** * What the requests are to the driver and to the server

    The requests the file system builds satisfy what the driver needs of them, the
    server can read back exactly what was asked from the bytes it is given, and
    those bytes hold nothing else, with two exceptions. *)

From stdpp Require Import prelude gmap list strings.
From Stdlib Require Import ZArith Lia.
From S2P Require Import Prelude Protocol DriverSteps Requests.

Open Scope string_scope.
Open Scope list_scope.
Open Scope Z_scope.

(** A name, and what the arguments of a request may be. *)
Definition chars_ok (max : Z) (l : list Z) : Prop := Forall is_byte l /\ len l <= max.

Definition time_ok (t : Z * Z) : Prop := uint_range t.1 /\ uint_range t.2.

Definition iattr_wf (a : iattr) : Prop :=
  uint_range (ia_valid a) /\ uint_range (ia_mode a) /\ uint_range (ia_uid a) /\
  uint_range (ia_gid a) /\ uint_range (ia_size a) /\
  time_ok (ia_atime a) /\ time_ok (ia_mtime a) /\ time_ok (ia_ctime a).

Definition ids_ok (uid gid : Z) (fh : fhandle) : Prop :=
  uint_range uid /\ uint_range gid /\ fhandle_wf fh.

(** The lengths the code checks before it builds a request. *)
Definition request_fits (r : request) : Prop :=
  match r with
  | RqCreate _ _ _ _ name | RqLookup _ _ _ name | RqUnlink _ _ _ name
  | RqMkdir _ _ _ _ name | RqRmdir _ _ _ name => len name <= UVFS_MAX_NAMELEN
  | RqSymlink _ _ _ name path => len name <= UVFS_MAX_NAMELEN /\ len path <= UVFS_MAX_PATHLEN
  | RqRename _ _ _ old _ new => len old <= UVFS_MAX_NAMELEN /\ len new <= UVFS_MAX_NAMELEN
  | RqReadSuper _ _ arg => len arg <= UVFS_MAX_PATHLEN
  | RqWrite _ _ _ _ data => len data <= PAGE_CACHE_SIZE
  | _ => True
  end.

Definition request_wf (r : request) : Prop :=
  request_fits r /\
  match r with
  | RqCreate uid gid fh mode name | RqMkdir uid gid fh mode name =>
      ids_ok uid gid fh /\ int_range mode /\ Forall is_byte name
  | RqLookup uid gid fh name | RqUnlink uid gid fh name | RqRmdir uid gid fh name =>
      ids_ok uid gid fh /\ Forall is_byte name
  | RqSymlink uid gid fh name path =>
      ids_ok uid gid fh /\ Forall is_byte name /\ Forall is_byte path
  | RqRename uid gid fh old fh_new new =>
      ids_ok uid gid fh /\ Forall is_byte old /\ fhandle_wf fh_new /\ Forall is_byte new
  | RqReaddir uid gid fh n => ids_ok uid gid fh /\ int_range n
  | RqSetattr uid gid fh a => ids_ok uid gid fh /\ iattr_wf a
  | RqGetattr uid gid fh | RqReadlink uid gid fh => ids_ok uid gid fh
  | RqStatfs fh => fhandle_wf fh
  | RqReadSuper uid gid arg => uint_range uid /\ uint_range gid /\ Forall is_byte arg
  | RqWrite uid gid fh off data => ids_ok uid gid fh /\ uint_range off /\ Forall is_byte data
  | RqRead uid gid fh off => ids_ok uid gid fh /\ uint_range off
  end.

(** The requests whose size is that of the whole structure although they end in
    character arrays that are only partly filled. *)
Definition padded (r : request) : bool :=
  match r with RqSymlink _ _ _ _ _ | RqRename _ _ _ _ _ _ => true | _ => false end.

(** ** Lemmas *)

Lemma rd32_mem_of off n m : 0 <= off -> off + 4 <= n ->
  rd32 off (mem_of (rd_bytes 0 n m)) = rd32 off m.
Proof. intros ??. apply rd32_agree. intros i ?. apply rd8_mem_of. lia. Qed.

Lemma rd32s_mem_of off n m : 0 <= off -> off + 4 <= n ->
  rd32s off (mem_of (rd_bytes 0 n m)) = rd32s off m.
Proof. intros ??. unfold rd32s. by rewrite rd32_mem_of. Qed.

Lemma rd_bytes_mem_of off k n m : 0 <= off -> off + k <= n ->
  rd_bytes off k (mem_of (rd_bytes 0 n m)) = rd_bytes off k m.
Proof. intros ??. apply rd_bytes_agree. intros i ?. apply rd8_mem_of. lia. Qed.

Lemma rd_bytes_stored off l m : Forall is_byte l -> rd_bytes off (len l) (wr_bytes off l m) = l.
Proof. apply rd_bytes_wr_bytes. Qed.

Lemma len_nonneg l : 0 <= len l.
Proof. unfold len. lia. Qed.

Lemma fhandle_eta h : FHandle (no_mntid h) (no_flags h) (na_ipaddr h) (na_aruid h)
  (no_sbxid h) (fs_sbxid h) (fs_sfuid h) (no_blank2 h) = h.
Proof. by destruct h. Qed.

(** A byte that a store covers does not depend on what was there. *)
Lemma agree_wr32 off v m m' i :
  (i < off \/ off + 4 <= i -> rd8 m i = rd8 m' i) ->
  rd8 (wr32 off v m) i = rd8 (wr32 off v m') i.
Proof.
  intros H. unfold rd8, wr32. destruct (in_range off 4 i) eqn:E; [done|].
  by apply H, in_range_false.
Qed.

Lemma agree_wr_bytes off l m m' i :
  (i < off \/ off + len l <= i -> rd8 m i = rd8 m' i) ->
  rd8 (wr_bytes off l m) i = rd8 (wr_bytes off l m') i.
Proof.
  intros H. unfold rd8, wr_bytes. destruct (in_range off _ i) eqn:E; [done|].
  by apply H, in_range_false.
Qed.

(** ** Automation *)

(** The stores of a request, with every offset computed. *)
Ltac rq_unfold :=
  unfold build, create_request, lookup_request, unlink_request, symlink_request,
    mkdir_request, rmdir_request, rename_request, readdir_request, setattr_request,
    getattr_request, statfs_request, read_super_request, readlink_request, write_request,
    read_request, set_time, get_time, get_chars; cbv zeta; layout;
  repeat match goal with
  | |- context [Zpos ?a + Zpos ?b] =>
      let v := eval vm_compute in (Zpos a + Zpos b) in change (Zpos a + Zpos b) with v
  | |- context [Zpos ?a + 0] => change (Zpos a + 0) with (Zpos a)
  end.

(** Lengths in the form [lia] reads. *)
Ltac rq_lia :=
  unfold len, UVFS_MAX_NAMELEN, UVFS_MAX_PATHLEN, PAGE_CACHE_SIZE in *; lia.

(** Side conditions: most of them are comparisons of numerals. *)
Ltac rq_side :=
  first [ apply Z.leb_le; reflexivity | left; apply Z.leb_le; reflexivity
        | right; apply Z.leb_le; reflexivity | rq_lia ].

(** Read through the stores. *)
Ltac rq_read :=
  unfold rd32s;
  repeat first
  [ rewrite rd32_wr32
  | rewrite rd32_wr32_ne by rq_side
  | rewrite rd32_wr_bytes_ne by rq_side
  | rewrite rd_bytes_stored by done
  | rewrite rd_bytes_wr32_ne by rq_side
  | rewrite rd_bytes_wr_bytes_ne by rq_side ].

(** The value of one read of the block [m], a local definition. *)
Ltac rq_value m x :=
  let v := fresh in let E := fresh in
  evar (v : Z); assert (x = v) as E;
  [ unfold m, v; rq_read; reflexivity | rewrite E; unfold v; clear E v ].

Ltac rq_chars m x l :=
  let E := fresh in assert (x = l) as E; [unfold m; rq_read; reflexivity|rewrite E; clear E].

Ltac rq_fields m :=
  rewrite ?rd32s_mem_of, ?rd32_mem_of by rq_side; unfold rd32s;
  repeat match goal with |- context [rd32 ?k m] => rq_value m constr:(rd32 k m) end.

Lemma int_pos z : 0 <= z < 2 ^ 31 -> s32 z = z.
Proof. intros ?. apply s32_small. unfold int_range. lia. Qed.

(** The header of a request. *)
Lemma build_header r serial u :
  request_fits r -> int_range serial ->
  let size := get_int uvfs_generic_req_s "size" (build r serial u) in
  1 <= get_int uvfs_generic_req_s "type" (build r serial u) < UVFS_SHUTDOWN /\
  get_int uvfs_generic_req_s "serial" (build r serial u) = serial /\
  sizeof uvfs_generic_req_s <= size <= sizeof uvfs_request_u /\
  (match r with
   | RqCreate _ _ _ _ name => size = offsetof uvfs_create_req_s "name" + len name
   | RqLookup _ _ _ name => size = offsetof uvfs_lookup_req_s "name" + len name
   | RqUnlink _ _ _ name => size = offsetof uvfs_unlink_req_s "name" + len name
   | RqSymlink _ _ _ _ _ => size = sizeof uvfs_symlink_req_s
   | RqMkdir _ _ _ _ name => size = offsetof uvfs_mkdir_req_s "name" + len name
   | RqRmdir _ _ _ name => size = offsetof uvfs_rmdir_req_s "name" + len name
   | RqRename _ _ _ _ _ _ => size = sizeof uvfs_rename_req_s
   | RqReaddir _ _ _ _ => size = sizeof uvfs_readdir_req_s
   | RqSetattr _ _ _ _ => size = sizeof uvfs_setattr_req_s
   | RqGetattr _ _ _ => size = sizeof uvfs_getattr_req_s
   | RqStatfs _ => size = sizeof uvfs_statfs_req_s
   | RqReadSuper _ _ arg => size = offsetof uvfs_read_super_req_s "buff" + len arg
   | RqReadlink _ _ _ => size = sizeof uvfs_readlink_req_s
   | RqWrite _ _ _ _ data => size = offsetof uvfs_file_write_req_s "buff" + len data
   | RqRead _ _ _ _ => size = sizeof uvfs_file_read_req_s
   end).
Proof.
  intros Hf Hs size. subst size. destruct r; cbn [request_fits] in Hf; rq_unfold; rq_read;
    rewrite !s32_u32, !(s32_small serial), !int_pos by first [done|rq_lia];
    (split; [vm_compute; split; [discriminate|done]|]);
    (split; [done|]); (split; [rq_lia|done]).
Qed.

Lemma build_ok r serial u :
  request_fits r -> int_range serial -> request_ok serial (build r serial u).
Proof.
  intros Hf Hs. destruct (build_header r serial u Hf Hs) as (H1 & H2 & H3 & _). exact (conj H1 (conj H2 H3)).
Qed.

(** Integers that are stored and read at their own width. *)
Lemma uint_len l max : len l <= max -> max < 2 ^ 32 -> u32 (len l) = len l.
Proof. intros ??. apply u32_small. unfold uint_range. pose proof (len_nonneg l). lia. Qed.

(** Choose the case of the parser. *)
Ltac rq_case :=
  match goal with |- context [parse_as ?T _] =>
    let v := eval vm_compute in T in change T with v
  end;
  cbv [parse_as Z.eqb Pos.eqb UVFS_CREATE UVFS_LOOKUP UVFS_UNLINK UVFS_SYMLINK UVFS_MKDIR
    UVFS_RMDIR UVFS_RENAME UVFS_READDIR UVFS_SETATTR UVFS_GETATTR UVFS_STATFS UVFS_READ_SUPER
    UVFS_READLINK UVFS_WRITE UVFS_READ mbind option_bind].

(** The fields of a request, read back. *)
Ltac rq_values :=
  repeat match goal with
  | H : _ /\ _ |- _ => destruct H
  | H : fhandle_wf _ |- _ => unfold fhandle_wf in H
  | H : iattr_wf _ |- _ => unfold iattr_wf, time_ok in H
  end;
  repeat match goal with
  | |- context [s32 (u32 ?x)] => rewrite (s32_u32 x)
  | |- context [u32 (len ?l)] =>
      rewrite (u32_small (len l)) by (pose proof (len_nonneg l); unfold uint_range; rq_lia)
  | H : uint_range ?x |- context [u32 ?x] => rewrite (u32_small x H)
  | H : int_range ?x |- context [s32 ?x] => rewrite (s32_small x H)
  end;
  rewrite ?fhandle_eta.

(** Parse a request that was just built. *)
Ltac rq_parse :=
  unfold parse_request; rq_unfold;
  match goal with |- context [rd_bytes 0 _ ?x] =>
    let m := fresh "m" in set (m := x);
    rq_fields m; rq_case; rq_unfold; rq_fields m; rq_values;
    rewrite ?rd_bytes_mem_of by rq_side;
    repeat match goal with
    | |- context [rd_bytes ?o (len ?l) m] => rq_chars m constr:(rd_bytes o (len l) m) l
    end
  end.

(** ** Theorems *)

(** Every request the file system builds satisfies what the driver relies on:
    its type is one of the protocol's, it carries the serial number of its
    transaction, and its size is between that of a header and that of the request
    union, whatever the transaction held before. *)
Theorem requests_acceptable r serial u :
  request_fits r -> int_range serial -> request_ok serial (build r serial u).
Proof. apply build_ok. Qed.

Lemma requests_acceptable_witness :
  request_ok 7 (build (RqLookup 1 2 (FHandle 1 2 3 4 5 6 7 8) [97; 98]) 7 (fun _ => 0)).
Proof. apply requests_acceptable; [vm_compute; discriminate|unfold int_range; lia]. Defined.

(** C11: the server can read a request back: from the bytes the device hands out,
    and nothing else, it recovers the serial number and every argument, names and
    data included. *)
Theorem request_roundtrip r serial u :
  request_wf r -> int_range serial ->
  parse_request (mem_of (delivered (build r serial u))) = Some (serial, r).
Proof.
  intros [Hf Hw] Hs. unfold delivered.
  destruct (build_header r serial u Hf Hs) as (_ & _ & _ & Hz).
  destruct r; cbn [request_fits] in Hf; unfold ids_ok in Hw; cbv beta iota in Hz; rewrite Hz.
  all: rq_parse; try reflexivity.
  by destruct a as [? ? ? ? ? [] [] []].
Qed.

Lemma request_roundtrip_witness :
  parse_request (mem_of (delivered
    (build (RqRename 1 2 (FHandle 1 2 3 4 5 6 7 8) [97; 98] (FHandle 8 7 6 5 4 3 2 1) [99])
       (-5) (fun i => i)))) =
  Some (-5, RqRename 1 2 (FHandle 1 2 3 4 5 6 7 8) [97; 98] (FHandle 8 7 6 5 4 3 2 1) [99]).
Proof.
  apply request_roundtrip; [|unfold int_range; lia].
  unfold request_wf, ids_ok, fhandle_wf, uint_range. cbn. unfold len. cbn.
  split; [unfold UVFS_MAX_NAMELEN; lia|]. split_and!; try lia;
    repeat constructor; unfold is_byte; lia.
Defined.

(** C36: no kernel memory leaks to the server through the requests whose size is that
    of what was stored: the bytes handed out do not depend on what the transaction
    held when it was allocated. *)
Theorem requests_leak_nothing r serial u u' :
  request_fits r -> int_range serial -> padded r = false ->
  delivered (build r serial u) = delivered (build r serial u').
Proof.
  intros Hf Hs Hp. unfold delivered.
  destruct (build_header r serial u Hf Hs) as (_ & _ & _ & Hz).
  destruct (build_header r serial u' Hf Hs) as (_ & _ & _ & Hz').
  destruct r; try discriminate Hp; cbv beta iota in Hz, Hz'; rewrite Hz, Hz'; clear Hz Hz';
    apply rd_bytes_agree; intros i Hi; revert Hi; rq_unfold; intros Hi.
  all: repeat first [apply agree_wr32; intros ?|apply agree_wr_bytes; intros ?].
  all: exfalso; rq_lia.
Qed.

Lemma requests_leak_nothing_witness :
  delivered (build (RqGetattr 1 2 (FHandle 1 2 3 4 5 6 7 8)) 7 (fun _ => 0)) =
  delivered (build (RqGetattr 1 2 (FHandle 1 2 3 4 5 6 7 8)) 7 (fun i => i)).
Proof. apply requests_leak_nothing; [done|unfold int_range; lia|done]. Defined.

(** The length of the first name of a request. *)
Definition first_name (r : request) : list Z :=
  match r with RqSymlink _ _ _ name _ | RqRename _ _ _ name _ _ => name | _ => [] end.

(** SYMLINK and RENAME requests are sent at the size of their structure, so that
    the server is handed bytes that the transaction held before: unless the first
    name fills its array, two different blocks of kernel memory give two different
    requests. *)
Theorem padded_requests_leak r serial :
  request_fits r -> int_range serial -> padded r = true ->
  len (first_name r) < UVFS_MAX_NAMELEN ->
  delivered (build r serial (fun _ => 0)) <> delivered (build r serial (fun _ => 1)).
Proof.
  intros Hf Hs Hp Hn. unfold delivered.
  destruct (build_header r serial (fun _ => 0) Hf Hs) as (_ & _ & _ & Hz).
  destruct (build_header r serial (fun _ => 1) Hf Hs) as (_ & _ & _ & Hz').
  destruct r; try discriminate Hp; cbv beta iota in Hz, Hz'; rewrite Hz, Hz'; clear Hz Hz';
    rewrite rd_bytes_agree; cbn [first_name request_fits] in Hn, Hf; intros H.
  1: specialize (H (52 + len name)); pose proof (len_nonneg name).
  2: specialize (H (52 + len old_name)); pose proof (len_nonneg old_name).
  all: revert H; rq_unfold; intros H; specialize (H ltac:(rq_lia)).
  all: repeat first [rewrite !rd8_wr32_out in H by rq_lia|rewrite !rd8_wr_bytes_out in H by rq_lia].
  all: discriminate H.
Qed.

Lemma padded_requests_leak_witness :
  let r := RqSymlink 1 2 (FHandle 1 2 3 4 5 6 7 8) [97] [98; 99] in
  delivered (build r 7 (fun _ => 0)) <> delivered (build r 7 (fun _ => 1)).
Proof.
  apply padded_requests_leak; [vm_compute; split; discriminate|unfold int_range; lia|done|done].
Defined.

(** The bytes of the members of a structure, without any padding. *)
Fixpoint packed (t : ctype) : Z :=
  match t with
  | CInt | CUnsigned => 4
  | CChars n => n
  | CStruct ms =>
      (fix go (l : list (string * ctype)) : Z :=
         match l with [] => 0 | (_, t') :: l' => packed t' + go l' end) ms
  | CUnion _ => sizeof t
  end.

(** Requests and replies can be told apart and matched by their headers alone:
    in every member of the two unions the type, the serial number and the size are
    at the same offsets, in every reply the error follows them, no structure has
    padding whose bytes would be sent, and replies fit the space of requests. *)
Theorem protocol_layout :
  Forall (fun m => let t := snd m in
    offsetof t "type" = 0 /\ offsetof t "serial" = 4 /\ offsetof t "size" = 8 /\
    sizeof t = packed t /\ sizeof t <= sizeof uvfs_request_u) (members uvfs_request_u) /\
  Forall (fun m => let t := snd m in
    offsetof t "type" = 0 /\ offsetof t "serial" = 4 /\ offsetof t "size" = 8 /\
    offsetof t "error" = 12 /\ sizeof t = packed t /\ sizeof t <= sizeof uvfs_reply_u)
    (members uvfs_reply_u) /\
  sizeof uvfs_reply_u <= sizeof transaction_u /\ sizeof transaction_u = sizeof uvfs_request_u /\
  sizeof uvfs_fhandle_s = 32 /\ sizeof uvfs_attr_s = 56.
Proof.
  split_and!; [| |vm_compute; discriminate|reflexivity..];
    cbn [members uvfs_request_u uvfs_reply_u];
    repeat (apply Forall_cons; split; [vm_compute; intuition discriminate|]);
    apply Forall_nil_2.
Qed.
