(* ===== verification/Conduit.v ===== *)
(** * What the driver promises to the file system

    The file system sees of the driver only transactions: it allocates one, builds
    a request in its union, makes the request, reads the reply in the same union
    and frees the transaction.  [Conduit] is that interface and [ConduitLaws] its
    contract, stated over two observations of a conduit: the transactions that
    are live, and the exchanges made so far.  ConduitDriver.v implements it with
    the definitions of Driver.v. *)

From stdpp Require Import prelude gmap list strings.
From Stdlib Require Import ZArith Lia.
From S2P Require Import Prelude Protocol Driver DriverSteps.

Open Scope string_scope.
Open Scope list_scope.
Open Scope Z_scope.

(** An exchange: the union as it was when the request was made, and as it was when
    the request was over. *)
Abbreviation exchange := (mem * mem)%type (only parsing).

Class Conduit (C : Type) := {
  new_trans : M C (option ptr);
  trans_serial : ptr -> M C Z;
  load_u : ptr -> M C mem;
  store_u : ptr -> (mem -> mem) -> M C unit;
  make_request : ptr -> M C unit;
  free_trans : ptr -> M C unit;
  live : C -> gmap ptr (Z * mem);
  exchanges : C -> list exchange }.

(** Access faults unless the transaction is live; an allocation fails or yields a
    fresh transaction holding arbitrary bytes; a request that is well formed is
    answered by overwriting the union in an arbitrary way. *)
Class ConduitLaws (C : Type) `{Conduit C} := {
  new_law c :
    wp new_trans (fun o c' =>
      exchanges c' = exchanges c /\
      match o with
      | None => live c' = live c
      | Some p => live c !! p = None /\
                  exists n u, int_range n /\ live c' = <[p := (n, u)]> (live c)
      end) c;
  serial_law c p n u : live c !! p = Some (n, u) -> trans_serial p c = Some (n, c);
  load_law c p n u : live c !! p = Some (n, u) -> load_u p c = Some (u, c);
  store_law c p n u f : live c !! p = Some (n, u) ->
    wp (store_u p f) (fun _ c' =>
      exchanges c' = exchanges c /\ live c' = <[p := (n, f u)]> (live c)) c;
  request_law c p n u : live c !! p = Some (n, u) -> request_ok n u ->
    wp (make_request p) (fun _ c' => exists u',
      exchanges c' = exchanges c ++ [(u, u')] /\
      live c' = <[p := (n, u')]> (live c)) c;
  free_law c p n u : live c !! p = Some (n, u) ->
    wp (free_trans p) (fun _ c' =>
      exchanges c' = exchanges c /\ live c' = delete p (live c)) c }.
