(* ===== verification/ConduitDriver.v ===== *)
(** * The driver implements the conduit (driver.c)

    One task makes a request, and one server reads it from the device, computes a
    reply and writes it back, each by the functions of Driver.v; nothing else runs.
    In this setting [uvfs_make_request] is a function of the request and of the
    server, and the driver satisfies the contract the file system relies on. *)

From stdpp Require Import prelude gmap list strings.
From Stdlib Require Import ZArith Lia.
From S2P Require Import Prelude Protocol Driver DriverSteps DriverInv DriverSafe Requests.
From S2P Require Import RequestProps Conduit.

Open Scope string_scope.
Open Scope list_scope.
Open Scope Z_scope.

(** ** One request, one server *)

(** A server answers the bytes it is given with the size and the bytes of a reply,
    or not at all. *)
Abbreviation server := (list Z -> option (Z * mem)) (only parsing).

(** The write of a reply; the server checks that it fits the reply union. *)
Definition write_reply (count : Z) (buff : mem) : M driver unit :=
  match uvfsd_write_check count buff 0 with
  | inl _ => mret tt
  | inr (serial, size) =>
      if size <=? sizeof uvfs_reply_u then
        o ← uvfsd_write_take serial;
        match o with
        | Some p => uvfsd_write_copy p buff size 0;; uvfsd_write_done p
        | None => mret tt
        end
      else mret tt
  end.

Definition serve_one (serve : server) (s : task) : M driver unit :=
  r ← uvfsd_read_pass s;
  match r with
  | PassTake p =>
      bytes ← uvfsd_read_copy p;
      uvfsd_read_done p;;
      _ ← uvfsd_read_return p 0;
      match serve bytes with
      | Some (count, buff) => write_reply count buff
      | None => mret tt
      end
  | _ => mret tt
  end.

(** [uvfs_make_request]: a client whose request is not answered is killed. *)
Definition uvfs_make_request (serve : server) (s : task) (p : ptr) : M driver unit :=
  b ← make_request_submit p;
  if b : bool then
    serve_one serve s;;
    t ← get_trans p;
    let sig := negb (t_answered t) in
    _ ← make_request_wait p sig;
    _ ← make_request_check p sig;
    mret tt
  else mret tt.

(** ** Specification *)

(** A reply the driver accepts for the transaction with the given number. *)
Definition acceptable (serial count : Z) (buff : mem) : bool :=
  match uvfsd_write_check count buff 0 with
  | inl _ => false
  | inr (n, size) => (n =? serial) && (size <=? sizeof uvfs_reply_u)
  end.

(** The union of the transaction when [uvfs_make_request] returns. *)
Definition answer (opens : Z) (serve : server) (serial : Z) (u : mem) : mem :=
  if opens =? 0 then set_error (- EIO) u
  else match serve (delivered u) with
       | Some (count, buff) =>
           if acceptable serial count buff
           then wr_bytes 0 (rd_bytes 0 (get_int uvfs_generic_rep_s "size" buff) buff) u
           else set_error (- ERESTARTSYS) u
       | None => set_error (- ERESTARTSYS) u
       end.

(** ** Lemmas *)

(** The driver when nothing but the given replies is queued. *)
Abbreviation quiet_driver n sn rp h := (Driver n false sn [] rp [] h).

Lemma write_reply_spec n sn h p t count buff :
  h !! p = Some t -> 0 <= count < 2 ^ 63 ->
  write_reply count buff (quiet_driver n sn [p] h) =
  Some (tt, if acceptable (t_serial t) count buff
            then quiet_driver n sn [] (<[p := with_asleep false (with_answered true (with_in_use false
                   (with_u (wr_bytes 0 (rd_bytes 0 (get_int uvfs_generic_rep_s "size" buff) buff))
                      (with_in_use true t))))]> h)
            else quiet_driver n sn [p] h).
Proof.
  intros Hp Hc. unfold write_reply, acceptable.
  destruct (uvfsd_write_check count buff 0) as [|[k size]] eqn:E; [done|].
  apply write_check_size in E as (-> & Hmin & _); [|done].
  set (size := get_int _ _ buff) in *.
  destruct (Z.leb_spec size (sizeof uvfs_reply_u)) as [Hs|]; [|by rewrite andb_false_r].
  rewrite andb_true_r. destruct (Z.eqb_spec k (t_serial t)) as [->|Hne].
  - rewrite (bind_eq _ _ _ _ _ (write_take_some (quiet_driver n sn [p] h) (t_serial t) [] p [] t
      eq_refl ltac:(by intros q ?%not_elem_of_nil) Hp eq_refl)).
    cbn [heap set_heap set_lists Uvfs_requests Uvfs_replies].
    rewrite remove_ptr_cons. cbn [remove_ptr filter list_filter].
    unfold uvfsd_write_copy. exec.
    rewrite (proj2 (Z.leb_le _ _)), (proj2 (Z.leb_le _ _)); cbn [andb].
    + exec. rewrite (write_done_spec _ p
        (with_u (wr_bytes 0 (rd_bytes 0 size buff)) (with_in_use true t))).
      * cbn. by rewrite insert_insert_eq.
      * cbn. rewrite Z.sub_0_r. change (Z.to_nat 0) with 0%nat. cbn [replicate].
        by rewrite app_nil_r, lookup_insert_eq.
    + etrans; [exact Hs|]. by vm_compute.
    + etrans; [|exact Hmin]. by vm_compute.
  - rewrite (bind_eq _ _ _ _ _ (write_take_none (quiet_driver n sn [p] h) k
      ltac:(intros q ->%list_elem_of_singleton; exists t; split; [exact Hp|congruence]))).
    done.
Qed.

Section alone.
Variables (n sn : Z) (h : gmap ptr transaction) (p : ptr) (t : transaction).
Hypothesis Hp : h !! p = Some t.
Hypothesis Hnew : t_answered t = false.

(** The server's turn. *)
Lemma serve_one_spec serve s :
  (forall bytes count buff, serve bytes = Some (count, buff) -> 0 <= count < 2 ^ 63) ->
  request_ok (t_serial t) (t_u t) ->
  exists rp t', serve_one serve s (Driver n false sn [p] [] [] h) =
    Some (tt, quiet_driver n sn rp (<[p := t']> h)) /\
    t_serial t' = t_serial t /\ t_in_use t' = false /\
    match serve (delivered (t_u t)) with
    | Some (count, buff) =>
        if acceptable (t_serial t) count buff
        then rp = [] /\ t_answered t' = true /\
             t_u t' = wr_bytes 0 (rd_bytes 0 (get_int uvfs_generic_rep_s "size" buff) buff) (t_u t)
        else rp = [p] /\ t_answered t' = false /\ t_u t' = t_u t
    | None => rp = [p] /\ t_answered t' = false /\ t_u t' = t_u t
    end.
Proof.
  intros Hserve Hok. unfold serve_one.
  rewrite (bind_eq _ _ _ _ _ (read_pass_take (Driver n false sn [p] [] [] h) s p [] t
    eq_refl eq_refl Hp)).
  cbn [Uvfs_driver_queue wake_first Uvfs_replies uvfs_use_count Serial_number remove_ptr filter
    list_filter app].
  set (t1 := with_in_use true t).
  rewrite (bind_eq _ _ _ _ _ (read_copy_spec_at (quiet_driver n sn [p] (<[p:=t1]> h)) p t1
    (lookup_insert_eq h p t1) Hok)).
  rewrite (bind_eq _ _ _ _ _ (read_done_spec (quiet_driver n sn [p] (<[p:=t1]> h)) p t1
    (lookup_insert_eq h p t1))).
  cbn [heap]. rewrite insert_insert_eq. set (t2 := with_asleep _ _).
  unfold uvfsd_read_return at 1. cbn [truthy Z.eqb negb].
  assert (get_trans p (quiet_driver n sn [p] (<[p:=t2]> h)) =
          Some (t2, quiet_driver n sn [p] (<[p:=t2]> h))) as Eg
    by (apply get_trans_live, lookup_insert_eq).
  unfold set_heap.
  cbn [uvfs_use_count ShuttingDown Serial_number Uvfs_requests Uvfs_replies Uvfs_driver_queue].
  rewrite (bind_eq _ _ _ (get_int uvfs_generic_req_s "size" (t_u t2)) _
    (bind_eq _ _ _ _ _ Eg)).
  change (t_u t1) with (t_u t). fold (delivered (t_u t)).
  destruct (serve (delivered (t_u t))) as [[count buff]|] eqn:Es.
  - rewrite (write_reply_spec n sn (<[p:=t2]> h) p t2 count buff (lookup_insert_eq _ _ _))
      by (by eapply Hserve).
    change (t_serial t2) with (t_serial t).
    destruct (acceptable (t_serial t) count buff).
    + eexists _, _. split; [by rewrite insert_insert_eq|]. done.
    + by exists [p], t2.
  - by exists [p], t2.
Qed.

(** What [uvfs_make_request] does. *)
Lemma make_request_spec serve s :
  (forall bytes count buff, serve bytes = Some (count, buff) -> 0 <= count < 2 ^ 63) ->
  request_ok (t_serial t) (t_u t) ->
  exists t', uvfs_make_request serve s p (quiet_driver n sn [] h) =
    Some (tt, quiet_driver n sn [] (<[p := t']> h)) /\
    t_serial t' = t_serial t /\ t_u t' = answer n serve (t_serial t) (t_u t).
Proof.
  intros Hserve Hok. unfold uvfs_make_request, answer.
  destruct (Z.eqb_spec n 0) as [->|Hn].
  { rewrite (bind_eq _ _ _ _ _ (submit_down (Driver 0 false sn [] [] [] h) p t eq_refl Hp)).
    by eexists. }
  rewrite (bind_eq _ _ _ _ _ (submit_up (quiet_driver n sn [] h) p t Hn Hp)).
  destruct (serve_one_spec serve s Hserve Hok) as (rp & t1 & E1 & Es1 & Eu1 & Hc).
  unfold set_queue, set_lists. cbn [uvfs_use_count ShuttingDown Serial_number Uvfs_requests
    Uvfs_replies Uvfs_driver_queue heap wake_first app].
  rewrite (bind_eq _ _ _ _ _ E1).
  assert (heap (quiet_driver n sn rp (<[p:=t1]> h)) !! p = Some t1) as Ht1 by apply lookup_insert_eq.
  rewrite (get_trans_bind p _ t1) by done.
  rewrite (bind_eq _ _ _ _ _ (wait_spec _ p t1 (negb (t_answered t1)) Ht1)).
  rewrite orb_negb_r. cbn [negb heap]. unfold set_heap.
  cbn [uvfs_use_count ShuttingDown Serial_number Uvfs_requests
    Uvfs_replies Uvfs_driver_queue heap]. rewrite insert_insert_eq.
  set (t2 := with_asleep false t1).
  assert (heap (quiet_driver n sn rp (<[p:=t2]> h)) !! p = Some t2) as Ht2 by apply lookup_insert_eq.
  assert (forall b : bool, t_answered t1 = b -> (b = true -> rp = []) ->
    (b = false -> rp = [p]) ->
    exists t', (_ ← make_request_check p (negb (t_answered t1)); mret tt)
                 (quiet_driver n sn rp (<[p:=t2]> h)) =
               Some (tt, quiet_driver n sn [] (<[p:=t']> h)) /\ t_serial t' = t_serial t /\
               t_u t' = if b then t_u t1 else set_error (- ERESTARTSYS) (t_u t1)) as Hfin.
  { intros b Hb H1 H2. rewrite Hb. destruct b; cbn [negb].
    - rewrite (bind_eq _ _ _ _ _ (check_no_signal _ p)), (H1 eq_refl).
      exists t2. split; [done|]. by split.
    - rewrite (bind_eq _ _ _ _ _ (check_idle _ p t2 Ht2 Eu1)), (H2 eq_refl).
      cbn [Uvfs_requests Uvfs_replies heap]. rewrite remove_ptr_cons.
      exists (with_u (set_error (- ERESTARTSYS)) t2). split; [|by split].
      unfold set_heap, set_lists. cbn. by rewrite insert_insert_eq. }
  destruct (serve (delivered (t_u t))) as [[count buff]|].
  - destruct (acceptable (t_serial t) count buff); destruct Hc as (-> & Ha & <-).
    + by apply (Hfin true).
    + by apply (Hfin false).
  - destruct Hc as (-> & Ha & <-). by apply (Hfin false).
Qed.
End alone.

(** ** The instance *)

(** A driver between calls: how often the device is open, the serial counter, the
    transactions this task holds, what the next blocks from the allocator contain
    (it fails when there is none), and the exchanges made so far. *)
Record alone := Alone {
  al_opens : Z; al_serial : Z; al_heap : gmap ptr (Z * mem);
  al_blocks : list mem; al_exchanges : list exchange }.

Definition transaction_of (x : Z * mem) : transaction :=
  Transaction x.2 x.1 false false false false.
Definition content_of (t : transaction) : Z * mem := (t_serial t, t_u t).

Definition driver_of (a : alone) : driver :=
  Driver (al_opens a) false (s32 (al_serial a)) [] [] [] (transaction_of <$> al_heap a).

Definition with_driver {A} (m : M driver A) : M alone A := fun a =>
  match m (driver_of a) with
  | Some (r, d) => Some (r, Alone (uvfs_use_count d) (Serial_number d) (content_of <$> heap d)
                              (al_blocks a) (al_exchanges a))
  | None => None
  end.

(** A computation that only looks. *)
Definition read_driver {A} (m : M driver A) : M alone A := fun a =>
  match m (driver_of a) with Some (r, _) => Some (r, a) | None => None end.

Section instance.
(** The server may depend on the exchanges it has taken part in. *)
Variable serve : list exchange -> server.
Hypothesis serve_count : forall past bytes count buff,
  serve past bytes = Some (count, buff) -> 0 <= count < 2 ^ 63.

Definition al_new : M alone (option ptr) := fun a =>
  match al_blocks a with
  | [] => with_driver (uvfs_new_transaction None) a
  | u :: rest =>
      with_driver (uvfs_new_transaction (Some (fresh (dom (al_heap a)), u)))
        (Alone (al_opens a) (al_serial a) (al_heap a) rest (al_exchanges a))
  end.
Definition al_request (p : ptr) : M alone unit := fun a =>
  match al_heap a !! p with
  | None => None
  | Some (_, u) =>
      match with_driver (uvfs_make_request (serve (al_exchanges a)) 0 p) a with
      | None => None
      | Some (r, a') =>
          match al_heap a' !! p with
          | None => None
          | Some (_, u') => Some (r, Alone (al_opens a') (al_serial a') (al_heap a')
                                       (al_blocks a') (al_exchanges a ++ [(u, u')]))
          end
      end
  end.

Definition driver_conduit : Conduit alone := {|
  new_trans := al_new;
  trans_serial p := read_driver (t ← get_trans p; mret (t_serial t));
  load_u p := read_driver (t ← get_trans p; mret (t_u t));
  store_u p f := with_driver (upd_trans p (with_u f));
  make_request := al_request;
  free_trans p := with_driver (kfree p);
  live := al_heap;
  exchanges := al_exchanges |}.

Lemma content_transactions (m : gmap ptr (Z * mem)) : content_of <$> (transaction_of <$> m) = m.
Proof.
  apply map_eq. intros p. rewrite !lookup_fmap. by destruct (m !! p) as [[]|].
Qed.

Lemma lookup_driver_of a p n u :
  al_heap a !! p = Some (n, u) -> heap (driver_of a) !! p = Some (transaction_of (n, u)).
Proof. intros H. cbn. by rewrite lookup_fmap, H. Qed.

Lemma al_request_answer a p n u :
  al_heap a !! p = Some (n, u) -> request_ok n u ->
  exists a', al_request p a = Some (tt, a') /\
    let u' := answer (al_opens a) (serve (al_exchanges a)) n u in
    al_heap a' = <[p := (n, u')]> (al_heap a) /\
    al_exchanges a' = al_exchanges a ++ [(u, u')].
Proof.
  intros Hp Hok. unfold al_request. rewrite Hp. unfold with_driver, driver_of.
  destruct (make_request_spec (al_opens a) (s32 (al_serial a)) (transaction_of <$> al_heap a)
    p (transaction_of (n, u)) (lookup_driver_of a p n u Hp) eq_refl
    (serve (al_exchanges a)) 0%nat (serve_count (al_exchanges a)) Hok) as (t' & E & Hs & Hu).
  match goal with |- context [uvfs_make_request ?f ?s p ?d] =>
    set (x := uvfs_make_request f s p d); replace x with
      (Some (tt, quiet_driver (al_opens a) (s32 (al_serial a)) []
                   (<[p:=t']> (transaction_of <$> al_heap a)))) by (symmetry; exact E)
  end.
  cbn. rewrite fmap_insert, content_transactions, lookup_insert_eq.
  unfold content_of. rewrite Hs. cbn in *. rewrite Hu. by eexists.
Qed.

(** The driver implements the contract of the conduit. *)
Lemma driver_conduit_laws : @ConduitLaws alone driver_conduit.
Proof.
  split; cbn.
  - intros a. unfold wp, al_new. destruct (al_blocks a) as [|u rest].
    + unfold with_driver. cbn. by rewrite content_transactions.
    + set (p := fresh (dom (al_heap a))).
      assert (al_heap a !! p = None) as Hp by (apply not_elem_of_dom, is_fresh).
      unfold with_driver. rewrite new_transaction_spec.
      * cbn. split; [done|]. split; [done|]. eexists _, u. split; [apply s32_range|].
        rewrite fmap_insert, content_transactions. done.
      * cbn. by rewrite lookup_fmap, Hp.
  - intros a p n u Hp. unfold read_driver.
    by rewrite (get_trans_bind p _ _ _ (lookup_driver_of a p n u Hp)).
  - intros a p n u Hp. unfold read_driver.
    by rewrite (get_trans_bind p _ _ _ (lookup_driver_of a p n u Hp)).
  - intros a p n u f Hp. unfold wp, with_driver, upd_trans.
    rewrite (lookup_driver_of a p n u Hp). cbn. split; [done|].
    by rewrite fmap_insert, content_transactions.
  - intros a p n u Hp Hok. unfold wp.
    destruct (al_request_answer a p n u Hp Hok) as (a' & -> & Hl & He). eexists. by split.
  - intros a p n u Hp. unfold wp, with_driver.
    rewrite (kfree_spec _ p _ (lookup_driver_of a p n u Hp)). cbn. split; [done|].
    by rewrite fmap_delete, content_transactions.
Qed.
End instance.

(** ** Theorems *)

(** A server that answers every request with an error. *)
Definition error_reply (serial type error : Z) : mem :=
  (fun _ => 0) |> set_int uvfs_generic_rep_s "type" type
    |> set_int uvfs_generic_rep_s "serial" serial
    |> set_int uvfs_generic_rep_s "size" (sizeof uvfs_generic_rep_s)
    |> set_int uvfs_generic_rep_s "error" error.

Definition error_server (error : Z) : server := fun bytes =>
  match parse_request (mem_of bytes) with
  | Some (serial, _) => Some (sizeof uvfs_generic_rep_s,
                              error_reply serial (rd32s 0 (mem_of bytes)) error)
  | None => None
  end.

(** C10: with one server and nothing else running, [uvfs_make_request] is the server
    applied to the bytes of the request: it returns with the reply at the start of
    the union and the rest of it untouched; with [-EIO] when no server has the device
    open, and with [-ERESTARTSYS] when the server sends nothing the driver accepts.
    Nothing stays queued, and no other transaction changes. *)
Theorem make_request_answer n sn h p t serve s :
  h !! p = Some t -> t_answered t = false ->
  (forall bytes count buff, serve bytes = Some (count, buff) -> 0 <= count < 2 ^ 63) ->
  request_ok (t_serial t) (t_u t) ->
  exists t', uvfs_make_request serve s p (Driver n false sn [] [] [] h) =
    Some (tt, Driver n false sn [] [] [] (<[p := t']> h)) /\
    t_serial t' = t_serial t /\ t_u t' = answer n serve (t_serial t) (t_u t).
Proof. intros. by apply make_request_spec. Qed.

Lemma make_request_answer_witness :
  exists d t', uvfs_make_request (error_server (- ENOENT)) 1%nat 0%nat d =
    Some (tt, set_heap {[0%nat := t']} d) /\
    get_int uvfs_generic_rep_s "error" (t_u t') = - ENOENT.
Proof.
  set (u := build (RqGetattr 1 2 (FHandle 1 2 3 4 5 6 7 8)) 9 (fun _ => 0)).
  set (t := Transaction u 9 false false false false).
  destruct (make_request_answer 1 10 {[0%nat := t]} 0%nat t (error_server (- ENOENT)) 1%nat)
    as (t' & E & _ & Hu).
  - apply lookup_singleton_eq.
  - done.
  - intros bytes count buff. unfold error_server.
    destruct (parse_request _) as [[]|]; [|done]. intros [= <- _]. by vm_compute.
  - apply build_ok; [done|by vm_compute].
  - exists (Driver 1 false 10 [] [] [] {[0%nat := t]}), t'. split.
    + etrans; [exact E|]. unfold set_heap. cbn. by rewrite insert_singleton_eq.
    + rewrite Hu. by vm_compute.
Defined.
