(* ===== verification/Kernel.v ===== *)
(** * The kernel around the file system

    The objects of the kernel that the file system reads and writes: inodes,
    dentries, pages and super blocks, each in a store indexed by its address, so
    that two arguments may be the same object.  The kernel's own functions, which
    are not part of the program, are the members of the class [VFS]; what the file
    system relies on is their documented behaviour, [VFSLaws]. *)

From stdpp Require Import prelude gmap list strings.
From Stdlib Require Import ZArith Lia.
From S2P Require Import Prelude Protocol Driver Requests Conduit.

Open Scope string_scope.
Open Scope list_scope.
Open Scope Z_scope.

(** ** Objects *)

Abbreviation iptr := nat.
Abbreviation dptr := nat.
Abbreviation pgptr := nat.
Abbreviation sbptr := nat.

(** Operation tables (operations.c), by name. *)
Inductive inode_ops := Uvfs_file_inode_operations | Uvfs_dir_inode_operations
  | Uvfs_symlink_inode_operations | other_inode_operations.
Inductive file_ops := Uvfs_file_file_operations | Uvfs_dir_file_operations
  | other_file_operations.
Inductive aops := Uvfs_file_aops | other_aops.
#[export] Instance inode_ops_eq : EqDecision inode_ops. Proof. solve_decision. Defined.
#[export] Instance file_ops_eq : EqDecision file_ops. Proof. solve_decision. Defined.
#[export] Instance aops_eq : EqDecision aops. Proof. solve_decision. Defined.

(** The attributes of an inode; times are pairs of seconds and nanoseconds. *)
Record iattrs := IAttrs {
  i_mode : Z; i_nlink : Z; i_uid : Z; i_gid : Z; i_size : Z;
  i_atime : Z * Z; i_mtime : Z * Z; i_ctime : Z * Z; i_blocks : Z; i_rdev : Z }.

(** [struct inode] inside its [struct uvfs_inode_info]: [i_fh] and [attr_uid] are
    the latter's members.  [i_hash] is the hash value the inode was cached under,
    [I_NEW] the bit of [i_state]. *)
Record inode := Inode {
  i_fh : fhandle; attr_uid : Z;
  i_sb : sbptr; i_hash : Z; I_NEW : bool;
  i_ino : Z; i_flags : Z; i_attrs : iattrs;
  i_op : inode_ops; i_fop : file_ops; a_ops : aops }.

(** [d_name] holds the characters of the name, [d_uvfs] whether [d_op] points to
    [Uvfs_dentry_operations]. *)
Record dentry := Dentry {
  d_name : list Z; d_inode : option iptr; d_parent : dptr; d_uvfs : bool }.

Record page := Page {
  pg_index : Z; pg_host : iptr; pg_data : mem;
  PageUptodate : bool; PageError : bool; PageLocked : bool }.

Record super := Super {
  s_flags : Z; s_maxbytes : Z; s_blocksize : Z; s_blocksize_bits : Z; s_magic : Z;
  s_uvfs : bool;                (* s_op and s_export_op are set to the module's *)
  s_root : option dptr }.

(** The kernel: the stores, and the rest of its state, which is opaque. *)
Record kernel (K : Type) := Kernel {
  inodes : gmap iptr inode; dentries : gmap dptr dentry;
  pages : gmap pgptr page; supers : gmap sbptr super; rest : K }.
#[global] Arguments Kernel {K}.
#[global] Arguments inodes {K}.
#[global] Arguments dentries {K}.
#[global] Arguments pages {K}.
#[global] Arguments supers {K}.
#[global] Arguments rest {K}.

Record world (C K : Type) := World { conduit : C; kern : kernel K }.
#[global] Arguments World {C K}.
#[global] Arguments conduit {C K}.
#[global] Arguments kern {C K}.

(** The task that makes the call. *)
Record task_cred := Cred {
  current_fsuid : Z; current_fsgid : Z; in_group_p : Z -> bool; capable : Z -> bool }.

(** A pointer that may encode an error (linux/err.h). *)
Inductive ptr_or_err := PtrNull | Ptr (d : dptr) | ERR_PTR (e : Z).

(** ** Constants of the kernel (linux/stat.h, linux/fs.h) *)

Definition S_IFMT : Z := 61440.
Definition S_IFLNK : Z := 40960.
Definition S_IFREG : Z := 32768.
Definition S_IFDIR : Z := 16384.
Definition S_ISGID : Z := 1024.
Definition S_IXUGO : Z := 73.
Definition S_NOATIME : Z := 1.
Definition S_IMMUTABLE : Z := 8.
Definition S_NOCMTIME : Z := 128.
Definition MS_RDONLY : Z := 1.

Definition S_ISLNK (m : Z) : bool := Z.land m S_IFMT =? S_IFLNK.
Definition S_ISREG (m : Z) : bool := Z.land m S_IFMT =? S_IFREG.
Definition S_ISDIR (m : Z) : bool := Z.land m S_IFMT =? S_IFDIR.

(** ** Updates *)

Definition set_attrs (a : iattrs) (i : inode) : inode :=
  Inode (i_fh i) (attr_uid i) (i_sb i) (i_hash i) (I_NEW i) (i_ino i) (i_flags i) a
    (i_op i) (i_fop i) (a_ops i).
Definition set_attr_uid (uid : Z) (i : inode) : inode :=
  Inode (i_fh i) uid (i_sb i) (i_hash i) (I_NEW i) (i_ino i) (i_flags i) (i_attrs i)
    (i_op i) (i_fop i) (a_ops i).
Definition set_i_fh (h : fhandle) (i : inode) : inode :=
  Inode h (attr_uid i) (i_sb i) (i_hash i) (I_NEW i) (i_ino i) (i_flags i) (i_attrs i)
    (i_op i) (i_fop i) (a_ops i).
Definition set_I_NEW (b : bool) (i : inode) : inode :=
  Inode (i_fh i) (attr_uid i) (i_sb i) (i_hash i) b (i_ino i) (i_flags i) (i_attrs i)
    (i_op i) (i_fop i) (a_ops i).
Definition set_i_ino (n : Z) (i : inode) : inode :=
  Inode (i_fh i) (attr_uid i) (i_sb i) (i_hash i) (I_NEW i) n (i_flags i) (i_attrs i)
    (i_op i) (i_fop i) (a_ops i).
Definition or_i_flags (f : Z) (i : inode) : inode :=
  Inode (i_fh i) (attr_uid i) (i_sb i) (i_hash i) (I_NEW i) (i_ino i) (Z.lor (i_flags i) f)
    (i_attrs i) (i_op i) (i_fop i) (a_ops i).
Definition set_ops (op : inode_ops) (fop : file_ops) (ao : aops) (i : inode) : inode :=
  Inode (i_fh i) (attr_uid i) (i_sb i) (i_hash i) (I_NEW i) (i_ino i) (i_flags i) (i_attrs i)
    op fop ao.

Definition set_nlink (n : Z) (i : inode) : inode :=
  let a := i_attrs i in
  set_attrs (IAttrs (i_mode a) n (i_uid a) (i_gid a) (i_size a) (i_atime a) (i_mtime a)
               (i_ctime a) (i_blocks a) (i_rdev a)) i.
Definition set_size (n : Z) (i : inode) : inode :=
  let a := i_attrs i in
  set_attrs (IAttrs (i_mode a) (i_nlink a) (i_uid a) (i_gid a) n (i_atime a) (i_mtime a)
               (i_ctime a) (i_blocks a) (i_rdev a)) i.

(** [inode->i_nlink += n], on an unsigned counter. *)
Definition add_nlink (n : Z) (i : inode) : inode :=
  set_nlink (u32 (i_nlink (i_attrs i) + n)) i.

Definition set_d_inode (o : option iptr) (d : dentry) : dentry :=
  Dentry (d_name d) o (d_parent d) (d_uvfs d).
Definition set_d_op (d : dentry) : dentry :=
  Dentry (d_name d) (d_inode d) (d_parent d) true.

Definition set_inodes {K} (m : gmap iptr inode) (k : kernel K) : kernel K :=
  Kernel m (dentries k) (pages k) (supers k) (rest k).
Definition set_dentries {K} (m : gmap dptr dentry) (k : kernel K) : kernel K :=
  Kernel (inodes k) m (pages k) (supers k) (rest k).
Definition set_pages {K} (m : gmap pgptr page) (k : kernel K) : kernel K :=
  Kernel (inodes k) (dentries k) m (supers k) (rest k).
Definition set_supers {K} (m : gmap sbptr super) (k : kernel K) : kernel K :=
  Kernel (inodes k) (dentries k) (pages k) m (rest k).
Definition set_rest {K} (r : K) (k : kernel K) : kernel K :=
  Kernel (inodes k) (dentries k) (pages k) (supers k) r.

(** ** Computations on the world *)

Section computations.
Context {C K : Type}.

Definition on_conduit {A} (m : M C A) : M (world C K) A :=
  fun w => match m (conduit w) with
           | Some (a, c) => Some (a, World c (kern w))
           | None => None
           end.
Definition on_kernel {A} (f : kernel K -> A * kernel K) : M (world C K) A :=
  fun w => let (a, k) := f (kern w) in Some (a, World (conduit w) k).
Definition on_kern (f : kernel K -> kernel K) : M (world C K) unit :=
  fun w => Some (tt, World (conduit w) (f (kern w))).
Definition on_rest (f : K -> K) : M (world C K) unit :=
  on_kern (fun k => set_rest (f (rest k)) k).

(** Access through a pointer faults unless the object is there. *)
Definition get_inode (p : iptr) : M (world C K) inode :=
  fun w => match inodes (kern w) !! p with Some i => Some (i, w) | None => None end.
Definition get_dentry (p : dptr) : M (world C K) dentry :=
  fun w => match dentries (kern w) !! p with Some d => Some (d, w) | None => None end.
Definition get_page (p : pgptr) : M (world C K) page :=
  fun w => match pages (kern w) !! p with Some g => Some (g, w) | None => None end.
Definition get_super (p : sbptr) : M (world C K) super :=
  fun w => match supers (kern w) !! p with Some s => Some (s, w) | None => None end.

Definition upd_inode (p : iptr) (f : inode -> inode) : M (world C K) unit :=
  i ← get_inode p; on_kern (fun k => set_inodes (<[p := f i]> (inodes k)) k).
Definition upd_dentry (p : dptr) (f : dentry -> dentry) : M (world C K) unit :=
  d ← get_dentry p; on_kern (fun k => set_dentries (<[p := f d]> (dentries k)) k).
Definition upd_page (p : pgptr) (f : page -> page) : M (world C K) unit :=
  g ← get_page p; on_kern (fun k => set_pages (<[p := f g]> (pages k)) k).
Definition upd_super (p : sbptr) (f : super -> super) : M (world C K) unit :=
  s ← get_super p; on_kern (fun k => set_supers (<[p := f s]> (supers k)) k).

(** [dentry->d_inode], dereferenced. *)
Definition d_inode_of (d : dentry) : M (world C K) iptr :=
  match d_inode d with Some p => mret p | None => fault end.
End computations.

(** ** The kernel's functions *)

Class VFS (K : Type) := {
  iget5_locked : sbptr -> Z -> (inode -> bool) -> (inode -> inode) ->
                 kernel K -> option iptr * kernel K;
  ilookup5 : sbptr -> Z -> (inode -> bool) -> kernel K -> option iptr * kernel K;
  unlock_new_inode : iptr -> kernel K -> kernel K;
  init_special_inode : Z -> Z -> inode -> inode;
  invalidate_inode_pages2 : iptr -> K -> K;
  d_drop : dptr -> K -> K;
  d_instantiate : dptr -> iptr -> kernel K -> kernel K;
  d_splice_alias : option iptr -> dptr -> kernel K -> option dptr * kernel K;
  d_obtain_alias : iptr -> kernel K -> ptr_or_err * kernel K;
  d_alloc_root : iptr -> kernel K -> option dptr * kernel K;
  dget : dptr -> K -> K;
  dput : dptr -> K -> K;
  have_submounts : dptr -> K -> bool;
  shrink_dcache_parent : dptr -> K -> K }.

(** Everything but the inodes, and everything but the dentries. *)
Definition same_but_inodes {K} (k k' : kernel K) : Prop :=
  dentries k' = dentries k /\ pages k' = pages k /\ supers k' = supers k.
Definition same_but_dentries {K} (k k' : kernel K) : Prop :=
  inodes k' = inodes k /\ pages k' = pages k /\ supers k' = supers k.

(** [iget5_locked] finds the cached inode of the super block that was cached under
    the hash value and passes the test; if there is none it caches a new inode,
    initialised by [set] and marked new, with no operations of its own, or fails.  [ilookup5] only finds.
    [d_instantiate] and [d_splice_alias] fill a dentry in; the latter may return
    another dentry of the inode instead, as [d_obtain_alias] does. *)
Class VFSLaws (K : Type) `{VFS K} := {
  iget_law sb hash test set k :
    (forall p i, inodes k !! p = Some i -> I_NEW i = false) ->
    let (o, k') := iget5_locked sb hash test set k in
    same_but_inodes k k' /\
    ((exists p i, o = Some p /\ inodes k' = inodes k /\ inodes k !! p = Some i /\
       i_sb i = sb /\ i_hash i = hash /\ test i = true /\ I_NEW i = false) \/
     ((forall q i, inodes k !! q = Some i -> i_sb i = sb -> i_hash i = hash -> test i = false) /\
      (o = None /\ inodes k' = inodes k \/
       exists p i, o = Some p /\ inodes k !! p = None /\ I_NEW i = true /\
         i_sb i = sb /\ i_hash i = hash /\ i_fop i = other_file_operations /\
         a_ops i = other_aops /\ inodes k' = <[p := set i]> (inodes k))));
  ilookup_law sb hash test k :
    let (o, k') := ilookup5 sb hash test k in
    same_but_inodes k k' /\ inodes k' = inodes k /\
    match o with
    | Some p => exists i, inodes k !! p = Some i /\ i_sb i = sb /\ i_hash i = hash /\ test i = true
    | None => forall q i, inodes k !! q = Some i -> i_sb i = sb -> i_hash i = hash -> test i = false
    end;
  unlock_law p i k : inodes k !! p = Some i ->
    same_but_inodes k (unlock_new_inode p k) /\
    inodes (unlock_new_inode p k) = <[p := set_I_NEW false i]> (inodes k);
  special_law m dev i :
    let i' := init_special_inode m dev i in
    i_fh i' = i_fh i /\ attr_uid i' = attr_uid i /\ i_sb i' = i_sb i /\ i_hash i' = i_hash i /\
    I_NEW i' = I_NEW i /\ i_ino i' = i_ino i /\
    i_mode (i_attrs i') = m /\ i_op i' = i_op i /\ a_ops i' = a_ops i;
  instantiate_law e p d k : dentries k !! e = Some d ->
    same_but_dentries k (d_instantiate e p k) /\
    dentries (d_instantiate e p k) = <[e := set_d_inode (Some p) d]> (dentries k);
  splice_law o e d k : dentries k !! e = Some d ->
    let (r, k') := d_splice_alias o e k in
    same_but_dentries k k' /\
    match r with
    | None => dentries k' = <[e := set_d_inode o d]> (dentries k)
    | Some a => o <> None /\ d_inode <$> (dentries k' !! a) = Some o
    end;
  obtain_law p k :
    let (r, k') := d_obtain_alias p k in
    same_but_dentries k k' /\
    match r with
    | Ptr a => d_inode <$> (dentries k' !! a) = Some (Some p)
    | ERR_PTR e => e < 0 /\ dentries k' = dentries k
    | PtrNull => False
    end;
  root_law p k :
    let (r, k') := d_alloc_root p k in
    same_but_dentries k k' /\
    match r with
    | Some a => dentries k !! a = None /\ d_inode <$> (dentries k' !! a) = Some (Some p)
    | None => dentries k' = dentries k
    end }.
