(* ===== verification/Calls.v ===== *)
(** * Calls to the server

    What every operation of the file system does with the driver, and the rules
    by which its computations are verified. *)

From stdpp Require Import prelude gmap list strings.
From Stdlib Require Import ZArith Lia.
From S2P Require Import Prelude Protocol Driver DriverSteps Requests RequestProps Conduit.
From S2P Require Import Kernel.

Open Scope string_scope.
Open Scope list_scope.
Open Scope Z_scope.

Section calls.
Context {C K : Type} `{Conduit C}.

(** Build a request in the transaction, make it, and look at the reply. *)
Definition submit_request (p : ptr) (request : Z -> mem -> mem) : M (world C K) mem :=
  serial ← on_conduit (trans_serial p);
  on_conduit (store_u p (request serial));;
  on_conduit (make_request p);;
  on_conduit (load_u p).

(** Nothing has been asked, and no transaction is left behind. *)
Definition silent (c c' : C) : Prop := exchanges c' = exchanges c /\ live c' = live c.

(** Exactly one request has been made and answered by [u], and no transaction is
    left behind. *)
Definition asked (c c' : C) (r : request) (u : mem) : Prop :=
  live c' = live c /\
  exists serial u0, int_range serial /\
                    exchanges c' = exchanges c ++ [(build r serial u0, u)].

(** The same in the middle of an operation, which still holds the transaction [p]. *)
Definition holding (c c' : C) (p : ptr) (r : request) (u : mem) : Prop :=
  live c !! p = None /\ exists serial u0, int_range serial /\
  live c' = <[p := (serial, u)]> (live c) /\
  exchanges c' = exchanges c ++ [(build r serial u0, u)].
End calls.

(** Every reply of the conduit's server to the request [r] has the property [P]. *)
Definition replies (C : Type) `{Conduit C} (r : request) (P : mem -> Prop) : Prop :=
  forall c p serial u0, int_range serial ->
    live c !! p = Some (serial, build r serial u0) ->
    wp (make_request p) (fun _ c' => forall u, live c' !! p = Some (serial, u) -> P u) c.

#[export] Instance silent_equiv `{Conduit C} : Equivalence silent.
Proof.
  split; [by intros c|intros c c' [E1 E2]; by split|].
  intros c1 c2 c3 [E1 E2] [E3 E4]. split; by etransitivity.
Qed.

(** ** Rules *)

Section rules.
Context {C K : Type} `{ConduitLaws C}.
Implicit Types (w : world C K) (c : C) (k : kernel K).

Lemma wp_on_conduit {A} (m : M C A) Q w :
  wp m (fun a c => Q a (World c (kern w))) (conduit w) -> wp (on_conduit m) Q w.
Proof. unfold wp, on_conduit. by destruct (m (conduit w)) as [[a c]|]. Qed.

Lemma wp_new Q w :
  (forall c, silent (conduit w) c -> Q None (World c (kern w))) ->
  (forall c p serial u, int_range serial -> live (conduit w) !! p = None ->
   live c = <[p := (serial, u)]> (live (conduit w)) ->
   exchanges c = exchanges (conduit w) -> Q (Some p) (World c (kern w))) ->
  wp (on_conduit new_trans) Q w.
Proof.
  intros Hn Hs. apply wp_on_conduit. eapply wp_mono; [apply new_law|].
  intros [p|] c [He Hl]; cbn; [|by apply Hn].
  destruct Hl as (? & n & u & ? & ?). by eapply Hs.
Qed.

(** The rule for a request whose reply has the property [P]. *)
Lemma wp_submit_with P Q c0 c k p serial u0 r :
  replies C r P -> int_range serial -> live c0 !! p = None ->
  live c = <[p := (serial, u0)]> (live c0) -> exchanges c = exchanges c0 ->
  request_fits r ->
  (forall c' u, holding c0 c' p r u -> P u -> Q u (World c' k)) ->
  wp (submit_request p (build r)) Q (World c k).
Proof.
  intros Hrep Hs Hp Hl He Hf HQ. unfold submit_request.
  assert (live c !! p = Some (serial, u0)) as Hc by (rewrite Hl; apply lookup_insert_eq).
  apply wp_bind, wp_on_conduit. eapply wp_intro; [by eapply serial_law|].
  apply wp_bind, wp_on_conduit.
  eapply wp_mono; [by apply (store_law c p serial u0)|]. intros [] c1 [He1 Hl1].
  apply wp_bind, wp_on_conduit. cbn [conduit kern].
  set (u1 := build r serial u0) in *.
  assert (live c1 !! p = Some (serial, u1)) as Hc1 by (rewrite Hl1; apply lookup_insert_eq).
  pose proof (request_law c1 p serial u1 Hc1 (build_ok r serial u0 Hf Hs)) as Hr.
  pose proof (Hrep c1 p serial u0 Hs Hc1) as Hr'.
  apply wp_elim in Hr as ([] & c2 & E & u & He2 & Hl2).
  eapply wp_intro; [exact E|]. unfold wp in Hr'. rewrite E in Hr'.
  assert (live c2 !! p = Some (serial, u)) as Hc2 by (rewrite Hl2; apply lookup_insert_eq).
  apply wp_on_conduit. cbn [conduit kern]. eapply wp_intro; [by eapply load_law|].
  apply HQ; [|by apply Hr']. split; [done|]. exists serial, u0. split; [done|].
  rewrite Hl2, Hl1, Hl, !insert_insert_eq. split; [done|]. by rewrite He2, He1, He.
Qed.

Lemma replies_any r : request_fits r -> replies C r (fun _ => True).
Proof.
  intros Hf c p serial u0 Hs Hp. eapply wp_mono; [by eapply request_law, build_ok|]. done.
Qed.

(** The rule for a request when nothing is known of the server. *)
Lemma wp_submit Q c0 c k p serial u0 r :
  int_range serial -> live c0 !! p = None ->
  live c = <[p := (serial, u0)]> (live c0) -> exchanges c = exchanges c0 ->
  request_fits r ->
  (forall c' u, holding c0 c' p r u -> Q u (World c' k)) ->
  wp (submit_request p (build r)) Q (World c k).
Proof.
  intros Hs Hp Hl He Hf HQ.
  eapply (wp_submit_with (fun _ => True)); [by apply replies_any|done..|]. intros. by apply HQ.
Qed.

Lemma wp_free Q c0 c k p r u :
  holding c0 c p r u -> (forall c', asked c0 c' r u -> Q tt (World c' k)) ->
  wp (on_conduit (free_trans p)) Q (World c k).
Proof.
  intros (Hp & serial & u0 & Hs & Hl & He) HQ. apply wp_on_conduit.
  eapply wp_mono; [apply (free_law c p serial u); rewrite Hl; apply lookup_insert_eq|].
  intros [] c' [He' Hl']. apply HQ. split.
  - by rewrite Hl', Hl, delete_insert_id.
  - exists serial, u0. split; [done|]. by rewrite He', He.
Qed.

Lemma wp_get_inode Q w p i :
  inodes (kern w) !! p = Some i -> Q i w -> wp (get_inode p) Q w.
Proof. unfold wp, get_inode. by intros ->. Qed.

Lemma wp_get_dentry Q w p d :
  dentries (kern w) !! p = Some d -> Q d w -> wp (get_dentry p) Q w.
Proof. unfold wp, get_dentry. by intros ->. Qed.

Lemma wp_get_page Q w p g :
  pages (kern w) !! p = Some g -> Q g w -> wp (get_page p) Q w.
Proof. unfold wp, get_page. by intros ->. Qed.

Lemma wp_get_super Q w p s :
  supers (kern w) !! p = Some s -> Q s w -> wp (get_super p) Q w.
Proof. unfold wp, get_super. by intros ->. Qed.

Lemma wp_upd_inode Q c k p i f :
  inodes k !! p = Some i -> Q tt (World c (set_inodes (<[p := f i]> (inodes k)) k)) ->
  wp (upd_inode p f) Q (World c k).
Proof. unfold wp, upd_inode, get_inode, mbind, M_bind, on_kern. cbn. by intros ->. Qed.

Lemma wp_upd_dentry Q c k p d f :
  dentries k !! p = Some d -> Q tt (World c (set_dentries (<[p := f d]> (dentries k)) k)) ->
  wp (upd_dentry p f) Q (World c k).
Proof. unfold wp, upd_dentry, get_dentry, mbind, M_bind, on_kern. cbn. by intros ->. Qed.

Lemma wp_upd_page Q c k p g f :
  pages k !! p = Some g -> Q tt (World c (set_pages (<[p := f g]> (pages k)) k)) ->
  wp (upd_page p f) Q (World c k).
Proof. unfold wp, upd_page, get_page, mbind, M_bind, on_kern. cbn. by intros ->. Qed.

Lemma wp_upd_super Q c k p s f :
  supers k !! p = Some s -> Q tt (World c (set_supers (<[p := f s]> (supers k)) k)) ->
  wp (upd_super p f) Q (World c k).
Proof. unfold wp, upd_super, get_super, mbind, M_bind, on_kern. cbn. by intros ->. Qed.

Lemma wp_on_kern Q c k f : Q tt (World c (f k)) -> wp (on_kern f) Q (World c k).
Proof. done. Qed.

Lemma wp_on_rest Q c k f :
  Q tt (World c (set_rest (f (rest k)) k)) -> wp (on_rest f) Q (World c k).
Proof. done. Qed.

Lemma wp_on_kernel {A} (f : kernel K -> A * kernel K) (Q : A -> world C K -> Prop) c k :
  (let (a, k') := f k in Q a (World c k')) -> wp (on_kernel f) Q (World c k).
Proof. unfold wp, on_kernel. cbn. by destruct (f k) as [a k']. Qed.

Lemma wp_d_inode Q w d p : d_inode d = Some p -> Q p w -> wp (d_inode_of d) Q w.
Proof. unfold wp, d_inode_of. by intros ->. Qed.
End rules.

(** [wp_one] runs one step of an operation, [wp_go] those that need no choice. *)
Ltac wp_one :=
  cbn [conduit kern] in *;
  lazymatch goal with
  | |- wp (mbind _ _) _ _ => apply wp_bind
  | |- wp (mret _) _ _ => apply wp_ret
  | |- wp (whenb true _) _ _ => unfold whenb at 1
  | |- wp (whenb false _) _ _ => unfold whenb at 1
  | |- wp (get_inode _) _ _ => eapply wp_get_inode; [by eauto|]
  | |- wp (get_dentry _) _ _ => eapply wp_get_dentry; [by eauto|]
  | |- wp (get_page _) _ _ => eapply wp_get_page; [by eauto|]
  | |- wp (get_super _) _ _ => eapply wp_get_super; [by eauto|]
  | |- wp (d_inode_of _) _ _ => eapply wp_d_inode; [by eauto|]
  | |- wp (upd_inode _ _) _ _ =>
      eapply wp_upd_inode; [first [apply lookup_insert_eq|by eauto]|]
  | |- wp (upd_dentry _ _) _ _ =>
      eapply wp_upd_dentry; [first [apply lookup_insert_eq|by eauto]|]
  | |- wp (upd_page _ _) _ _ =>
      eapply wp_upd_page; [first [apply lookup_insert_eq|by eauto]|]
  | |- wp (upd_super _ _) _ _ =>
      eapply wp_upd_super; [first [apply lookup_insert_eq|by eauto]|]
  | |- wp (on_rest _) _ _ => apply wp_on_rest
  | |- wp (on_kern _) _ _ => apply wp_on_kern
  | |- wp (on_conduit (free_trans _)) _ _ => eapply wp_free; [by eauto|intros ? ?]
  end.
Ltac wp_go := repeat wp_one.
