(* ===== verification/VFSModel.v ===== *)
(** * A kernel that satisfies the laws

    A concrete kernel, to show that what [VFSLaws] asks is possible and to run the
    file system on examples.  It is not part of the program.  Its state is the list
    of calls that have no effect on the stores. *)

From stdpp Require Import prelude gmap list strings.
From Stdlib Require Import ZArith Lia.
From S2P Require Import Prelude Protocol Driver Requests Conduit Kernel.

Open Scope string_scope.
Open Scope list_scope.
Open Scope Z_scope.

Inductive call := CInvalidate (p : iptr) | CDrop (d : dptr) | CShrink (d : dptr).

Definition fresh_inode (sb : sbptr) (hash : Z) : inode :=
  Inode (FHandle 0 0 0 0 0 0 0 0) 0 sb hash true 0 0 (IAttrs 0 0 0 0 0 (0, 0) (0, 0) (0, 0) 0 0)
    other_inode_operations other_file_operations other_aops.

Definition cached (sb : sbptr) (hash : Z) (test : inode -> bool) (e : iptr * inode) : bool :=
  bool_decide (i_sb (snd e) = sb) && (i_hash (snd e) =? hash) && test (snd e).

Definition find_inode (sb : sbptr) (hash : Z) (test : inode -> bool)
    (m : gmap iptr inode) : option iptr :=
  fst <$> find (cached sb hash test) (map_to_list m).

(** A kernel that never runs out of memory. *)
Definition model_kernel : VFS (list call) := {|
  iget5_locked sb hash test set k :=
    match find_inode sb hash test (inodes k) with
    | Some p => (Some p, k)
    | None => let p := fresh (dom (inodes k)) in
              (Some p, set_inodes (<[p := set (fresh_inode sb hash)]> (inodes k)) k)
    end;
  ilookup5 sb hash test k := (find_inode sb hash test (inodes k), k);
  unlock_new_inode p k := set_inodes (alter (set_I_NEW false) p (inodes k)) k;
  init_special_inode m dev i :=
    set_attrs (let a := i_attrs i in
               IAttrs m (i_nlink a) (i_uid a) (i_gid a) (i_size a) (i_atime a) (i_mtime a)
                 (i_ctime a) (i_blocks a) dev) i;
  invalidate_inode_pages2 p r := r ++ [CInvalidate p];
  d_drop e r := r ++ [CDrop e];
  d_instantiate e p k := set_dentries (alter (set_d_inode (Some p)) e (dentries k)) k;
  d_splice_alias o e k := (None, set_dentries (alter (set_d_inode o) e (dentries k)) k);
  d_obtain_alias p k :=
    let a := fresh (dom (dentries k)) in
    (Ptr a, set_dentries (<[a := Dentry [] (Some p) a false]> (dentries k)) k);
  d_alloc_root p k :=
    let a := fresh (dom (dentries k)) in
    (Some a, set_dentries (<[a := Dentry [47] (Some p) a false]> (dentries k)) k);
  dget e r := r;
  dput e r := r;
  have_submounts e r := false;
  shrink_dcache_parent e r := r ++ [CShrink e] |}.

Lemma find_inode_some sb hash test m p :
  find_inode sb hash test m = Some p ->
  exists i, m !! p = Some i /\ i_sb i = sb /\ i_hash i = hash /\ test i = true.
Proof.
  unfold find_inode. destruct (find _ _) as [[q i]|] eqn:E; [|done]. intros [= <-].
  apply find_some in E as [Hin Hc]. exists i. unfold cached in Hc. cbn in Hc.
  rewrite !andb_true_iff, bool_decide_eq_true, Z.eqb_eq in Hc. destruct Hc as [[? ?] ?].
  split; [|done]. by apply elem_of_map_to_list, list_elem_of_In.
Qed.

Lemma find_inode_none sb hash test m :
  find_inode sb hash test m = None ->
  forall q i, m !! q = Some i -> i_sb i = sb -> i_hash i = hash -> test i = false.
Proof.
  unfold find_inode. destruct (find _ _) as [|] eqn:E; [done|]. intros _ q i Hq <- <-.
  pose proof (find_none _ _ E (q, i)) as H. unfold cached in H. cbn in H.
  rewrite bool_decide_eq_true_2, Z.eqb_refl in H by done. apply H.
  by apply list_elem_of_In, elem_of_map_to_list.
Qed.

Lemma model_kernel_laws : @VFSLaws (list call) model_kernel.
Proof.
  split.
  - intros sb hash test set k Hready. cbn. destruct (find_inode _ _ _ _) as [p|] eqn:E.
    + split; [done|]. left. apply find_inode_some in E as (i & Hi & ? & ? & ?).
      exists p, i. split_and!; eauto.
    + split; [done|]. right. split; [by apply find_inode_none|]. right.
      exists (fresh (dom (inodes k))), (fresh_inode sb hash). split; [done|].
      split; [apply not_elem_of_dom, is_fresh|]. done.
  - intros sb hash test k. cbn. split; [done|]. split; [done|].
    destruct (find_inode _ _ _ _) as [p|] eqn:E; [by apply find_inode_some in E|].
    by apply find_inode_none.
  - intros p i k Hp. split; [done|]. cbn. by apply alter_alt_Some.
  - done.
  - intros e p d k He. split; [done|]. cbn. by apply alter_alt_Some.
  - intros o e d k He. cbn. split; [done|]. by apply alter_alt_Some.
  - intros p k. cbn. split; [done|]. by rewrite lookup_insert_eq.
  - intros p k. cbn. split; [done|]. split; [apply not_elem_of_dom, is_fresh|].
    by rewrite lookup_insert_eq.
Qed.
