(* ===== verification/Demo.v ===== *)
(** * An example world

    A server, a kernel and a driver on which the theorems about the operations are
    exercised.  None of it is part of the program. *)

From stdpp Require Import prelude gmap list strings.
From Stdlib Require Import ZArith Lia.
From S2P Require Import Prelude Protocol Driver DriverSteps Requests RequestProps Conduit.
From S2P Require Import ConduitDriver Kernel Calls VFSModel.

Open Scope string_scope.
Open Scope list_scope.
Open Scope Z_scope.

Definition demo_fh (n : Z) : fhandle := FHandle 1 0 2 3 4 5 n 0.
Definition demo_attr (mode : Z) : attr := Attr mode 1 100 100 10 1 2 3 4 5 6 4096 8 0.

(** The reply to a request that carries a handle and attributes, or attributes. *)
Definition demo_header (type serial size : Z) (u : mem) : mem :=
  u |> set_int uvfs_generic_rep_s "type" type
    |> set_int uvfs_generic_rep_s "serial" serial
    |> set_int uvfs_generic_rep_s "size" size
    |> set_int uvfs_generic_rep_s "error" 0.
Definition demo_fh_reply (serial : Z) (fh : fhandle) (a : attr) : Z * mem :=
  let t := uvfs_lookup_rep_s in
  (sizeof t, (fun _ => 0) |> demo_header UVFS_LOOKUP serial (sizeof t)
               |> set_fh t "fh" fh |> set_attr t "a" a).
Definition demo_attr_reply (serial : Z) (a : attr) : Z * mem :=
  let t := uvfs_getattr_rep_s in
  (sizeof t, (fun _ => 0) |> demo_header UVFS_GETATTR serial (sizeof t) |> set_attr t "a" a).
Definition demo_plain_reply (type serial : Z) : Z * mem :=
  let t := uvfs_generic_rep_s in
  (sizeof t, (fun _ => 0) |> demo_header type serial (sizeof t)).

(** Every file exists; directories have handle 2, other files handle 7. *)
Definition demo_serve (past : list exchange) : server := fun bytes =>
  match parse_request (mem_of bytes) with
  | Some (serial, RqGetattr _ _ _) => Some (demo_attr_reply serial (demo_attr (S_IFREG + 420)))
  | Some (serial, (RqCreate _ _ _ _ _ | RqLookup _ _ _ _)) =>
      Some (demo_fh_reply serial (demo_fh 7) (demo_attr (S_IFREG + 420)))
  | Some (serial, RqSymlink _ _ _ _ _) =>
      Some (demo_fh_reply serial (demo_fh 8) (demo_attr (S_IFLNK + 511)))
  | Some (serial, RqMkdir _ _ _ _ _) =>
      Some (demo_fh_reply serial (demo_fh 9) (demo_attr (S_IFDIR + 493)))
  | Some (serial, _) => Some (demo_plain_reply (rd32s 0 (mem_of bytes)) serial)
  | None => None
  end.

Lemma demo_serve_count past bytes count buff :
  demo_serve past bytes = Some (count, buff) -> 0 <= count < 2 ^ 63.
Proof.
  unfold demo_serve. destruct (parse_request _) as [[serial r]|]; [|done].
  destruct r; intros [= <- _]; vm_compute; (split; [discriminate|reflexivity]).
Qed.

#[export] Instance demo_conduit : Conduit alone := driver_conduit demo_serve.
#[export] Instance demo_conduit_laws : ConduitLaws alone :=
  driver_conduit_laws demo_serve demo_serve_count.
#[export] Instance demo_vfs : VFS (list call) := model_kernel.
#[export] Instance demo_vfs_laws : VFSLaws (list call) := model_kernel_laws.

Definition demo_cred : task_cred := Cred 100 100 (fun g => g =? 100) (fun _ => false).

(** A mounted file system: the root directory (inode 0, dentry 0) with an entry for a
    regular file (inode 1, dentry 1) and a name that is not there yet (dentry 2). *)
Definition demo_inode (n mode : Z) (op : inode_ops) : inode :=
  Inode (demo_fh n) 100 0 n false n 129
    (IAttrs mode 2 100 100 10 (1, 2) (3, 4) (5, 6) 8 0) op other_file_operations other_aops.
Definition demo_kernel : kernel (list call) :=
  Kernel
    {[0%nat := demo_inode 2 (S_IFDIR + 493) Uvfs_dir_inode_operations;
      1%nat := demo_inode 3 (S_IFREG + 420) Uvfs_file_inode_operations]}
    {[0%nat := Dentry [47] (Some 0%nat) 0 true;
      1%nat := Dentry [97] (Some 1%nat) 0 true;
      2%nat := Dentry [98; 99] None 0 false]}
    {[0%nat := Page 0 1 (fun i => i) false false true]}
    {[0%nat := Super 0 0 4096 12 1 true (Some 0%nat)]}
    [].

Definition zeros : mem := fun _ => 0.
Definition demo_alone : alone := Alone 1 0 ∅ [zeros; zeros; zeros; zeros] [].
Definition demo_world : world alone (list call) := World demo_alone demo_kernel.

(** The same with a driver that no server has open. *)
Definition demo_down : world alone (list call) :=
  World (Alone 0 0 ∅ [zeros; zeros; zeros; zeros] []) demo_kernel.

(** The same with an allocator that fails. *)
Definition demo_nomem : world alone (list call) := World (Alone 1 0 ∅ [] []) demo_kernel.

(** What every answer of a server satisfies holds of the replies of its conduit. *)
Lemma replies_answer serve
    (Hc : forall past bytes count buff, serve past bytes = Some (count, buff) -> 0 <= count < 2 ^ 63)
    r (P : mem -> Prop) :
  request_fits r ->
  (forall opens past serial u0, int_range serial ->
     P (answer opens (serve past) serial (build r serial u0))) ->
  @replies alone (driver_conduit serve) r P.
Proof.
  intros Hf HP a p serial u0 Hser Hp.
  destruct (al_request_answer serve Hc a p serial (build r serial u0) Hp
    (build_ok r serial u0 Hf Hser)) as (a' & E & Hl & _).
  unfold wp. cbn [make_request driver_conduit]. rewrite E. cbn [live driver_conduit].
  rewrite Hl, lookup_insert_eq. intros u Hu.
  assert (u = answer (al_opens a) (serve (al_exchanges a)) serial (build r serial u0))
    as -> by congruence. by apply HP.
Qed.

(** It is enough to look at errors and at the bytes of the reply. *)
Lemma answer_cases (P : mem -> Prop) opens serve serial u0 :
  (forall e, e < 0 -> int_range e -> P (set_error e u0)) ->
  (forall count buff, serve (delivered u0) = Some (count, buff) ->
     P (wr_bytes 0 (rd_bytes 0 (get_int uvfs_generic_rep_s "size" buff) buff) u0)) ->
  P (answer opens serve serial u0).
Proof.
  intros He Ho. unfold answer. destruct (_ =? 0); [by apply He|].
  destruct (serve _) as [[count buff]|] eqn:E; [|by apply He].
  destruct (acceptable _ _ _); [by eapply Ho|by apply He].
Qed.

(** Reading a member of a reply that has been copied into the union. *)
Lemma rd_copied m m' off n size :
  0 <= off -> off + n <= size -> mem_agree off n (wr_bytes 0 (rd_bytes 0 size m) m') m.
Proof.
  intros H1 H2 i Hi. rewrite rd8_wr_bytes_in by (rewrite length_rd_bytes; lia).
  rewrite nth_rd_bytes by lia. replace (0 + Z.of_nat (Z.to_nat (i - 0))) with i by lia.
  apply Zmod_mod.
Qed.

Lemma rd32_copied m m' off size :
  0 <= off -> off + 4 <= size -> rd32 off (wr_bytes 0 (rd_bytes 0 size m) m') = rd32 off m.
Proof. intros H1 H2. by apply rd32_agree, rd_copied. Qed.

Lemma get_int_copied t f m m' size :
  0 <= offsetof t f -> offsetof t f + 4 <= size ->
  get_int t f (wr_bytes 0 (rd_bytes 0 size m) m') = get_int t f m.
Proof. intros. unfold get_int, rd32s. by rewrite rd32_copied. Qed.
