(* ===== verification/InodeAlloc.v ===== *)
(** * The memory of inodes (super.c, uvfs.h)

    The kernel's inode is a member of the file system's own structure, which also
    holds the handle and the owner: [UVFS_I] goes from the one to the other by a
    constant distance.  The slab allocator and [inode_init_once] belong to the
    kernel; the size of its [struct inode] is a parameter. *)

From stdpp Require Import prelude gmap list strings.
From Stdlib Require Import ZArith Lia.
From S2P Require Import Prelude Protocol.

Open Scope string_scope.
Open Scope list_scope.
Open Scope Z_scope.

Section slab.
(** [sizeof(struct inode)], and what [inode_init_once] does at an address. *)
Variable inode_size : Z.
Variable inode_init_once : Z -> mem -> mem.

(** The members before [vfs_inode]; a [struct inode] holds pointers and is aligned
    to 8. *)
Definition uvfs_inode_info : ctype :=
  CStruct [("fh", uvfs_fhandle_s); ("attr_uid", CUnsigned)].
Definition vfs_inode_offset : Z := align_up (sizeof uvfs_inode_info) 8.
Definition uvfs_inode_info_size : Z := align_up (vfs_inode_offset + inode_size) 8.

(** [container_of(inode, struct uvfs_inode_info, vfs_inode)]. *)
Definition UVFS_I (inode : Z) : Z := inode - vfs_inode_offset.

(** The objects of the cache that are in use, by address, and the memory. *)
Record slab := Slab { objects : gset Z; slab_memory : mem }.

Definition set_objects (s : gset Z) (x : slab) : slab := Slab s (slab_memory x).
Definition set_slab_memory (m : mem) (x : slab) : slab := Slab (objects x) m.

(** [alloc] is the answer of [kmem_cache_alloc]. *)
Definition uvfs_alloc_inode (alloc : option Z) : M slab (option Z) :=
  match alloc with
  | None => mret None
  | Some uvfsi =>
      s ← gets objects;
      if bool_decide (uvfsi ∈ s) then fault
      else modify (set_objects ({[uvfsi]} ∪ s));; mret (Some (uvfsi + vfs_inode_offset))
  end.

(** [kmem_cache_free] of something that is not an object in use is a fault. *)
Definition uvfs_destroy_inode (inode : Z) : M slab unit :=
  s ← gets objects;
  if bool_decide (UVFS_I inode ∈ s) then modify (set_objects (s ∖ {[UVFS_I inode]})) else fault.

Definition init_once (foo : Z) : M slab unit :=
  m ← gets slab_memory;
  modify (set_slab_memory (inode_init_once (foo + vfs_inode_offset) m)).

(** [UVFS_I(inode)->fh] and [->attr_uid]. *)
Definition info_fh (inode : Z) (m : mem) : fhandle :=
  fh_at (UVFS_I inode + offsetof uvfs_inode_info "fh") m.
Definition info_uid (inode : Z) (m : mem) : Z :=
  rd32 (UVFS_I inode + offsetof uvfs_inode_info "attr_uid") m.
Definition set_info (inode : Z) (h : fhandle) (uid : Z) (m : mem) : mem :=
  wr32 (UVFS_I inode + offsetof uvfs_inode_info "attr_uid") uid
    (put_fh (UVFS_I inode + offsetof uvfs_inode_info "fh") h m).

(** ** What the slab allocator guarantees *)

Definition apart (a b : Z) : Prop :=
  a + uvfs_inode_info_size <= b \/ b + uvfs_inode_info_size <= a.

(** An object is given out apart from those in use. *)
Definition fresh (a : Z) (x : slab) : Prop := forall b, b ∈ objects x -> apart a b.

Inductive slab_step : slab -> slab -> Prop :=
| slab_alloc a x x' r :
    fresh a x -> uvfs_alloc_inode (Some a) x = Some (r, x') -> slab_step x x'
| slab_destroy i x x' : uvfs_destroy_inode i x = Some (tt, x') -> slab_step x x'
| slab_store i h uid x :
    UVFS_I i ∈ objects x -> slab_step x (set_slab_memory (set_info i h uid (slab_memory x)) x)
| slab_construct a x x' : fresh a x -> init_once a x = Some (tt, x') -> slab_step x x'.

Definition separate (x : slab) : Prop :=
  forall a b, a ∈ objects x -> b ∈ objects x -> a <> b -> apart a b.

(** ** Theorems *)

Lemma UVFS_I_inverse a : UVFS_I (a + vfs_inode_offset) = a.
Proof using Type. unfold UVFS_I. lia. Qed.

(** Objects stay apart, so that no inode lies in another's object. *)
Theorem slab_separate x x' : separate x -> slab_step x x' -> separate x'.
Proof using inode_init_once inode_size.
  intros Hs Hst. destruct Hst as [a x x' r Hf E|i x x' E|i h uid x Hi|a x x' Hf E].
  - revert E. unfold uvfs_alloc_inode, mbind, M_bind, gets, modify, mret, M_ret.
    case_bool_decide; [done|]. intros [= _ <-] b c. cbn. rewrite !elem_of_union, !elem_of_singleton.
    intros [->|Hb] [->|Hc] Hne; [done|by apply Hf| |by apply Hs].
    destruct (Hf b Hb); [by right|by left].
  - revert E. unfold uvfs_destroy_inode, mbind, M_bind, gets, modify.
    case_bool_decide; [|done]. intros [= <-] b c. cbn. set_solver.
  - done.
  - revert E. intros [= <-]. done.
Qed.

(** What is given out can be given back, and leaves the cache as it was. *)
Theorem alloc_destroy a x :
  a ∉ objects x ->
  exists i x1, uvfs_alloc_inode (Some a) x = Some (Some i, x1) /\ UVFS_I i = a /\
    exists x2, uvfs_destroy_inode i x1 = Some (tt, x2) /\ x2 = x.
Proof using Type.
  clear inode_init_once. intros Ha. exists (a + vfs_inode_offset). eexists. split_and!; [|apply UVFS_I_inverse|].
  - unfold uvfs_alloc_inode, mbind, M_bind, gets, modify, mret, M_ret.
    by rewrite bool_decide_eq_false_2.
  - eexists. unfold uvfs_destroy_inode, mbind, M_bind, gets, modify. rewrite UVFS_I_inverse.
    cbn. rewrite bool_decide_eq_true_2 by set_solver. split; [done|].
    destruct x as [o m]. unfold set_objects. cbn in *. f_equal. set_solver.
Qed.

(** A store into one object changes its first 36 bytes only. *)
Lemma set_info_outside i h uid m off n :
  off + n <= UVFS_I i \/ UVFS_I i + 36 <= off -> mem_agree off n (set_info i h uid m) m.
Proof using Type.
  intros Ho. unfold set_info. layout. intros k Hk. by rewrite !rd8_wr32_out by lia.
Qed.

Lemma fh_at_agree off m m' : mem_agree off 32 m m' -> fh_at off m = fh_at off m'.
Proof using Type.
  intros H. unfold fh_at. layout.
  f_equal; apply rd32_agree; eapply mem_agree_sub; try exact H; lia.
Qed.

(** Storing the handle and the owner of one inode leaves those of the others, and the
    kernel's part of both objects, alone. *)
Theorem set_info_local i j h uid m :
  0 <= inode_size -> fhandle_wf h -> uint_range uid -> apart (UVFS_I i) (UVFS_I j) ->
  let m' := set_info i h uid m in
  info_fh i m' = h /\ info_uid i m' = uid /\ info_fh j m' = info_fh j m /\
  info_uid j m' = info_uid j m /\ mem_agree i inode_size m' m /\ mem_agree j inode_size m' m.
Proof using Type.
  intros Hn Hh Hu Ha m'.
  assert (vfs_inode_offset = 40) as E by (by vm_compute).
  assert (UVFS_I i + 40 <= UVFS_I j \/ UVFS_I j + 40 + inode_size <= UVFS_I i) as Ha'.
  { unfold apart, uvfs_inode_info_size in Ha. rewrite E in Ha. unfold align_up in Ha.
    pose proof (Z.div_mod (40 + inode_size + 8 - 1) 8 ltac:(lia)).
    pose proof (Z.mod_pos_bound (40 + inode_size + 8 - 1) 8 ltac:(lia)). lia. }
  assert (i = UVFS_I i + 40 /\ j = UVFS_I j + 40) as [Ei Ej] by (unfold UVFS_I; lia).
  unfold info_fh, info_uid. change (offsetof uvfs_inode_info "fh") with 0.
  change (offsetof uvfs_inode_info "attr_uid") with 32. split_and!.
  - unfold m', set_info. change (offsetof uvfs_inode_info "fh") with 0.
    rewrite <- (fh_at_put_fh (UVFS_I i + 0) h m Hh) at 2. apply fh_at_agree.
    intros k Hk. rewrite rd8_wr32_out; [done|].
    change (offsetof uvfs_inode_info "attr_uid") with 32. lia.
  - unfold m', set_info. change (offsetof uvfs_inode_info "attr_uid") with 32.
    rewrite rd32_wr32. by apply u32_small.
  - apply fh_at_agree, set_info_outside. lia.
  - apply rd32_agree, set_info_outside. lia.
  - apply set_info_outside. lia.
  - apply set_info_outside. lia.
Qed.
End slab.

(** Two inodes of a kernel whose [struct inode] has 592 bytes. *)
Example demo_apart : apart 592 0 640 /\ UVFS_I (640 + vfs_inode_offset) = 640.
Proof. split; [left; by vm_compute|by vm_compute]. Qed.
