(* ===== verification/Inode.v ===== *)
(** * Inodes (super.c)

    An inode is known by its file handle; only three members of the handle identify
    the file.  [uvfs_iget] finds or makes the inode of a handle, and refreshes it
    with the attributes the server sent. *)

From stdpp Require Import prelude gmap list strings.
From Stdlib Require Import ZArith Lia.
From S2P Require Import Prelude Protocol Driver DriverSteps Requests RequestProps Conduit.
From S2P Require Import Kernel Calls VFSModel ConduitDriver Demo.

Open Scope string_scope.
Open Scope list_scope.
Open Scope Z_scope.

(** ** Definitions *)

Definition uvfs_compare_inode (i : inode) (other : fhandle) : bool :=
  let extra := i_fh i in
  (na_aruid extra =? na_aruid other) && (fs_sfuid extra =? fs_sfuid other) &&
  (fs_sbxid extra =? fs_sbxid other).

Definition uvfs_init_inode (data : fhandle) (i : inode) : inode := set_i_fh data i.

(** The members of an inode that are copied from the server's attributes, at the
    widths of [struct inode]: [i_mode] has 16 bits, [i_rdev] is unsigned. *)
Definition attrs_of (a : attr) : iattrs :=
  IAttrs (u16 (a_mode a)) (a_nlink a) (a_uid a) (a_gid a) (a_size a)
    (a_atime_sec a, a_atime_nsec a) (a_mtime_sec a, a_mtime_nsec a)
    (a_ctime_sec a, a_ctime_nsec a) (a_blocks a) (u32 (a_devno a)).

(** Whether the cached pages may be stale. *)
Definition data_changed (i : inode) (fattr : attr) : bool :=
  negb (i_size (i_attrs i) =? a_size fattr) ||
  negb ((i_mtime (i_attrs i)).1 =? a_mtime_sec fattr) ||
  negb ((i_mtime (i_attrs i)).2 =? a_mtime_nsec fattr).

Section inode.
Context {C K : Type} `{Conduit C} `{VFS K} (current : task_cred).

Definition uvfs_refresh_inode (p : iptr) (fattr : attr) : M (world C K) Z :=
  i ← get_inode p;
  whenb (data_changed i fattr) (on_rest (invalidate_inode_pages2 p));;
  upd_inode p (set_attrs (attrs_of fattr));;
  upd_inode p (set_attr_uid (current_fsuid current));;
  mret 0.

(** The part of [uvfs_iget] that chooses the operation tables. *)
Definition set_operations (p : iptr) (fattr : attr) : M (world C K) unit :=
  i ← get_inode p;
  let m := i_mode (i_attrs i) in
  if S_ISREG m then
    upd_inode p (set_ops Uvfs_file_inode_operations Uvfs_file_file_operations Uvfs_file_aops)
  else if S_ISDIR m then
    upd_inode p (set_ops Uvfs_dir_inode_operations Uvfs_dir_file_operations (a_ops i))
  else if S_ISLNK m then
    upd_inode p (set_ops Uvfs_symlink_inode_operations (i_fop i) (a_ops i))
  else upd_inode p (init_special_inode m (u32 (a_devno fattr))).

Definition uvfs_iget (sb : sbptr) (fh : fhandle) (fattr : attr) : M (world C K) (option iptr) :=
  let hash := fs_sfuid fh in
  o ← on_kernel (iget5_locked sb hash (fun i => uvfs_compare_inode i fh) (uvfs_init_inode fh));
  match o with
  | None => mret None
  | Some p =>
      i ← get_inode p;
      (if I_NEW i then
         upd_inode p (set_i_ino hash);;
         upd_inode p (or_i_flags (Z.lor S_NOATIME S_NOCMTIME));;
         upd_inode p (set_attrs (attrs_of fattr));;
         upd_inode p (set_attr_uid (current_fsuid current));;
         set_operations p fattr;;
         on_kern (unlock_new_inode p)
       else
         uvfs_refresh_inode p fattr;; mret tt);;
      mret (Some p)
  end.

Definition uvfs_revalidate_inode (p : iptr) : M (world C K) Z :=
  trans ← on_conduit new_trans;
  match trans with
  | None => mret (- ENOMEM)
  | Some t =>
      i ← get_inode p;
      reply ← submit_request t (fun serial =>
        getattr_request serial (current_fsuid current) (current_fsgid current) (i_fh i));
      let error := get_int uvfs_getattr_rep_s "error" reply in
      whenb (error =? 0)
        (uvfs_refresh_inode p (get_attr uvfs_getattr_rep_s "a" reply);; mret tt);;
      on_conduit (free_trans t);;
      mret error
  end.
End inode.

(** ** Specification *)

(** Two handles of the same file. *)
Definition same_file (h h' : fhandle) : Prop :=
  na_aruid h = na_aruid h' /\ fs_sfuid h = fs_sfuid h' /\ fs_sbxid h = fs_sbxid h'.

#[export] Instance same_file_equiv : Equivalence same_file.
Proof. split; [done|by intros ? ? (? & ? & ?)|intros ??? (?&?&?) (?&?&?); split_and!; congruence]. Qed.

#[export] Instance same_file_dec h h' : Decision (same_file h h').
Proof. unfold same_file. apply _. Defined.

#[export] Instance compare_proper i : Proper (same_file ==> eq) (uvfs_compare_inode i).
Proof. intros h h' (E1 & E2 & E3). unfold uvfs_compare_inode. by rewrite E1, E2, E3. Qed.

(** The inode cache: a cached inode is initialised, was cached under the hash of its
    handle, and is the only one of its super block for its file. *)
Record cache_ok {K} (k : kernel K) : Prop := CacheOk {
  cache_ready : forall p i, inodes k !! p = Some i -> I_NEW i = false;
  cache_hash : forall p i, inodes k !! p = Some i -> i_hash i = fs_sfuid (i_fh i);
  cache_unique : forall p q i j, inodes k !! p = Some i -> inodes k !! q = Some j ->
                 i_sb i = i_sb j -> same_file (i_fh i) (i_fh j) -> p = q }.

(** The inode after a refresh. *)
Definition refreshed (uid : Z) (a : attr) (i : inode) : inode :=
  set_attr_uid uid (set_attrs (attrs_of a) i).

(** The operation tables of a regular file, directory or symbolic link. *)
Definition ops_ok (i : inode) : Prop :=
  let m := i_mode (i_attrs i) in
  (S_ISREG m = true -> i_op i = Uvfs_file_inode_operations /\
     i_fop i = Uvfs_file_file_operations /\ a_ops i = Uvfs_file_aops) /\
  (S_ISDIR m = true -> i_op i = Uvfs_dir_inode_operations /\
     i_fop i = Uvfs_dir_file_operations /\ a_ops i = other_aops) /\
  (S_ISLNK m = true -> i_op i = Uvfs_symlink_inode_operations /\
     i_fop i = other_file_operations /\ a_ops i = other_aops).

(** A new inode. *)
Record made (sb : sbptr) (fh : fhandle) (uid : Z) (a : attr) (i : inode) : Prop := Made {
  made_fh : i_fh i = fh;
  made_uid : attr_uid i = uid;
  made_sb : i_sb i = sb;
  made_hash : i_hash i = fs_sfuid fh;
  made_ready : I_NEW i = false;
  made_ino : i_ino i = fs_sfuid fh;
  made_mode : i_mode (i_attrs i) = u16 (a_mode a);
  made_attrs : (S_ISREG (u16 (a_mode a)) || S_ISDIR (u16 (a_mode a)) || S_ISLNK (u16 (a_mode a)))
               = true -> i_attrs i = attrs_of a;
  made_ops : ops_ok i }.

(** What [uvfs_iget] does to the inodes. *)
Inductive got {K} (k k' : kernel K) (sb : sbptr) (fh : fhandle) (uid : Z) (a : attr) :
    option iptr -> Prop :=
| got_none :
    (forall q i, inodes k !! q = Some i -> i_sb i = sb -> i_hash i = fs_sfuid fh ->
                 ~ same_file (i_fh i) fh) ->
    inodes k' = inodes k -> got k k' sb fh uid a None
| got_cached p i :
    inodes k !! p = Some i -> i_sb i = sb -> same_file (i_fh i) fh ->
    inodes k' = <[p := refreshed uid a i]> (inodes k) -> got k k' sb fh uid a (Some p)
| got_new p i :
    (forall q i, inodes k !! q = Some i -> i_sb i = sb -> i_hash i = fs_sfuid fh ->
                 ~ same_file (i_fh i) fh) ->
    inodes k !! p = None -> made sb fh uid a i ->
    inodes k' = <[p := i]> (inodes k) -> got k k' sb fh uid a (Some p).

(** ** Lemmas *)

Lemma compare_same i h : uvfs_compare_inode i h = true <-> same_file (i_fh i) h.
Proof.
  unfold uvfs_compare_inode, same_file. rewrite !andb_true_iff, !Z.eqb_eq. tauto.
Qed.

Lemma compare_differ i h : uvfs_compare_inode i h = false <-> ~ same_file (i_fh i) h.
Proof. rewrite <- compare_same. by destruct (uvfs_compare_inode i h). Qed.

Lemma same_but_inodes_trans {K} (k1 k2 k3 : kernel K) :
  same_but_inodes k1 k2 -> same_but_inodes k2 k3 -> same_but_inodes k1 k3.
Proof. unfold same_but_inodes. intuition congruence. Qed.

Section lemmas.
Context {C K : Type} `{ConduitLaws C} `{VFSLaws K} (current : task_cred).
Implicit Types (c : C) (k : kernel K).
Abbreviation uid := (current_fsuid current).

(** What a refresh does to the kernel: the inode, and stale pages are dropped. *)
Definition refresh_kernel (p : iptr) (i : inode) (a : attr) (k : kernel K) : kernel K :=
  set_inodes (<[p := refreshed uid a i]> (inodes k))
    (if data_changed i a then set_rest (invalidate_inode_pages2 p (rest k)) k else k).

Lemma wp_refresh Q c k p i a :
  inodes k !! p = Some i -> Q 0 (World c (refresh_kernel p i a k)) ->
  wp (uvfs_refresh_inode current p a) Q (World c k).
Proof.
  intros Hp HQ. unfold uvfs_refresh_inode. wp_go.
  unfold refresh_kernel in HQ. destruct (data_changed i a); wp_go; cbn in *;
    by rewrite insert_insert_eq.
Qed.

Lemma ops_exclusive m :
  (S_ISREG m = true -> S_ISDIR m = false /\ S_ISLNK m = false) /\
  (S_ISDIR m = true -> S_ISREG m = false /\ S_ISLNK m = false) /\
  (S_ISLNK m = true -> S_ISREG m = false /\ S_ISDIR m = false).
Proof.
  unfold S_ISREG, S_ISDIR, S_ISLNK, S_IFREG, S_IFDIR, S_IFLNK.
  rewrite !Z.eqb_eq, !Z.eqb_neq. lia.
Qed.

(** The new inode once its tables are chosen. *)
Definition with_operations (a : attr) (i : inode) : inode :=
  let m := i_mode (i_attrs i) in
  if S_ISREG m
  then set_ops Uvfs_file_inode_operations Uvfs_file_file_operations Uvfs_file_aops i
  else if S_ISDIR m then set_ops Uvfs_dir_inode_operations Uvfs_dir_file_operations (a_ops i) i
  else if S_ISLNK m then set_ops Uvfs_symlink_inode_operations (i_fop i) (a_ops i) i
  else init_special_inode m (u32 (a_devno a)) i.

Lemma wp_set_operations Q c k p i a :
  inodes k !! p = Some i ->
  Q tt (World c (set_inodes (<[p := with_operations a i]> (inodes k)) k)) ->
  wp (set_operations p a) Q (World c k).
Proof.
  intros Hp HQ. unfold set_operations, with_operations in *. wp_go.
  repeat case_match; by eapply wp_upd_inode.
Qed.

Lemma with_operations_made sb fh a i :
  i_fh i = fh -> attr_uid i = uid -> i_sb i = sb -> i_hash i = fs_sfuid fh ->
  i_ino i = fs_sfuid fh -> i_attrs i = attrs_of a ->
  i_fop i = other_file_operations -> a_ops i = other_aops ->
  made sb fh uid a (set_I_NEW false (with_operations a i)).
Proof.
  intros ? ? ? ? ? Ha ? ?. unfold with_operations. rewrite Ha. cbn [i_mode attrs_of].
  set (m := u16 (a_mode a)). destruct (ops_exclusive m) as (X1 & X2 & X3).
  destruct (S_ISREG m) eqn:E1; [|destruct (S_ISDIR m) eqn:E2; [|destruct (S_ISLNK m) eqn:E3]].
  - destruct (X1 eq_refl). split; cbn; try done; [by rewrite Ha|].
    unfold ops_ok. cbn. rewrite Ha. cbn. fold m. split_and!; [done|intros; congruence..].
  - destruct (X2 eq_refl). split; cbn; try done; [by rewrite Ha|].
    unfold ops_ok. cbn. rewrite Ha. cbn. fold m. split_and!; [intros; congruence|done|intros; congruence].
  - destruct (X3 eq_refl). split; cbn; try done; [by rewrite Ha|].
    unfold ops_ok. cbn. rewrite Ha. cbn. fold m. split_and!; [intros; congruence..|done].
  - destruct (special_law m (u32 (a_devno a)) i) as (S1 & S2 & S3 & S4 & _ & S5 & S6 & _).
    split; cbn; try congruence; fold m; rewrite ?E1, ?E2, ?E3; try done.
    unfold ops_ok. cbn. rewrite S6, E1, E2, E3. split_and!; discriminate.
Qed.

(** The rule for [uvfs_iget]. *)
Lemma wp_iget Q c k sb fh a :
  cache_ok k ->
  (forall o k', same_but_inodes k k' -> got k k' sb fh uid a o -> Q o (World c k')) ->
  wp (uvfs_iget current sb fh a) Q (World c k).
Proof.
  intros Hok HQ. unfold uvfs_iget. apply wp_bind, wp_on_kernel.
  pose proof (iget_law sb (fs_sfuid fh) (fun i => uvfs_compare_inode i fh)
                (uvfs_init_inode fh) k (cache_ready k Hok)) as Hl.
  destruct (iget5_locked _ _ _ _ k) as [o k1]. destruct Hl as [Hs Hl].
  destruct Hl as [(p & i & -> & Hi & Hp & Hsb & Hh & Ht & Hn)|
                  [Hno [[-> Hi]|(p & i & -> & Hp & Hn & Hsb & Hh & Hf & Ha & Hi)]]].
  - rewrite <- Hi in Hp. wp_go. rewrite Hn. wp_go.
    apply (wp_refresh _ c k1 p i); [done|]. wp_go. rewrite Hi in Hp.
    apply HQ.
    + eapply same_but_inodes_trans; [done|]. unfold refresh_kernel.
      by destruct (data_changed i a).
    + apply (got_cached _ _ _ _ _ _ p i); [done|done|by apply compare_same|].
      unfold refresh_kernel. cbn. by rewrite Hi.
  - wp_go. apply HQ; [done|]. apply got_none; [|done].
    intros q i Hq Hsb Hh. apply compare_differ. by apply (Hno q).
  - assert (inodes k1 !! p = Some (uvfs_init_inode fh i)) as Hp1
      by (rewrite Hi; apply lookup_insert_eq).
    wp_go. change (I_NEW (uvfs_init_inode fh i)) with (I_NEW i). rewrite Hn. wp_go.
    eapply wp_set_operations; [apply lookup_insert_eq|]. wp_go.
    set (i4 := with_operations _ _).
    match goal with |- Q _ (World _ (unlock_new_inode p ?k5)) => set (k4 := k5) end.
    destruct (unlock_law p i4 k4) as [Hs4 Hi4]; [cbn; apply lookup_insert_eq|].
    apply HQ.
    + eapply same_but_inodes_trans; [done|].
      by eapply (same_but_inodes_trans _ k4); [|done].
    + eapply (got_new _ _ _ _ _ _ p (set_I_NEW false i4)); [|done| |].
      * intros q j Hq Hsb' Hh'. apply compare_differ. by apply (Hno q).
      * by apply with_operations_made.
      * rewrite Hi4. cbn. by rewrite !insert_insert_eq, Hi, insert_insert_eq.
Qed.
End lemmas.

(** ** Theorems *)

Lemma refreshed_file uid a i : i_fh (refreshed uid a i) = i_fh i /\ i_sb (refreshed uid a i) = i_sb i.
Proof. done. Qed.

Lemma cache_ok_same {K} (k k' : kernel K) : inodes k' = inodes k -> cache_ok k -> cache_ok k'.
Proof. intros E [H1 H2 H3]. by split; rewrite E. Qed.

(** Replacing a cached inode by one for the same file keeps the cache in order. *)
Lemma cache_ok_update {K} (k k' : kernel K) p i i' :
  cache_ok k -> inodes k !! p = Some i -> inodes k' = <[p := i']> (inodes k) ->
  i_fh i' = i_fh i -> i_sb i' = i_sb i -> i_hash i' = i_hash i -> I_NEW i' = I_NEW i ->
  cache_ok k'.
Proof.
  intros [H1 H2 H3] Hp E Ef Es Eh En. split; rewrite E.
  - intros q j [(<- & <-)|(_ & Hq)]%lookup_insert_Some; [rewrite En; eauto|eauto].
  - intros q j [(<- & <-)|(_ & Hq)]%lookup_insert_Some; [rewrite Eh, Ef; eauto|eauto].
  - intros q r j l [(<- & <-)|(Hq0 & Hq)]%lookup_insert_Some
      [(<- & <-)|(Hr0 & Hr)]%lookup_insert_Some; rewrite ?Ef, ?Es; eauto.
Qed.

Lemma cache_ok_got {K} (k k' : kernel K) sb fh uid a o :
  cache_ok k -> got k k' sb fh uid a o -> cache_ok k'.
Proof.
  intros Hok [Hno E|p i Hp Hs Hf E|p i Hno Hp Hm E].
  - by eapply cache_ok_same.
  - by eapply (cache_ok_update k k' p i).
  - destruct Hok as [H1 H2 H3], Hm. split; rewrite E.
    + intros q j [(<- & <-)|(_ & Hq)]%lookup_insert_Some; eauto.
    + intros q j [(<- & <-)|(_ & Hq)]%lookup_insert_Some; [congruence|eauto].
    + intros q r j l [(<- & <-)|(Hq0 & Hq)]%lookup_insert_Some
        [(<- & <-)|(Hr0 & Hr)]%lookup_insert_Some Hsb Hsame; [done| | |by eapply H3].
      * exfalso. subst. eapply (Hno r l); [done|done| |by symmetry].
        rewrite (H2 _ _ Hr). destruct Hsame as (_ & -> & _). done.
      * exfalso. subst. eapply (Hno q j); [done|done| |done].
        rewrite (H2 _ _ Hq). by destruct Hsame as (_ & -> & _).
Qed.

(** The inode that was got, afterwards. *)
Lemma got_inode {K} (k k' : kernel K) sb fh uid a p :
  got k k' sb fh uid a (Some p) ->
  exists i, inodes k' !! p = Some i /\ i_sb i = sb /\ same_file (i_fh i) fh /\
            i_mode (i_attrs i) = u16 (a_mode a) /\ attr_uid i = uid.
Proof.
  inversion 1 as [|? i Hp Hs Hf E|? i Hno Hp Hm E]; subst.
  - eexists. rewrite E, lookup_insert_eq. by split_and!.
  - destruct Hm. exists i. rewrite E, lookup_insert_eq. split_and!; try done. by rewrite made_fh0.
Qed.

(** The same file is found again. *)
Lemma got_again {K} (k k' k'' : kernel K) sb fh fh' uid a a' p o :
  cache_ok k -> got k k' sb fh uid a (Some p) -> same_file fh fh' ->
  got k' k'' sb fh' uid a' o -> o = Some p.
Proof.
  intros Hok Hg Hs Hg'. pose proof (cache_ok_got _ _ _ _ _ _ _ Hok Hg) as Hok'.
  destruct (got_inode _ _ _ _ _ _ _ Hg) as (i & Hi & Hsb & Hf & _).
  pose proof (cache_hash k' Hok' p i Hi) as Hh.
  assert (same_file (i_fh i) fh') as Hf' by by transitivity fh.
  assert (i_hash i = fs_sfuid fh') as Hh' by by (rewrite Hh; apply Hf').
  inversion Hg' as [Hno|q j Hq Hsb' Hfq E|q j Hno]; subst.
  - by destruct (Hno p i).
  - f_equal. apply (cache_unique k' Hok' q p j i); [done|done|done|]. by transitivity fh'.
  - by destruct (Hno p i).
Qed.

Section theorems.
Context {C K : Type} `{ConduitLaws C} `{VFSLaws K} (current : task_cred).
Implicit Types (c : C) (k : kernel K).

(** C12: [uvfs_iget] returns an inode for the file of the handle with the server's
    attributes: the cached inode, refreshed, if there is one, and otherwise a new
    one with the operation tables of its type, or nothing when memory is short.
    No other inode changes, and the cache keeps one inode per file. *)
Theorem uvfs_iget_correct c k sb fh a :
  cache_ok k ->
  wp (uvfs_iget current sb fh a)
     (fun o w => conduit w = c /\ cache_ok (kern w) /\ same_but_inodes k (kern w) /\
                 got k (kern w) sb fh (current_fsuid current) a o) (World c k).
Proof.
  intros Hok. apply wp_iget; [done|]. intros o k' Hs Hg. cbn.
  split; [done|]. split; [|done]. by eapply cache_ok_got.
Qed.

(** The identity of files is that of their inodes: two calls of [uvfs_iget] on a
    super block return the same inode exactly when the handles agree on the archive,
    file and sandbox numbers, whatever else the handles say; and once the inode of a
    file is there the second call cannot fail. *)
Theorem uvfs_iget_identity c k sb fh fh' a a' :
  cache_ok k ->
  wp (o ← uvfs_iget current sb fh a; o' ← uvfs_iget current sb fh' a'; mret (o, o'))
     (fun r _ => forall p, fst r = Some p -> (snd r = Some p <-> same_file fh fh'))
     (World c k).
Proof.
  intros Hok. apply wp_bind, wp_iget; [done|]. intros o k1 _ Hg.
  pose proof (cache_ok_got _ _ _ _ _ _ _ Hok Hg) as Hok1.
  apply wp_bind, wp_iget; [done|]. intros o' k2 _ Hg'. apply wp_ret. cbn.
  intros p ->. split; [|intros Hs; eapply (got_again k); [exact Hok|exact Hg|exact Hs|exact Hg']].
  intros ->. destruct (got_inode _ _ _ _ _ _ _ Hg) as (i & Hi & _ & Hf & _).
  inversion Hg' as [|q j Hq _ Hfj E|q j _ Hq]; subst; simplify_eq.
  transitivity (i_fh i); [by symmetry|done].
Qed.

(** What a revalidation of the inode [p] leaves. *)
Definition revalidated_inode (c : C) (k : kernel K) (p : iptr) (i : inode) :
    Z -> world C K -> Prop :=
  fun ret w =>
    ret = - ENOMEM /\ silent c (conduit w) /\ kern w = k \/
    exists u, asked c (conduit w)
                (RqGetattr (current_fsuid current) (current_fsgid current) (i_fh i)) u /\
      ret = get_int uvfs_getattr_rep_s "error" u /\
      kern w = if ret =? 0
               then refresh_kernel current p i (get_attr uvfs_getattr_rep_s "a" u) k else k.

(** [uvfs_revalidate_inode] asks for the attributes of the file and nothing else;
    when the server gives them the inode takes them over and pages are dropped if
    the size or the time of modification has changed; otherwise no inode changes. *)
Lemma uvfs_revalidate_spec c k p i :
  inodes k !! p = Some i ->
  wp (uvfs_revalidate_inode current p) (revalidated_inode c k p i) (World c k).
Proof.
  unfold revalidated_inode.
  intros Hp. unfold uvfs_revalidate_inode. wp_go. apply wp_new.
  - intros c' Hs. wp_go. by left.
  - intros c' t serial u0 Hser Hfree Hl He. wp_go.
    eapply (wp_submit _ c _ _ _ _ _ (RqGetattr _ _ _)); [done..|]. intros c2 u Hh.
    destruct (get_int uvfs_getattr_rep_s "error" u =? 0) eqn:E; wp_go.
    + eapply wp_refresh; [done|]. wp_go. right. exists u. by rewrite E.
    + right. exists u. by rewrite E.
Qed.
End theorems.

Lemma demo_cache_ok : cache_ok demo_kernel.
Proof.
  assert (forall p i, inodes demo_kernel !! p = Some i ->
    p = 0%nat /\ i = demo_inode 2 (S_IFDIR + 493) Uvfs_dir_inode_operations \/
    p = 1%nat /\ i = demo_inode 3 (S_IFREG + 420) Uvfs_file_inode_operations) as Hd.
  { intros p i H. cbn [inodes demo_kernel] in H.
    apply lookup_insert_Some in H as [(<- & <-)|(Hne & H)]; [by left|].
    apply lookup_singleton_Some in H as [<- <-]. by right. }
  split.
  - by intros p i [[_ ->]|[_ ->]]%Hd.
  - by intros p i [[_ ->]|[_ ->]]%Hd.
  - intros p q i j [[-> ->]|[-> ->]]%Hd [[-> ->]|[-> ->]]%Hd _ (_ & Hs & _); done.
Qed.

Lemma uvfs_iget_correct_witness :
  wp (uvfs_iget demo_cred 0%nat (demo_fh 7) (demo_attr (S_IFREG + 420)))
     (fun o w => conduit w = demo_alone /\ cache_ok (kern w) /\
        same_but_inodes demo_kernel (kern w) /\
        got demo_kernel (kern w) 0%nat (demo_fh 7) 100 (demo_attr (S_IFREG + 420)) o)
     demo_world.
Proof. apply (uvfs_iget_correct demo_cred), demo_cache_ok. Defined.

Lemma uvfs_iget_identity_witness :
  wp (o ← uvfs_iget demo_cred 0%nat (demo_fh 3) (demo_attr (S_IFREG + 420));
      o' ← uvfs_iget demo_cred 0%nat (FHandle 9 9 9 3 9 5 3 9) (demo_attr (S_IFREG + 420));
      mret (o, o'))
     (fun r _ => forall p, fst r = Some p ->
        (snd r = Some p <-> same_file (demo_fh 3) (FHandle 9 9 9 3 9 5 3 9)))
     demo_world.
Proof. apply (uvfs_iget_identity demo_cred), demo_cache_ok. Defined.

Lemma uvfs_revalidate_spec_witness :
  exists i, wp (uvfs_revalidate_inode demo_cred 1%nat)
     (fun ret w =>
        ret = - ENOMEM /\ silent demo_alone (conduit w) /\ kern w = demo_kernel \/
        exists u, asked demo_alone (conduit w) (RqGetattr 100 100 (i_fh i)) u /\
          ret = get_int uvfs_getattr_rep_s "error" u /\
          kern w = if ret =? 0
                   then refresh_kernel demo_cred 1%nat i (get_attr uvfs_getattr_rep_s "a" u)
                          demo_kernel
                   else demo_kernel)
     demo_world.
Proof.
  exists (demo_inode 3 (S_IFREG + 420) Uvfs_file_inode_operations).
  apply (uvfs_revalidate_spec demo_cred). reflexivity.
Defined.

(** The runs of the example: the server's attributes arrive. *)
Example demo_revalidate :
  (fun r => (fst r, (fun i => i_size (i_attrs i)) <$> inodes (kern (snd r)) !! 1%nat)) <$>
  uvfs_revalidate_inode demo_cred 1%nat demo_world = Some (0, Some 10).
Proof. by vm_compute. Qed.

Example demo_revalidate_down :
  fst <$> uvfs_revalidate_inode demo_cred 1%nat demo_down = Some (- EIO).
Proof. by vm_compute. Qed.
