(* ===== verification/Dir.v ===== *)
(** * Directory operations (dir.c)

    Each operation builds its request, makes it, and does to the inodes and dentries
    what the reply says.  The arguments are addresses, so that a directory may be
    given twice. *)

From stdpp Require Import prelude gmap list strings.
From Stdlib Require Import ZArith Lia.
From S2P Require Import Prelude Protocol Driver DriverSteps Requests RequestProps Conduit.
From S2P Require Import Kernel Calls Inode.

Open Scope string_scope.
Open Scope list_scope.
Open Scope Z_scope.

(** [S_ISGID] on a directory gives its group to what is made in it. *)
Definition inherits_gid (i : inode) : bool := truthy (Z.land (i_mode (i_attrs i)) S_ISGID).
Definition new_gid (current : task_cred) (i : inode) : Z :=
  if inherits_gid i then i_gid (i_attrs i) else current_fsgid current.

Section dir.
Context {C K : Type} `{Conduit C} `{VFS K} (current : task_cred).
Abbreviation fsuid := (current_fsuid current).
Abbreviation fsgid := (current_fsgid current).

Definition uvfs_create (dir : iptr) (entry : dptr) (mode : Z) : M (world C K) Z :=
  d ← get_dentry entry;
  if UVFS_MAX_NAMELEN <? len (d_name d) then mret (- ENAMETOOLONG) else
  trans ← on_conduit new_trans;
  match trans with
  | None => mret (- ENOMEM)
  | Some t =>
      i ← get_inode dir;
      reply ← submit_request t (fun serial =>
        create_request serial fsuid (new_gid current i) (i_fh i) mode (d_name d));
      let error := get_int uvfs_create_rep_s "error" reply in
      if error <? 0 then
        on_rest (d_drop entry);;
        on_conduit (free_trans t);; mret error
      else
        inode ← uvfs_iget current (i_sb i) (get_fh uvfs_create_rep_s "fh" reply)
                  (get_attr uvfs_create_rep_s "a" reply);
        match inode with
        | None => on_conduit (free_trans t);; mret (- ENOMEM)
        | Some p =>
            on_kern (d_instantiate entry p);;
            on_conduit (free_trans t);; mret 0
        end
  end.

(** The result comes with what has been stored through [fh] and [attr]. *)
Definition uvfs_lookup_by_name (dir : iptr) (filename : list Z) :
    M (world C K) (Z * option (fhandle * attr)) :=
  if UVFS_MAX_NAMELEN <? len filename then mret (- ENAMETOOLONG, None) else
  trans ← on_conduit new_trans;
  match trans with
  | None => mret (- ENOMEM, None)
  | Some t =>
      i ← get_inode dir;
      reply ← submit_request t (fun serial =>
        lookup_request serial fsuid fsgid (i_fh i) filename);
      on_conduit (free_trans t);;
      mret (get_int uvfs_lookup_rep_s "error" reply,
            Some (get_fh uvfs_lookup_rep_s "fh" reply, get_attr uvfs_lookup_rep_s "a" reply))
  end.

(** The first assignments of [retval] are overwritten. *)
Definition uvfs_lookup (dir : iptr) (entry : dptr) : M (world C K) ptr_or_err :=
  d ← get_dentry entry;
  r ← uvfs_lookup_by_name dir (d_name d);
  let (err, out) := (r : Z * option (fhandle * attr)) in
  ri ← (if err <? 0 then
          mret (if err =? - ENOENT then PtrNull else ERR_PTR err, None)
        else
          match out with
          | None => fault
          | Some (fh, attr) =>
              i ← get_inode dir;
              inode ← uvfs_iget current (i_sb i) fh attr;
              mret (match inode with None => ERR_PTR (- ENOMEM) | Some _ => PtrNull end, inode)
          end);
  upd_dentry entry set_d_op;;
  o ← on_kernel (d_splice_alias (ri : ptr_or_err * option iptr).2 entry);
  mret (match o with Some a => Ptr a | None => PtrNull end).

Definition uvfs_unlink (dir : iptr) (entry : dptr) : M (world C K) Z :=
  d ← get_dentry entry;
  if UVFS_MAX_NAMELEN <? len (d_name d) then mret (- ENAMETOOLONG) else
  trans ← on_conduit new_trans;
  match trans with
  | None => mret (- ENOMEM)
  | Some t =>
      i ← get_inode dir;
      reply ← submit_request t (fun serial =>
        unlink_request serial fsuid fsgid (i_fh i) (d_name d));
      let error := get_int uvfs_unlink_rep_s "error" reply in
      whenb (error =? 0) (p ← d_inode_of d; upd_inode p (add_nlink (-1)));;
      on_conduit (free_trans t);;
      mret error
  end.

(** [path] is the string without the NUL that ends it. *)
Definition uvfs_symlink (dir : iptr) (entry : dptr) (path : list Z) : M (world C K) Z :=
  d ← get_dentry entry;
  if UVFS_MAX_NAMELEN <? len (d_name d) then mret (- ENAMETOOLONG) else
  if UVFS_MAX_PATHLEN <? len path then mret (- ENAMETOOLONG) else
  trans ← on_conduit new_trans;
  match trans with
  | None => mret (- ENOMEM)
  | Some t =>
      i ← get_inode dir;
      reply ← submit_request t (fun serial =>
        symlink_request serial fsuid (new_gid current i) (i_fh i) (d_name d) path);
      let error := get_int uvfs_symlink_rep_s "error" reply in
      if error <? 0 then
        on_rest (d_drop entry);;
        on_conduit (free_trans t);; mret error
      else
        inode ← uvfs_iget current (i_sb i) (get_fh uvfs_symlink_rep_s "fh" reply)
                  (get_attr uvfs_symlink_rep_s "a" reply);
        match inode with
        | None => on_conduit (free_trans t);; mret (- ENOMEM)
        | Some p =>
            on_kern (d_instantiate entry p);;
            on_conduit (free_trans t);; mret 0
        end
  end.

Definition mkdir_mode (i : inode) (mode : Z) : Z :=
  let m := Z.lor mode S_IFDIR in if inherits_gid i then Z.lor m S_ISGID else m.

Definition uvfs_mkdir (dir : iptr) (entry : dptr) (mode : Z) : M (world C K) Z :=
  d ← get_dentry entry;
  if UVFS_MAX_NAMELEN <? len (d_name d) then mret (- ENAMETOOLONG) else
  trans ← on_conduit new_trans;
  match trans with
  | None => mret (- ENOMEM)
  | Some t =>
      i ← get_inode dir;
      reply ← submit_request t (fun serial =>
        mkdir_request serial fsuid (new_gid current i) (i_fh i) (mkdir_mode i mode) (d_name d));
      let error := get_int uvfs_mkdir_rep_s "error" reply in
      if error <? 0 then
        on_rest (d_drop entry);;
        on_conduit (free_trans t);; mret error
      else
        inode ← uvfs_iget current (i_sb i) (get_fh uvfs_mkdir_rep_s "fh" reply)
                  (get_attr uvfs_mkdir_rep_s "a" reply);
        match inode with
        | None => on_conduit (free_trans t);; mret (- ENOMEM)
        | Some p =>
            on_kern (d_instantiate entry p);;
            upd_inode dir (add_nlink 1);;
            on_conduit (free_trans t);; mret 0
        end
  end.

Definition uvfs_rmdir (dir : iptr) (entry : dptr) : M (world C K) Z :=
  d ← get_dentry entry;
  if UVFS_MAX_NAMELEN <? len (d_name d) then mret (- ENAMETOOLONG) else
  trans ← on_conduit new_trans;
  match trans with
  | None => mret (- ENOMEM)
  | Some t =>
      i ← get_inode dir;
      reply ← submit_request t (fun serial =>
        rmdir_request serial fsuid fsgid (i_fh i) (d_name d));
      let error := get_int uvfs_rmdir_rep_s "error" reply in
      whenb (error =? 0)
        (p ← d_inode_of d; upd_inode p (add_nlink (-2));; upd_inode dir (add_nlink (-1)));;
      on_conduit (free_trans t);;
      mret (if error =? - EREMOTE then - ENOTEMPTY else error)
  end.

Definition uvfs_rename (srcdir : iptr) (srcentry : dptr) (dstdir : iptr) (dstentry : dptr) :
    M (world C K) Z :=
  sd ← get_dentry srcentry;
  dd ← get_dentry dstentry;
  if (UVFS_MAX_NAMELEN <? len (d_name sd)) || (UVFS_MAX_NAMELEN <? len (d_name dd))
  then mret (- ENAMETOOLONG) else
  trans ← on_conduit new_trans;
  match trans with
  | None => mret (- ENOMEM)
  | Some t =>
      si ← get_inode srcdir;
      di ← get_inode dstdir;
      reply ← submit_request t (fun serial =>
        rename_request serial fsuid fsgid (i_fh si) (d_name sd) (i_fh di) (d_name dd));
      let error := get_int uvfs_rename_rep_s "error" reply in
      whenb (error =? 0) (
        match d_inode dd with
        | Some dnode =>
            n ← get_inode dnode;
            if S_ISDIR (i_mode (i_attrs n)) then
              upd_inode dnode (add_nlink (-2));; upd_inode dstdir (add_nlink (-1))
            else upd_inode dnode (add_nlink (-1))
        | None => mret tt
        end;;
        snode ← d_inode_of sd;
        n ← get_inode snode;
        whenb (S_ISDIR (i_mode (i_attrs n)))
          (upd_inode dstdir (add_nlink 1);; upd_inode srcdir (add_nlink (-1))));;
      on_conduit (free_trans t);;
      mret error
  end.

(** The exits of [uvfs_dentry_revalidate]. *)
Definition revalidate_out (parent : dptr) : M (world C K) Z :=
  on_rest (dput parent);; mret 1.
Definition revalidate_out_bad (dentry parent : dptr) (inode : option iptr) : M (world C K) Z :=
  dir ← (match inode with
         | Some p => i ← get_inode p; mret (S_ISDIR (i_mode (i_attrs i)))
         | None => mret false
         end);
  busy ← gets (fun w => dir && have_submounts dentry (rest (kern w)));
  if busy : bool then revalidate_out parent
  else
    whenb dir (on_rest (shrink_dcache_parent dentry));;
    on_rest (d_drop dentry);;
    on_rest (dput parent);;
    mret 0.

Definition uvfs_dentry_revalidate (dentry : dptr) : M (world C K) Z :=
  d ← get_dentry dentry;
  let parent := d_parent d in
  on_rest (dget parent);;
  match d_inode d with
  | None => revalidate_out_bad dentry parent None
  | Some p =>
      pd ← get_dentry parent;
      dir ← d_inode_of pd;
      r ← uvfs_lookup_by_name dir (d_name d);
      let (error, out) := (r : Z * option (fhandle * attr)) in
      if truthy error then
        if error =? - ERESTARTSYS then revalidate_out parent
        else revalidate_out_bad dentry parent (Some p)
      else
        match out with
        | None => fault
        | Some (fh, _) =>
            i ← get_inode p;
            if uvfs_compare_inode i fh then revalidate_out parent
            else revalidate_out_bad dentry parent (Some p)
        end
  end.
End dir.
