(* ===== verification/DirProps.v ===== *)
(** * What the directory operations do (dir.c)

    For each operation: that it returns without touching memory that is not there,
    the one request it makes, and what becomes of the inodes and dentries for every
    reply.  Every operation leaves the transactions as they were. *)

From stdpp Require Import prelude gmap list strings.
From Stdlib Require Import ZArith Lia.
From S2P Require Import Prelude Protocol Driver DriverSteps Requests RequestProps Conduit.
From S2P Require Import ConduitDriver Kernel VFSModel Demo Calls Inode Dir.

Open Scope string_scope.
Open Scope list_scope.
Open Scope Z_scope.

(** ** Specification *)

(** An operation that makes the request [r], and does [post] with the reply; before
    that it can fail for lack of memory. *)
Definition makes {C K} `{Conduit C} (r : request) (post : mem -> Z -> kernel K -> Prop)
    (w : world C K) (ret : Z) (w' : world C K) : Prop :=
  ret = - ENOMEM /\ silent (conduit w) (conduit w') /\ kern w' = kern w \/
  exists u, asked (conduit w) (conduit w') r u /\ post u ret (kern w').

(** An operation that also fails, without effect, when a name is too long. *)
Definition makes_if {C K} `{Conduit C} (ok : bool) (r : request)
    (post : mem -> Z -> kernel K -> Prop) (w : world C K) (ret : Z) (w' : world C K) : Prop :=
  if ok then makes r post w ret w' else ret = - ENAMETOOLONG /\ w' = w.

Definition name_ok (l : list Z) : bool := len l <=? UVFS_MAX_NAMELEN.

Section spec.
Context {C K : Type} `{Conduit C} `{VFS K} (current : task_cred).
Abbreviation fsuid := (current_fsuid current).
Abbreviation fsgid := (current_fsgid current).

(** The group of what is made in the directory [i], and the mode of a directory that is
    made in it: bit 10 of a mode is the set-group-ID bit, which a directory hands down
    together with its group; bit 14 says that a file is a directory. *)
Definition group_inside (i : inode) : Z :=
  if Z.testbit (i_mode (i_attrs i)) 10 then i_gid (i_attrs i) else fsgid.
Definition mode_inside (i : inode) (mode : Z) : Z :=
  let m := Z.setbit mode 14 in
  if Z.testbit (i_mode (i_attrs i)) 10 then Z.setbit m 10 else m.

(** After a reply of type [t] to CREATE, SYMLINK or MKDIR: the dentry is dropped when
    the server refused; otherwise it is filled in with the inode of the handle. *)
Definition entry_made (t : ctype) (sb : sbptr) (e : dptr) (d : dentry) (k : kernel K)
    (u : mem) (ret : Z) (k' : kernel K) : Prop :=
  let error := get_int t "error" u in
  if error <? 0 then ret = error /\ k' = set_rest (d_drop e (rest k)) k
  else exists o k1, same_but_inodes k k1 /\
         got k k1 sb (get_fh t "fh" u) fsuid (get_attr t "a" u) o /\
         match o with
         | None => ret = - ENOMEM /\ k' = k1
         | Some p => ret = 0 /\ same_but_dentries k1 k' /\
                     dentries k' = <[e := set_d_inode (Some p) d]> (dentries k)
         end.

(** The same with a link more to the directory. *)
Definition directory_made (sb : sbptr) (dir : iptr) (e : dptr) (d : dentry) (k : kernel K)
    (u : mem) (ret : Z) (k' : kernel K) : Prop :=
  exists k2, entry_made uvfs_mkdir_rep_s sb e d k u ret k2 /\
  k' = if ret =? 0 then set_inodes (alter (add_nlink 1) dir (inodes k2)) k2 else k2.

(** After a reply to UNLINK and RMDIR. *)
Definition unlinked (p : iptr) (k : kernel K) (u : mem) (ret : Z) (k' : kernel K) : Prop :=
  ret = get_int uvfs_unlink_rep_s "error" u /\
  k' = if ret =? 0 then set_inodes (alter (add_nlink (-1)) p (inodes k)) k else k.
Definition directory_removed (dir p : iptr) (k : kernel K) (u : mem) (ret : Z)
    (k' : kernel K) : Prop :=
  let error := get_int uvfs_rmdir_rep_s "error" u in
  ret = (if error =? - EREMOTE then - ENOTEMPTY else error) /\
  k' = if error =? 0
       then set_inodes (alter (add_nlink (-1)) dir (alter (add_nlink (-2)) p (inodes k))) k
       else k.

(** The link counts after a rename: what was replaced loses its links, and a directory
    takes the link of its parent with it. *)
Definition replace_links (dstdir : iptr) (target : option iptr) (m : gmap iptr inode) :
    gmap iptr inode :=
  match target with
  | None => m
  | Some p =>
      if match m !! p with Some i => S_ISDIR (i_mode (i_attrs i)) | None => false end
      then alter (add_nlink (-1)) dstdir (alter (add_nlink (-2)) p m)
      else alter (add_nlink (-1)) p m
  end.
Definition rename_links (srcdir dstdir p : iptr) (target : option iptr)
    (m : gmap iptr inode) : gmap iptr inode :=
  let m1 := replace_links dstdir target m in
  if match m !! p with Some i => S_ISDIR (i_mode (i_attrs i)) | None => false end
  then alter (add_nlink (-1)) srcdir (alter (add_nlink 1) dstdir m1) else m1.
Definition renamed (srcdir dstdir p : iptr) (target : option iptr) (k : kernel K)
    (u : mem) (ret : Z) (k' : kernel K) : Prop :=
  ret = get_int uvfs_rename_rep_s "error" u /\
  k' = if ret =? 0 then set_inodes (rename_links srcdir dstdir p target (inodes k)) k else k.

(** The dentry is filled in with [o], or another dentry of that inode is returned. *)
Definition spliced (e : dptr) (d : dentry) (o : option iptr) (k : kernel K)
    (ret : ptr_or_err) (k' : kernel K) : Prop :=
  same_but_dentries k k' /\
  match ret with
  | PtrNull => dentries k' = <[e := set_d_inode o (set_d_op d)]> (dentries k)
  | Ptr a => o <> None /\ d_inode <$> (dentries k' !! a) = Some o
  | ERR_PTR _ => False
  end.

(** The outcome of a lookup. *)
Definition lookup_post (entry : dptr) (i : inode) (d : dentry) (w : world C K)
    (ret : ptr_or_err) (w' : world C K) : Prop :=
  let k := kern w in
  (spliced entry d None k ret (kern w') /\ silent (conduit w) (conduit w')) \/
  name_ok (d_name d) = true /\
  exists u, asked (conduit w) (conduit w') (RqLookup fsuid fsgid (i_fh i) (d_name d)) u /\
    if get_int uvfs_lookup_rep_s "error" u <? 0
    then spliced entry d None k ret (kern w')
    else exists o k1, same_but_inodes k k1 /\
           got k k1 (i_sb i) (get_fh uvfs_lookup_rep_s "fh" u) fsuid
             (get_attr uvfs_lookup_rep_s "a" u) o /\
           spliced entry d o k1 ret (kern w').

(** What a dentry that may not be trusted ends in: its result and the kernel's state. *)
Definition distrusted (dentry parent : dptr) (dir : bool) (r : K) : Z * K :=
  if dir && have_submounts dentry r then (1, dput parent r)
  else (0, dput parent (d_drop dentry (if dir then shrink_dcache_parent dentry r else r))).

(** The reply to the LOOKUP of a dentry of the inode [i] vouches for it. *)
Definition vouches (i : inode) (u : mem) : bool :=
  let error := get_int uvfs_lookup_rep_s "error" u in
  (error =? - ERESTARTSYS) ||
  ((error =? 0) && uvfs_compare_inode i (get_fh uvfs_lookup_rep_s "fh" u)).
End spec.

(** ** Lemmas *)

Lemma name_ok_spec l : name_ok l = negb (UVFS_MAX_NAMELEN <? len l).
Proof. unfold name_ok. by rewrite Z.leb_antisym. Qed.

Lemma name_fits l : (UVFS_MAX_NAMELEN <? len l) = false -> len l <= UVFS_MAX_NAMELEN.
Proof. apply Z.ltb_ge. Qed.
#[export] Hint Resolve name_fits : uvfs.

Section theorems.
Context {C K : Type} `{ConduitLaws C} `{VFSLaws K} (current : task_cred).
Implicit Types (c : C) (k : kernel K).
Abbreviation fsuid := (current_fsuid current).
Abbreviation fsgid := (current_fsgid current).

(** A new transaction: the operation gives up, or goes on with a fresh one. *)
Lemma wp_makes r (post : mem -> Z -> kernel K -> Prop) (k : kernel K) c
    (f : option ptr -> M (world C K) Z) :
  f None = mret (- ENOMEM) ->
  (forall c' t serial u0, int_range serial -> live c !! t = None ->
   live c' = <[t := (serial, u0)]> (live c) -> exchanges c' = exchanges c ->
   wp (f (Some t)) (makes r post (World c k)) (World c' k)) ->
  wp (on_conduit new_trans ≫= f) (makes r post (World c k)) (World c k).
Proof.
  intros Hn Hs. apply wp_bind, wp_new.
  - intros c' Hc. rewrite Hn. wp_go. by left.
  - intros. by eapply Hs.
Qed.

(** The rule for a lookup. *)
Lemma wp_lookup_by_name Q c k dir i name :
  inodes k !! dir = Some i ->
  (name_ok name = false -> Q (- ENAMETOOLONG, None) (World c k)) ->
  (name_ok name = true -> forall c', silent c c' -> Q (- ENOMEM, None) (World c' k)) ->
  (name_ok name = true -> forall c' u, asked c c' (RqLookup fsuid fsgid (i_fh i) name) u ->
   Q (get_int uvfs_lookup_rep_s "error" u,
      Some (get_fh uvfs_lookup_rep_s "fh" u, get_attr uvfs_lookup_rep_s "a" u)) (World c' k)) ->
  wp (uvfs_lookup_by_name current dir name) Q (World c k).
Proof.
  intros Hi Hlong Hmem Hasked. unfold uvfs_lookup_by_name. rewrite name_ok_spec in *.
  destruct (_ <? _) eqn:En; cbn [negb] in *; [by wp_go; apply Hlong|].
  apply wp_bind, wp_new.
  - intros c' Hc. wp_go. by apply Hmem.
  - intros c' t serial u0 Hser Hfree Hl He. wp_go.
    eapply (wp_submit _ c _ _ _ _ _ (RqLookup _ _ _ _)); [done..|by apply name_fits|].
    intros c2 u Hh. wp_go. by apply Hasked.
Qed.

(** The rule for filling in a dentry. *)
Lemma wp_splice Q c k e d o :
  (forall ret k', spliced e d o k ret k' -> Q ret (World c k')) ->
  wp (on_kernel (d_splice_alias o e))
     (fun r w => wp (mret (match r with Some a => Ptr a | None => PtrNull end)) Q w)
     (World c (set_dentries (<[e := set_d_op d]> (dentries k)) k)).
Proof.
  intros HQ. apply wp_on_kernel. set (k1 := set_dentries _ k).
  pose proof (splice_law o e (set_d_op d) k1 (lookup_insert_eq _ _ _)) as Hs.
  destruct (d_splice_alias o e k1) as [r k2]. destruct Hs as [Hs Hr]. wp_go. apply HQ.
  split; [exact Hs|]. destruct r as [a|]; [done|].
  rewrite Hr. cbn. by rewrite insert_insert_eq.
Qed.

Lemma inherits_gid_bit i : inherits_gid i = Z.testbit (i_mode (i_attrs i)) 10.
Proof. unfold inherits_gid. by apply (truthy_land_bit _ 10). Qed.

Lemma new_gid_bit i : new_gid current i = group_inside current i.
Proof. unfold new_gid, group_inside. by rewrite inherits_gid_bit. Qed.

Lemma mkdir_mode_bit i mode : mkdir_mode i mode = mode_inside i mode.
Proof. unfold mkdir_mode, mode_inside. by rewrite inherits_gid_bit, !Z.setbit_spec'. Qed.

Lemma uvfs_create_spec c k dir entry mode i d :
  cache_ok k -> inodes k !! dir = Some i -> dentries k !! entry = Some d ->
  wp (uvfs_create current dir entry mode)
     (makes_if (name_ok (d_name d))
        (RqCreate fsuid (group_inside current i) (i_fh i) mode (d_name d))
        (entry_made current uvfs_create_rep_s (i_sb i) entry d k) (World c k))
     (World c k).
Proof.
  intros Hok Hi Hd. rewrite <- new_gid_bit. unfold uvfs_create, makes_if. wp_go. rewrite name_ok_spec.
  destruct (_ <? _) eqn:En; cbn [negb]; [by wp_go|].
  apply wp_makes; [done|]. intros c' t serial u0 Hser Hfree Hl He. wp_go.
  eapply (wp_submit _ c _ _ _ _ _ (RqCreate _ _ _ _ _)); [done..|by apply name_fits|].
  intros c2 u Hh. destruct (get_int _ "error" u <? 0) eqn:Ee.
  - wp_go. right. exists u. split; [done|]. unfold entry_made. by rewrite Ee.
  - wp_go. apply wp_iget; [done|]. intros o k1 Hs Hg. destruct o as [p|].
    + wp_go. right. exists u. split; [done|]. unfold entry_made. rewrite Ee.
      exists (Some p), k1. split; [done|]. split; [done|]. split; [done|].
      destruct Hs as (Ed & _). rewrite <- Ed in Hd |- *. by apply instantiate_law.
    + wp_go. right. exists u. split; [done|]. unfold entry_made. rewrite Ee. by exists None, k1.
Qed.

(** C28: CREATE: a name that is too long is refused at once.  Otherwise exactly one
    request is made, with the mode as given and in the caller's group or, if the
    directory has the set-group-ID bit, in the directory's ([group_inside]); a refusal drops the dentry and is returned; success fills the dentry in with the
    inode of the new file. *)
Theorem uvfs_create_correct c k dir entry mode i d :
  cache_ok k -> inodes k !! dir = Some i -> dentries k !! entry = Some d ->
  wp (uvfs_create current dir entry mode)
     (makes_if (name_ok (d_name d))
        (RqCreate fsuid (group_inside current i) (i_fh i) mode (d_name d))
        (entry_made current uvfs_create_rep_s (i_sb i) entry d k) (World c k))
     (World c k).
Proof. apply uvfs_create_spec. Qed.

(** SYMLINK does the same with a target path, which is refused when it is longer
    than the request has room for. *)
Theorem uvfs_symlink_correct c k dir entry path i d :
  cache_ok k -> inodes k !! dir = Some i -> dentries k !! entry = Some d ->
  wp (uvfs_symlink current dir entry path)
     (makes_if (name_ok (d_name d) && (len path <=? UVFS_MAX_PATHLEN))
        (RqSymlink fsuid (group_inside current i) (i_fh i) (d_name d) path)
        (entry_made current uvfs_symlink_rep_s (i_sb i) entry d k) (World c k))
     (World c k).
Proof.
  intros Hok Hi Hd. rewrite <- new_gid_bit. unfold uvfs_symlink, makes_if. wp_go. rewrite name_ok_spec, Z.leb_antisym.
  destruct (UVFS_MAX_NAMELEN <? _) eqn:En; cbn [negb andb]; [by wp_go|].
  destruct (UVFS_MAX_PATHLEN <? _) eqn:Ep; cbn [negb]; [by wp_go|].
  apply wp_makes; [done|]. intros c' t serial u0 Hser Hfree Hl He. wp_go.
  eapply (wp_submit _ c _ _ _ _ _ (RqSymlink _ _ _ _ _)); [done..| |].
  { split; [by apply name_fits|by apply Z.ltb_ge]. }
  intros c2 u Hh. destruct (get_int _ "error" u <? 0) eqn:Ee.
  - wp_go. right. exists u. split; [done|]. unfold entry_made. by rewrite Ee.
  - wp_go. apply wp_iget; [done|]. intros o k1 Hs Hg. destruct o as [p|].
    + wp_go. right. exists u. split; [done|]. unfold entry_made. rewrite Ee.
      exists (Some p), k1. split; [done|]. split; [done|]. split; [done|].
      destruct Hs as (Ed & _). rewrite <- Ed in Hd |- *. by apply instantiate_law.
    + wp_go. right. exists u. split; [done|]. unfold entry_made. rewrite Ee. by exists None, k1.
Qed.

Lemma uvfs_mkdir_spec c k dir entry mode i d :
  cache_ok k -> inodes k !! dir = Some i -> dentries k !! entry = Some d ->
  wp (uvfs_mkdir current dir entry mode)
     (makes_if (name_ok (d_name d))
        (RqMkdir fsuid (group_inside current i) (i_fh i) (mode_inside i mode) (d_name d))
        (directory_made current (i_sb i) dir entry d k) (World c k))
     (World c k).
Proof.
  intros Hok Hi Hd. rewrite <- new_gid_bit, <- mkdir_mode_bit. unfold uvfs_mkdir, makes_if. wp_go. rewrite name_ok_spec.
  destruct (_ <? _) eqn:En; cbn [negb]; [by wp_go|].
  apply wp_makes; [done|]. intros c' t serial u0 Hser Hfree Hl He. wp_go.
  eapply (wp_submit _ c _ _ _ _ _ (RqMkdir _ _ _ _ _)); [done..|by apply name_fits|].
  intros c2 u Hh. destruct (get_int _ "error" u <? 0) eqn:Ee.
  - wp_go. right. exists u. split; [done|]. eexists. unfold entry_made. rewrite Ee.
    split; [done|]. apply Z.ltb_lt in Ee. by rewrite (proj2 (Z.eqb_neq _ _)) by lia.
  - wp_go. apply wp_iget; [done|]. intros o k1 Hs Hg. destruct o as [p|].
    + destruct Hs as (Ed & Hs). rewrite <- Ed in Hd.
      destruct (instantiate_law entry p d k1 Hd) as [Hd1 Hd2]. pose proof Hd1 as (Ei & _).
      assert (exists j, inodes (d_instantiate entry p k1) !! dir = Some j) as [j Hj].
      { rewrite Ei. inversion Hg as [|q l _ _ _ E|q l _ _ _ E]; subst; rewrite E;
          (destruct (decide (p = dir)) as [->|Hne];
           [rewrite lookup_insert_eq|rewrite lookup_insert_ne by done]); eauto. }
      wp_go. right. exists u. split; [done|]. exists (d_instantiate entry p k1). split.
      * unfold entry_made. rewrite Ee. exists (Some p), k1. split; [done|]. split; [done|].
        split; [done|]. split; [done|]. by rewrite Hd2, Ed.
      * cbn. by rewrite (alter_alt_Some _ _ _ j).
    + wp_go. right. exists u. split; [done|]. exists k1. split; [|done].
      unfold entry_made. rewrite Ee. by exists None, k1.
Qed.

(** C29: MKDIR asks for a directory in the same group, its mode the given one with the bit of
    a directory and, if its parent has it, the set-group-ID bit ([mode_inside]); success fills the dentry in and gives the parent one more link. *)
Theorem uvfs_mkdir_correct c k dir entry mode i d :
  cache_ok k -> inodes k !! dir = Some i -> dentries k !! entry = Some d ->
  wp (uvfs_mkdir current dir entry mode)
     (makes_if (name_ok (d_name d))
        (RqMkdir fsuid (group_inside current i) (i_fh i) (mode_inside i mode) (d_name d))
        (directory_made current (i_sb i) dir entry d k) (World c k))
     (World c k).
Proof. apply uvfs_mkdir_spec. Qed.

(** UNLINK takes one link from the inode when the server agrees, and returns what
    the server said. *)
Lemma uvfs_unlink_spec c k dir entry i d p j :
  inodes k !! dir = Some i -> dentries k !! entry = Some d ->
  d_inode d = Some p -> inodes k !! p = Some j ->
  wp (uvfs_unlink current dir entry)
     (makes_if (name_ok (d_name d)) (RqUnlink fsuid fsgid (i_fh i) (d_name d))
        (unlinked p k) (World c k))
     (World c k).
Proof.
  intros Hi Hd Hp Hj. unfold uvfs_unlink, makes_if. wp_go. rewrite name_ok_spec.
  destruct (_ <? _) eqn:En; cbn [negb]; [by wp_go|].
  apply wp_makes; [done|]. intros c' t serial u0 Hser Hfree Hl He. wp_go.
  eapply (wp_submit _ c _ _ _ _ _ (RqUnlink _ _ _ _)); [done..|by apply name_fits|].
  intros c2 u Hh. unfold unlinked.
  destruct (get_int _ "error" u =? 0) eqn:Ee; wp_go; right; exists u; rewrite Ee;
    [by rewrite (alter_alt_Some _ _ _ j)|done].
Qed.

Lemma uvfs_rmdir_spec c k dir entry i d p j :
  inodes k !! dir = Some i -> dentries k !! entry = Some d ->
  d_inode d = Some p -> inodes k !! p = Some j ->
  wp (uvfs_rmdir current dir entry)
     (makes_if (name_ok (d_name d)) (RqRmdir fsuid fsgid (i_fh i) (d_name d))
        (directory_removed dir p k) (World c k))
     (World c k).
Proof.
  intros Hi Hd Hp Hj. unfold uvfs_rmdir, makes_if. wp_go. rewrite name_ok_spec.
  destruct (_ <? _) eqn:En; cbn [negb]; [by wp_go|].
  apply wp_makes; [done|]. intros c' t serial u0 Hser Hfree Hl He. wp_go.
  eapply (wp_submit _ c _ _ _ _ _ (RqRmdir _ _ _ _)); [done..|by apply name_fits|].
  intros c2 u Hh. unfold directory_removed.
  destruct (get_int _ "error" u =? 0) eqn:Ee; wp_go; [|right; exists u; by rewrite Ee].
  assert (exists i', (<[p:=add_nlink (-2) j]> (inodes k)) !! dir = Some i') as [i' Hi'].
  { destruct (decide (p = dir)) as [->|Hne];
      [rewrite lookup_insert_eq|rewrite lookup_insert_ne by done]; eauto. }
  eapply wp_upd_inode; [exact Hi'|]. wp_go. right. exists u. rewrite Ee. split; [done|].
  split; [done|]. cbn. by rewrite (alter_alt_Some _ _ p j), (alter_alt_Some _ _ dir i').
Qed.

(** RMDIR takes two links from the directory and one from its parent when the
    server agrees; the server's [-EREMOTE] is returned as [-ENOTEMPTY], every other
    error as it is. *)
Theorem uvfs_rmdir_correct c k dir entry i d p j :
  inodes k !! dir = Some i -> dentries k !! entry = Some d ->
  d_inode d = Some p -> inodes k !! p = Some j ->
  wp (uvfs_rmdir current dir entry)
     (makes_if (name_ok (d_name d)) (RqRmdir fsuid fsgid (i_fh i) (d_name d))
        (directory_removed dir p k) (World c k))
     (World c k).
Proof. apply uvfs_rmdir_spec. Qed.

(** Running an update of a link count whose inode is known to be there. *)
Lemma wp_add_nlink Q c k p n :
  is_Some (inodes k !! p) ->
  Q tt (World c (set_inodes (alter (add_nlink n) p (inodes k)) k)) ->
  wp (upd_inode p (add_nlink n)) Q (World c k).
Proof. intros [i Hi] HQ. eapply wp_upd_inode; [done|]. by rewrite <- (alter_alt_Some _ _ _ i). Qed.

Lemma alter_is_Some (f : inode -> inode) p q (m : gmap iptr inode) :
  is_Some (m !! q) -> is_Some (alter f p m !! q).
Proof. by rewrite lookup_alter_is_Some. Qed.

Lemma replace_links_live dstdir o (m : gmap iptr inode) q :
  is_Some (m !! q) -> is_Some (replace_links dstdir o m !! q).
Proof.
  intros Hq. unfold replace_links. destruct o as [r|]; [|done].
  case_match; repeat apply alter_is_Some; done.
Qed.

(** Link counts do not change what kind of file an inode is. *)
Lemma alter_nlink_mode (m : gmap iptr inode) p q n :
  (fun i => i_mode (i_attrs i)) <$> (alter (add_nlink n) q m !! p) =
  (fun i => i_mode (i_attrs i)) <$> (m !! p).
Proof.
  destruct (decide (q = p)) as [->|Hne]; [|by rewrite lookup_alter_ne].
  rewrite lookup_alter_eq. by destruct (m !! p).
Qed.

Lemma replace_links_mode dstdir o (m : gmap iptr inode) p :
  (fun i => i_mode (i_attrs i)) <$> (replace_links dstdir o m !! p) =
  (fun i => i_mode (i_attrs i)) <$> (m !! p).
Proof.
  unfold replace_links. destruct o as [r|]; [|done]. case_match; by rewrite !alter_nlink_mode.
Qed.

Lemma wp_replace Q c k dstdir o :
  is_Some (inodes k !! dstdir) -> (forall q, o = Some q -> is_Some (inodes k !! q)) ->
  Q tt (World c (set_inodes (replace_links dstdir o (inodes k)) k)) ->
  wp (match o with
      | Some dnode =>
          n ← get_inode dnode;
          if S_ISDIR (i_mode (i_attrs n)) then
            upd_inode dnode (add_nlink (-2));; upd_inode dstdir (add_nlink (-1))
          else upd_inode dnode (add_nlink (-1))
      | None => mret tt
      end) Q (World c k).
Proof.
  intros Hd Ht HQ. unfold replace_links in HQ. destruct o as [r|].
  - destruct (Ht r eq_refl) as [l Hl]. rewrite Hl in HQ. wp_go. destruct (S_ISDIR _); wp_go.
    + rewrite <- (alter_alt_Some _ _ _ l) by done. apply wp_add_nlink; [|done].
      by apply alter_is_Some.
    + by rewrite <- (alter_alt_Some _ _ _ l).
  - wp_go. by destruct k.
Qed.

Lemma uvfs_rename_spec c k srcdir src dstdir dst si di sd dd p j :
  inodes k !! srcdir = Some si -> inodes k !! dstdir = Some di ->
  dentries k !! src = Some sd -> dentries k !! dst = Some dd ->
  d_inode sd = Some p -> inodes k !! p = Some j ->
  (forall q, d_inode dd = Some q -> is_Some (inodes k !! q)) ->
  wp (uvfs_rename current srcdir src dstdir dst)
     (makes_if (name_ok (d_name sd) && name_ok (d_name dd))
        (RqRename fsuid fsgid (i_fh si) (d_name sd) (i_fh di) (d_name dd))
        (renamed srcdir dstdir p (d_inode dd) k) (World c k))
     (World c k).
Proof.
  intros Hsi Hdi Hsd Hdd Hp Hj Ht. unfold uvfs_rename, makes_if. wp_go. rewrite !name_ok_spec.
  rewrite <- negb_orb.
  destruct (_ || _) eqn:En; cbn [negb]; [by wp_go|]. apply orb_false_iff in En as [En1 En2].
  apply wp_makes; [done|]. intros c' t serial u0 Hser Hfree Hl He. wp_go.
  eapply (wp_submit _ c _ _ _ _ _ 
    (RqRename fsuid fsgid (i_fh si) (d_name sd) (i_fh di) (d_name dd))); [done..| |].
  { split; by apply name_fits. }
  intros c2 u Hh. unfold renamed.
  destruct (get_int _ "error" u =? 0) eqn:Ee; wp_go; [|right; exists u; by rewrite Ee].
  apply wp_replace; [eauto|done|]. wp_go.
  assert (is_Some (replace_links dstdir (d_inode dd) (inodes k) !! p)) as [j' Hj']
    by (apply replace_links_live; eauto).
  pose proof (replace_links_mode dstdir (d_inode dd) (inodes k) p) as Hm.
  rewrite Hj', Hj in Hm. injection Hm as Hm. wp_go.
  unfold rename_links. rewrite Hj, Hm. destruct (S_ISDIR _); wp_go.
  - apply wp_add_nlink; [apply replace_links_live; eauto|]. wp_go.
    apply wp_add_nlink; [cbn; apply alter_is_Some, replace_links_live; eauto|]. wp_go.
    right. exists u. by rewrite Ee.
  - right. exists u. by rewrite Ee.
Qed.

(** C15: RENAME, when the server agrees: what was at the target loses one link, or two
    and one of its directory's if it was a directory; a directory that moves takes
    the link of its parent along.  This holds also when the two directories are the
    same inode. *)
Theorem uvfs_rename_correct c k srcdir src dstdir dst si di sd dd p j :
  inodes k !! srcdir = Some si -> inodes k !! dstdir = Some di ->
  dentries k !! src = Some sd -> dentries k !! dst = Some dd ->
  d_inode sd = Some p -> inodes k !! p = Some j ->
  (forall q, d_inode dd = Some q -> is_Some (inodes k !! q)) ->
  wp (uvfs_rename current srcdir src dstdir dst)
     (makes_if (name_ok (d_name sd) && name_ok (d_name dd))
        (RqRename fsuid fsgid (i_fh si) (d_name sd) (i_fh di) (d_name dd))
        (renamed srcdir dstdir p (d_inode dd) k) (World c k))
     (World c k).
Proof. intros. by apply uvfs_rename_spec with (j := j). Qed.

Lemma add_nlink_cancel i : uint_range (i_nlink (i_attrs i)) -> add_nlink (-1) (add_nlink 1 i) = i.
Proof.
  intros Hr. destruct i as [fh uid sb h nw ino fl a op fop ao]. destruct a.
  unfold add_nlink, set_nlink, set_attrs. cbn in *. unfold u32, uint_range in *.
  rewrite Zplus_mod_idemp_l.
  by rewrite <- Z.add_assoc, Z.add_0_r, Z.mod_small.
Qed.

(** A rename inside one directory, to a name that is not taken, changes no link
    count, whatever moves: the two directory arguments are one inode, and the link it
    gains is the link it loses. *)
Theorem rename_within_directory c k dir src dst di sd dd p j :
  inodes k !! dir = Some di -> uint_range (i_nlink (i_attrs di)) ->
  dentries k !! src = Some sd -> dentries k !! dst = Some dd ->
  d_inode sd = Some p -> inodes k !! p = Some j -> d_inode dd = None ->
  wp (uvfs_rename current dir src dir dst) (fun _ w' => kern w' = k) (World c k).
Proof.
  intros Hdi Hr Hsd Hdd Hp Hj Hnone.
  eapply wp_mono; [apply (uvfs_rename_spec c k dir src dir dst di di sd dd p j); try done;
                   by rewrite Hnone|].
  intros ret w'. unfold makes_if, makes, renamed. rewrite Hnone.
  destruct (_ && _); [|by intros [_ ->]].
  intros [(_ & _ & ->)|(u & _ & _ & ->)]; [done|]. destruct (ret =? 0); [|done].
  unfold rename_links, replace_links. rewrite Hj. destruct (S_ISDIR _); [|by destruct k].
  rewrite (alter_alt_Some (add_nlink 1) _ _ di) by done.
  rewrite (alter_alt_Some _ _ _ (add_nlink 1 di)) by apply lookup_insert_eq.
  rewrite insert_insert_eq, add_nlink_cancel, insert_id by done. by destruct k.
Qed.

Lemma uvfs_lookup_spec c k dir entry i d :
  cache_ok k -> inodes k !! dir = Some i -> dentries k !! entry = Some d ->
  wp (uvfs_lookup current dir entry) (lookup_post current entry i d (World c k)) (World c k).
Proof.
  intros Hok Hi Hd. unfold uvfs_lookup. wp_go. eapply wp_lookup_by_name; [done|..].
  - intros Hn. change (- ENAMETOOLONG <? 0) with true. cbv iota. wp_go.
    apply wp_splice. intros ret k' Hs. by left.
  - intros Hn c' Hc. change (- ENOMEM <? 0) with true. cbv iota. wp_go.
    apply wp_splice. intros ret k' Hs. by left.
  - intros Hn c' u Hu. destruct (_ <? 0) eqn:Ee.
    + wp_go. apply wp_splice. intros ret k' Hs. right. split; [done|]. exists u. by rewrite Ee.
    + wp_go. apply wp_iget; [done|]. intros o k1 Hs Hg.
      assert (dentries k1 !! entry = Some d) as Hd1 by (destruct Hs as (-> & _); done).
      wp_go. apply wp_splice. intros ret k' Hsp.
      right. split; [done|]. exists u. rewrite Ee. split; [done|]. by exists o, k1.
Qed.

(** C27: a lookup fills the dentry in: with the inode of the file if the server knows
    the name, and otherwise, whatever the error, with none. *)
Theorem uvfs_lookup_correct c k dir entry i d :
  cache_ok k -> inodes k !! dir = Some i -> dentries k !! entry = Some d ->
  wp (uvfs_lookup current dir entry) (lookup_post current entry i d (World c k)) (World c k).
Proof. intros. by apply uvfs_lookup_spec. Qed.

Lemma spliced_none e d k ret k' :
  spliced e d None k ret k' -> ret = PtrNull /\ d_inode <$> (dentries k' !! e) = Some None.
Proof.
  intros [_ Hr]. destruct ret; [|by destruct Hr|done].
  split; [done|]. by rewrite Hr, lookup_insert_eq.
Qed.

Lemma asked_inj c c' r r' u u' : asked c c' r u -> asked c c' r' u' -> u = u'.
Proof.
  intros (_ & ? & ? & _ & E) (_ & ? & ? & _ & E'). rewrite E in E'.
  by apply app_inj_2 in E' as [_ [= _ ->]].
Qed.

Lemma asked_not_silent c c' r u : asked c c' r u -> ~ silent c c'.
Proof.
  intros (_ & ? & ? & _ & E) [E' _]. rewrite E' in E.
  apply (f_equal length) in E. rewrite length_app in E. cbn in E. lia.
Qed.

(** A lookup never returns an error: when it fails, be it that the device is not
    open, that the task was killed, that memory is short or that the server refuses,
    the dentry becomes a negative one, as if the name did not exist. *)
Theorem lookup_hides_errors c k dir entry i d :
  cache_ok k -> inodes k !! dir = Some i -> dentries k !! entry = Some d ->
  wp (uvfs_lookup current dir entry)
     (fun ret w' =>
        (forall e, ret <> ERR_PTR e) /\
        ((silent c (conduit w') \/
          exists r u, asked c (conduit w') r u /\ get_int uvfs_lookup_rep_s "error" u < 0) ->
         ret = PtrNull /\ d_inode <$> (dentries (kern w') !! entry) = Some None))
     (World c k).
Proof.
  intros Hok Hi Hd. eapply wp_mono; [by eapply uvfs_lookup_spec|].
  intros ret w' [[Hs Hc]|[_ (u & Hu & Hr)]].
  - apply spliced_none in Hs as [-> ?]. by split.
  - destruct (_ <? 0) eqn:Ee.
    + apply spliced_none in Hr as [-> ?]. by split.
    + destruct Hr as (o & k1 & _ & _ & _ & Hr). split; [by destruct ret|].
      intros [Hc|(r & u' & Hu' & Hneg)]; [by apply asked_not_silent in Hu|].
      rewrite (asked_inj _ _ _ _ _ _ Hu' Hu) in Hneg. apply Z.ltb_ge in Ee. lia.
Qed.

Lemma wp_out Q c k parent :
  Q 1 (World c (set_rest (dput parent (rest k)) k)) -> wp (revalidate_out parent) Q (World c k).
Proof. intros HQ. unfold revalidate_out. by wp_go. Qed.

Lemma wp_out_bad (Q : Z -> world C K -> Prop) c k dentry parent p i :
  inodes k !! p = Some i ->
  (let (ret, r) := distrusted dentry parent (S_ISDIR (i_mode (i_attrs i))) (rest k) in
   Q ret (World c (set_rest r k))) ->
  wp (revalidate_out_bad dentry parent (Some p)) Q (World c k).
Proof.
  intros Hp HQ. unfold revalidate_out_bad, distrusted in *. wp_go. apply wp_gets. cbn [kern].
  destruct (S_ISDIR _); cbn [andb] in *; [destruct (have_submounts _ _)|]; [by apply wp_out|..];
    wp_go; by destruct k.
Qed.

(** The verdict on a dentry of the inode [j], and the reference to its parent. *)
Definition not_trusted (dentry : dptr) (d : Kernel.dentry) (j : inode) (k : kernel K) : Z * K :=
  distrusted dentry (d_parent d) (S_ISDIR (i_mode (i_attrs j))) (dget (d_parent d) (rest k)).
Definition trusted (d : Kernel.dentry) (k : kernel K) : Z * K :=
  (1, dput (d_parent d) (dget (d_parent d) (rest k))).

(** What the revalidation of a dentry leaves. *)
Definition dentry_checked (c : C) (k : kernel K) (i : inode) (dentry : dptr)
    (d : Kernel.dentry) : Z -> world C K -> Prop :=
  fun ret w' => exists r, kern w' = set_rest r k /\
    match d_inode d with
    | None => silent c (conduit w') /\
              (ret, r) = distrusted dentry (d_parent d) false (dget (d_parent d) (rest k))
    | Some p => exists j, inodes k !! p = Some j /\
        (silent c (conduit w') /\ (ret, r) = not_trusted dentry d j k \/
         exists u, asked c (conduit w') (RqLookup fsuid fsgid (i_fh i) (d_name d)) u /\
           (ret, r) = if vouches j u then trusted d k else not_trusted dentry d j k)
    end.

(** One of the verdicts, with what the conduit is then. *)
Definition verdict (c : C) (k : kernel K) (v : Z * K) : Z -> world C K -> Prop :=
  fun ret w' => exists r, kern w' = set_rest r k /\ conduit w' = c /\ (ret, r) = v.

Lemma wp_not_trusted c k dentry d p j :
  inodes k !! p = Some j ->
  wp (revalidate_out_bad dentry (d_parent d) (Some p)) (verdict c k (not_trusted dentry d j k))
     (World c (set_rest (dget (d_parent d) (rest k)) k)).
Proof.
  intros Hj. unfold verdict, not_trusted. eapply wp_out_bad; [done|]. cbn [rest set_rest].
  destruct (distrusted _ _ _ _) as [ret r]. by exists r.
Qed.

Lemma wp_trusted c k d :
  wp (revalidate_out (d_parent d)) (verdict c k (trusted d k))
     (World c (set_rest (dget (d_parent d) (rest k)) k)).
Proof. apply wp_out. by eexists. Qed.

Lemma verdict_silent c c' k i dentry d p j ret w' :
  d_inode d = Some p -> inodes k !! p = Some j -> silent c c' ->
  verdict c' k (not_trusted dentry d j k) ret w' -> dentry_checked c k i dentry d ret w'.
Proof.
  intros Hp Hj Hc (r & Hk & Ew & Hr). exists r. split; [done|]. rewrite Hp, Ew. exists j.
  split; [done|]. by left.
Qed.

Lemma verdict_asked c c' k i dentry d p j u ret w' :
  d_inode d = Some p -> inodes k !! p = Some j ->
  asked c c' (RqLookup fsuid fsgid (i_fh i) (d_name d)) u ->
  verdict c' k (if vouches j u then trusted d k else not_trusted dentry d j k) ret w' ->
  dentry_checked c k i dentry d ret w'.
Proof.
  intros Hp Hj Hc (r & Hk & Ew & Hr). exists r. split; [done|]. rewrite Hp, Ew. exists j.
  split; [done|]. right. by exists u.
Qed.

Lemma uvfs_dentry_revalidate_spec c k dentry d pd dir i :
  dentries k !! dentry = Some d -> dentries k !! d_parent d = Some pd ->
  d_inode pd = Some dir -> inodes k !! dir = Some i ->
  (forall p, d_inode d = Some p -> is_Some (inodes k !! p)) ->
  wp (uvfs_dentry_revalidate current dentry) (dentry_checked c k i dentry d) (World c k).
Proof.
  intros Hd Hpd Hdir Hi Hlive. unfold uvfs_dentry_revalidate. wp_go.
  destruct (d_inode d) as [p|] eqn:Ep.
  2:{ unfold revalidate_out_bad, dentry_checked. wp_go. apply wp_gets. cbn [andb]. wp_go.
      rewrite Ep. eexists. split; [done|]. split; [by split|done]. }
  destruct (Hlive p eq_refl) as [j Hj]. wp_go.
  eapply (wp_lookup_by_name _ c (set_rest (dget (d_parent d) (rest k)) k)); [done|..].
  - intros _. cbn. eapply wp_mono; [by apply (wp_not_trusted c)|].
    intros ret w'. by apply (verdict_silent c c k i dentry d p j).
  - intros _ c' Hc. cbn. eapply wp_mono; [by apply (wp_not_trusted c')|].
    intros ret w'. by apply (verdict_silent c c' k i dentry d p j).
  - intros _ c' u Hu. eapply wp_mono; [|intros ret w'; by apply (verdict_asked c c' k i dentry d p j u)].
    unfold vouches, truthy. destruct (get_int _ "error" u =? 0) eqn:E0; cbn [negb orb andb].
    + apply Z.eqb_eq in E0. rewrite E0. change (0 =? - ERESTARTSYS) with false. cbn [orb].
      wp_go. destruct (uvfs_compare_inode _ _); [apply wp_trusted|by apply wp_not_trusted].
    + rewrite orb_false_r.
      destruct (_ =? - ERESTARTSYS); [apply wp_trusted|by apply wp_not_trusted].
Qed.

(** C26: a cached dentry stays valid if the server still knows its name by a handle of
    its inode, if the question was interrupted, or if it is a directory with mounts
    below; otherwise, and always when it is negative, it is dropped.  The inodes and
    the dentries keep their contents, and the reference to the parent is given back. *)
Theorem uvfs_dentry_revalidate_correct c k dentry d pd dir i :
  dentries k !! dentry = Some d -> dentries k !! d_parent d = Some pd ->
  d_inode pd = Some dir -> inodes k !! dir = Some i ->
  (forall p, d_inode d = Some p -> is_Some (inodes k !! p)) ->
  wp (uvfs_dentry_revalidate current dentry) (dentry_checked c k i dentry d) (World c k).
Proof. apply uvfs_dentry_revalidate_spec. Qed.
End theorems.

(** ** Witnesses: the example world *)

Abbreviation demo_root := (demo_inode 2 (S_IFDIR + 493) Uvfs_dir_inode_operations).
Abbreviation demo_file := (demo_inode 3 (S_IFREG + 420) Uvfs_file_inode_operations).
Abbreviation demo_free := (Dentry [98; 99] None 0 false).
Abbreviation demo_entry := (Dentry [97] (Some 1%nat) 0 true).

(** The root directory belongs to another group, which it hands down. *)
Definition demo_shared_root : inode :=
  set_attrs (IAttrs (S_IFDIR + S_ISGID + 509) 2 100 55 10 (1, 2) (3, 4) (5, 6) 8 0) demo_root.
Definition demo_shared : kernel (list call) :=
  set_inodes (<[0%nat := demo_shared_root]> (inodes demo_kernel)) demo_kernel.

Lemma demo_shared_ok : cache_ok demo_shared.
Proof. by apply (cache_ok_update demo_kernel _ 0%nat demo_root demo_shared_root demo_cache_ok). Qed.

Lemma uvfs_create_correct_witness :
  wp (uvfs_create demo_cred 0%nat 2%nat 420)
     (makes_if true (RqCreate 100 55 (demo_fh 2) 420 [98; 99])
        (entry_made demo_cred uvfs_create_rep_s 0%nat 2%nat demo_free demo_shared)
        (World demo_alone demo_shared))
     (World demo_alone demo_shared).
Proof.
  exact (uvfs_create_correct demo_cred demo_alone demo_shared 0%nat 2%nat 420 demo_shared_root
    demo_free demo_shared_ok eq_refl eq_refl).
Defined.

Lemma uvfs_symlink_correct_witness :
  wp (uvfs_symlink demo_cred 0%nat 2%nat [97])
     (makes_if true (RqSymlink 100 100 (demo_fh 2) [98; 99] [97])
        (entry_made demo_cred uvfs_symlink_rep_s 0%nat 2%nat demo_free demo_kernel) demo_world)
     demo_world.
Proof.
  exact (uvfs_symlink_correct demo_cred demo_alone demo_kernel 0%nat 2%nat [97] demo_root demo_free
    demo_cache_ok eq_refl eq_refl).
Defined.

Lemma uvfs_mkdir_correct_witness :
  wp (uvfs_mkdir demo_cred 0%nat 2%nat 493)
     (makes_if true (RqMkdir 100 55 (demo_fh 2) (S_IFDIR + S_ISGID + 493) [98; 99])
        (directory_made demo_cred 0%nat 0%nat 2%nat demo_free demo_shared)
        (World demo_alone demo_shared))
     (World demo_alone demo_shared).
Proof.
  exact (uvfs_mkdir_correct demo_cred demo_alone demo_shared 0%nat 2%nat 493 demo_shared_root
    demo_free demo_shared_ok eq_refl eq_refl).
Defined.

Lemma uvfs_unlink_spec_witness :
  wp (uvfs_unlink demo_cred 0%nat 1%nat)
     (makes_if true (RqUnlink 100 100 (demo_fh 2) [97]) (unlinked 1%nat demo_kernel) demo_world)
     demo_world.
Proof.
  exact (uvfs_unlink_spec demo_cred demo_alone demo_kernel 0%nat 1%nat demo_root demo_entry
    1%nat demo_file eq_refl eq_refl eq_refl eq_refl).
Defined.

Lemma uvfs_rmdir_correct_witness :
  wp (uvfs_rmdir demo_cred 0%nat 1%nat)
     (makes_if true (RqRmdir 100 100 (demo_fh 2) [97])
        (directory_removed 0%nat 1%nat demo_kernel) demo_world)
     demo_world.
Proof.
  exact (uvfs_rmdir_correct demo_cred demo_alone demo_kernel 0%nat 1%nat demo_root demo_entry
    1%nat demo_file eq_refl eq_refl eq_refl eq_refl).
Defined.

Lemma uvfs_rename_correct_witness :
  wp (uvfs_rename demo_cred 0%nat 1%nat 0%nat 2%nat)
     (makes_if true (RqRename 100 100 (demo_fh 2) [97] (demo_fh 2) [98; 99])
        (renamed 0%nat 0%nat 1%nat None demo_kernel) demo_world)
     demo_world.
Proof.
  apply (uvfs_rename_correct demo_cred demo_alone demo_kernel 0%nat 1%nat 0%nat 2%nat demo_root
    demo_root demo_entry demo_free 1%nat demo_file); done.
Defined.

Lemma rename_within_directory_witness :
  wp (uvfs_rename demo_cred 0%nat 1%nat 0%nat 2%nat) (fun _ w' => kern w' = demo_kernel) demo_world.
Proof.
  apply (rename_within_directory demo_cred demo_alone demo_kernel 0%nat 1%nat 2%nat demo_root
    demo_entry demo_free 1%nat demo_file); done.
Defined.

Lemma uvfs_lookup_correct_witness :
  wp (uvfs_lookup demo_cred 0%nat 2%nat)
     (lookup_post demo_cred 2%nat demo_root demo_free demo_world) demo_world.
Proof.
  exact (uvfs_lookup_correct demo_cred demo_alone demo_kernel 0%nat 2%nat demo_root demo_free
    demo_cache_ok eq_refl eq_refl).
Defined.

(** When memory is short, an existing file is not found. *)
Lemma lookup_hides_errors_witness :
  exists w', uvfs_lookup demo_cred 0%nat 1%nat demo_nomem = Some (PtrNull, w') /\
  d_inode <$> (dentries (kern w') !! 1%nat) = Some None.
Proof.
  pose proof (lookup_hides_errors demo_cred (conduit demo_nomem) demo_kernel 0%nat 1%nat demo_root
    demo_entry demo_cache_ok eq_refl eq_refl) as H.
  apply wp_elim in H as (ret & w' & E & _ & H).
  destruct H as [-> Hd]; [|by exists w'].
  left. assert (Some (conduit w') = Some (conduit demo_nomem)) as Ec.
  { transitivity ((fun r => conduit (snd r)) <$> uvfs_lookup demo_cred 0%nat 1%nat demo_nomem);
      [change demo_nomem with (World (conduit demo_nomem) demo_kernel); by rewrite E
      |by vm_compute]. }
  injection Ec as ->. by split.
Defined.

(** With the device closed an existing file is not found either; the dentry of a file
    that is there stays valid, and is dropped once the server is gone. *)
Example demo_lookup_down :
  fst <$> uvfs_lookup demo_cred 0%nat 1%nat demo_down = Some PtrNull.
Proof. by vm_compute. Qed.

Example demo_revalidate_dropped :
  (fun r => (fst r, rest (kern (snd r)))) <$> uvfs_dentry_revalidate demo_cred 1%nat demo_down =
  Some (0, [CDrop 1]).
Proof. by vm_compute. Qed.

Lemma uvfs_dentry_revalidate_correct_witness :
  exists ret w', uvfs_dentry_revalidate demo_cred 1%nat demo_world = Some (ret, w') /\
  inodes (kern w') = inodes demo_kernel.
Proof.
  assert (forall p, d_inode demo_entry = Some p -> is_Some (inodes demo_kernel !! p)) as Hlive
    by (intros p [= <-]; by eexists).
  pose proof (uvfs_dentry_revalidate_correct demo_cred demo_alone demo_kernel 1%nat demo_entry
    (Dentry [47] (Some 0%nat) 0 true) 0%nat demo_root eq_refl eq_refl eq_refl eq_refl Hlive) as H.
  apply wp_elim in H as (ret & w' & E & r & Hk & _). exists ret, w'.
  split; [exact E|by rewrite Hk].
Defined.
