(* ===== verification/Readdir.v ===== *)
(** * Reading a directory (dir.c)

    [uvfs_readdir] asks for the entries from the file position on, hands those of
    each reply to [filldir], and stops at the end of the directory or when the
    caller's buffer is full. *)

From stdpp Require Import prelude gmap list strings.
From Stdlib Require Import ZArith Lia.
From S2P Require Import Prelude Protocol Driver DriverSteps Requests RequestProps Conduit.
From S2P Require Import ConduitDriver Kernel VFSModel Demo Calls.

Open Scope string_scope.
Open Scope list_scope.
Open Scope Z_scope.

(** ** Definitions *)

(** [(x + 3) & ~3]; the union of a transaction is aligned, so that offsets in it are
    aligned as addresses are. *)
Definition next_entry (x : Z) : Z := Z.land (x + 3) (Z.lnot 3).

Section readdir.
Context {C K : Type} `{Conduit C} (current : task_cred).

(** [filldir(dirent, name, namlen, offset, ino, DT_UNKNOWN)] is a function of the
    kernel that adds an entry to the buffer [dirent]; it reads [namlen] bytes of the
    name. *)
Context {D : Type} (filldir : D -> list Z -> Z -> Z -> Z -> Z * D).

Definition ent_length (ent : Z) (u : mem) : Z :=
  rd32s (ent + offsetof uvfs_dirent_s "length") u.
Definition ent_ino (ent : Z) (u : mem) : Z := rd32s (ent + offsetof uvfs_dirent_s "ino") u.
Definition ent_index (ent : Z) (u : mem) : Z := rd32s (ent + offsetof uvfs_dirent_s "index") u.

(** The entry and its name lie within the union. *)
Definition ent_inside (ent : Z) (u : mem) : bool :=
  (ent + sizeof uvfs_dirent_s <=? sizeof transaction_u) && (0 <=? ent_length ent u) &&
  (ent + sizeof uvfs_dirent_s + ent_length ent u <=? sizeof transaction_u).

(** The [for] loop, [n] times round: whether the buffer is full, the position and the
    buffer; [None] is an access outside the union. *)
Fixpoint readdir_entries (n : nat) (u : mem) (ent f_pos : Z) (dirent : D) :
    option (bool * Z * D) :=
  match n with
  | O => Some (false, f_pos, dirent)
  | S n' =>
      if ent_inside ent u then
        let length := ent_length ent u in
        let name := rd_bytes (ent + sizeof uvfs_dirent_s) length u in
        let (r, dirent') := filldir dirent name length f_pos (ent_ino ent u) in
        if truthy r then Some (true, f_pos, dirent')
        else readdir_entries n' u (next_entry (ent + sizeof uvfs_dirent_s + length))
               (s32 (ent_index ent u + 1)) dirent'
      else None
  end.

(** The [while (1)] loop, at most [fuel] times round: the result, the file position
    and the buffer. *)
Fixpoint uvfs_readdir (fuel : nat) (dir : iptr) (f_pos : Z) (dirent : D) :
    M (world C K) (option (Z * Z * D)) :=
  match fuel with
  | O => mret None
  | S fuel' =>
      trans ← on_conduit new_trans;
      match trans with
      | None => mret (Some (- ENOMEM, f_pos, dirent))
      | Some t =>
          i ← get_inode dir;
          reply ← submit_request t (fun serial =>
            readdir_request serial (current_fsuid current) (current_fsgid current)
              (i_fh i) f_pos);
          let error := get_int uvfs_readdir_rep_s "error" reply in
          let count := get_int uvfs_readdir_rep_s "count" reply in
          if error <? 0 then
            on_conduit (free_trans t);; mret (Some (error, f_pos, dirent))
          else if count =? 0 then
            on_conduit (free_trans t);; mret (Some (0, f_pos, dirent))
          else
            match readdir_entries (Z.to_nat count) reply
                    (offsetof uvfs_readdir_rep_s "data") f_pos dirent with
            | None => fault
            | Some (full, f_pos', dirent') =>
                on_conduit (free_trans t);;
                if full : bool then mret (Some (0, f_pos', dirent'))
                else uvfs_readdir fuel' dir f_pos' dirent'
            end
      end
  end.
End readdir.

(** ** Specification *)

(** An entry of a directory as the server has it. *)
Record dirent := Dirent { de_index : Z; de_ino : Z; de_name : list Z }.

Definition dirent_wf (e : dirent) : Prop := 0 <= de_index e < 2 ^ 31 - 1 /\ int_range (de_ino e).

(** A directory lists its entries by increasing index. *)
Fixpoint sorted_from (low : Z) (es : list dirent) : Prop :=
  match es with
  | [] => True
  | e :: es' => low <= de_index e /\ dirent_wf e /\ sorted_from (de_index e + 1) es'
  end.

Definition entries_from (pos : Z) (es : list dirent) : list dirent :=
  filter (fun e => pos <= de_index e) es.

(** The entries are laid out in a reply from the offset [ent] on. *)
Fixpoint laid_out (es : list dirent) (ent : Z) (u : mem) : Prop :=
  match es with
  | [] => True
  | e :: es' =>
      ent_length ent u = len (de_name e) /\ ent_ino ent u = de_ino e /\
      ent_index ent u = de_index e /\
      rd_bytes (ent + sizeof uvfs_dirent_s) (len (de_name e)) u = de_name e /\
      ent + sizeof uvfs_dirent_s + len (de_name e) <= sizeof transaction_u /\
      laid_out es' (next_entry (ent + sizeof uvfs_dirent_s + len (de_name e))) u
  end.

(** A reply that is right for the position [pos]: an error, or some of the entries
    from there on, at least one if there is one. *)
Definition right_reply (es : list dirent) (pos : Z) (u : mem) : Prop :=
  get_int uvfs_readdir_rep_s "error" u < 0 \/
  0 <= get_int uvfs_readdir_rep_s "error" u /\
  exists chunk later, entries_from pos es = chunk ++ later /\
    (chunk = [] -> later = []) /\
    get_int uvfs_readdir_rep_s "count" u = Z.of_nat (length chunk) /\
    laid_out chunk (offsetof uvfs_readdir_rep_s "data") u.

(** A conduit whose server knows the directory [fh]. *)
Definition serves_directory (C : Type) `{Conduit C} (fh : fhandle) (es : list dirent) : Prop :=
  forall uid gid pos, 0 <= pos < 2 ^ 31 ->
  replies C (RqReaddir uid gid fh pos) (right_reply es pos).

(** The reference: hand the entries over one by one until one is refused. *)
Section fill.
Context {D : Type} (filldir : D -> list Z -> Z -> Z -> Z -> Z * D).
Fixpoint fill (es : list dirent) (f_pos : Z) (d : D) : bool * Z * D :=
  match es with
  | [] => (false, f_pos, d)
  | e :: es' =>
      let (r, d') := filldir d (de_name e) (len (de_name e)) f_pos (de_ino e) in
      if truthy r then (true, f_pos, d') else fill es' (de_index e + 1) d'
  end.
End fill.

(** ** Lemmas *)

Lemma next_entry_align x : next_entry x = align_up x 4.
Proof.
  unfold next_entry, align_up. replace (x + 4 - 1) with (x + 3) by lia.
  apply Z.bits_inj'. intros i Hi. rewrite Z.land_spec, Z.lnot_spec by done.
  change 4 with (2 ^ 2). rewrite <- Z.shiftr_div_pow2, <- Z.shiftl_mul_pow2 by lia.
  rewrite Z.shiftl_spec by done. destruct (decide (i < 2)) as [Hlt|Hge].
  - rewrite (Z.testbit_neg_r _ (i - 2)) by lia.
    assert (i = 0 \/ i = 1) as [->| ->] by lia; by rewrite andb_false_r.
  - rewrite Z.shiftr_spec by lia. replace (i - 2 + 2) with i by lia.
    change 3 with (Z.ones 2). rewrite Z.ones_spec_high by lia. by rewrite andb_true_r.
Qed.

Section lemmas.
Context {D : Type} (filldir : D -> list Z -> Z -> Z -> Z -> Z * D).

Lemma fill_app es es' pos d :
  fill filldir (es ++ es') pos d =
  match fill filldir es pos d with
  | (true, pos', d') => (true, pos', d')
  | (false, pos', d') => fill filldir es' pos' d'
  end.
Proof.
  revert pos d. induction es as [|e es IH]; intros pos d; [done|]. cbn.
  destruct (filldir _ _ _ _ _) as [r d']. by destruct (truthy r).
Qed.

(** The loop over a reply that lays out [es] hands over [es]. *)
Lemma readdir_entries_fill es u ent pos d :
  0 <= ent -> (exists low, sorted_from low es) -> laid_out es ent u ->
  readdir_entries filldir (length es) u ent pos d = Some (fill filldir es pos d).
Proof.
  revert ent pos d. induction es as [|e es IH]; intros ent pos d Hent [low Hs] Hl; [done|].
  destruct Hs as (_ & [Hidx _] & Hs). destruct Hl as (E1 & E2 & E3 & E4 & Hfit & Hl).
  cbn [readdir_entries length fill]. unfold ent_inside. rewrite E1, E2, E3, E4.
  pose proof (len_nonneg (de_name e)).
  rewrite !(proj2 (Z.leb_le _ _)) by lia. cbn [andb].
  destruct (filldir _ _ _ _ _) as [r d']. destruct (truthy r); [done|].
  rewrite s32_small by (unfold int_range; lia). apply IH; [|by eexists|done].
  rewrite next_entry_align. unfold align_up. apply Z.mul_nonneg_nonneg; [|lia].
  apply Z.div_pos; [|lia]. change (sizeof uvfs_dirent_s) with 12. lia.
Qed.

Lemma entries_from_sorted low pos es : sorted_from low es -> pos <= low -> entries_from pos es = es.
Proof.
  revert low. induction es as [|e es IH]; intros low; [done|]. intros (H1 & H2 & H3) Hp.
  unfold entries_from in *. rewrite filter_cons_True by lia. f_equal. eapply IH; [done|lia].
Qed.

Lemma sorted_from_prefix low es es' : sorted_from low (es ++ es') -> sorted_from low es.
Proof.
  revert low. induction es as [|e es IH]; intros low; [done|]. intros (? & ? & ?).
  split; [done|]. split; [done|]. by apply IH.
Qed.

Lemma entries_from_is_sorted low pos es :
  sorted_from low es -> sorted_from (Z.max low pos) (entries_from pos es).
Proof.
  revert low. induction es as [|e es IH]; intros low; [done|]. intros (H1 & H2 & H3).
  unfold entries_from in *. destruct (decide (pos <= de_index e)).
  - rewrite filter_cons_True by done. cbn. split; [lia|]. split; [done|].
    specialize (IH _ H3). by rewrite Z.max_l in IH by lia.
  - rewrite filter_cons_False by done. specialize (IH _ H3).
    replace (Z.max low pos) with (Z.max (de_index e + 1) pos) by lia. done.
Qed.

Lemma entries_from_sorted_at pos es :
  sorted_from 0 es -> 0 <= pos -> sorted_from pos (entries_from pos es).
Proof.
  intros Hs Hp. pose proof (entries_from_is_sorted 0 pos es Hs) as H.
  by rewrite Z.max_r in H by lia.
Qed.

(** Where the position is after a chunk is where the rest begins. *)
Lemma fill_position low es chunk later pos pos' d d' :
  sorted_from low es -> pos <= low -> chunk <> [] -> es = chunk ++ later ->
  fill filldir chunk pos d = (false, pos', d') -> entries_from pos' es = later /\ pos' < 2 ^ 31 /\ low < pos'.
Proof.
  revert low es pos d. induction chunk as [|e chunk IH]; intros low es pos d Hs Hp Hne -> E;
    [done|]. destruct Hs as (H1 & [H2 _] & H3). cbn in E.
  destruct (filldir _ _ _ _ _) as [r d1]. destruct (truthy r); [done|].
  assert (pos' > de_index e /\ entries_from pos' (chunk ++ later) = later /\ pos' < 2 ^ 31)
    as (Hgt & He & Hmax).
  { destruct chunk as [|e' chunk].
    - cbn in E. injection E as <- _. split; [lia|]. split; [|lia].
      by eapply entries_from_sorted; [exact H3|].
    - destruct (IH (de_index e + 1) _ (de_index e + 1) d1 H3) as (? & ? & ?);
        [lia|done|done|done|]. split_and!; [lia|done|done]. }
  split; [|lia]. unfold entries_from in *. rewrite <- app_comm_cons, filter_cons_False by lia. done.
Qed.

Lemma entries_from_from pos pos' es :
  pos <= pos' -> entries_from pos' (entries_from pos es) = entries_from pos' es.
Proof.
  intros Hle. unfold entries_from. induction es as [|e es IH]; [done|].
  destruct (decide (pos <= de_index e)).
  - rewrite filter_cons_True by done. destruct (decide (pos' <= de_index e)).
    + rewrite !filter_cons_True by done. by f_equal.
    + rewrite !filter_cons_False by done. done.
  - rewrite !filter_cons_False by lia. done.
Qed.
End lemmas.

(** ** Theorems *)

Section theorems.
Context {C K : Type} `{ConduitLaws C} (current : task_cred).
Context {D : Type} (filldir : D -> list Z -> Z -> Z -> Z -> Z * D).
Implicit Types (c : C) (k : kernel K).

(** Nothing is left behind, whatever was asked. *)
Definition tidy (w w' : world C K) : Prop :=
  kern w' = kern w /\ live (conduit w') = live (conduit w).

(** The outcome of reading [todo] from [pos]: all of it is handed over, up to the first
    entry that is refused; or the call fails after handing over a part. *)
Definition read_outcome (todo : list dirent) (pos : Z) (d : D) (r : Z * Z * D) : Prop :=
  let '(ret, pos', d') := r in
  ret = 0 /\ (exists full, fill filldir todo pos d = (full, pos', d')) \/
  ret < 0 /\ exists chunk later, todo = chunk ++ later /\
    fill filldir chunk pos d = (false, pos', d').

Lemma wp_free_at Q c0 c k p x :
  live c0 !! p = None -> live c = <[p := x]> (live c0) ->
  (forall c', live c' = live c0 -> Q tt (World c' k)) ->
  wp (on_conduit (free_trans p)) Q (World c k).
Proof.
  intros Hp Hl HQ. destruct x as [n u]. apply wp_on_conduit.
  eapply wp_mono; [apply (free_law c p n u); rewrite Hl; apply lookup_insert_eq|].
  intros [] c' [_ Hl']. apply HQ. by rewrite Hl', Hl, delete_insert_id.
Qed.

Lemma readdir_loop es dir i : forall fuel low c k pos d,
  serves_directory C (i_fh i) es -> sorted_from 0 es -> inodes k !! dir = Some i ->
  sorted_from low (entries_from pos es) -> 0 <= pos <= low -> pos < 2 ^ 31 ->
  (length (entries_from pos es) < fuel)%nat ->
  wp (uvfs_readdir current filldir fuel dir pos d)
     (fun o w' => tidy (World c k) w' /\
        exists r, o = Some r /\ read_outcome (entries_from pos es) pos d r)
     (World c k).
Proof.
  induction fuel as [|fuel IH]; intros low c k pos d Hserve Hsort Hi Hlow Hpos Hmax Hfuel; [lia|].
  cbn [uvfs_readdir]. apply wp_bind, wp_new.
  - intros c' [_ Hl]. wp_go. split; [by split|]. eexists. split; [done|]. right.
    split; [done|]. by exists [], (entries_from pos es).
  - intros c1 t serial u0 Hser Hfree Hl He. wp_go.
    eapply (wp_submit_with (right_reply es pos) _ c _ _ _ _ _ (RqReaddir _ _ _ _));
      [apply Hserve; lia|done..|]. intros c2 u (_ & n & u1 & _ & Hl2 & _) Hr.
    destruct Hr as [Herr|(Herr & chunk & later & Ees & Hempty & Hcount & Hlaid)].
    { rewrite (proj2 (Z.ltb_lt _ _) Herr). apply wp_bind.
      eapply wp_free_at; [done..|]. intros c3 Hl3. wp_go. split; [by split|].
      eexists. split; [done|]. right. split; [done|]. by exists [], (entries_from pos es). }
    rewrite (proj2 (Z.ltb_ge _ _) Herr), Hcount.
    destruct (Z.eqb_spec (Z.of_nat (length chunk)) 0) as [E0|E0].
    { destruct chunk; [|cbn in E0; lia]. rewrite Ees, Hempty by done. apply wp_bind.
      eapply wp_free_at; [done..|]. intros c3 Hl3. wp_go. split; [by split|].
      eexists. split; [done|]. left. split; [done|]. by exists false. }
    rewrite Nat2Z.id, readdir_entries_fill; [|by vm_compute| |done].
    2:{ exists low. rewrite Ees in Hlow. by eapply sorted_from_prefix. }
    destruct (fill filldir chunk pos d) as [[full pos'] d'] eqn:Ef. apply wp_bind.
    eapply wp_free_at; [done..|]. intros c3 Hl3. destruct full; wp_go.
    { split; [by split|]. eexists. split; [done|]. left. split; [done|]. exists true.
      by rewrite Ees, fill_app, Ef. }
    assert (chunk <> []) as Hne by (by intros ->).
    destruct (fill_position filldir low _ chunk later pos pos' d d' Hlow) as (Hlater & Hmax' & Hgt);
      [lia|done|done|done|]. rewrite entries_from_from in Hlater by lia.
    eapply wp_mono; [apply (IH pos' c3 k pos' d'); try done; try lia|].
    + by apply entries_from_sorted_at; [|lia].
    + rewrite Hlater. rewrite Ees, length_app in Hfuel. destruct chunk; [done|]. cbn in Hfuel. lia.
    + intros o w' [[Hk Hlv] (r & -> & Ho)]. split; [by split; [|by etransitivity]|].
      exists r. split; [done|]. rewrite Hlater in Ho. destruct r as [[ret pos2] d2].
      destruct Ho as [[-> [full Hf]]|[Hneg (ch & la & El & Hf)]].
      * left. split; [done|]. exists full. by rewrite Ees, fill_app, Ef.
      * right. split; [done|]. exists (chunk ++ ch), la. rewrite Ees, El, app_assoc.
        split; [done|]. by rewrite fill_app, Ef.
Qed.

(** C13: reading a directory from a server that knows it ends, after at most one
    request more than there are entries left, and never reads outside a reply.  It
    hands over the entries from the file position on, in order, each once and with
    its own position, up to the first that the buffer refuses; an error or a lack of
    memory ends it earlier, after a part of them.  The file position is then that of
    the first entry not handed over, and no transaction is left behind. *)
Theorem uvfs_readdir_complete c k dir i es pos d fuel :
  serves_directory C (i_fh i) es -> sorted_from 0 es -> inodes k !! dir = Some i ->
  0 <= pos < 2 ^ 31 -> (length (entries_from pos es) < fuel)%nat ->
  wp (uvfs_readdir current filldir fuel dir pos d)
     (fun o w' => tidy (World c k) w' /\
        exists r, o = Some r /\ read_outcome (entries_from pos es) pos d r)
     (World c k).
Proof.
  intros Hserve Hs Hi Hpos Hf. apply (readdir_loop es dir i fuel pos); try done; [|lia|lia].
  by apply entries_from_sorted_at; [|lia].
Qed.
End theorems.

(** ** An example server *)

(** It answers with one entry at a time. *)
Definition dir_entry_reply (serial : Z) (chunk : list dirent) : mem :=
  let t := uvfs_readdir_rep_s in
  (fun _ => 0)
    |> (match chunk with
        | e :: _ =>
            fun u => u
              |> wr32 (offsetof t "data" + offsetof uvfs_dirent_s "length") (len (de_name e))
              |> wr32 (offsetof t "data" + offsetof uvfs_dirent_s "ino") (de_ino e)
              |> wr32 (offsetof t "data" + offsetof uvfs_dirent_s "index") (de_index e)
              |> wr_bytes (offsetof t "data" + sizeof uvfs_dirent_s) (de_name e)
        | [] => fun u => u
        end)
    |> set_int t "type" UVFS_READDIR
    |> set_int t "serial" serial
    |> set_int t "size" (sizeof t)
    |> set_int t "error" 0
    |> set_int t "count" (len (map de_index chunk)).

Definition first_entry (pos : Z) (es : list dirent) : list dirent := take 1 (entries_from pos es).

Definition dir_serve (es : list dirent) (past : list exchange) : server := fun bytes =>
  let u := mem_of bytes in
  let t := uvfs_readdir_req_s in
  Some (sizeof uvfs_readdir_rep_s,
        dir_entry_reply (get_int t "serial" u) (first_entry (get_int t "entry_no" u) es)).

Lemma dir_serve_count es past bytes count buff :
  dir_serve es past bytes = Some (count, buff) -> 0 <= count < 2 ^ 63.
Proof. intros [= <- _]. vm_compute. split; [discriminate|reflexivity]. Qed.

Lemma reply_size serial chunk :
  get_int uvfs_generic_rep_s "size" (dir_entry_reply serial chunk) = sizeof uvfs_readdir_rep_s.
Proof. unfold dir_entry_reply. rq_unfold. rq_read. by rewrite s32_u32. Qed.

(** The names fit a reply of one entry. *)
Definition short_names (es : list dirent) : Prop :=
  Forall (fun e => Forall is_byte (de_name e) /\ len (de_name e) <= UVFS_MAX_NAMELEN) es.

Lemma entry_laid_out serial e u :
  dirent_wf e -> Forall is_byte (de_name e) -> len (de_name e) <= UVFS_MAX_NAMELEN ->
  let t := uvfs_readdir_rep_s in
  laid_out [e] (offsetof t "data")
    (wr_bytes 0 (rd_bytes 0 (sizeof t) (dir_entry_reply serial [e])) u).
Proof.
  intros [Hidx Hino] Hb Hn t. cbn [laid_out]. unfold ent_length, ent_ino, ent_index.
  pose proof (len_nonneg (de_name e)).
  assert (forall off, 0 <= off -> off + 4 <= sizeof t ->
    rd32s off (wr_bytes 0 (rd_bytes 0 (sizeof t) (dir_entry_reply serial [e])) u) =
    rd32s off (dir_entry_reply serial [e])) as Hrd
    by (intros; unfold rd32s; by rewrite rd32_copied).
  unfold t in *. rewrite !Hrd by (layout; rq_lia).
  assert (rd_bytes (offsetof uvfs_readdir_rep_s "data" + sizeof uvfs_dirent_s) (len (de_name e))
    (wr_bytes 0 (rd_bytes 0 (sizeof uvfs_readdir_rep_s) (dir_entry_reply serial [e])) u) =
    rd_bytes (offsetof uvfs_readdir_rep_s "data" + sizeof uvfs_dirent_s) (len (de_name e))
      (dir_entry_reply serial [e])) as ->
    by (apply rd_bytes_agree, rd_copied; layout; rq_lia).
  clear Hrd. unfold dir_entry_reply. rq_unfold.
  split_and!; try done; try rq_lia; rq_read; rewrite ?s32_u32; try apply s32_small; try done;
    unfold int_range; rq_lia.
Qed.

Lemma dir_serve_right es fh : short_names es -> sorted_from 0 es ->
  @serves_directory alone (driver_conduit (dir_serve es)) fh es.
Proof.
  intros Hshort Hsort uid gid pos Hpos. set (r := RqReaddir uid gid fh pos).
  apply (replies_answer (dir_serve es) (dir_serve_count es)); [done|].
  intros opens past serial u0 Hser. apply answer_cases.
  { intros e He Hr. left. unfold set_error. layout. rewrite rd32s_wr32. by rewrite s32_small. }
  set (b := build r serial u0). intros count buff E.
  assert (buff = dir_entry_reply (get_int uvfs_readdir_req_s "serial" (mem_of (delivered b)))
    (first_entry (get_int uvfs_readdir_req_s "entry_no" (mem_of (delivered b))) es)) as ->
    by (unfold dir_serve in E; congruence).
  destruct (build_header r serial u0 I Hser) as (_ & Hs & _ & Hz).
  assert (get_int uvfs_readdir_req_s "entry_no" (mem_of (delivered b)) = pos) as ->.
  { unfold delivered, b. rewrite Hz. unfold get_int. rewrite rd32s_mem_of by (by vm_compute).
    unfold r. rq_unfold. rq_read. rewrite s32_u32. apply s32_small. unfold int_range. lia. }
  set (n := get_int _ "serial" _). set (chunk := first_entry pos es).
  rewrite reply_size. right.
  rewrite !get_int_copied by (by vm_compute).
  assert (get_int uvfs_readdir_rep_s "error" (dir_entry_reply n chunk) = 0) as ->
    by (unfold dir_entry_reply; rq_unfold; rq_read; by vm_compute).
  assert (get_int uvfs_readdir_rep_s "count" (dir_entry_reply n chunk) = Z.of_nat (length chunk))
    as ->.
  { unfold dir_entry_reply; rq_unfold; rq_read. unfold chunk, first_entry.
    destruct (entries_from pos es); by vm_compute. }
  split; [done|]. exists chunk, (drop 1 (entries_from pos es)).
  split; [symmetry; apply take_drop|]. split; [|split; [done|]].
  - unfold chunk, first_entry. by destruct (entries_from pos es).
  - unfold chunk, first_entry. destruct (entries_from pos es) as [|e l] eqn:Ees; [done|].
    assert (e ∈ entries_from pos es) as He by (rewrite Ees; left).
    apply entry_laid_out.
    + pose proof (entries_from_sorted_at pos es Hsort (proj1 Hpos)) as Hd.
      rewrite Ees in Hd. by destruct Hd as (_ & ? & _).
    + apply list_elem_of_filter in He as [_ He]. by destruct (proj1 (Forall_forall _ _) Hshort e He).
    + apply list_elem_of_filter in He as [_ He]. by destruct (proj1 (Forall_forall _ _) Hshort e He).
Qed.

Definition demo_dir : list dirent :=
  [Dirent 0 10 [97]; Dirent 3 11 [98; 98; 98; 98; 98]; Dirent 4 12 [99; 100]].

(** A buffer that takes three entries. *)
Definition demo_filldir (d : list (list Z * Z * Z)) (name : list Z) (namlen off ino : Z) :
    Z * list (list Z * Z * Z) :=
  if (3 <=? length d)%nat then (-1, d) else (0, d ++ [(name, off, ino)]).

Lemma demo_dir_ok : short_names demo_dir /\ sorted_from 0 demo_dir.
Proof.
  split.
  - repeat (constructor; [split; [repeat constructor; by vm_compute|by vm_compute]|]).
    constructor.
  - cbn. unfold dirent_wf, int_range. cbn. lia.
Qed.

Lemma uvfs_readdir_complete_witness :
  exists w', @uvfs_readdir alone (list call) (driver_conduit (dir_serve demo_dir)) demo_cred
               _ demo_filldir 4 0%nat 0 [] demo_world =
             Some (Some (0, 5, [([97], 0, 10); ([98; 98; 98; 98; 98], 1, 11); ([99; 100], 4, 12)]), w') /\
             @live alone (driver_conduit (dir_serve demo_dir)) (conduit w') = ∅.
Proof.
  pose proof (@uvfs_readdir_complete alone (list call) (driver_conduit (dir_serve demo_dir))
    (driver_conduit_laws (dir_serve demo_dir) (dir_serve_count demo_dir)) demo_cred _ demo_filldir
    demo_alone demo_kernel 0%nat (demo_inode 2 (S_IFDIR + 493) Uvfs_dir_inode_operations)
    demo_dir 0 [] 4 (dir_serve_right demo_dir _ (proj1 demo_dir_ok) (proj2 demo_dir_ok))
    (proj2 demo_dir_ok) eq_refl ltac:(lia) ltac:(vm_compute; lia)) as H.
  apply wp_elim in H as (o & w' & E & [_ Hl] & r & -> & Hr). exists w'.
  assert (Some r = Some (0, 5, [([97], 0, 10); ([98; 98; 98; 98; 98], 1, 11); ([99; 100], 4, 12)]))
    as [= ->].
  { transitivity ((fst <$>
      @uvfs_readdir alone (list call) (driver_conduit (dir_serve demo_dir)) demo_cred
        _ demo_filldir 4 0%nat 0 [] demo_world) ≫= id); [|by vm_compute].
    change demo_world with (World demo_alone demo_kernel). by rewrite E. }
  split; [exact E|exact Hl].
Defined.
