(* ===== verification/ReaddirEnds.v ===== *)
(** * When reading a directory ends (dir.c)

    The loop of [uvfs_readdir] has no bound of its own: it goes round until the
    server says that there is nothing more, or the buffer is full.  It ends if
    every reply brings the position forward, whatever else the server says; it
    does not if a server keeps replying with a negative count. *)

From stdpp Require Import prelude gmap list strings.
From Stdlib Require Import ZArith Lia.
From S2P Require Import Prelude Protocol Driver DriverSteps Requests RequestProps Conduit.
From S2P Require Import ConduitDriver Kernel VFSModel Demo Calls Readdir.

Open Scope string_scope.
Open Scope list_scope.
Open Scope Z_scope.

(** ** Replies that bring the position forward *)

(** The position after all [n] entries of a reply, if they lie within it. *)
Fixpoint entries_end (n : nat) (u : mem) (ent f_pos : Z) : option Z :=
  match n with
  | O => Some f_pos
  | S n' =>
      if ent_inside ent u
      then entries_end n' u (next_entry (ent + sizeof uvfs_dirent_s + ent_length ent u))
             (s32 (ent_index ent u + 1))
      else None
  end.

(** A reply for the position [pos] that ends the loop, or leads to a later position
    that is at most [limit]. *)
Definition forward (limit pos : Z) (u : mem) : Prop :=
  get_int uvfs_readdir_rep_s "error" u < 0 \/
  get_int uvfs_readdir_rep_s "count" u = 0 \/
  exists e, entries_end (Z.to_nat (get_int uvfs_readdir_rep_s "count" u)) u
              (offsetof uvfs_readdir_rep_s "data") pos = Some e /\ pos < e <= limit.

Definition moves_forward (C : Type) `{Conduit C} (fh : fhandle) (limit : Z) : Prop :=
  forall uid gid pos, 0 <= pos <= limit ->
  replies C (RqReaddir uid gid fh pos) (forward limit pos).

(** A reply that says neither that the directory has ended nor anything else. *)
Definition says_nothing (u : mem) : Prop :=
  0 <= get_int uvfs_readdir_rep_s "error" u /\ get_int uvfs_readdir_rep_s "count" u < 0.

Section entries.
Context {D : Type} (filldir : D -> list Z -> Z -> Z -> Z -> Z * D).

Lemma readdir_entries_end n u ent pos d e :
  entries_end n u ent pos = Some e ->
  exists full pos' d', readdir_entries filldir n u ent pos d = Some (full, pos', d') /\
    (full = false -> pos' = e).
Proof.
  revert ent pos d. induction n as [|n IH]; intros ent pos d; cbn.
  - intros [= <-]. by exists false, pos, d.
  - destruct (ent_inside ent u); [|done]. intros He.
    destruct (filldir _ _ _ _ _) as [r d']. destruct (truthy r); [by exists true, pos, d'|].
    by apply IH.
Qed.
End entries.

Lemma laid_out_end es u ent pos :
  0 <= ent -> (exists low, sorted_from low es) -> laid_out es ent u ->
  entries_end (length es) u ent pos =
  Some (match last es with Some e => de_index e + 1 | None => pos end).
Proof.
  revert ent pos. induction es as [|e es IH]; intros ent pos Hent [low Hs] Hl; [done|].
  destruct Hs as (_ & [Hidx _] & Hs). destruct Hl as (E1 & _ & E3 & _ & Hfit & Hl).
  cbn [entries_end length]. unfold ent_inside. rewrite E1, E3. pose proof (len_nonneg (de_name e)).
  rewrite !(proj2 (Z.leb_le _ _)) by lia. cbn [andb].
  rewrite s32_small by (unfold int_range; lia). rewrite IH, last_cons; [by destruct (last es)| |by eexists|done].
  rewrite next_entry_align. unfold align_up. apply Z.mul_nonneg_nonneg; [|lia].
  apply Z.div_pos; [|lia]. change (sizeof uvfs_dirent_s) with 12. lia.
Qed.

Lemma sorted_from_last low es e : sorted_from low es -> last es = Some e -> low <= de_index e.
Proof.
  revert low. induction es as [|x es IH]; intros low; [done|]. intros (H1 & _ & H3).
  destruct es as [|y es]; [by intros [= <-]|]. intros Hl. pose proof (IH _ H3 Hl). lia.
Qed.

(** A server that knows its directory brings the position forward. *)
Lemma right_forward es limit pos u :
  sorted_from 0 es -> 0 <= pos -> Forall (fun e => de_index e < limit) es ->
  right_reply es pos u -> forward limit pos u.
Proof.
  intros Hs Hpos Hlim [?|(_ & chunk & later & Ees & Hempty & Hcount & Hlaid)]; [by left|right].
  destruct (decide (chunk = [])) as [->|Hne]; [by left|right]. rewrite Hcount, Nat2Z.id.
  assert (sorted_from pos chunk) as Hc.
  { apply (sorted_from_prefix pos chunk later). rewrite <- Ees. by apply entries_from_sorted_at. }
  rewrite laid_out_end; [|by vm_compute|by eexists|done]. eexists. split; [done|].
  destruct (last chunk) as [e|] eqn:El; [|by apply last_None in El].
  pose proof (sorted_from_last _ _ _ Hc El). apply last_Some_elem_of in El.
  assert (e ∈ entries_from pos es) as He by (rewrite Ees; set_solver).
  apply list_elem_of_filter in He as [_ He].
  pose proof (proj1 (Forall_forall _ _) Hlim e He). cbn in *. lia.
Qed.

(** ** The loop *)

Section theorems.
Context {C K : Type} `{ConduitLaws C} (current : task_cred).
Context {D : Type} (filldir : D -> list Z -> Z -> Z -> Z -> Z * D).
Implicit Types (c : C) (k : kernel K).

(** C18: the loop of [uvfs_readdir] ends, after at most as many requests as there
    are positions left, if every reply reports an error, has no entries, or has
    entries that lie within it and lead to a later position; the names, the numbers
    and the buffer of the caller do not matter.  No transaction is left behind, and
    the position never goes back. *)
Theorem uvfs_readdir_terminates fuel c k dir i limit pos d :
  moves_forward C (i_fh i) limit -> inodes k !! dir = Some i -> 0 <= pos <= limit ->
  (Z.to_nat (limit - pos) < fuel)%nat ->
  wp (uvfs_readdir current filldir fuel dir pos d)
     (fun o w' => tidy (World c k) w' /\ exists ret pos' d', o = Some (ret, pos', d'))
     (World c k).
Proof.
  intros Hf Hi. revert c pos d.
  induction fuel as [|fuel IH]; intros c pos d Hrange Hfuel; [lia|].
  cbn [uvfs_readdir]. apply wp_bind, wp_new.
  - intros c' [_ Hl]. wp_go. split; [by split|]. by do 3 eexists.
  - intros c1 t serial u0 Hser Hfree Hl He. wp_go.
    eapply (wp_submit_with (forward limit pos) _ c _ _ _ _ _ (RqReaddir _ _ _ _));
      [by apply Hf|done..|]. intros c2 u (_ & n & u1 & _ & Hl2 & _) Hr.
    destruct (Z.ltb_spec (get_int uvfs_readdir_rep_s "error" u) 0) as [Herr|Herr].
    { apply wp_bind. eapply wp_free_at; [done..|]. intros c3 Hl3. wp_go. split; [by split|].
      by do 3 eexists. }
    destruct (Z.eqb_spec (get_int uvfs_readdir_rep_s "count" u) 0) as [E0|E0].
    { apply wp_bind. eapply wp_free_at; [done..|]. intros c3 Hl3. wp_go. split; [by split|].
      by do 3 eexists. }
    destruct Hr as [?|[?|(e & Hend & Hpos)]]; [lia|done|].
    destruct (readdir_entries_end filldir _ _ _ _ d _ Hend) as (full & pos' & d' & -> & Hfull).
    apply wp_bind. eapply wp_free_at; [done..|]. intros c3 Hl3. destruct full; wp_go.
    { split; [by split|]. by do 3 eexists. }
    rewrite (Hfull eq_refl). eapply wp_mono; [apply IH; lia|].
    intros o w' [[Hk Hlv] Ho]. split; [|done]. split; [done|]. by etransitivity.
Qed.

(** A server whose replies say nothing keeps the loop going: it never returns
    anything, unless no transaction can be allocated. *)
Theorem uvfs_readdir_stalls fuel c k dir i pos d :
  (forall uid gid, replies C (RqReaddir uid gid (i_fh i) pos) says_nothing) ->
  inodes k !! dir = Some i ->
  wp (uvfs_readdir current filldir fuel dir pos d)
     (fun o _ => o = None \/ o = Some (- ENOMEM, pos, d)) (World c k).
Proof.
  intros Hf Hi. revert c. induction fuel as [|fuel IH]; intros c; [by apply wp_ret; left|].
  cbn [uvfs_readdir]. apply wp_bind, wp_new.
  - intros c' _. wp_go. by right.
  - intros c1 t serial u0 Hser Hfree Hl He. wp_go.
    eapply (wp_submit_with says_nothing _ c _ _ _ _ _ (RqReaddir _ _ _ _));
      [apply Hf|done..|]. intros c2 u (_ & n & u1 & _ & Hl2 & _) [Herr Hcount].
    rewrite (proj2 (Z.ltb_ge _ _) Herr), (proj2 (Z.eqb_neq _ _)) by lia.
    replace (Z.to_nat (get_int uvfs_readdir_rep_s "count" u)) with 0%nat by lia.
    cbn [readdir_entries]. apply wp_bind. eapply wp_free_at; [done..|]. intros c3 Hl3. apply IH.
Qed.
End theorems.

(** ** Examples *)

(** The positions of the example directory. *)
Lemma demo_dir_forward :
  @moves_forward alone (driver_conduit (dir_serve demo_dir))
    (i_fh (demo_inode 2 (S_IFDIR + 493) Uvfs_dir_inode_operations)) 5.
Proof.
  intros uid gid pos Hpos c p serial u0 Hs Hp.
  eapply wp_mono; [exact (dir_serve_right demo_dir _ (proj1 demo_dir_ok) (proj2 demo_dir_ok)
    uid gid pos ltac:(lia) c p serial u0 Hs Hp)|].
  intros [] c' H u Hu. apply (right_forward demo_dir); [apply demo_dir_ok|lia| |by apply H].
  repeat (constructor; [cbn; lia|]). constructor.
Qed.

Lemma uvfs_readdir_terminates_witness :
  exists w' ret pos' d', @uvfs_readdir alone (list call) (driver_conduit (dir_serve demo_dir))
    demo_cred _ demo_filldir 6 0%nat 0 [] demo_world = Some (Some (ret, pos', d'), w').
Proof.
  pose proof (@uvfs_readdir_terminates alone (list call) (driver_conduit (dir_serve demo_dir))
    (driver_conduit_laws (dir_serve demo_dir) (dir_serve_count demo_dir)) demo_cred _ demo_filldir
    6 demo_alone demo_kernel 0%nat (demo_inode 2 (S_IFDIR + 493) Uvfs_dir_inode_operations)
    5 0 [] demo_dir_forward eq_refl ltac:(lia) ltac:(vm_compute; lia)) as H.
  apply wp_elim in H as (o & w' & E & _ & ret & pos' & d' & ->). exists w', ret, pos', d'. exact E.
Defined.

(** A server that replies with a count of -1. *)
Definition mute_serve (past : list exchange) : server := fun bytes =>
  let t := uvfs_readdir_rep_s in
  Some (sizeof t, (fun _ => 0)
    |> set_int t "type" UVFS_READDIR
    |> set_int t "serial" (get_int uvfs_readdir_req_s "serial" (mem_of bytes))
    |> set_int t "size" (sizeof t)
    |> set_int t "count" (-1)).

Example demo_stalls :
  option_map fst (@uvfs_readdir alone (list call) (driver_conduit mute_serve) demo_cred _
    demo_filldir 4 0%nat 0 [] demo_world) = Some None.
Proof. by vm_compute. Qed.
