(* ===== verification/Permission.v ===== *)
(** * Permission checks (dir.c)

    [uvfs_permission] decides from the mode bits of the inode, or, when the inode's
    attributes were fetched on behalf of another user, from the mode the server
    reports for this one. *)

From stdpp Require Import prelude gmap list strings.
From Stdlib Require Import ZArith Lia.
From S2P Require Import Prelude Protocol Driver DriverSteps DriverSignals Requests.
From S2P Require Import RequestProps Conduit ConduitDriver Kernel VFSModel Demo Calls Inode.

Open Scope string_scope.
Open Scope list_scope.
Open Scope Z_scope.

(** ** Definitions *)

Definition MAY_EXEC : Z := 1.
Definition MAY_WRITE : Z := 2.
Definition MAY_READ : Z := 4.
Definition CAP_DAC_OVERRIDE : Z := 1.
Definition CAP_DAC_READ_SEARCH : Z := 2.

Section permission.
Context {C K : Type} `{Conduit C} (current : task_cred).

Definition IS_RDONLY (i : inode) : M (world C K) bool :=
  s ← get_super (i_sb i); mret (truthy (Z.land (s_flags s) MS_RDONLY)).
Definition IS_IMMUTABLE (i : inode) : bool := truthy (Z.land (i_flags i) S_IMMUTABLE).

(** The decision once the mode is known: [i_mode] is the mode that decides, [inode]
    the cached inode, whose owner and group select the class. *)
Definition check_mode (inode : inode) (mode0 mask : Z) : Z :=
  let mode := if current_fsuid current =? i_uid (i_attrs inode) then Z.shiftr mode0 6
              else if in_group_p current (i_gid (i_attrs inode)) then Z.shiftr mode0 3
              else mode0 in
  if Z.land (Z.land mode mask) (Z.lor (Z.lor MAY_READ MAY_WRITE) MAY_EXEC) =? mask then 0
  else if (negb (truthy (Z.land mask MAY_EXEC)) || truthy (Z.land mode0 S_IXUGO) ||
           S_ISDIR mode0) && capable current CAP_DAC_OVERRIDE then 0
  else if ((mask =? MAY_READ) || (S_ISDIR mode0 && negb (truthy (Z.land mask MAY_WRITE)))) &&
          capable current CAP_DAC_READ_SEARCH then 0
  else - EACCES.

Definition uvfs_permission (p : iptr) (mask0 : Z) : M (world C K) Z :=
  i ← get_inode p;
  let mode := i_mode (i_attrs i) in
  let mask := Z.land mask0 (Z.lor (Z.lor MAY_READ MAY_WRITE) MAY_EXEC) in
  ro ← (if truthy (Z.land mask MAY_WRITE) then IS_RDONLY i else mret false);
  if truthy (Z.land mask MAY_WRITE) && (ro : bool) && (S_ISREG mode || S_ISDIR mode || S_ISLNK mode)
  then mret (- EROFS)
  else if truthy (Z.land mask MAY_WRITE) && IS_IMMUTABLE i then mret (- EACCES)
  else if negb (current_fsuid current =? attr_uid i) then
    trans ← on_conduit new_trans;
    match trans with
    | None => mret (- ENOMEM)
    | Some t =>
        reply ← submit_request t (fun serial =>
          getattr_request serial (current_fsuid current) (current_fsgid current) (i_fh i));
        let error := get_int uvfs_getattr_rep_s "error" reply in
        if truthy error then on_conduit (free_trans t);; mret error
        else
          let m := u16 (a_mode (get_attr uvfs_getattr_rep_s "a" reply)) in
          on_conduit (free_trans t);;
          mret (check_mode i m mask)
    end
  else mret (check_mode i mode mask).
End permission.

(** ** Specification: discretionary access control *)

(** The first bit of the class the task is in: owner, group or others. *)
Definition class_shift (cred : task_cred) (i : inode) : Z :=
  if current_fsuid cred =? i_uid (i_attrs i) then 6
  else if in_group_p cred (i_gid (i_attrs i)) then 3 else 0.

(** Execute, write and read are bits 0, 1 and 2 of a request and of a class. *)
Definition dac_allows (cred : task_cred) (i : inode) (mode mask : Z) : Prop :=
  forall b, 0 <= b <= 2 -> Z.testbit mask b = true ->
            Z.testbit mode (b + class_shift cred i) = true.

(** A capability overrides them: the one for everything, except executing a file that
    nobody may execute; the other for reading and for searching directories. *)
Definition may_override (cred : task_cred) (mode mask : Z) : Prop :=
  capable cred CAP_DAC_OVERRIDE = true /\
  (Z.testbit mask 0 = true -> S_ISDIR mode = true \/
     Z.testbit mode 0 = true \/ Z.testbit mode 3 = true \/ Z.testbit mode 6 = true) \/
  capable cred CAP_DAC_READ_SEARCH = true /\
  (mask = MAY_READ \/ S_ISDIR mode = true /\ Z.testbit mask 1 = false).

(** ** Lemmas *)

Lemma bits_7 i : 0 <= i -> Z.testbit 7 i = (i <=? 2).
Proof.
  intros Hi. change 7 with (Z.ones 3). destruct (Z.leb_spec i 2).
  - apply Z.ones_spec_low. lia.
  - apply Z.ones_spec_high. lia.
Qed.

(** The comparison of masks is a comparison bit by bit. *)
Lemma covers_spec mode mask0 :
  let mask := Z.land mask0 7 in
  (Z.land (Z.land mode mask) 7 =? mask) = true <->
  forall b, 0 <= b <= 2 -> Z.testbit mask b = true -> Z.testbit mode b = true.
Proof.
  intros mask. rewrite Z.eqb_eq. split.
  - intros E b Hb Hm. rewrite <- E, !Z.land_spec in Hm. by destruct (Z.testbit mode b).
  - intros Hall. apply Z.bits_inj'. intros b Hb. rewrite !Z.land_spec, bits_7 by done.
    destruct (Z.leb_spec b 2).
    + specialize (Hall b). unfold mask in *. rewrite Z.land_spec, bits_7 in * by done.
      rewrite (proj2 (Z.leb_le _ _)) in * by lia.
      destruct (Z.testbit mask0 b); [|by rewrite andb_false_r]. by rewrite Hall by lia.
    + unfold mask. rewrite Z.land_spec, bits_7 by done.
      rewrite (proj2 (Z.leb_gt _ _)) by lia. by rewrite !andb_false_r.
Qed.

Lemma truthy_ixugo mode :
  truthy (Z.land mode S_IXUGO) = Z.testbit mode 0 || Z.testbit mode 3 || Z.testbit mode 6.
Proof.
  destruct (truthy (Z.land mode S_IXUGO)) eqn:E; symmetry.
  - destruct (_ || _) eqn:E'; [done|]. apply orb_false_iff in E' as [E' E6].
    apply orb_false_iff in E' as [E0 E3]. unfold truthy in E.
    apply negb_true_iff, Z.eqb_neq in E. destruct E. apply Z.bits_inj'. intros i Hi.
    rewrite Z.land_spec, Z.bits_0. change S_IXUGO with (Z.lor (2 ^ 0) (Z.lor (2 ^ 3) (2 ^ 6))).
    rewrite !Z.lor_spec, !Z.pow2_bits_eqb by lia.
    destruct (Z.eqb_spec 0 i) as [<-|]; [by rewrite E0|].
    destruct (Z.eqb_spec 3 i) as [<-|]; [by rewrite E3|].
    destruct (Z.eqb_spec 6 i) as [<-|]; [by rewrite E6|]. by rewrite andb_false_r.
  - apply not_true_iff_false. intros Hor. unfold truthy in E.
    apply negb_false_iff, Z.eqb_eq in E.
    assert (forall b, Z.testbit S_IXUGO b = true -> Z.testbit mode b = false) as Hb.
    { intros b Hb. apply (f_equal (fun z => Z.testbit z b)) in E.
      by rewrite Z.land_spec, Hb, andb_true_r, Z.bits_0 in E. }
    by rewrite !Hb in Hor.
Qed.

(** The decision is the specified one. *)
Lemma check_mode_spec cred i mode mask0 :
  let mask := Z.land mask0 7 in
  (check_mode cred i mode mask = 0 \/ check_mode cred i mode mask = - EACCES) /\
  (check_mode cred i mode mask = 0 <->
   dac_allows cred i mode mask \/ may_override cred mode mask).
Proof.
  intros mask. unfold check_mode.
  set (m := if current_fsuid cred =? _ then _ else _).
  assert (forall b, 0 <= b -> Z.testbit m b = Z.testbit mode (b + class_shift cred i)) as Hm.
  { intros b Hb. unfold m, class_shift.
    destruct (_ =? _); [by rewrite Z.shiftr_spec|].
    destruct (in_group_p _ _); [by rewrite Z.shiftr_spec|]. by rewrite Z.add_0_r. }
  change (Z.lor (Z.lor MAY_READ MAY_WRITE) MAY_EXEC) with 7.
  destruct (_ =? mask) eqn:Ed.
  { split; [by left|]. split; [|done]. intros _. left. intros b Hb Hbit.
    rewrite <- Hm by lia. by apply (proj1 (covers_spec m mask0) Ed). }
  assert (~ dac_allows cred i mode mask) as Hno.
  { intros Hd. apply not_true_iff_false in Ed. apply Ed, covers_spec. intros b Hb Hbit.
    rewrite Hm by lia. by apply Hd. }
  change (Z.land mask MAY_EXEC) with (Z.land mask (2 ^ 0)).
  change (Z.land mask MAY_WRITE) with (Z.land mask (2 ^ 1)).
  rewrite !truthy_land_bit, truthy_ixugo by lia.
  assert (forall a b : bool, (if a then 0 else if b then 0 else - EACCES) = 0 <->
    a = true \/ b = true) as Hif by (intros [] []; split; naive_solver).
  split; [destruct (_ && capable _ CAP_DAC_OVERRIDE); [by left|]; destruct (_ && _); [by left|by right]|].
  rewrite Hif. unfold may_override.
  rewrite !andb_true_iff, !orb_true_iff, !andb_true_iff, !negb_true_iff, Z.eqb_eq.
  destruct (Z.testbit mask 0); intuition congruence.
Qed.

Section theorems.
Context {C K : Type} `{ConduitLaws C} (current : task_cred).
Implicit Types (c : C) (k : kernel K).

(** The request of a permission check, its bits beyond read, write and execute
    removed. *)
Definition rwx (mask0 : Z) : Z := Z.land mask0 7.

(** Writing that no mode can allow. *)
Definition write_refused (s : super) (i : inode) (mask : Z) : option Z :=
  let m := i_mode (i_attrs i) in
  if Z.testbit mask 1 && truthy (Z.land (s_flags s) MS_RDONLY) &&
     (S_ISREG m || S_ISDIR m || S_ISLNK m) then Some (- EROFS)
  else if Z.testbit mask 1 && IS_IMMUTABLE i then Some (- EACCES)
  else None.

(** The result is 0 if access is to be granted, and [-EACCES] if not. *)
Definition decides (i : inode) (mode mask ret : Z) : Prop :=
  (ret = 0 \/ ret = - EACCES) /\
  (ret = 0 <-> dac_allows current i mode mask \/ may_override current mode mask).

(** The answer of [uvfs_permission], and who is asked for it. *)
Definition permission_post (c : C) (k : kernel K) (mask0 : Z) (i : inode) (s : super) :
    Z -> world C K -> Prop :=
  fun ret w' =>
    kern w' = k /\
    match write_refused s i (rwx mask0) with
    | Some e => ret = e /\ conduit w' = c
    | None =>
        if current_fsuid current =? attr_uid i
        then conduit w' = c /\ decides i (i_mode (i_attrs i)) (rwx mask0) ret
        else ret = - ENOMEM /\ silent c (conduit w') \/
             exists u, asked c (conduit w')
                 (RqGetattr (current_fsuid current) (current_fsgid current) (i_fh i)) u /\
               let error := get_int uvfs_getattr_rep_s "error" u in
               if error =? 0
               then decides i (u16 (a_mode (get_attr uvfs_getattr_rep_s "a" u)))
                      (rwx mask0) ret
               else ret = error
    end.

Lemma uvfs_permission_spec c k p mask0 i s :
  inodes k !! p = Some i -> supers k !! i_sb i = Some s ->
  wp (uvfs_permission current p mask0) (permission_post c k mask0 i s) (World c k).
Proof.
  unfold permission_post.
  intros Hp Hs. unfold uvfs_permission, write_refused, rwx.
  change (Z.lor (Z.lor MAY_READ MAY_WRITE) MAY_EXEC) with 7.
  change (Z.land (Z.land mask0 7) MAY_WRITE) with (Z.land (Z.land mask0 7) (2 ^ 1)).
  set (mask := Z.land mask0 7). rewrite truthy_land_bit by lia.
  set (ro := truthy (Z.land (s_flags s) MS_RDONLY)).
  assert (forall Q : bool -> world C K -> Prop, Q (Z.testbit mask 1 && ro) (World c k) ->
    wp (if Z.testbit mask 1 then IS_RDONLY i else mret false) Q (World c k)) as Hro.
  { intros Q HQ. destruct (Z.testbit mask 1); [|by wp_go]. unfold IS_RDONLY. by wp_go. }
  wp_go. apply Hro. rewrite andb_assoc, andb_diag.
  destruct (_ && ro && _); [by wp_go|]. destruct (_ && IS_IMMUTABLE i); [by wp_go|].
  destruct (_ =? attr_uid i); cbn [negb].
  { wp_go. split; [done|]. split; [done|]. apply check_mode_spec. }
  wp_go. apply wp_new.
  - intros c' Hc. wp_go. split; [done|]. by left.
  - intros c' t serial u0 Hser Hfree Hl He. wp_go.
    eapply (wp_submit _ c _ _ _ _ _ (RqGetattr _ _ _)); [done..|]. intros c2 u Hh.
    unfold truthy. destruct (get_int _ "error" u =? 0) eqn:Ee; cbn [negb]; wp_go;
      (split; [done|]); right; exists u; rewrite Ee; (split; [done|]); [|done].
    apply check_mode_spec.
Qed.

(** C14: permission checks implement discretionary access control with the two
    capabilities: writing is refused on a read-only file system and to an immutable
    file; otherwise access is granted exactly when the class of the task has every
    bit that is asked for or a capability overrides.  The mode is the inode's when its
    attributes were fetched for this user, and otherwise the one the server reports
    for this user, or its error is returned.  Nothing is changed. *)
Theorem uvfs_permission_correct c k p mask0 i s :
  inodes k !! p = Some i -> supers k !! i_sb i = Some s ->
  wp (uvfs_permission current p mask0) (permission_post c k mask0 i s) (World c k).
Proof. apply uvfs_permission_spec. Qed.
End theorems.

Lemma uvfs_permission_correct_witness :
  exists ret w', uvfs_permission demo_cred 1%nat (MAY_READ + MAY_WRITE) demo_world = Some (ret, w') /\
  kern w' = demo_kernel /\ ret = 0.
Proof.
  pose proof (uvfs_permission_correct demo_cred demo_alone demo_kernel 1%nat (MAY_READ + MAY_WRITE)
    (demo_inode 3 (S_IFREG + 420) Uvfs_file_inode_operations)
    (Super 0 0 4096 12 1 true (Some 0%nat)) eq_refl eq_refl) as H.
  apply wp_elim in H as (ret & w' & E & Hk & Hc & Hd & _). exists ret, w'.
  split; [exact E|]. split; [exact Hk|].
  assert (Some ret = Some 0) as [= ->]; [|done].
  transitivity (fst <$> uvfs_permission demo_cred 1%nat (MAY_READ + MAY_WRITE) demo_world);
    [|by vm_compute].
  change demo_world with (World demo_alone demo_kernel). by rewrite E.
Defined.
