(* ===== verification/File.v ===== *)
(** * Files and pages (file.c)

    Data moves between the server and the page cache, a page at a time; a write goes
    to the server at once.  Attributes are fetched before every read and write. *)

From stdpp Require Import prelude gmap list strings.
From Stdlib Require Import ZArith Lia.
From S2P Require Import Prelude Protocol Driver DriverSteps Requests RequestProps Conduit.
From S2P Require Import Kernel Calls Inode.

Open Scope string_scope.
Open Scope list_scope.
Open Scope Z_scope.

Definition PAGE_CACHE_SHIFT : Z := 12.

(** ** Pages *)

Definition SetPageUptodate (g : page) : page :=
  Page (pg_index g) (pg_host g) (pg_data g) true (PageError g) (PageLocked g).
Definition SetPageError (g : page) : page :=
  Page (pg_index g) (pg_host g) (pg_data g) (PageUptodate g) true (PageLocked g).
Definition unlock_page (g : page) : page :=
  Page (pg_index g) (pg_host g) (pg_data g) (PageUptodate g) (PageError g) false.
Definition with_data (m : mem) (g : page) : page :=
  Page (pg_index g) (pg_host g) m (PageUptodate g) (PageError g) (PageLocked g).

(** [memset(kaddr + off, 0, n)]. *)
Definition zero_bytes (off n : Z) : mem -> mem := wr_bytes off (replicate (Z.to_nat n) 0).

(** The kernel's functions on pages and attributes.  [inode_change_ok] is given the
    caller's attributes by reference: its result comes with what it leaves in them.
    [inode_setattr] only reads them. *)
Class FileVFS (K : Type) := {
  grab_cache_page_write_begin : iptr -> Z -> Z -> kernel K -> option pgptr * kernel K;
  page_cache_release : pgptr -> K -> K;
  mark_inode_dirty : iptr -> K -> K;
  inode_change_ok : inode -> iattr -> Z * iattr;
  inode_setattr : iptr -> iattr -> kernel K -> Z * kernel K }.

Section file.
Context {C K : Type} `{Conduit C} `{VFS K} `{FileVFS K} (current : task_cred).
Abbreviation fsuid := (current_fsuid current).
Abbreviation fsgid := (current_fsgid current).

(** [do_sync_read], [do_sync_write] and [generic_file_mmap] are functions of the
    kernel that come back to the file system through its other operations. *)
Definition uvfs_file_read (do_sync_read : M (world C K) Z) (p : iptr) : M (world C K) Z :=
  ret ← uvfs_revalidate_inode current p;
  if negb (truthy ret) then do_sync_read else mret ret.
Definition uvfs_file_write (do_sync_write : M (world C K) Z) (p : iptr) : M (world C K) Z :=
  ret ← uvfs_revalidate_inode current p;
  if negb (truthy ret) then do_sync_write else mret ret.
Definition uvfs_file_mmap (generic_file_mmap : M (world C K) Z) (p : iptr) : M (world C K) Z :=
  ret ← uvfs_revalidate_inode current p;
  if negb (truthy ret) then generic_file_mmap else mret ret.

(** The data is at [at_] in the page [buff]; a copy that leaves the page or the
    request is a fault. *)
Definition uvfs_write (p : iptr) (buff : mem) (at_ offset count : Z) : M (world C K) Z :=
  trans ← on_conduit new_trans;
  match trans with
  | None => mret (- ENOMEM)
  | Some t =>
      i ← get_inode p;
      if (0 <=? at_) && (0 <=? count) && (at_ + count <=? PAGE_CACHE_SIZE) then
        reply ← submit_request t (fun serial =>
          write_request serial fsuid fsgid (i_fh i) offset (rd_bytes at_ count buff));
        on_conduit (free_trans t);;
        mret (get_int uvfs_file_write_rep_s "error" reply)
      else fault
  end.

Definition uvfs_writepage (pg : pgptr) : M (world C K) Z :=
  g ← get_page pg;
  i ← get_inode (pg_host g);
  let size := i_size (i_attrs i) in
  let end_index := u32 (Z.shiftr size PAGE_CACHE_SHIFT) in
  let tail := u32 (Z.land size (PAGE_CACHE_SIZE - 1)) in
  let inside := pg_index g <? end_index in
  if negb inside && ((end_index <? pg_index g) || (tail =? 0)) then
    upd_page pg SetPageUptodate;; upd_page pg unlock_page;; mret 0
  else
    let count := if inside then PAGE_CACHE_SIZE else tail in
    let offset := u32 (Z.shiftl (pg_index g) PAGE_CACHE_SHIFT) in
    err ← uvfs_write (pg_host g) (pg_data g) 0 offset count;
    upd_page pg (if truthy err then SetPageError else SetPageUptodate);;
    upd_page pg unlock_page;;
    mret err.

Definition uvfs_readpage (pg : pgptr) : M (world C K) Z :=
  g ← get_page pg;
  trans ← on_conduit new_trans;
  match trans with
  | None => mret (- ENOMEM)
  | Some t =>
      i ← get_inode (pg_host g);
      reply ← submit_request t (fun serial =>
        read_request serial fsuid fsgid (i_fh i) (Z.shiftl (pg_index g) PAGE_CACHE_SHIFT));
      let error := get_int uvfs_file_read_rep_s "error" reply in
      if error <? 0 then
        upd_page pg SetPageError;;
        upd_page pg unlock_page;;
        on_conduit (free_trans t);; mret error
      else
        let n := get_int uvfs_file_read_rep_s "bytes_read" reply in
        if (0 <=? n) && (n <=? PAGE_CACHE_SIZE) then
          let data := rd_bytes (offsetof uvfs_file_read_rep_s "buff") n reply in
          upd_page pg (with_data (wr_bytes 0 data (pg_data g)));;
          (if n <? PAGE_CACHE_SIZE then
             g' ← get_page pg;
             upd_page pg (with_data (zero_bytes n (PAGE_CACHE_SIZE - n) (pg_data g')))
           else mret tt);;
          upd_page pg SetPageUptodate;;
          upd_page pg unlock_page;;
          on_conduit (free_trans t);; mret 0
        else fault
  end.

Definition uvfs_prepare_write (pg : pgptr) (offset to : Z) : M (world C K) Z := mret 0.

(** The result comes with the page stored through [pagep]. *)
Definition uvfs_write_begin (mapping : iptr) (pos len flags : Z) :
    M (world C K) (Z * option pgptr) :=
  let index := Z.shiftr pos PAGE_CACHE_SHIFT in
  let from := u32 (Z.land pos (PAGE_CACHE_SIZE - 1)) in
  page ← on_kernel (grab_cache_page_write_begin mapping index flags);
  match page with
  | None => mret (- ENOMEM, None)
  | Some pg => r ← uvfs_prepare_write pg from (from + len); mret (r, Some pg)
  end.

Definition uvfs_commit_write (pg : pgptr) (offset to : Z) : M (world C K) Z :=
  g ← get_page pg;
  let p := pg_host g in
  let count := u32 (to - offset) in
  let off := u32 (Z.shiftl (pg_index g) PAGE_CACHE_SHIFT + offset) in
  retval ← uvfs_write p (pg_data g) offset off count;
  let pos := s64 (Z.shiftl (pg_index g) PAGE_CACHE_SHIFT + to) in
  i ← get_inode p;
  whenb (i_size (i_attrs i) <? pos) (
    upd_inode p (set_size pos);;
    on_rest (mark_inode_dirty p));;
  upd_page pg SetPageUptodate;;
  mret retval.

Definition uvfs_write_end (pos len copied : Z) (pg : pgptr) : M (world C K) Z :=
  let from := u32 (Z.land pos (PAGE_CACHE_SIZE - 1)) in
  (if copied <? len then
     if from + len <=? PAGE_CACHE_SIZE then
       g ← get_page pg;
       upd_page pg (with_data (zero_bytes (from + copied) (len - copied) (pg_data g)))
     else fault
   else mret tt);;
  _ ← uvfs_commit_write pg from (from + copied);
  upd_page pg unlock_page;;
  on_rest (page_cache_release pg);;
  mret copied.

(** ** Attributes *)

Definition with_valid (v : Z) (a : iattr) : iattr :=
  IAttr v (ia_mode a) (ia_uid a) (ia_gid a) (ia_size a) (ia_atime a) (ia_mtime a) (ia_ctime a).

(** The result comes with what is left in the caller's [attr]. *)
Definition uvfs_setattr (entry : dptr) (attr : iattr) : M (world C K) (Z * iattr) :=
  d ← get_dentry entry;
  p ← d_inode_of d;
  i ← get_inode p;
  let (error, attr0) := inode_change_ok i attr in
  if error <? 0 then mret (error, attr0)
  else
    let oldflags := ia_valid attr0 in
    let attr1 := with_valid
      (Z.land (ia_valid attr0) (Z.lnot (Z.lor (Z.lor ATTR_ATIME ATTR_MTIME) ATTR_CTIME))) attr0 in
    r ← on_kernel (inode_setattr p attr1);
    if truthy r then mret (- EINVAL, attr1)
    else
      let attr2 := with_valid oldflags attr1 in
      trans ← on_conduit new_trans;
      match trans with
      | None => mret (- ENOMEM, attr2)
      | Some t =>
          i' ← get_inode p;
          reply ← submit_request t (fun serial =>
            setattr_request serial fsuid fsgid (i_fh i') attr2);
          on_conduit (free_trans t);;
          mret (get_int uvfs_setattr_rep_s "error" reply, attr2)
      end.

(** [generic_fillattr] copies the inode's attributes to a [struct kstat]. *)
Definition uvfs_getattr {kstat : Type} (generic_fillattr : inode -> kstat) (entry : dptr) :
    M (world C K) (Z * kstat) :=
  d ← get_dentry entry;
  p ← d_inode_of d;
  error ← uvfs_revalidate_inode current p;
  i ← get_inode p;
  mret (error, generic_fillattr i).
End file.
