(* ===== verification/FileProps.v ===== *)
(** * What the file operations do (file.c) *)

From stdpp Require Import prelude gmap list strings.
From Stdlib Require Import ZArith Lia.
From S2P Require Import Prelude Protocol Driver DriverSteps Requests RequestProps Conduit.
From S2P Require Import ConduitDriver Kernel VFSModel Demo Calls Inode File.

Open Scope string_scope.
Open Scope list_scope.
Open Scope Z_scope.

(** ** Specification *)

(** Attributes with another mode. *)
Definition with_mode (m : Z) (a : iattr) : iattr :=
  IAttr (ia_valid a) m (ia_uid a) (ia_gid a) (ia_size a) (ia_atime a) (ia_mtime a) (ia_ctime a).

(** [inode_change_ok] may take the set-group-ID bit out of a mode that is to be set, and
    changes nothing else of the attributes.  [inode_setattr] changes the attributes of
    the inode and pages, and no other inode. *)
Class FileVFSLaws (K : Type) `{FileVFS K} := {
  change_ok_law i a :
    snd (inode_change_ok i a) = a \/
    Z.testbit (ia_valid a) 0 = true /\
    snd (inode_change_ok i a) = with_mode (Z.clearbit (ia_mode a) 10) a;
  setattr_law p a k i : inodes k !! p = Some i ->
    exists a', inodes (snd (inode_setattr p a k)) = <[p := set_attrs a' i]> (inodes k) }.

(** A reply to READ that holds no more than a page. *)
Definition page_reply (u : mem) : Prop :=
  get_int uvfs_file_read_rep_s "error" u < 0 \/
  0 <= get_int uvfs_file_read_rep_s "bytes_read" u <= PAGE_CACHE_SIZE.

(** The page after a read: the bytes of the reply, then zeros. *)
Definition filled (u : mem) (g g' : page) : Prop :=
  pg_index g' = pg_index g /\ pg_host g' = pg_host g /\ PageUptodate g' = true /\
  PageLocked g' = false /\ PageError g' = PageError g /\
  forall x, 0 <= x < PAGE_CACHE_SIZE ->
    rd8 (pg_data g') x =
    if x <? get_int uvfs_file_read_rep_s "bytes_read" u
    then rd8 u (offsetof uvfs_file_read_rep_s "buff" + x) else 0.

(** What of a page lies within a file of the given size. *)
Definition bytes_inside (size index : Z) : Z :=
  Z.min PAGE_CACHE_SIZE (size - index * PAGE_CACHE_SIZE).

Section spec.
Context {C K : Type} `{Conduit C} `{VFS K} `{FileVFS K} (current : task_cred).
Abbreviation fsuid := (current_fsuid current).
Abbreviation fsgid := (current_fsgid current).

(** A write of [data] at [offset] has been made, and ended in [ret]. *)
Definition wrote (c c' : C) (i : inode) (offset : Z) (data : list Z) (ret : Z) : Prop :=
  ret = - ENOMEM /\ silent c c' \/
  exists u, asked c c' (RqWrite fsuid fsgid (i_fh i) offset data) u /\
            ret = get_int uvfs_file_write_rep_s "error" u.

(** The kernel with the page [g'] in the place of [pg]. *)
Definition page_set (pg : pgptr) (g' : page) (k : kernel K) : kernel K :=
  set_pages (<[pg := g']> (pages k)) k.

(** The end of a write of [n] bytes at [pos] of which [copied] were copied. *)
Definition write_ended (c : C) (k : kernel K) (pos copied n : Z) (pg : pgptr) (g : page)
    (i : inode) (ret : Z) (w' : world C K) : Prop :=
  let from := pos mod PAGE_CACHE_SIZE in
  ret = copied /\
  (exists e, wrote c (conduit w') i pos (rd_bytes from copied (pg_data g)) e) /\
  inodes (kern w') =
    <[pg_host g := set_size (Z.max (i_size (i_attrs i)) (pos + copied)) i]> (inodes k) /\
  dentries (kern w') = dentries k /\ supers (kern w') = supers k /\
  exists data, pages (kern w') =
      <[pg := unlock_page (SetPageUptodate (with_data data g))]> (pages k) /\
    forall x, rd8 data x = if (from + copied <=? x) && (x <? from + n)
                           then 0 else rd8 (pg_data g) x.

Definition write_finished (ret : Z) (g : page) : page :=
  unlock_page (if ret =? 0 then SetPageUptodate g else SetPageError g).
End spec.

(** ** Lemmas *)

Lemma nth_replicate_0 i n : nth i (replicate n 0) 0 = 0.
Proof. revert i. induction n as [|n IH]; intros [|i]; cbn; auto. Qed.

Lemma rd8_zero_bytes off n m x :
  0 <= n -> rd8 (zero_bytes off n m) x =
  if (off <=? x) && (x <? off + n) then 0 else rd8 m x.
Proof.
  intros Hn. unfold zero_bytes.
  assert (Z.of_nat (length (replicate (Z.to_nat n) 0)) = n) as Hlen
    by (rewrite length_replicate; lia).
  destruct (_ && _) eqn:E.
  - apply in_range_spec in E. rewrite rd8_wr_bytes_in by lia.
    by rewrite nth_replicate_0.
  - apply in_range_false in E. by rewrite rd8_wr_bytes_out by lia.
Qed.

Section theorems.
Context {C K : Type} `{ConduitLaws C} `{VFSLaws K} `{FileVFSLaws K} (current : task_cred).
Implicit Types (c : C) (k : kernel K).
Abbreviation fsuid := (current_fsuid current).
Abbreviation fsgid := (current_fsgid current).

(** The rule for a write. *)
Lemma wp_write Q c k p i buff at_ offset count :
  inodes k !! p = Some i -> 0 <= at_ -> 0 <= count -> at_ + count <= PAGE_CACHE_SIZE ->
  (forall c' ret, wrote current c c' i offset (rd_bytes at_ count buff) ret ->
   Q ret (World c' k)) ->
  wp (uvfs_write current p buff at_ offset count) Q (World c k).
Proof.
  intros Hp Ha Hc Hfit HQ. unfold uvfs_write. apply wp_bind, wp_new.
  - intros c' Hs. wp_go. apply HQ. by left.
  - intros c' t serial u0 Hser Hfree Hl He. wp_go.
    rewrite !(proj2 (Z.leb_le _ _)) by lia. cbn [andb]. wp_go.
    eapply (wp_submit _ c _ _ _ _ _
      (RqWrite fsuid fsgid (i_fh i) offset (rd_bytes at_ count buff))); [done..| |].
    + cbn. unfold len. rewrite length_rd_bytes. lia.
    + intros c2 u Hh. wp_go. apply HQ. right. by exists u.
Qed.

(** What READPAGE leaves. *)
Definition page_read (c : C) (k : kernel K) (pg : pgptr) (g : page) (i : inode) :
    Z -> world C K -> Prop :=
  fun ret w' =>
    ret = - ENOMEM /\ silent c (conduit w') /\ kern w' = k \/
    exists u g', asked c (conduit w')
        (RqRead fsuid fsgid (i_fh i) (Z.shiftl (pg_index g) PAGE_CACHE_SHIFT)) u /\
      kern w' = page_set pg g' k /\
      if get_int uvfs_file_read_rep_s "error" u <? 0
      then ret = get_int uvfs_file_read_rep_s "error" u /\
           g' = unlock_page (SetPageError g)
      else ret = 0 /\ filled u g g'.

Lemma uvfs_readpage_spec c k pg g i :
  pages k !! pg = Some g -> inodes k !! pg_host g = Some i ->
  (forall uid gid offset, replies C (RqRead uid gid (i_fh i) offset) page_reply) ->
  wp (uvfs_readpage current pg) (page_read c k pg g i) (World c k).
Proof.
  unfold page_read.
  intros Hg Hi Hrep. unfold uvfs_readpage. wp_go. apply wp_new.
  - intros c' Hs. wp_go. by left.
  - intros c' t serial u0 Hser Hfree Hl He. wp_go.
    eapply (wp_submit_with page_reply _ c _ _ _ _ _ (RqRead _ _ _ _)); [apply Hrep|done..|].
    intros c2 u Hh Hr. destruct (get_int _ "error" u <? 0) eqn:Ee.
    { wp_go. right. eexists u, _. rewrite Ee. split; [done|]. split; [|done].
      unfold page_set. cbn. by rewrite insert_insert_eq. }
    destruct Hr as [Hr|Hr]; [apply Z.ltb_ge in Ee; lia|].
    set (n := get_int _ "bytes_read" u) in *.
    rewrite !(proj2 (Z.leb_le _ _)) by lia. cbn [andb]. wp_go.
    assert (forall x, 0 <= x < n -> rd8 (wr_bytes 0 (rd_bytes (offsetof uvfs_file_read_rep_s "buff") n u)
      (pg_data g)) x = rd8 u (offsetof uvfs_file_read_rep_s "buff" + x)) as Hin.
    { intros x Hx. rewrite rd8_wr_bytes_in by (rewrite length_rd_bytes; lia).
      rewrite nth_rd_bytes by lia. rewrite Z.sub_0_r, Z2Nat.id by lia. apply Zmod_mod. }
    destruct (Z.ltb_spec n PAGE_CACHE_SIZE) as [Hlt|Hge].
    + wp_go. eapply wp_get_page; [apply lookup_insert_eq|]. wp_go.
      right. eexists u, _. rewrite Ee. split; [done|].
      split; [unfold page_set; cbn; by rewrite !insert_insert_eq|]. split; [done|].
      split_and!; try done. intros x Hx. cbn. rewrite rd8_zero_bytes by lia.
      fold n. destruct (Z.ltb_spec x n).
      * rewrite (proj2 (Z.leb_gt _ _)) by lia. apply Hin. lia.
      * rewrite (proj2 (Z.leb_le _ _)), (proj2 (Z.ltb_lt _ _)) by lia. done.
    + wp_go. right. eexists u, _. rewrite Ee. split; [done|].
      split; [unfold page_set; cbn; by rewrite !insert_insert_eq|]. split; [done|].
      split_and!; try done. intros x Hx. cbn. fold n.
      rewrite (proj2 (Z.ltb_lt _ _)) by lia. apply Hin. lia.
Qed.

(** C19: READPAGE asks for the page at its place in the file, and fills it with the
    bytes of the reply followed by zeros up to the end of the page, provided the
    server counts the bytes rightly; the page is then up to date and unlocked.  An
    error of the server marks the page and unlocks it.  When no transaction can be
    allocated the page is left as it was, still locked. *)
Theorem uvfs_readpage_correct c k pg g i :
  pages k !! pg = Some g -> inodes k !! pg_host g = Some i ->
  (forall uid gid offset, replies C (RqRead uid gid (i_fh i) offset) page_reply) ->
  wp (uvfs_readpage current pg) (page_read c k pg g i) (World c k).
Proof. apply uvfs_readpage_spec. Qed.

(** What WRITEPAGE leaves. *)
Definition page_written (c : C) (k : kernel K) (pg : pgptr) (g : page) (i : inode) :
    Z -> world C K -> Prop :=
  let offset := pg_index g * PAGE_CACHE_SIZE in
  let n := bytes_inside (i_size (i_attrs i)) (pg_index g) in
  fun ret w' =>
    if n <=? 0
    then ret = 0 /\ conduit w' = c /\ kern w' = page_set pg (write_finished 0 g) k
    else wrote current c (conduit w') i offset (rd_bytes 0 n (pg_data g)) ret /\
         kern w' = page_set pg (write_finished ret g) k.

(** The last page of a file of [size] bytes, and how much of it is in the file. *)
Lemma page_split size :
  0 <= size < 2 ^ 32 ->
  u32 (Z.shiftr size PAGE_CACHE_SHIFT) = size / 4096 /\
  u32 (Z.land size (PAGE_CACHE_SIZE - 1)) = size mod 4096 /\
  size = 4096 * (size / 4096) + size mod 4096 /\ 0 <= size mod 4096 < 4096 /\
  0 <= size / 4096 < 2 ^ 20.
Proof.
  intros Hsize. rewrite Z.shiftr_div_pow2 by (unfold PAGE_CACHE_SHIFT; lia).
  change (2 ^ PAGE_CACHE_SHIFT) with 4096. change (PAGE_CACHE_SIZE - 1) with (Z.ones 12).
  rewrite Z.land_ones by lia. change (2 ^ 12) with 4096.
  pose proof (Z.div_mod size 4096 ltac:(lia)). pose proof (Z.mod_pos_bound size 4096 ltac:(lia)).
  assert (0 <= size / 4096 < 2 ^ 20).
  { split; [apply Z.div_pos; lia|]. apply Z.div_lt_upper_bound; lia. }
  split_and!; try lia; apply u32_small; unfold uint_range; lia.
Qed.

Lemma page_offset idx :
  0 <= idx < 2 ^ 20 -> u32 (Z.shiftl idx PAGE_CACHE_SHIFT) = idx * PAGE_CACHE_SIZE.
Proof.
  intros Hidx. rewrite Z.shiftl_mul_pow2 by (unfold PAGE_CACHE_SHIFT; lia).
  apply u32_small. unfold uint_range, PAGE_CACHE_SIZE, PAGE_CACHE_SHIFT. lia.
Qed.

(** The page is marked by the result of the write and unlocked. *)
Lemma wp_page_written c c2 k pg g i ret n :
  pages k !! pg = Some g -> n = bytes_inside (i_size (i_attrs i)) (pg_index g) -> 0 < n ->
  wrote current c c2 i (pg_index g * PAGE_CACHE_SIZE) (rd_bytes 0 n (pg_data g)) ret ->
  wp (upd_page pg (if truthy ret then SetPageError else SetPageUptodate);;
      upd_page pg unlock_page;; mret ret) (page_written c k pg g i) (World c2 k).
Proof.
  intros Hg -> Hn Hw. wp_go. unfold page_written. rewrite (proj2 (Z.leb_gt _ _)) by lia.
  split; [done|]. cbn. unfold page_set, write_finished, truthy. rewrite insert_insert_eq.
  by destruct (ret =? 0).
Qed.

Lemma uvfs_writepage_spec c k pg g i :
  pages k !! pg = Some g -> inodes k !! pg_host g = Some i ->
  0 <= pg_index g -> 0 <= i_size (i_attrs i) < 2 ^ 32 ->
  wp (uvfs_writepage current pg) (page_written c k pg g i) (World c k).
Proof.
  intros Hg Hi Hidx Hsize. unfold uvfs_writepage. wp_go.
  set (size := i_size (i_attrs i)) in *.
  destruct (page_split size Hsize) as (-> & -> & Hdm & Hmod & Hend).
  assert (bytes_inside size (pg_index g) = Z.min 4096 (size - pg_index g * 4096)) as En by done.
  destruct (Z.ltb_spec (pg_index g) (size / 4096)) as [Hin|Hout]; cbn [negb andb].
  - rewrite page_offset by lia. apply wp_bind.
    apply (wp_write _ c k _ i); [done|unfold PAGE_CACHE_SIZE; lia..|].
    intros c2 ret Hw. eapply wp_page_written; [done| | |exact Hw].
    + fold size. rewrite En. unfold PAGE_CACHE_SIZE. lia.
    + done.
  - destruct (_ || _) eqn:Eor.
    + assert (size - pg_index g * 4096 <= 0) as Hle.
      { apply orb_true_iff in Eor. rewrite Z.ltb_lt, Z.eqb_eq in Eor. lia. }
      wp_go. unfold page_written. fold size. rewrite En, (proj2 (Z.leb_le _ _)) by lia.
      split; [done|]. split; [done|]. unfold page_set. cbn. by rewrite insert_insert_eq.
    + apply orb_false_iff in Eor. rewrite Z.ltb_ge, Z.eqb_neq in Eor.
      rewrite page_offset by lia. apply wp_bind.
      apply (wp_write _ c k _ i); [done|unfold PAGE_CACHE_SIZE; lia..|].
      intros c2 ret Hw. eapply wp_page_written; [done| | |exact Hw]; [|lia].
      fold size. rewrite En. lia.
Qed.

(** C20: WRITEPAGE sends exactly the part of the page that lies within the file, to its
    place there: the whole page, or up to the end of the file, and nothing for a page
    past the end.  The page is marked by the result and unlocked. *)
Theorem uvfs_writepage_correct c k pg g i :
  pages k !! pg = Some g -> inodes k !! pg_host g = Some i ->
  0 <= pg_index g -> 0 <= i_size (i_attrs i) < 2 ^ 32 ->
  wp (uvfs_writepage current pg) (page_written c k pg g i) (World c k).
Proof. apply uvfs_writepage_spec. Qed.

Lemma set_size_same i : set_size (i_size (i_attrs i)) i = i.
Proof. by destruct i as [??????? [] ???]. Qed.

(** The rule for committing a write that ends inside the page. *)
Lemma wp_commit_write Q c k pg g i offset to :
  pages k !! pg = Some g -> inodes k !! pg_host g = Some i ->
  0 <= pg_index g -> 0 <= offset <= to -> to <= PAGE_CACHE_SIZE ->
  pg_index g * PAGE_CACHE_SIZE + to < 2 ^ 32 ->
  (forall c' k' ret,
   let pos := pg_index g * PAGE_CACHE_SIZE + offset in
   wrote current c c' i pos (rd_bytes offset (to - offset) (pg_data g)) ret ->
   inodes k' = <[pg_host g :=
     set_size (Z.max (i_size (i_attrs i)) (pos + (to - offset))) i]> (inodes k) ->
   pages k' = <[pg := SetPageUptodate g]> (pages k) ->
   dentries k' = dentries k -> supers k' = supers k ->
   Q ret (World c' k')) ->
  wp (uvfs_commit_write current pg offset to) Q (World c k).
Proof.
  intros Hg Hi Hidx Ho Hto Hmax HQ. unfold uvfs_commit_write, PAGE_CACHE_SIZE in *.
  apply wp_bind. eapply wp_get_page; [done|].
  rewrite !Z.shiftl_mul_pow2 by (unfold PAGE_CACHE_SHIFT; lia).
  change (2 ^ PAGE_CACHE_SHIFT) with 4096.
  rewrite !u32_small by (unfold uint_range; lia).
  apply wp_bind, (wp_write _ c k _ i); [done|lia|lia|unfold PAGE_CACHE_SIZE; lia|].
  intros c2 ret Hw. wp_go. rewrite s64_small by lia.
  set (pos := pg_index g * 4096 + to) in *. cbn zeta in HQ.
  replace (pg_index g * 4096 + offset + (to - offset)) with pos in HQ by lia.
  destruct (Z.ltb_spec (i_size (i_attrs i)) pos) as [Hlt|Hge]; wp_go.
  - apply HQ; [done| |done..]. cbn. by rewrite Z.max_r by lia.
  - apply HQ; [done| |done..]. cbn. rewrite Z.max_l, set_size_same by lia.
    by rewrite insert_id.
Qed.

(** The end of a write into the page that holds [data]. *)
Lemma wp_commit_end c k k1 pos copied n pg g i data :
  inodes k !! pg_host g = Some i ->
  0 <= pos -> 0 <= copied <= n -> pos + n < 2 ^ 32 ->
  pg_index g = pos / PAGE_CACHE_SIZE -> pos mod PAGE_CACHE_SIZE + n <= PAGE_CACHE_SIZE ->
  let from := pos mod PAGE_CACHE_SIZE in
  (forall x, rd8 data x = if (from + copied <=? x) && (x <? from + n)
                          then 0 else rd8 (pg_data g) x) ->
  pages k1 = <[pg := with_data data g]> (pages k) ->
  inodes k1 = inodes k -> dentries k1 = dentries k -> supers k1 = supers k ->
  wp (uvfs_commit_write current pg from (from + copied))
     (fun _ => wp (upd_page pg unlock_page;; on_rest (page_cache_release pg);; mret copied)
                  (write_ended current c k pos copied n pg g i)) (World c k1).
Proof.
  intros Hi Hpos Hc Hmax Hidx Hfit from Hdata Hp1 Hi1 Hd1 Hs1.
  pose proof (Z.div_mod pos PAGE_CACHE_SIZE ltac:(done)) as Hdm.
  pose proof (Z.mod_pos_bound pos PAGE_CACHE_SIZE ltac:(done)) as Hmod.
  fold from in Hdm, Hfit, Hmod. unfold PAGE_CACHE_SIZE in *.
  assert (0 <= pos / 4096) as Hdiv by (apply Z.div_pos; lia).
  apply (wp_commit_write _ c k1 pg (with_data data g) i);
    cbn [pg_index pg_host pg_data with_data]; unfold PAGE_CACHE_SIZE;
    [rewrite Hp1; apply lookup_insert_eq|by rewrite Hi1|lia..|].
  intros c' k' e. cbn zeta.
  replace (pg_index g * 4096 + from) with pos by lia.
  replace (from + copied - from) with copied by lia. intros Hw Ei Ep Ed Es.
  apply wp_bind. eapply wp_upd_page; [rewrite Ep; apply lookup_insert_eq|]. wp_go.
  split; [done|]. split.
  { exists e. revert Hw.
    enough (rd_bytes from copied data = rd_bytes from copied (pg_data g)) as -> by done.
    apply rd_bytes_agree. intros x Hx. rewrite Hdata. by rewrite (proj2 (Z.leb_gt _ _)) by lia. }
  split; [cbn; by rewrite Ei, Hi1|]. split; [cbn; by rewrite Ed, Hd1|].
  split; [cbn; by rewrite Es, Hs1|]. exists data. split; [|done].
  cbn. by rewrite Ep, Hp1, !insert_insert_eq.
Qed.

Lemma uvfs_write_end_spec c k pos copied n pg g i :
  pages k !! pg = Some g -> inodes k !! pg_host g = Some i ->
  0 <= pos -> 0 <= copied <= n -> pos + n < 2 ^ 32 ->
  pg_index g = pos / PAGE_CACHE_SIZE -> pos mod PAGE_CACHE_SIZE + n <= PAGE_CACHE_SIZE ->
  wp (uvfs_write_end current pos n copied pg) (write_ended current c k pos copied n pg g i)
     (World c k).
Proof.
  intros Hg Hi Hpos Hc Hmax Hidx Hfit. unfold uvfs_write_end.
  assert (u32 (Z.land pos (PAGE_CACHE_SIZE - 1)) = pos mod PAGE_CACHE_SIZE) as ->.
  { change (PAGE_CACHE_SIZE - 1) with (Z.ones 12). rewrite Z.land_ones by lia.
    pose proof (Z.mod_pos_bound pos PAGE_CACHE_SIZE ltac:(done)) as Hmod.
    unfold PAGE_CACHE_SIZE in *. apply u32_small. unfold uint_range. lia. }
  set (from := pos mod PAGE_CACHE_SIZE) in *. cbn zeta.
  destruct (Z.ltb_spec copied n) as [Hlt|Hge]; apply wp_bind.
  - rewrite (proj2 (Z.leb_le _ _)) by lia. apply wp_bind.
    eapply wp_get_page; [done|]. eapply wp_upd_page; [done|]. apply wp_bind.
    eapply wp_commit_end; [done..| |done|done|done|done]. intros x. cbn [with_data pg_data].
    rewrite rd8_zero_bytes by lia. fold from.
    by replace (from + copied + (n - copied)) with (from + n) by lia.
  - apply wp_ret, wp_bind. eapply (wp_commit_end _ _ _ _ _ _ _ _ _ (pg_data g));
      [done..| |by rewrite insert_id by (by destruct g)|done|done|done].
    intros x. destruct (Z.leb_spec (pos mod PAGE_CACHE_SIZE + copied) x),
      (Z.ltb_spec x (pos mod PAGE_CACHE_SIZE + n)); cbn; lia || done.
Qed.

(** C21: WRITE_END sends the bytes that were copied to their place in the file, zeroes
    the rest of a short copy, grows the file to the end of what was copied, leaves
    the page up to date and unlocked, and returns the number of bytes copied -
    whatever the server has answered. *)
Theorem uvfs_write_end_correct c k pos copied n pg g i :
  pages k !! pg = Some g -> inodes k !! pg_host g = Some i ->
  0 <= pos -> 0 <= copied <= n -> pos + n < 2 ^ 32 ->
  pg_index g = pos / PAGE_CACHE_SIZE -> pos mod PAGE_CACHE_SIZE + n <= PAGE_CACHE_SIZE ->
  wp (uvfs_write_end current pos n copied pg) (write_ended current c k pos copied n pg g i)
     (World c k).
Proof. apply uvfs_write_end_spec. Qed.

(** The attributes that are changed locally: all but the three times. *)
Definition locally (a : iattr) : iattr :=
  with_valid (Z.ldiff (ia_valid a) (Z.lor (Z.lor ATTR_ATIME ATTR_MTIME) ATTR_CTIME)) a.

(** The attributes that the kernel's check lets through: the caller's, of which the mode
    can have lost the set-group-ID bit. *)
Definition let_through (attr attr0 : iattr) : Prop :=
  attr0 = attr \/
  Z.testbit (ia_valid attr) 0 = true /\ attr0 = with_mode (Z.clearbit (ia_mode attr) 10) attr.

(** What SETATTR leaves, when the check has ended in [error] and left [attr0]. *)
Definition attributes_asked (c : C) (k : kernel K) (p : iptr) (i : inode) (error : Z)
    (attr0 : iattr) : Z * iattr -> world C K -> Prop :=
  let change := inode_setattr p (locally attr0) k in
  fun '(ret, attr') w' =>
    if error <? 0
    then ret = error /\ attr' = attr0 /\ w' = World c k
    else if negb (fst change =? 0)
    then ret = - EINVAL /\ attr' = locally attr0 /\ w' = World c (snd change)
    else attr' = attr0 /\ kern w' = snd change /\
      (ret = - ENOMEM /\ silent c (conduit w') \/
       exists u, asked c (conduit w') (RqSetattr fsuid fsgid (i_fh i) attr0) u /\
                 ret = get_int uvfs_setattr_rep_s "error" u).
Definition attributes_set (c : C) (k : kernel K) (p : iptr) (i : inode) (attr : iattr)
    (r : Z * iattr) (w' : world C K) : Prop :=
  exists error attr0, inode_change_ok i attr = (error, attr0) /\ let_through attr attr0 /\
    attributes_asked c k p i error attr0 r w'.

Lemma uvfs_setattr_spec c k entry attr d p i :
  dentries k !! entry = Some d -> d_inode d = Some p -> inodes k !! p = Some i ->
  wp (uvfs_setattr current entry attr) (attributes_set c k p i attr) (World c k).
Proof.
  intros Hd Hp Hi. unfold uvfs_setattr. wp_go.
  pose proof (change_ok_law i attr) as Hok.
  destruct (inode_change_ok i attr) as [error attr0] eqn:Echange. cbn [snd] in Hok.
  apply (wp_mono _ (attributes_asked c k p i error attr0));
    [|intros r w' Hpost; by exists error, attr0].
  unfold attributes_asked. set (change := inode_setattr p (locally attr0) k).
  destruct (_ <? 0) eqn:Eok; [by wp_go|].
  apply wp_bind, wp_on_kernel. rewrite <- Z.ldiff_land. fold (locally attr0). fold change.
  pose proof (setattr_law p (locally attr0) k i Hi) as (a' & Ha'). fold change in Ha'.
  assert (inodes (snd change) !! p = Some (set_attrs a' i)) as Hi'
    by (rewrite Ha'; apply lookup_insert_eq).
  destruct change as [r k1]. cbn [fst snd] in *. unfold truthy.
  destruct (r =? 0) eqn:Er; cbn [negb]; [|by wp_go].
  assert (with_valid (ia_valid attr0) (locally attr0) = attr0) as -> by (by destruct attr0).
  apply wp_bind, wp_new.
  - intros c' Hs. wp_go. split; [done|]. split; [done|]. by left.
  - intros c' t serial u0 Hser Hfree Hl He. wp_go.
    eapply (wp_submit _ c _ _ _ _ _ (RqSetattr fsuid fsgid (i_fh i) attr0)); [done..|].
    intros c2 u Hh. wp_go. split; [done|]. split; [done|]. right.
    by exists u.
Qed.

(** C30: SETATTR is refused by the kernel's check before anything happens.  The check may
    take the set-group-ID bit out of the mode the caller wants to set; the attributes it
    leaves, but the times, are changed in the inode first, and only then is the server
    asked for all of them, once; the change is not taken back when there is no
    memory or the server refuses.  When the kernel cannot change the inode the server
    is not asked, and the caller's attributes have lost the times. *)
Theorem uvfs_setattr_correct c k entry attr d p i :
  dentries k !! entry = Some d -> d_inode d = Some p -> inodes k !! p = Some i ->
  wp (uvfs_setattr current entry attr) (attributes_set c k p i attr) (World c k).
Proof. apply uvfs_setattr_spec. Qed.
End theorems.

(** ** An example server and kernel *)

(** A server with a file of ten characters. *)
Definition file_reply (serial : Z) : mem :=
  let t := uvfs_file_read_rep_s in
  (fun _ => 0)
    |> set_chars t "buff" (replicate 10 120)
    |> set_int t "type" UVFS_READ
    |> set_int t "serial" serial
    |> set_int t "size" (sizeof t)
    |> set_int t "error" 0
    |> set_int t "bytes_read" 10.

Definition file_serve (past : list exchange) : server := fun bytes =>
  Some (sizeof uvfs_file_read_rep_s,
        file_reply (get_int uvfs_generic_req_s "serial" (mem_of bytes))).

Lemma file_serve_count past bytes count buff :
  file_serve past bytes = Some (count, buff) -> 0 <= count < 2 ^ 63.
Proof. intros [= <- _]. vm_compute. split; [discriminate|reflexivity]. Qed.

Lemma file_serve_pages uid gid fh offset :
  @replies alone (driver_conduit file_serve) (RqRead uid gid fh offset) page_reply.
Proof.
  apply (replies_answer file_serve file_serve_count); [done|].
  intros opens past serial u0 Hser. apply answer_cases.
  { intros e He Hr. left. unfold set_error. layout. rewrite rd32s_wr32. by rewrite s32_small. }
  set (b := build _ serial u0). intros count buff E.
  assert (buff = file_reply (get_int uvfs_generic_req_s "serial" (mem_of (delivered b)))) as ->
    by (unfold file_serve in E; congruence).
  set (n := get_int _ "serial" _).
  assert (get_int uvfs_generic_rep_s "size" (file_reply n) = sizeof uvfs_file_read_rep_s) as ->
    by (unfold file_reply; rq_unfold; rq_read; by vm_compute).
  right. rewrite get_int_copied by (by vm_compute).
  assert (get_int uvfs_file_read_rep_s "bytes_read" (file_reply n) = 10) as ->
    by (unfold file_reply; rq_unfold; rq_read; by vm_compute).
  by vm_compute.
Qed.

#[export] Instance demo_file_vfs : FileVFS (list call) := {|
  grab_cache_page_write_begin p index flags k :=
    let g := fresh (dom (pages k)) in
    (Some g, set_pages (<[g := Page index p zeros false false true]> (pages k)) k);
  page_cache_release pg r := r;
  mark_inode_dirty p r := r;
  inode_change_ok i a :=
    (if truthy (Z.land (ia_valid a) ATTR_UID) then - 1 else 0,
     if truthy (Z.land (ia_valid a) ATTR_MODE) && negb (in_group_p demo_cred (i_gid (i_attrs i)))
     then with_mode (Z.ldiff (ia_mode a) S_ISGID) a else a);
  inode_setattr p a k :=
    (0, if truthy (Z.land (ia_valid a) ATTR_SIZE)
        then set_inodes (alter (set_size (ia_size a)) p (inodes k)) k else k) |}.

#[export] Instance demo_file_laws : FileVFSLaws (list call).
Proof.
  split.
  { intros i a. cbn. destruct (truthy _) eqn:E; [|by left]. destruct (i_gid (i_attrs i) =? 100); [by left|].
    right. unfold ATTR_MODE in E. rewrite (truthy_land_bit _ 0) in E by done.
    split; [exact E|]. by rewrite Z.clearbit_spec'. }
  intros p a k i Hi. cbn. case_match.
  - eexists. cbn. apply map_eq. intros q. destruct (decide (p = q)) as [<-|Hne].
    + rewrite lookup_alter_eq, lookup_insert_eq, Hi. unfold set_size. cbn. done.
    + by rewrite lookup_alter_ne, lookup_insert_ne.
  - exists (i_attrs i). symmetry. apply insert_id. rewrite Hi. by destruct i.
Qed.

Definition demo_page : page := Page 0 1 (fun i => i) false false true.
Definition demo_file_inode : inode := demo_inode 3 (S_IFREG + 420) Uvfs_file_inode_operations.

Lemma uvfs_readpage_correct_witness :
  exists u g' w', @uvfs_readpage alone (list call) (driver_conduit file_serve) demo_cred 0%nat
      demo_world = Some (0, w') /\
    @asked alone (driver_conduit file_serve) demo_alone (conduit w')
      (RqRead 100 100 (demo_fh 3) 0) u /\
    kern w' = page_set 0%nat g' demo_kernel /\ filled u demo_page g'.
Proof.
  pose proof (@uvfs_readpage_correct alone (list call) (driver_conduit file_serve)
    (driver_conduit_laws file_serve file_serve_count) demo_cred demo_alone demo_kernel 0%nat
    demo_page demo_file_inode eq_refl eq_refl
    (fun uid gid offset => file_serve_pages uid gid (demo_fh 3) offset)) as H.
  apply wp_elim in H as (ret & w' & E & H).
  assert (ret = 0) as ->.
  { assert (Some ret = fst <$> @uvfs_readpage alone (list call) (driver_conduit file_serve)
      demo_cred 0%nat demo_world) as E' by (unfold demo_world; by rewrite E).
    assert (Some ret = Some 0) as [= ->] by (etransitivity; [exact E'|by vm_compute]). done. }
  destruct H as [(Hm & _)|(u & g' & Ha & Hk & Hc)]; [discriminate Hm|].
  exists u, g', w'. split; [exact E|]. split; [exact Ha|]. split; [exact Hk|].
  destruct (_ <? 0) eqn:El in Hc; [|exact (proj2 Hc)].
  destruct Hc as [Hz _]. apply Z.ltb_lt in El. lia.
Defined.

Lemma uvfs_writepage_correct_witness :
  exists ret w', uvfs_writepage demo_cred 0%nat demo_world = Some (ret, w') /\
    wrote demo_cred demo_alone (conduit w') demo_file_inode 0 [0; 1; 2; 3; 4; 5; 6; 7; 8; 9] ret.
Proof.
  pose proof (uvfs_writepage_correct demo_cred demo_alone demo_kernel 0%nat
    demo_page demo_file_inode eq_refl eq_refl ltac:(by vm_compute) ltac:(by vm_compute)) as H.
  apply wp_elim in H as (ret & w' & E & [H _]). exists ret, w'. split; [exact E|exact H].
Defined.

Lemma uvfs_write_end_correct_witness :
  exists ret w', uvfs_write_end demo_cred 20 8 5 0%nat demo_world = Some (ret, w') /\
    write_ended demo_cred demo_alone demo_kernel 20 5 8 0%nat demo_page demo_file_inode ret w'.
Proof.
  pose proof (uvfs_write_end_correct demo_cred demo_alone demo_kernel 20 5 8 0%nat
    demo_page demo_file_inode eq_refl eq_refl ltac:(lia) ltac:(lia) ltac:(lia) eq_refl
    ltac:(by vm_compute)) as H.
  apply wp_elim in H as (ret & w' & E & H). exists ret, w'. split; [exact E|exact H].
Defined.

Definition demo_iattr : iattr := IAttr (ATTR_SIZE + ATTR_MTIME) 0 0 0 77 (1, 1) (2, 2) (3, 3).

(** A file of a group that the caller is not in, to which a set-group-ID mode and a size
    are to be given. *)
Definition demo_foreign_inode : inode :=
  set_attrs (IAttrs (S_IFREG + 420) 1 100 55 10 (1, 2) (3, 4) (5, 6) 8 0) demo_file_inode.
Definition demo_foreign : kernel (list call) :=
  set_inodes (<[1%nat := demo_foreign_inode]> (inodes demo_kernel)) demo_kernel.
Definition demo_sgid : iattr :=
  IAttr (ATTR_MODE + ATTR_SIZE) (S_ISGID + 420) 0 0 77 (1, 1) (2, 2) (3, 3).

Lemma uvfs_setattr_correct_witness :
  exists ret w', uvfs_setattr demo_cred 1%nat demo_sgid (World demo_alone demo_foreign) =
      Some (ret, with_mode 420 demo_sgid, w') /\
    attributes_set demo_cred demo_alone demo_foreign 1%nat demo_foreign_inode demo_sgid
      (ret, with_mode 420 demo_sgid) w'.
Proof.
  pose proof (uvfs_setattr_correct demo_cred demo_alone demo_foreign 1%nat demo_sgid
    (Dentry [97] (Some 1%nat) 0 true) 1%nat demo_foreign_inode eq_refl eq_refl eq_refl) as H.
  apply wp_elim in H as ([ret left] & w' & E & H). exists ret, w'.
  assert (left = with_mode 420 demo_sgid) as Hl.
  { destruct H as (error & attr0 & Ea & _ & H). vm_compute in Ea. injection Ea as <- <-.
    cbn in H. by destruct H as (-> & _). }
  rewrite <- Hl. split; [exact E|exact H].
Defined.

(** Runs: a page is filled with the file and zeros; the attributes are changed locally
    although the server is down; and without memory a page to be read is left as it
    was, locked. *)
Example demo_readpage :
  (fun r => (fst r, (fun g => (rd_bytes 8 4 (pg_data g), PageUptodate g, PageLocked g)) <$>
                    pages (kern (snd r)) !! 0%nat)) <$>
  @uvfs_readpage alone (list call) (driver_conduit file_serve) demo_cred 0%nat demo_world =
  Some (0, Some ([120; 120; 0; 0], true, false)).
Proof. by vm_compute. Qed.

Example demo_setattr_down :
  (fun r => (fst (fst r), (fun i => i_size (i_attrs i)) <$> inodes (kern (snd r)) !! 1%nat)) <$>
  uvfs_setattr demo_cred 1%nat demo_iattr demo_down = Some (- EIO, Some 77).
Proof. by vm_compute. Qed.

Example demo_readpage_nomem :
  (fun r => (fst r, (fun g => (PageError g, PageLocked g)) <$> pages (kern (snd r)) !! 0%nat)) <$>
  uvfs_readpage demo_cred 0%nat demo_nomem = Some (- ENOMEM, Some (false, true)).
Proof. by vm_compute. Qed.

(** A reply that claims more bytes than a page holds overruns the page. *)
Definition overlong_serve (past : list exchange) : server := fun bytes =>
  let t := uvfs_file_read_rep_s in
  Some (sizeof t, file_reply (get_int uvfs_generic_req_s "serial" (mem_of bytes))
                    |> set_int t "bytes_read" 5000).
Example demo_readpage_overlong :
  @uvfs_readpage alone (list call) (driver_conduit overlong_serve) demo_cred 0%nat demo_world = None.
Proof. by vm_compute. Qed.
