(* ===== verification/Symlink.v ===== *)
(** * Symbolic links (symlink.c)

    The target of a link is read from the server, terminated in place in the reply,
    and handed to the kernel as a C string. *)

From stdpp Require Import prelude gmap list strings.
From Stdlib Require Import ZArith Lia.
From S2P Require Import Prelude Protocol Driver DriverSteps Requests RequestProps Conduit.
From S2P Require Import ConduitDriver Kernel Calls VFSModel Demo Inode.

Open Scope string_scope.
Open Scope list_scope.
Open Scope Z_scope.

(** ** Definitions *)

(** The C string at [off], which must end within [fuel] bytes. *)
Fixpoint cstring (fuel : nat) (off : Z) (m : mem) : option (list Z) :=
  match fuel with
  | O => None
  | S n => if rd8 m off =? 0 then Some []
           else s ← cstring n (off + 1) m; Some (rd8 m off :: s)
  end.

(** [reply->buff]: its place, and the bytes from there to the end of the union. *)
Definition link_off : Z := offsetof uvfs_readlink_rep_s "buff".
Definition link_room : nat := Z.to_nat (sizeof transaction_u - link_off).

Section symlink.
Context {C K : Type} `{Conduit C} (current : task_cred).
Abbreviation fsuid := (current_fsuid current).
Abbreviation fsgid := (current_fsgid current).

(** [reply->buff[reply->len] = 0], and [reply->buff] as a string; a store outside the
    union of the transaction is a fault, and so is a string that does not end there. *)
Definition terminate_link (t : ptr) (reply : mem) : M (world C K) (list Z) :=
  let at_ := link_off + get_int uvfs_readlink_rep_s "len" reply in
  if (0 <=? at_) && (at_ <? sizeof transaction_u) then
    on_conduit (store_u t (wr_bytes at_ [0]));;
    u ← on_conduit (load_u t);
    match cstring link_room link_off u with Some s => mret s | None => fault end
  else fault.

(** [vfs_readlink] copies the string to the caller's buffer. *)
Definition uvfs_readlink (vfs_readlink : list Z -> kernel K -> Z * kernel K) (entry : dptr) :
    M (world C K) Z :=
  d ← get_dentry entry;
  trans ← on_conduit new_trans;
  match trans with
  | None => mret (- ENOMEM)
  | Some t =>
      p ← d_inode_of d;
      i ← get_inode p;
      reply ← submit_request t (fun serial => readlink_request serial fsuid fsgid (i_fh i));
      let error := get_int uvfs_readlink_rep_s "error" reply in
      if error <? 0 then on_conduit (free_trans t);; mret error
      else
        s ← terminate_link t reply;
        error ← on_kernel (vfs_readlink s);
        on_conduit (free_trans t);;
        mret error
  end.

(** [vfs_follow_link] walks the path, which may come back to this file system while
    the transaction is still held. *)
Definition uvfs_follow_link (vfs_follow_link : list Z -> M (world C K) Z) (entry : dptr) :
    M (world C K) ptr_or_err :=
  d ← get_dentry entry;
  trans ← on_conduit new_trans;
  match trans with
  | None => mret (ERR_PTR (- ENOMEM))
  | Some t =>
      p ← d_inode_of d;
      i ← get_inode p;
      reply ← submit_request t (fun serial => readlink_request serial fsuid fsgid (i_fh i));
      let error := get_int uvfs_readlink_rep_s "error" reply in
      if error <? 0 then on_conduit (free_trans t);; mret (ERR_PTR error)
      else
        s ← terminate_link t reply;
        error ← vfs_follow_link s;
        on_conduit (free_trans t);;
        mret (ERR_PTR error)
  end.
End symlink.

(** ** Specification *)

(** The target that a reply holds: its characters up to the first NUL. *)
Fixpoint until_nul (l : list Z) : list Z :=
  match l with [] => [] | c :: l' => if c =? 0 then [] else c :: until_nul l' end.
Definition link_target (u : mem) : list Z :=
  until_nul (rd_bytes link_off (get_int uvfs_readlink_rep_s "len" u) u).

(** A reply to READLINK that fails or gives a length the buffer has room for. *)
Definition link_reply (u : mem) : Prop :=
  get_int uvfs_readlink_rep_s "error" u < 0 \/
  0 <= get_int uvfs_readlink_rep_s "len" u < UVFS_MAX_PATHLEN.

(** ** Lemmas *)

Lemma cstring_until n : forall fuel off m,
  rd8 m (off + Z.of_nat n) = 0 -> (n < fuel)%nat ->
  cstring fuel off m = Some (until_nul (rd_bytes off (Z.of_nat n) m)).
Proof.
  unfold rd_bytes. induction n as [|n IH]; intros [|fuel] off m Hz Hf; try lia; cbn [cstring].
  - rewrite Z.add_0_r in Hz. by rewrite Hz.
  - rewrite (IH fuel (off + 1)) by (try lia; by rewrite <- Hz; f_equal; lia).
    rewrite !Nat2Z.id. cbn [seq map until_nul]. rewrite Z.add_0_r.
    destruct (rd8 m off =? 0); [done|]. cbn. f_equal. f_equal. f_equal.
    rewrite <- seq_shift, map_map. apply map_ext. intros x. f_equal. lia.
Qed.

(** A target without NULs arrives whole. *)
Lemma until_nul_id l : Forall (fun c => c <> 0) l -> until_nul l = l.
Proof.
  induction 1 as [|c l Hc _ IH]; cbn; [done|].
  by rewrite (proj2 (Z.eqb_neq _ _)), IH by done.
Qed.

Section lemmas.
Context {C K : Type} `{ConduitLaws C} (current : task_cred).
Implicit Types (c : C) (k : kernel K).
Abbreviation fsuid := (current_fsuid current).
Abbreviation fsgid := (current_fsgid current).

(** Still holding the transaction [p], whose union has been changed. *)
Definition busy (c c' : C) (p : ptr) (r : request) (u : mem) : Prop :=
  live c !! p = None /\ exists serial u0 v, int_range serial /\
  live c' = <[p := (serial, v)]> (live c) /\
  exchanges c' = exchanges c ++ [(build r serial u0, u)].

Lemma wp_terminate Q c0 c k t r u :
  holding c0 c t r u -> 0 <= get_int uvfs_readlink_rep_s "len" u < UVFS_MAX_PATHLEN ->
  (forall c', busy c0 c' t r u -> Q (link_target u) (World c' k)) ->
  wp (terminate_link t u) Q (World c k).
Proof.
  intros (Hp & serial & u0 & Hser & Hl & He) Hlen HQ. unfold terminate_link.
  set (n := get_int _ "len" u) in *. unfold UVFS_MAX_PATHLEN in Hlen.
  change link_off with 20.
  assert (20 + n < sizeof transaction_u) as Hroom by (layout; lia).
  rewrite (proj2 (Z.leb_le _ _)), (proj2 (Z.ltb_lt _ _)) by lia. cbn [andb].
  apply wp_bind, wp_on_conduit. cbn [conduit kern].
  assert (live c !! t = Some (serial, u)) as Hc by (rewrite Hl; apply lookup_insert_eq).
  eapply wp_mono; [by apply (store_law c t serial u)|]. intros [] c1 [He1 Hl1].
  apply wp_bind, wp_on_conduit. cbn [conduit kern].
  assert (live c1 !! t = Some (serial, wr_bytes (20 + n) [0] u)) as Hc1
    by (rewrite Hl1; apply lookup_insert_eq).
  eapply wp_intro; [by eapply load_law|].
  assert (rd_bytes 20 n (wr_bytes (20 + n) [0] u) = rd_bytes 20 n u) as Er
    by (apply rd_bytes_wr_bytes_ne; cbn; lia).
  assert (cstring link_room 20 (wr_bytes (20 + n) [0] u) = Some (link_target u)) as ->.
  { unfold link_target. change link_off with 20. fold n. rewrite <- Er.
    pose proof (cstring_until (Z.to_nat n) link_room 20 (wr_bytes (20 + n) [0] u)) as Hs.
    rewrite Z2Nat.id in Hs by lia. apply Hs.
    - rewrite rd8_wr_bytes_in by (cbn; lia).
      by rewrite Z.sub_diag.
    - unfold link_room. change link_off with 20. lia. }
  apply wp_ret, HQ. split; [done|]. exists serial, u0, (wr_bytes (20 + n) [0] u).
  split; [done|]. rewrite Hl1, Hl, insert_insert_eq. split; [done|]. by rewrite He1.
Qed.

(** The transaction is freed, whatever else has happened since. *)
Lemma wp_free_busy Q c0 c c1 k p r u :
  busy c0 c p r u -> live c1 = live c ->
  (forall c', live c' = live c0 -> exchanges c' = exchanges c1 -> Q tt (World c' k)) ->
  wp (on_conduit (free_trans p)) Q (World c1 k).
Proof.
  intros (Hp & serial & u0 & v & Hser & Hl & He) E1 HQ. apply wp_on_conduit.
  eapply wp_mono; [apply (free_law c1 p serial v); rewrite E1, Hl; apply lookup_insert_eq|].
  intros [] c' [He' Hl']. apply HQ; [|done]. by rewrite Hl', E1, Hl, delete_insert_id.
Qed.
End lemmas.

(** ** Theorems *)

Section theorems.
Context {C K : Type} `{ConduitLaws C} (current : task_cred).
Implicit Types (c : C) (k : kernel K).
Abbreviation fsuid := (current_fsuid current).
Abbreviation fsgid := (current_fsgid current).

(** C34: READLINK asks for the target of the link once, and hands the kernel exactly
    the characters the server sent, up to the first NUL, provided the server counts
    no more than the reply has room for; what the kernel's copy returns is returned,
    and so is an error of the server. *)
Theorem uvfs_readlink_correct c k vfs_readlink entry d p i :
  dentries k !! entry = Some d -> d_inode d = Some p -> inodes k !! p = Some i ->
  (forall uid gid, replies C (RqReadlink uid gid (i_fh i)) link_reply) ->
  wp (uvfs_readlink current vfs_readlink entry)
     (fun ret w' =>
        ret = - ENOMEM /\ silent c (conduit w') /\ kern w' = k \/
        exists u, asked c (conduit w') (RqReadlink fsuid fsgid (i_fh i)) u /\
          (ret, kern w') = if get_int uvfs_readlink_rep_s "error" u <? 0
                           then (get_int uvfs_readlink_rep_s "error" u, k)
                           else vfs_readlink (link_target u) k)
     (World c k).
Proof.
  intros Hd Hp Hi Hrep. unfold uvfs_readlink. wp_go. apply wp_new.
  - intros c' Hs. wp_go. by left.
  - intros c' t serial u0 Hser Hfree Hl He. wp_go.
    eapply (wp_submit_with link_reply _ c _ _ _ _ _ (RqReadlink _ _ _)); [apply Hrep|done..|].
    intros c2 u Hh Hr. destruct (_ <? 0) eqn:Ee.
    + wp_go. right. exists u. by rewrite Ee.
    + destruct Hr as [Hr|Hr]; [apply Z.ltb_ge in Ee; lia|].
      apply wp_bind. eapply wp_terminate; [done|done|]. intros c3 Hu.
      apply wp_bind, wp_on_kernel. destruct (vfs_readlink _ k) as [e k1] eqn:Ev.
      apply wp_bind. eapply wp_free_busy; [done|done|]. intros c4 Hl4 He4. wp_go. right.
      exists u. rewrite Ee, Ev. split; [|done]. split; [done|].
      destruct Hu as (_ & n & v0 & v & Hn & _ & Hx). exists n, v0. split; [done|]. by etransitivity.
Qed.

(** FOLLOW_LINK does the same with the walk of the path: the walk starts from the
    characters of the link with the kernel as it was, its result is returned, and the
    transaction is freed after it, whatever the walk itself has asked. *)
Theorem uvfs_follow_link_correct c k vfs_follow_link entry d p i :
  dentries k !! entry = Some d -> d_inode d = Some p -> inodes k !! p = Some i ->
  (forall uid gid, replies C (RqReadlink uid gid (i_fh i)) link_reply) ->
  (forall s w, wp (vfs_follow_link s) (fun _ w' => live (conduit w') = live (conduit w)) w) ->
  wp (uvfs_follow_link current vfs_follow_link entry)
     (fun ret (w' : world C K) =>
        live (conduit w') = live c /\
        (ret = ERR_PTR (- ENOMEM) /\ silent c (conduit w') /\ kern w' = k \/
         exists u,
           asked c (conduit w') (RqReadlink fsuid fsgid (i_fh i)) u /\ kern w' = k /\
           get_int uvfs_readlink_rep_s "error" u < 0 /\
           ret = ERR_PTR (get_int uvfs_readlink_rep_s "error" u) \/
           exists t c1 e w2, busy c c1 t (RqReadlink fsuid fsgid (i_fh i)) u /\
             0 <= get_int uvfs_readlink_rep_s "error" u /\
             vfs_follow_link (link_target u) (World c1 k) = Some (e, w2) /\
             ret = ERR_PTR e /\ kern w' = kern w2 /\
             exchanges (conduit w') = exchanges (conduit w2)))
     (World c k).
Proof.
  intros Hd Hp Hi Hrep Htidy. unfold uvfs_follow_link. wp_go. apply wp_new.
  - intros c' Hs. wp_go. split; [apply Hs|]. by left.
  - intros c' t serial u0 Hser Hfree Hl He. wp_go.
    eapply (wp_submit_with link_reply _ c _ _ _ _ _ (RqReadlink _ _ _)); [apply Hrep|done..|].
    intros c2 u Hh Hr. destruct (_ <? 0) eqn:Ee.
    + wp_go. match goal with Ha : asked _ _ _ _ |- _ => split; [apply Ha|] end.
      right. exists u. left. apply Z.ltb_lt in Ee. done.
    + apply Z.ltb_ge in Ee. destruct Hr as [Hr|Hr]; [lia|].
      apply wp_bind. eapply wp_terminate; [done|done|]. intros c3 Hu.
      apply wp_bind. pose proof (Htidy (link_target u) (World c3 k)) as Hf.
      apply wp_elim in Hf as (e & [c4 k4] & Ef & Hl4). eapply wp_intro; [exact Ef|].
      apply wp_bind. cbn in Hl4. eapply wp_free_busy; [done|done|]. intros c5 Hl5 He5. wp_go.
      split; [done|]. right. exists u. right. by exists t, c3, e, (World c4 k4).
Qed.
End theorems.

(** ** An example server *)

(** It answers every request with the target [/ab], and more characters than that. *)
Definition link_reply_of (serial n : Z) : mem :=
  let t := uvfs_readlink_rep_s in
  (fun _ => 0)
    |> set_chars t "buff" [47; 97; 98; 99; 100]
    |> set_int t "type" UVFS_READLINK
    |> set_int t "serial" serial
    |> set_int t "size" (sizeof t)
    |> set_int t "error" 0
    |> set_int t "len" n.

Definition link_serve (n : Z) (past : list exchange) : server := fun bytes =>
  Some (sizeof uvfs_readlink_rep_s,
        link_reply_of (get_int uvfs_generic_req_s "serial" (mem_of bytes)) n).

Lemma link_serve_count n past bytes count buff :
  link_serve n past bytes = Some (count, buff) -> 0 <= count < 2 ^ 63.
Proof. intros [= <- _]. vm_compute. split; [discriminate|reflexivity]. Qed.

Lemma link_serve_right uid gid fh :
  @replies alone (driver_conduit (link_serve 3)) (RqReadlink uid gid fh) link_reply.
Proof.
  apply (replies_answer (link_serve 3) (link_serve_count 3)); [done|].
  intros opens past serial u0 Hser. apply answer_cases.
  { intros e He Hr. left. unfold set_error. layout. rewrite rd32s_wr32. by rewrite s32_small. }
  set (b := build _ serial u0). intros count buff E.
  assert (buff = link_reply_of (get_int uvfs_generic_req_s "serial" (mem_of (delivered b))) 3) as ->
    by (unfold link_serve in E; congruence).
  set (n := get_int _ "serial" _).
  assert (get_int uvfs_generic_rep_s "size" (link_reply_of n 3) = sizeof uvfs_readlink_rep_s) as ->
    by (unfold link_reply_of; rq_unfold; rq_read; by vm_compute).
  right. rewrite get_int_copied by (by vm_compute).
  assert (get_int uvfs_readlink_rep_s "len" (link_reply_of n 3) = 3) as ->
    by (unfold link_reply_of; rq_unfold; rq_read; by vm_compute).
  by vm_compute.
Qed.

(** The kernel's copy, into a buffer of two characters; and a walk that finds nothing. *)
Definition demo_readlink (s : list Z) (k : kernel (list call)) : Z * kernel (list call) :=
  (Z.min 2 (len s), k).
Definition demo_follow (s : list Z) : M (world alone (list call)) Z := mret (- ENOENT).

Abbreviation link_conduit := (driver_conduit (link_serve 3)).

Lemma uvfs_readlink_correct_witness :
  exists ret w', @uvfs_readlink alone (list call) link_conduit demo_cred demo_readlink 1%nat
      demo_world = Some (ret, w') /\
    (ret = - ENOMEM \/
     exists u, @asked alone link_conduit demo_alone (conduit w')
                 (RqReadlink 100 100 (demo_fh 3)) u).
Proof.
  pose proof (@uvfs_readlink_correct alone (list call) link_conduit
    (driver_conduit_laws (link_serve 3) (link_serve_count 3)) demo_cred demo_alone demo_kernel
    demo_readlink 1%nat (Dentry [97] (Some 1%nat) 0 true) 1%nat
    (demo_inode 3 (S_IFREG + 420) Uvfs_file_inode_operations) eq_refl eq_refl eq_refl
    (fun uid gid => link_serve_right uid gid (demo_fh 3))) as H.
  apply wp_elim in H as (ret & w' & E & H). exists ret, w'. split; [exact E|].
  destruct H as [(-> & _)|(u & Ha & _)]; [by left|right; by exists u].
Defined.

Lemma uvfs_follow_link_correct_witness :
  exists ret w', @uvfs_follow_link alone (list call) link_conduit demo_cred demo_follow 1%nat
      demo_world = Some (ret, w') /\
    @live alone link_conduit (conduit w') = @live alone link_conduit demo_alone.
Proof.
  pose proof (@uvfs_follow_link_correct alone (list call) link_conduit
    (driver_conduit_laws (link_serve 3) (link_serve_count 3)) demo_cred demo_alone demo_kernel
    demo_follow 1%nat (Dentry [97] (Some 1%nat) 0 true) 1%nat
    (demo_inode 3 (S_IFREG + 420) Uvfs_file_inode_operations) eq_refl eq_refl eq_refl
    (fun uid gid => link_serve_right uid gid (demo_fh 3)) (fun s w => eq_refl)) as H.
  apply wp_elim in H as (ret & w' & E & [Hl _]). exists ret, w'. split; [exact E|exact Hl].
Defined.

(** Runs: the characters that arrive, and a length that leaves the union. *)
Example demo_readlink_run :
  fst <$> @uvfs_readlink alone (list call) link_conduit demo_cred
            (fun s k => (fold_left (fun a c => 1000 * a + c) s 0, k)) 1%nat demo_world =
  Some 47097098.
Proof. by vm_compute. Qed.

Example demo_readlink_overlong :
  @uvfs_readlink alone (list call) (driver_conduit (link_serve 100000)) demo_cred demo_readlink
    1%nat demo_world = None.
Proof. by vm_compute. Qed.
