(* ===== verification/Export.v ===== *)
(** * Exporting the file system over NFS (super.c)

    A file is named to an NFS client by three numbers of its handle, and by two more
    for its directory; the client's name is turned back into a dentry. *)

From stdpp Require Import prelude gmap list strings.
From Stdlib Require Import ZArith Lia.
From S2P Require Import Prelude Protocol Driver DriverSteps Requests RequestProps Conduit.
From S2P Require Import ConduitDriver Kernel Calls VFSModel Demo Inode Dir DirProps.

Open Scope string_scope.
Open Scope list_scope.
Open Scope Z_scope.

(** ** Definitions *)

(** The handle that is rebuilt from the numbers on the wire. *)
Definition wire_handle (aruid sfuid sbxid : Z) : fhandle := FHandle 0 0 0 aruid 0 sbxid sfuid 0.

Section export.
Context {C K : Type} `{Conduit C} `{VFS K} (current : task_cred).
Abbreviation fsuid := (current_fsuid current).
Abbreviation fsgid := (current_fsgid current).

(** [fh[n] = v] and [fid->raw[n]], on an array of 32-bit words. *)
Definition put_word (n : nat) (v : Z) (fh : list Z) : M (world C K) (list Z) :=
  if (n <? length fh)%nat then mret (<[n := u32 v]> fh) else fault.
Definition get_word (n : nat) (fh : list Z) : M (world C K) Z :=
  match fh !! n with Some v => mret v | None => fault end.

(** The result comes with the words written and with what is left in [max_len]. *)
Definition uvfs_encode_fh (entry : dptr) (fh : list Z) (max_len : Z) (connectable : bool) :
    M (world C K) (Z * list Z * Z) :=
  d ← get_dentry entry;
  if (max_len <? 3) || (connectable && (max_len <? 5)) then mret (255, fh, max_len)
  else
    p ← d_inode_of d;
    i ← get_inode p;
    fh ← put_word 0 (na_aruid (i_fh i)) fh;
    fh ← put_word 1 (fs_sfuid (i_fh i)) fh;
    fh ← put_word 2 (fs_sbxid (i_fh i)) fh;
    if connectable && negb (S_ISDIR (i_mode (i_attrs i))) then
      pd ← get_dentry (d_parent d);
      parent ← d_inode_of pd;
      j ← get_inode parent;
      fh ← put_word 3 (fs_sfuid (i_fh j)) fh;
      fh ← put_word 4 (fs_sbxid (i_fh j)) fh;
      mret (2, fh, 5)
    else mret (1, fh, 3).

(** [d_obtain_alias], and the operations of the dentry. *)
Definition obtain_dentry (p : iptr) : M (world C K) ptr_or_err :=
  result ← on_kernel (d_obtain_alias p);
  match result with
  | Ptr a => upd_dentry a set_d_op;; mret result
  | _ => mret result
  end.

Definition uvfs_get_dentry (sb : sbptr) (fh : fhandle) : M (world C K) ptr_or_err :=
  o ← on_kernel (ilookup5 sb (fs_sfuid fh) (fun i => uvfs_compare_inode i fh));
  match o with
  | Some p => obtain_dentry p
  | None =>
      trans ← on_conduit new_trans;
      match trans with
      | None => mret (ERR_PTR (- ENOMEM))
      | Some t =>
          reply ← submit_request t (fun serial => getattr_request serial fsuid fsgid fh);
          let error := get_int uvfs_getattr_rep_s "error" reply in
          if error =? 0 then
            inode ← uvfs_iget current sb fh (get_attr uvfs_getattr_rep_s "a" reply);
            on_conduit (free_trans t);;
            match inode with
            | Some p => obtain_dentry p
            | None => mret (ERR_PTR (- EACCES))
            end
          else
            on_conduit (free_trans t);;
            mret (ERR_PTR (if error =? - ECOMM then - ESTALE else error))
      end
  end.

Definition uvfs_fh_to_dentry (sb : sbptr) (fid : list Z) (fh_len fh_type : Z) :
    M (world C K) ptr_or_err :=
  if (fh_len <? 3) || (2 <? fh_type) then mret PtrNull
  else
    a ← get_word 0 fid; s ← get_word 1 fid; x ← get_word 2 fid;
    uvfs_get_dentry sb (wire_handle a s x).

Definition uvfs_fh_to_parent (sb : sbptr) (fid : list Z) (fh_len fh_type : Z) :
    M (world C K) ptr_or_err :=
  if (fh_len <? 5) || negb (fh_type =? 2) then mret PtrNull
  else
    a ← get_word 0 fid; s ← get_word 3 fid; x ← get_word 4 fid;
    uvfs_get_dentry sb (wire_handle a s x).

(** The same for older kernels, whose [find_exported_dentry] looks the handles up. *)
Definition uvfs_decode_fh (fh : list Z) (fh_len fh_type : Z)
    (find_exported_dentry : fhandle -> option fhandle -> M (world C K) ptr_or_err) :
    M (world C K) ptr_or_err :=
  if fh_type =? 2 then
    a ← get_word 0 fh; s ← get_word 3 fh; x ← get_word 4 fh;
    let parent := wire_handle a s x in
    a ← get_word 0 fh; s ← get_word 1 fh; x ← get_word 2 fh;
    find_exported_dentry (wire_handle a s x) (Some parent)
  else if fh_type =? 1 then
    a ← get_word 0 fh; s ← get_word 1 fh; x ← get_word 2 fh;
    find_exported_dentry (wire_handle a s x) None
  else mret PtrNull.

(** The name [..]. *)
Definition dotdot : list Z := [46; 46].

Definition uvfs_get_parent (child : dptr) : M (world C K) ptr_or_err :=
  d ← get_dentry child;
  p ← d_inode_of d;
  r ← uvfs_lookup_by_name current p dotdot;
  let (err, out) := (r : Z * option (fhandle * attr)) in
  if truthy err then mret (ERR_PTR err)
  else
    match out with
    | None => fault
    | Some (fh, attr) =>
        i ← get_inode p;
        inode ← uvfs_iget current (i_sb i) fh attr;
        match inode with
        | None => mret (ERR_PTR (- EACCES))
        | Some q => obtain_dentry q
        end
    end.
End export.

(** ** Specification *)

(** A dentry of the inode [p] has been obtained, or that has failed. *)
Definition obtained {K} (p : iptr) (k : kernel K) (r : ptr_or_err) (k' : kernel K) : Prop :=
  same_but_dentries k k' /\
  match r with
  | Ptr a => exists d, dentries k' !! a = Some d /\ d_inode d = Some p /\ d_uvfs d = true
  | ERR_PTR e => e < 0 /\ dentries k' = dentries k
  | PtrNull => False
  end.

(** Nothing that the file system can see has changed. *)
Definition unchanged {K} (k k' : kernel K) : Prop :=
  same_but_inodes k k' /\ inodes k' = inodes k.

(** How the search for a file ends: with the cached inode of the file and without a
    request, or else with the server's answer to GETATTR. *)
Definition dentry_of {C K} `{Conduit C} (current : task_cred) (c : C) (k : kernel K)
    (sb : sbptr) (h : fhandle) (r : ptr_or_err) (w' : world C K) : Prop :=
  (exists p i, inodes k !! p = Some i /\ i_sb i = sb /\ same_file (i_fh i) h /\
     conduit w' = c /\ obtained p k r (kern w')) \/
  (forall q i, inodes k !! q = Some i -> i_sb i = sb -> ~ same_file (i_fh i) h) /\
  (r = ERR_PTR (- ENOMEM) /\ silent c (conduit w') /\ unchanged k (kern w') \/
   exists u, asked c (conduit w')
       (RqGetattr (current_fsuid current) (current_fsgid current) h) u /\
     let error := get_int uvfs_getattr_rep_s "error" u in
     if error =? 0
     then exists o k1, same_but_inodes k k1 /\
            got k k1 sb h (current_fsuid current) (get_attr uvfs_getattr_rep_s "a" u) o /\
            match o with
            | None => r = ERR_PTR (- EACCES) /\ kern w' = k1
            | Some p => obtained p k1 r (kern w')
            end
     else r = ERR_PTR (if error =? - ECOMM then - ESTALE else error) /\ unchanged k (kern w')).

(** ** Lemmas *)

Lemma got_same {K} (k k0 k' : kernel K) sb fh uid a o :
  inodes k0 = inodes k -> got k0 k' sb fh uid a o -> got k k' sb fh uid a o.
Proof.
  intros E [Hn E'|p i Hp Hs Hf E'|p i Hn Hp Hm E']; rewrite E in *;
    [by apply got_none|by eapply got_cached|by eapply got_new].
Qed.

Lemma obtained_same {K} (k k0 k' : kernel K) p r :
  unchanged k k0 -> obtained p k0 r k' -> obtained p k r k'.
Proof.
  intros [(E1 & E2 & E3) E4] [(F1 & F2 & F3) Hr].
  split; [unfold same_but_dentries; split_and!; congruence|].
  destruct r; [done..|]. split; [apply Hr|]. rewrite (proj2 Hr). done.
Qed.

Section lemmas.
Context {C K : Type} `{ConduitLaws C} `{VFSLaws K} (current : task_cred).
Implicit Types (c : C) (k : kernel K).

Lemma wp_obtain Q c k p :
  (forall r k', obtained p k r k' -> Q r (World c k')) ->
  wp (obtain_dentry p) Q (World c k).
Proof.
  intros HQ. unfold obtain_dentry. apply wp_bind, wp_on_kernel.
  pose proof (obtain_law p k) as Hl. destruct (d_obtain_alias p k) as [r k1].
  destruct Hl as [Hs Hr]. destruct r as [|a|e]; [done| |].
  - destruct (dentries k1 !! a) as [d|] eqn:Ea; [|done]. cbn in Hr. wp_go.
    apply HQ. split; [done|]. exists (set_d_op d). cbn. rewrite lookup_insert_eq.
    split; [done|]. split; [|done]. cbn. congruence.
  - apply wp_ret, HQ. by split.
Qed.

(** The rule for finding a dentry. *)
Lemma wp_get_dentry_of Q c k sb h :
  cache_ok k -> (forall r w', dentry_of current c k sb h r w' -> Q r w') ->
  wp (uvfs_get_dentry current sb h) Q (World c k).
Proof.
  intros Hok HQ. unfold uvfs_get_dentry. apply wp_bind, wp_on_kernel.
  pose proof (ilookup_law sb (fs_sfuid h) (fun i => uvfs_compare_inode i h) k) as Hl.
  destruct (ilookup5 _ _ _ k) as [o k0]. destruct Hl as (Hs & Hi & Ho).
  assert (unchanged k k0) as Hun by done. destruct o as [p|].
  - destruct Ho as (i & Hp & Hsb & _ & Ht). apply compare_same in Ht.
    apply wp_obtain. intros r k' Hob. apply HQ. left. exists p, i.
    split_and!; try done. by eapply obtained_same.
  - assert (forall q i, inodes k !! q = Some i -> i_sb i = sb -> ~ same_file (i_fh i) h) as Hno.
    { intros q i Hq Hsb Hsame. pose proof (cache_hash k Hok q i Hq) as Hh.
      apply (compare_same i h) in Hsame as Hc. rewrite (Ho q i) in Hc; [done..|].
      rewrite Hh. apply Hsame. }
    apply wp_bind, wp_new.
    + intros c' Hsil. wp_go. apply HQ. right. split; [done|]. by left.
    + intros c' t serial u0 Hser Hfree Hl He. wp_go.
      eapply (wp_submit _ c _ _ _ _ _ (RqGetattr _ _ _)); [done..|]. intros c2 u Hh.
      destruct (get_int _ "error" u =? 0) eqn:Ee.
      * apply wp_bind, wp_iget; [by eapply cache_ok_same|]. intros o k1 Hs1 Hg.
        wp_go. match goal with Ha : asked _ _ _ _ |- _ => rename Ha into Hask end.
        pose proof (same_but_inodes_trans _ _ _ Hs Hs1) as Hs2.
        pose proof (got_same k k0 k1 _ _ _ _ _ Hi Hg) as Hg2.
        destruct o as [p|]; [apply wp_obtain; intros r k' Hob|apply wp_ret]; apply HQ; right;
          (split; [done|]); right; exists u; (split; [done|]); cbn zeta; rewrite Ee;
          [by exists (Some p), k1|by exists None, k1].
      * wp_go. apply HQ. right. split; [done|]. right. exists u. split; [done|].
        cbn zeta. by rewrite Ee.
Qed.

(** When the inode is cached its dentry is obtained, without a request. *)
Lemma wp_get_dentry_cached Q c k sb h p i :
  cache_ok k -> inodes k !! p = Some i -> i_sb i = sb -> same_file (i_fh i) h ->
  (forall r k', obtained p k r k' -> Q r (World c k')) ->
  wp (uvfs_get_dentry current sb h) Q (World c k).
Proof.
  intros Hok Hp Hsb Hf HQ. apply wp_get_dentry_of; [done|].
  intros r [c' k'] [(q & j & Hq & Hsb' & Hf' & Hc & Hob)|[Hno _]]; [|by destruct (Hno p i)].
  cbn in *. subst c'. apply HQ.
  assert (q = p) as -> by (apply (cache_unique k Hok q p j i); try done;
    [congruence|by transitivity h]). done.
Qed.

Lemma wp_put_word Q (w : world C K) n v fh :
  (n < length fh)%nat -> Q (<[n := u32 v]> fh) w -> wp (put_word n v fh) Q w.
Proof. intros Hn HQ. unfold put_word. by rewrite (proj2 (Nat.ltb_lt _ _)). Qed.

Lemma wp_get_word Q (w : world C K) n v fh : fh !! n = Some v -> Q v w -> wp (get_word n fh) Q w.
Proof. unfold get_word. by intros ->. Qed.
End lemmas.

(** Writing words one after the other, and reading them back. *)
Ltac words :=
  repeat (try apply wp_bind; apply wp_put_word; [rewrite ?length_insert; lia|]).
Ltac word_at :=
  repeat first [apply list_lookup_insert_eq; rewrite ?length_insert; lia
               |rewrite list_lookup_insert_ne by done].

(** ** Theorems *)

Section theorems.
Context {C K : Type} `{ConduitLaws C} `{VFSLaws K} (current : task_cred).
Implicit Types (c : C) (k : kernel K).
Abbreviation fsuid := (current_fsuid current).
Abbreviation fsgid := (current_fsgid current).

(** The rule for encoding a handle. *)
Lemma wp_encode Q c k entry d p i buf connectable pd q j :
  dentries k !! entry = Some d -> d_inode d = Some p -> inodes k !! p = Some i ->
  dentries k !! d_parent d = Some pd -> d_inode pd = Some q -> inodes k !! q = Some j ->
  (if (len buf <? 3) || (connectable && (len buf <? 5)) then Q (255, buf, len buf) (World c k)
   else forall fh,
     fh !! 0%nat = Some (u32 (na_aruid (i_fh i))) -> fh !! 1%nat = Some (u32 (fs_sfuid (i_fh i))) ->
     fh !! 2%nat = Some (u32 (fs_sbxid (i_fh i))) ->
     if connectable && negb (S_ISDIR (i_mode (i_attrs i)))
     then fh !! 3%nat = Some (u32 (fs_sfuid (i_fh j))) ->
          fh !! 4%nat = Some (u32 (fs_sbxid (i_fh j))) -> Q (2, fh, 5) (World c k)
     else Q (1, fh, 3) (World c k)) ->
  wp (uvfs_encode_fh entry buf (len buf) connectable) Q (World c k).
Proof.
  intros Hd Hp Hi Hpd Hq Hj HQ. unfold uvfs_encode_fh. wp_go.
  destruct (_ || _) eqn:Eb; [by wp_go|].
  apply orb_false_iff in Eb as [E3 E5]. apply Z.ltb_ge in E3. unfold len in *.
  assert (3 <= length buf)%nat as H3 by lia.
  wp_go. words. destruct connectable; cbn [andb] in *;
    [destruct (S_ISDIR _) eqn:Edir; cbn [negb] in *|].
  - wp_go. apply HQ; word_at.
  - apply Z.ltb_ge in E5. wp_go. words. wp_go.
    apply HQ; word_at.
  - wp_go. apply HQ; word_at.
Qed.

Lemma wire_same a s x (h : fhandle) :
  fhandle_wf h -> u32 (na_aruid h) = a -> u32 (fs_sfuid h) = s -> u32 (fs_sbxid h) = x ->
  same_file h (wire_handle a s x).
Proof.
  intros (_ & _ & _ & Ha & _ & Hx & Hs & _) <- <- <-. unfold same_file. cbn.
  by rewrite !u32_small.
Qed.

(** C31: what NFS is told about a file leads back to it: a file whose inode is cached is
    named in three or five words, and the name is turned back into a dentry of the same
    inode without asking the server; a buffer too small for the name is refused, and
    the refusal is turned back into no dentry. *)
Theorem export_roundtrip c k entry d p i buf connectable pd q j :
  cache_ok k -> fhandle_wf (i_fh i) ->
  dentries k !! entry = Some d -> d_inode d = Some p -> inodes k !! p = Some i ->
  dentries k !! d_parent d = Some pd -> d_inode pd = Some q -> inodes k !! q = Some j ->
  wp (r ← uvfs_encode_fh entry buf (len buf) connectable;
      let '(type, fh, n) := r in
      x ← uvfs_fh_to_dentry current (i_sb i) fh n type;
      mret (type, x))
     (fun r w' => conduit w' = c /\
        if (len buf <? 3) || (connectable && (len buf <? 5))
        then r = (255, PtrNull) /\ kern w' = k
        else 1 <= fst r <= 2 /\ obtained p k (snd r) (kern w'))
     (World c k).
Proof.
  intros Hok Hwf Hd Hp Hi Hpd Hq Hj. apply wp_bind.
  eapply (wp_encode _ c k entry d p i); [done..|].
  destruct (_ || _).
  { unfold uvfs_fh_to_dentry. change (2 <? 255) with true. rewrite orb_true_r. by wp_go. }
  intros fh H0w H1w H2w. destruct (connectable && _); [intros _ _|];
    (apply wp_bind; unfold uvfs_fh_to_dentry; cbn [Z.ltb Z.compare Pos.compare Pos.compare_cont orb];
     repeat (apply wp_bind; eapply wp_get_word; [eassumption|]);
     eapply (wp_get_dentry_cached _ _ _ _ _ _ p i); [done..|by eapply wire_same|];
     intros r k' Hob; wp_go; split; [done|]; split; [cbn; lia|done]).
Qed.

(** C32: the directory of a file that is not one is found again from the two words kept
    for it, as long as the directory is in the same archive as the file: the archive of
    the directory is not part of the name. *)
Theorem export_parent_roundtrip c k entry d p i buf pd q j :
  cache_ok k -> fhandle_wf (i_fh i) -> fhandle_wf (i_fh j) ->
  dentries k !! entry = Some d -> d_inode d = Some p -> inodes k !! p = Some i ->
  dentries k !! d_parent d = Some pd -> d_inode pd = Some q -> inodes k !! q = Some j ->
  S_ISDIR (i_mode (i_attrs i)) = false -> 5 <= len buf ->
  i_sb j = i_sb i -> na_aruid (i_fh j) = na_aruid (i_fh i) ->
  wp (r ← uvfs_encode_fh entry buf (len buf) true;
      let '(type, fh, n) := r in uvfs_fh_to_parent current (i_sb i) fh n type)
     (fun r w' => conduit w' = c /\ obtained q k r (kern w'))
     (World c k).
Proof.
  intros Hok Hwf Hwf' Hd Hp Hi Hpd Hq Hj Hdir Hbuf Hsb Har. apply wp_bind.
  eapply (wp_encode _ c k entry d p i); [done..|].
  rewrite !(proj2 (Z.ltb_ge _ _)) by lia. cbn [orb andb]. rewrite Hdir. cbn [negb].
  intros fh H0w _ _ H3w H4w. unfold uvfs_fh_to_parent.
  cbn [Z.ltb Z.compare Pos.compare Pos.compare_cont orb Z.eqb Pos.eqb negb].
  repeat (apply wp_bind; eapply wp_get_word; [eassumption|]).
  eapply (wp_get_dentry_cached _ _ _ _ _ _ q j); [done..| |].
  - eapply wire_same; [done| |done|done]. by rewrite Har.
  - intros r k' Hob. by split.
Qed.

(** GET_DENTRY finds the inode of a file in the cache and then asks nothing, or asks
    for the attributes of the handle, exactly once, and caches a new inode for it; the
    server's [-ECOMM] is a stale handle, every other error is returned as it is. *)
Theorem uvfs_get_dentry_correct c k sb h :
  cache_ok k ->
  wp (uvfs_get_dentry current sb h) (dentry_of current c k sb h) (World c k).
Proof. intros Hok. by apply wp_get_dentry_of. Qed.

(** What GET_PARENT returns and leaves. *)
Definition parent_of (c : C) (k : kernel K) (i : inode) :
    ptr_or_err -> world C K -> Prop :=
  fun r w' =>
    r = ERR_PTR (- ENOMEM) /\ silent c (conduit w') /\ kern w' = k \/
    exists u, asked c (conduit w') (RqLookup fsuid fsgid (i_fh i) dotdot) u /\
      let error := get_int uvfs_lookup_rep_s "error" u in
      if error =? 0
      then exists o k1, same_but_inodes k k1 /\
             got k k1 (i_sb i) (get_fh uvfs_lookup_rep_s "fh" u) fsuid
               (get_attr uvfs_lookup_rep_s "a" u) o /\
             match o with
             | None => r = ERR_PTR (- EACCES) /\ kern w' = k1
             | Some q => obtained q k1 r (kern w')
             end
      else r = ERR_PTR error /\ kern w' = k.

(** GET_PARENT looks [..] up in the directory of the child, and obtains a dentry of
    the inode for the handle and the attributes that the server returns; an error of
    the lookup is returned, and -EACCES when there is no memory for the inode. *)
Lemma uvfs_get_parent_spec c k child d p i :
  cache_ok k -> dentries k !! child = Some d -> d_inode d = Some p -> inodes k !! p = Some i ->
  wp (uvfs_get_parent current child) (parent_of c k i) (World c k).
Proof.
  unfold parent_of.
  intros Hok Hd Hp Hi. unfold uvfs_get_parent. wp_go.
  eapply wp_lookup_by_name; [done|done|..].
  - intros _ c' Hs. cbn. wp_go. by left.
  - intros _ c' u Ha. unfold truthy. destruct (get_int _ "error" u =? 0) eqn:Ee; cbn [negb].
    + wp_go. apply wp_iget; [done|]. intros o k1 Hs Hg.
      destruct o as [q|]; [apply wp_obtain; intros r k' Hob|apply wp_ret]; right; exists u;
        (split; [done|]); cbn zeta; rewrite Ee; [by exists (Some q), k1|by exists None, k1].
    + wp_go. right. exists u. split; [done|]. cbn zeta. by rewrite Ee.
Qed.

(** On older kernels a name of a type that the encoder produces is decoded to the
    same handles: with a search that looks up the file the result is that of
    [uvfs_fh_to_dentry], with one that looks up the directory that of
    [uvfs_fh_to_parent]; of those two only the former accepts other types. *)
Theorem decode_equivalence sb fh n type (w : world C K) :
  (type = 1 /\ 3 <= n \/ type = 2 /\ 5 <= n) -> (5 <= length fh)%nat ->
  uvfs_decode_fh fh n type (fun h _ => uvfs_get_dentry current sb h) w =
  uvfs_fh_to_dentry current sb fh n type w /\
  uvfs_decode_fh fh n type
    (fun _ o => match o with Some h => uvfs_get_dentry current sb h | None => mret PtrNull end) w =
  uvfs_fh_to_parent current sb fh n type w.
Proof.
  intros Ht Hl. do 5 (destruct fh as [|? fh]; [cbn in Hl; lia|]).
  unfold uvfs_decode_fh, uvfs_fh_to_dentry, uvfs_fh_to_parent.
  destruct Ht as [[-> Hn]|[-> Hn]].
  - rewrite (proj2 (Z.ltb_ge n 3)) by lia. split; [done|]. by rewrite orb_true_r.
  - by rewrite (proj2 (Z.ltb_ge n 3)), (proj2 (Z.ltb_ge n 5)) by lia.
Qed.
End theorems.

(** ** The example *)

Definition demo_file : inode := demo_inode 3 (S_IFREG + 420) Uvfs_file_inode_operations.
Definition demo_root : inode := demo_inode 2 (S_IFDIR + 493) Uvfs_dir_inode_operations.
Definition demo_entry : dentry := Dentry [97] (Some 1%nat) 0 true.
Definition demo_root_entry : dentry := Dentry [47] (Some 0%nat) 0 true.

Lemma demo_fh_wf n : uint_range n -> fhandle_wf (demo_fh n).
Proof. intros Hn. unfold fhandle_wf. cbn. unfold uint_range in *. lia. Qed.

Lemma export_roundtrip_witness :
  exists type x w',
    (r ← uvfs_encode_fh 1%nat [0; 0; 0; 0; 0] 5 true;
     let '(type, fh, n) := r in
     x ← uvfs_fh_to_dentry demo_cred 0%nat fh n type;
     mret (type, x)) demo_world = Some ((type, x), w') /\
    conduit w' = demo_alone /\ obtained 1%nat demo_kernel x (kern w').
Proof.
  pose proof (export_roundtrip demo_cred demo_alone demo_kernel 1%nat demo_entry 1%nat demo_file
    [0; 0; 0; 0; 0] true demo_root_entry 0%nat demo_root demo_cache_ok
    (demo_fh_wf 3 ltac:(unfold uint_range; lia)) eq_refl eq_refl eq_refl eq_refl eq_refl eq_refl)
    as H.
  apply wp_elim in H as ([type x] & w' & E & Hc & Hr). exists type, x, w'.
  split; [exact E|]. split; [exact Hc|exact (proj2 Hr)].
Defined.

Lemma export_parent_roundtrip_witness :
  wp (r ← uvfs_encode_fh 1%nat [0; 0; 0; 0; 0] (len [0; 0; 0; 0; 0]) true;
      let '(type, fh, n) := r in uvfs_fh_to_parent demo_cred (i_sb demo_file) fh n type)
     (fun r w' => conduit w' = demo_alone /\ obtained 0%nat demo_kernel r (kern w'))
     (World demo_alone demo_kernel).
Proof.
  exact (export_parent_roundtrip demo_cred demo_alone demo_kernel 1%nat demo_entry 1%nat demo_file
    [0; 0; 0; 0; 0] demo_root_entry 0%nat demo_root demo_cache_ok
    (demo_fh_wf 3 ltac:(unfold uint_range; lia)) (demo_fh_wf 2 ltac:(unfold uint_range; lia))
    eq_refl eq_refl eq_refl eq_refl eq_refl eq_refl eq_refl ltac:(by vm_compute) eq_refl eq_refl).
Defined.

Lemma uvfs_get_dentry_correct_witness :
  wp (uvfs_get_dentry demo_cred 0%nat (wire_handle 3 7 5))
     (dentry_of demo_cred demo_alone demo_kernel 0%nat (wire_handle 3 7 5)) demo_world.
Proof. exact (uvfs_get_dentry_correct demo_cred _ _ _ _ demo_cache_ok). Defined.

Lemma uvfs_get_parent_spec_witness :
  exists r w', uvfs_get_parent demo_cred 0%nat demo_world = Some (r, w') /\
    (r = ERR_PTR (- ENOMEM) \/
     exists u, asked demo_alone (conduit w') (RqLookup 100 100 (demo_fh 2) dotdot) u).
Proof.
  pose proof (uvfs_get_parent_spec demo_cred demo_alone demo_kernel 0%nat demo_root_entry 0%nat
    demo_root demo_cache_ok eq_refl eq_refl eq_refl) as H.
  apply wp_elim in H as (r & w' & E & H). exists r, w'. split; [exact E|].
  destruct H as [(-> & _)|(u & Ha & _)]; [by left|right; by exists u].
Defined.

Lemma decode_equivalence_witness :
  uvfs_decode_fh [3; 7; 5; 2; 5] 5 2 (fun h _ => uvfs_get_dentry demo_cred 0%nat h) demo_world =
  uvfs_fh_to_dentry demo_cred 0%nat [3; 7; 5; 2; 5] 5 2 demo_world.
Proof.
  exact (proj1 (decode_equivalence demo_cred 0%nat [3; 7; 5; 2; 5] 5 2 demo_world
    ltac:(right; lia) ltac:(cbn; lia))).
Defined.

(** A run: the file is named, and a dentry is obtained that is not in memory yet. *)
Example demo_export :
  (fun r => (fst r, exchanges (conduit (snd r)))) <$>
  uvfs_encode_fh 1%nat [0; 0; 0; 0; 0] 5 true demo_world =
  Some ((2, [3; 3; 5; 2; 5], 5), []).
Proof. by vm_compute. Qed.

(** An unknown file, and a server that is down. *)
Example demo_stale :
  fst <$> uvfs_fh_to_dentry demo_cred 0%nat [3; 9; 5] 3 1 demo_down = Some (ERR_PTR (- EIO)).
Proof. by vm_compute. Qed.
