(* ===== verification/Mount.v ===== *)
(** * Mounting, statistics, and loading the module (super.c, driver.c)

    At mount time the name of a store goes to the server, which answers with the root
    directory; [uvfs_init] and [uvfs_cleanup] register the module with the kernel. *)

From stdpp Require Import prelude gmap list strings.
From Stdlib Require Import ZArith Lia.
From S2P Require Import Prelude Protocol Driver DriverSteps Requests RequestProps Conduit.
From S2P Require Import ConduitDriver Kernel Calls VFSModel Demo Inode.

Open Scope string_scope.
Open Scope list_scope.
Open Scope Z_scope.

(** ** Statistics *)

(** The members of [struct kstatfs] that are filled in: the counts are 64-bit and
    unsigned, the others [long]. *)
Record kstatfs := KStatfs {
  f_type : Z; f_bsize : Z; f_blocks : Z; f_bfree : Z; f_bavail : Z; f_files : Z;
  f_ffree : Z; f_namelen : Z }.

(** The value of a member of the reply. *)
Definition statfs_of (reply : mem) : kstatfs :=
  let g f := get_int uvfs_statfs_rep_s f reply in
  KStatfs (g "f_type") (g "f_bsize") (u64 (g "f_blocks")) (u64 (g "f_bfree"))
    (u64 (g "f_bavail")) (u64 (g "f_files")) (u64 (g "f_ffree")) (g "f_namelen").

(** The characters [store=]. *)
Definition store_option : list Z := [115; 116; 111; 114; 101; 61].

(** The string that follows [store=], or [None] for the result 1. *)
Definition uvfs_parse_options (options : list Z) : option (list Z) :=
  if bool_decide (take 6 options = store_option) then Some (drop 6 options) else None.

(** [sb->s_maxbytes = ...] to [sb->s_export_op = ...]; [s_blocksize_bits] is a byte. *)
Definition fill_super (reply : mem) (s : super) : super :=
  let g f := get_uint uvfs_read_super_rep_s f reply in
  Super (s_flags s) 4294967295 (g "s_blocksize") (g "s_blocksize_bits" mod 256) (g "s_magic")
    true (s_root s).
Definition set_root (o : option dptr) (s : super) : super :=
  Super (s_flags s) (s_maxbytes s) (s_blocksize s) (s_blocksize_bits s) (s_magic s) (s_uvfs s) o.

Section mount.
Context {C K : Type} `{Conduit C} `{VFS K} (current : task_cred).
Abbreviation fsuid := (current_fsuid current).
Abbreviation fsgid := (current_fsgid current).

(** The result comes with what is then in the caller's [stat]. *)
Definition uvfs_statfs (entry : dptr) (stat : kstatfs) : M (world C K) (Z * kstatfs) :=
  d ← get_dentry entry;
  trans ← on_conduit new_trans;
  match trans with
  | None => mret (- ENOMEM, stat)
  | Some t =>
      p ← d_inode_of d;
      i ← get_inode p;
      reply ← submit_request t (fun serial => statfs_request serial (i_fh i));
      on_conduit (free_trans t);;
      mret (get_int uvfs_statfs_rep_s "error" reply, statfs_of reply)
  end.

(** [data] is the option string without the NUL that ends it. *)
Definition uvfs_read_super (sb : sbptr) (data : option (list Z)) (silent : bool) :
    M (world C K) Z :=
  match data ≫= uvfs_parse_options with
  | None => mret (- EINVAL)
  | Some arg =>
      let arglength := len arg + 1 in
      if UVFS_MAX_PATHLEN <=? arglength then mret (- ENAMETOOLONG)
      else
        trans ← on_conduit new_trans;
        match trans with
        | None => mret (- ENOMEM)
        | Some t =>
            reply ← submit_request t (fun serial =>
              read_super_request serial fsuid fsgid (arg ++ [0]));
            let error := get_int uvfs_read_super_rep_s "error" reply in
            if error <? 0 then on_conduit (free_trans t);; mret error
            else
              upd_super sb (fill_super reply);;
              root ← uvfs_iget current sb (get_fh uvfs_read_super_rep_s "fh" reply)
                       (get_attr uvfs_read_super_rep_s "a" reply);
              match root with
              | None => on_conduit (free_trans t);; mret (- ENOMEM)
              | Some p =>
                  o ← on_kernel (d_alloc_root p);
                  upd_super sb (set_root o);;
                  on_conduit (free_trans t);;
                  mret 0
              end
        end
  end.

(** [get_sb_nodev] is a function of the kernel that is given [uvfs_read_super]. *)
Definition uvfs_get_sb {A : Type}
    (get_sb_nodev : option (list Z) -> (sbptr -> option (list Z) -> bool -> M (world C K) Z) -> A)
    (data : option (list Z)) : A := get_sb_nodev data uvfs_read_super.
End mount.

(** ** The module *)

(** What the kernel knows of the module. *)
Record module := Module_ {
  uvfs_proc_file : bool;        (* /proc/fs/pmfs is there, with its operations *)
  fs_registered : bool;         (* register_filesystem has succeeded *)
  uvfs_inode_cachep : bool }.   (* the cache of inodes has been created *)
Definition unloaded : module := Module_ false false false.

Definition set_proc (b : bool) (m : module) : module :=
  Module_ b (fs_registered m) (uvfs_inode_cachep m).
Definition set_fs (b : bool) (m : module) : module :=
  Module_ (uvfs_proc_file m) b (uvfs_inode_cachep m).
Definition set_cachep (b : bool) (m : module) : module :=
  Module_ (uvfs_proc_file m) (fs_registered m) b.

(** [cache] says whether [kmem_cache_create] succeeds. *)
Definition uvfs_init_inodecache (cache : bool) : M module Z :=
  modify (set_cachep cache);;
  p ← gets uvfs_inode_cachep;
  if negb p then mret (- ENOMEM) else mret 0.

(** [kmem_cache_destroy] of a cache that is not there is a fault. *)
Definition uvfs_destroy_inodecache : M module unit :=
  p ← gets uvfs_inode_cachep;
  if p : bool then modify (set_cachep false) else fault.

(** [created] says whether [create_proc_entry] succeeds, [registered] is the result of
    [register_filesystem]. *)
Definition uvfs_init (created : bool) (registered : Z) (cache : bool) : M module Z :=
  modify (set_proc created);;
  p ← gets uvfs_proc_file;
  if negb p then mret (- EIO)
  else
    let result := registered in
    if result <? 0 then
      modify (set_proc false);;
      mret result
    else
      modify (set_fs true);;
      r ← uvfs_init_inodecache cache;
      if truthy r then mret (- ENOMEM) else mret 0.

Definition uvfs_cleanup : M module unit :=
  modify (set_fs false);;
  modify (set_proc false);;
  uvfs_destroy_inodecache.

(** ** Specification *)

(** The super block and the kernel after the server's answer [u] to a mount. *)
Definition mounted {C K} `{Conduit C} (uid : Z) (sb : sbptr) (s : super) (k : kernel K) (u : mem)
    (ret : Z) (k' : kernel K) : Prop :=
  let error := get_int uvfs_read_super_rep_s "error" u in
  if error <? 0 then ret = error /\ k' = k
  else exists o k1,
    got k k1 sb (get_fh uvfs_read_super_rep_s "fh" u) uid (get_attr uvfs_read_super_rep_s "a" u) o /\
    dentries k1 = dentries k /\ pages k' = pages k /\
    match o with
    | None => ret = - ENOMEM /\ inodes k' = inodes k /\ dentries k' = dentries k /\
              supers k' = <[sb := fill_super u s]> (supers k)
    | Some p => ret = 0 /\ inodes k' = inodes k1 /\ exists r,
        supers k' = <[sb := set_root r (fill_super u s)]> (supers k) /\
        match r with
        | Some a => dentries k !! a = None /\ d_inode <$> (dentries k' !! a) = Some (Some p)
        | None => dentries k' = dentries k
        end
    end.

(** ** Theorems *)

Section theorems.
Context {C K : Type} `{ConduitLaws C} `{VFSLaws K} (current : task_cred).
Implicit Types (c : C) (k : kernel K).
Abbreviation fsuid := (current_fsuid current).
Abbreviation fsgid := (current_fsgid current).

(** STATFS asks for the statistics of the file system, and copies all of them to the
    caller whether or not the server reports an error. *)
Theorem uvfs_statfs_correct c k entry stat d p i :
  dentries k !! entry = Some d -> d_inode d = Some p -> inodes k !! p = Some i ->
  wp (uvfs_statfs entry stat)
     (fun r w' => kern w' = k /\
        (r = (- ENOMEM, stat) /\ silent c (conduit w') \/
         exists u, asked c (conduit w') (RqStatfs (i_fh i)) u /\
                   r = (get_int uvfs_statfs_rep_s "error" u, statfs_of u)))
     (World c k).
Proof.
  intros Hd Hp Hi. unfold uvfs_statfs. wp_go. apply wp_new.
  - intros c' Hs. wp_go. split; [done|]. by left.
  - intros c' t serial u0 Hser Hfree Hl He. wp_go.
    eapply (wp_submit _ c _ _ _ _ _ (RqStatfs _)); [done..|]. intros c2 u Hh. wp_go.
    split; [done|]. right. by exists u.
Qed.

(** What READ_SUPER returns and leaves. *)
Definition super_read (c : C) (k : kernel K) (sb : sbptr) (data : option (list Z)) (s : super) :
    Z -> world C K -> Prop :=
  fun ret w' =>
    match data ≫= uvfs_parse_options with
    | None => ret = - EINVAL /\ w' = World c k
    | Some arg =>
        if UVFS_MAX_PATHLEN <=? len arg + 1 then ret = - ENAMETOOLONG /\ w' = World c k
        else ret = - ENOMEM /\ silent c (conduit w') /\ kern w' = k \/
             exists u, asked c (conduit w') (RqReadSuper fsuid fsgid (arg ++ [0])) u /\
                       mounted (C:=C) fsuid sb s k u ret (kern w')
    end.

Lemma uvfs_read_super_spec c k sb data silent_flag s :
  cache_ok k -> supers k !! sb = Some s ->
  wp (uvfs_read_super current sb data silent_flag) (super_read c k sb data s) (World c k).
Proof.
  unfold super_read.
  intros Hok Hs. unfold uvfs_read_super.
  destruct (data ≫= uvfs_parse_options) as [arg|]; [|by wp_go].
  destruct (UVFS_MAX_PATHLEN <=? len arg + 1) eqn:El; [by wp_go|]. apply Z.leb_gt in El.
  apply wp_bind, wp_new.
  - intros c' Hsil. wp_go. by left.
  - intros c' t serial u0 Hser Hfree Hl He. wp_go.
    eapply (wp_submit _ c _ _ _ _ _ (RqReadSuper _ _ _)); [done..| |].
    { unfold request_fits, len in *. rewrite length_app. cbn. lia. }
    intros c2 u Hh. destruct (_ <? 0) eqn:Ee.
    + wp_go. right. exists u. split; [done|]. unfold mounted. by rewrite Ee.
    + wp_go. apply wp_iget; [by apply (cache_ok_same k)|]. intros o k1 (Ed & Ep & Es) Hg.
      assert (got k k1 sb (get_fh uvfs_read_super_rep_s "fh" u) fsuid
                (get_attr uvfs_read_super_rep_s "a" u) o) as Hg'
        by (inversion Hg; [by apply got_none|by eapply got_cached|by eapply got_new]).
      cbn in Ed, Ep, Es. destruct o as [p|].
      * apply wp_bind, wp_on_kernel. pose proof (root_law p k1) as Hr.
        destruct (d_alloc_root p k1) as [r k2]. destruct Hr as [(Ei2 & Ep2 & Es2) Hr].
        assert (supers k2 !! sb = Some (fill_super u s)) as Hs2
          by (rewrite Es2, Es; apply lookup_insert_eq).
        wp_go. right. exists u. split; [done|]. unfold mounted. rewrite Ee.
        exists (Some p), k1. split; [done|]. cbn. split; [done|]. split; [congruence|].
        split; [done|]. split; [done|]. exists r. rewrite Es2, Es, insert_insert_eq.
        split; [done|]. rewrite Ed in Hr. done.
      * wp_go. right. exists u. split; [done|]. unfold mounted. rewrite Ee.
        exists None, k1. split; [done|]. split; [done|]. split; [done|].
        split; [done|]. split; [by inversion Hg|]. done.
Qed.

End theorems.

(** C37: loading the module either gives it everything it needs, in which case unloading
    it gives everything back without a fault; or it fails, and then leaves nothing
    behind - unless it is the cache of inodes that cannot be made: then the device and
    the file system type stay registered although the module is not loaded. *)
Theorem uvfs_init_correct created registered cache :
  exists ret m, uvfs_init created registered cache unloaded = Some (ret, m) /\
    (ret = 0 <-> created = true /\ 0 <= registered /\ cache = true) /\
    (ret = 0 -> m = Module_ true true true /\ uvfs_cleanup m = Some (tt, unloaded)) /\
    (ret <> 0 -> ret < 0 /\
       m = if created && (0 <=? registered) then Module_ true true false else unloaded).
Proof.
  unfold uvfs_init. destruct created; cbn; [|exists (- EIO), unloaded].
  - rewrite Z.ltb_antisym. destruct (Z.leb_spec 0 registered) as [Hr|Hr]; cbn.
    + destruct cache; cbn; [exists 0, (Module_ true true true)|
                            exists (- ENOMEM), (Module_ true true false)].
      * split; [done|]. split; [done|]. split; [done|lia].
      * split; [done|]. split; [split; [done|by intros (_ & _ & ?)]|]. by split.
    + exists registered, unloaded. split; [done|]. split; [intuition lia|]. split; [lia|]. done.
  - split; [done|]. split; [split; [done|by intros [? _]]|]. by split.
Qed.

(** ** The example *)

Lemma uvfs_statfs_correct_witness :
  exists r w', uvfs_statfs 0%nat (KStatfs 0 0 0 0 0 0 0 0) demo_world = Some (r, w') /\
    kern w' = demo_kernel.
Proof.
  pose proof (uvfs_statfs_correct demo_alone demo_kernel 0%nat (KStatfs 0 0 0 0 0 0 0 0)
    (Dentry [47] (Some 0%nat) 0 true) 0%nat
    (demo_inode 2 (S_IFDIR + 493) Uvfs_dir_inode_operations) eq_refl eq_refl eq_refl) as H.
  apply wp_elim in H as (r & w' & E & [Hk _]). exists r, w'. split; [exact E|exact Hk].
Defined.

(** The options [store=ab]. *)
Definition demo_options : list Z := store_option ++ [97; 98].


(** A server that mounts. *)
Definition mount_serve (past : list exchange) : server := fun bytes =>
  let t := uvfs_read_super_rep_s in
  Some (sizeof t,
        (fun _ => 0)
          |> demo_header UVFS_READ_SUPER (get_int uvfs_generic_req_s "serial" (mem_of bytes)) (sizeof t)
          |> set_int t "s_blocksize" 8192 |> set_int t "s_blocksize_bits" 13
          |> set_int t "s_magic" 77
          |> set_fh t "fh" (demo_fh 2) |> set_attr t "a" (demo_attr (S_IFDIR + 493))).

Example demo_mount :
  (fun r => (fst r, supers (kern (snd r)) !! 0%nat)) <$>
  @uvfs_read_super alone (list call) (driver_conduit mount_serve) _ demo_cred 0%nat
    (Some demo_options) false demo_world =
  Some (0, Some (Super 0 4294967295 8192 13 77 true (Some 3%nat))).
Proof. by vm_compute. Qed.

Example demo_mount_other :
  fst <$> uvfs_read_super demo_cred 0%nat (Some [97; 98]) false demo_world = Some (- EINVAL).
Proof. by vm_compute. Qed.

(** A failure of the cache leaves the module half registered. *)
Example init_half : uvfs_init true 0 false unloaded = Some (- ENOMEM, Module_ true true false).
Proof. reflexivity. Qed.
