(* ===== verification/Session.v ===== *)
(** * Any sequence of calls of the file system

    The kernel calls the operations of the other files in whatever order it likes.
    [fs_op] is one call, [exec] the definition it runs, [callable] what the kernel
    guarantees of the pointers it passes.  However the calls follow each other, the
    inode cache keeps one inode per file, every transaction is given back, and no
    call faults. *)

From stdpp Require Import prelude gmap list strings.
From Stdlib Require Import ZArith Lia.
From S2P Require Import Prelude Protocol Driver DriverSteps Requests RequestProps Conduit.
From S2P Require Import ConduitDriver Kernel Calls VFSModel Demo Inode Dir DirProps.
From S2P Require Import Permission File FileProps Export Mount.

Open Scope string_scope.
Open Scope list_scope.
Open Scope Z_scope.

(** ** Calls *)

Inductive fs_op :=
| FLookup (dir : iptr) (entry : dptr)
| FCreate (dir : iptr) (entry : dptr) (mode : Z)
| FSymlink (dir : iptr) (entry : dptr) (path : list Z)
| FMkdir (dir : iptr) (entry : dptr) (mode : Z)
| FUnlink (dir : iptr) (entry : dptr)
| FRmdir (dir : iptr) (entry : dptr)
| FRename (srcdir : iptr) (src : dptr) (dstdir : iptr) (dst : dptr)
| FRevalidate (entry : dptr)
| FRefresh (p : iptr)
| FPermission (p : iptr) (mask : Z)
| FSetattr (entry : dptr) (attr : iattr)
| FStatfs (entry : dptr) (stat : kstatfs)
| FReadpage (pg : pgptr)
| FWritepage (pg : pgptr)
| FWriteEnd (pos n copied : Z) (pg : pgptr)
| FGetDentry (sb : sbptr) (h : fhandle)
| FGetParent (child : dptr)
| FMount (sb : sbptr) (data : option (list Z)) (silent : bool).

Section exec.
Context {C K : Type} `{Conduit C} `{VFS K} `{FileVFS K} (current : task_cred).

Definition run_call {A} (m : M (world C K) A) : M (world C K) unit := _ ← m; mret tt.

Definition exec (op : fs_op) : M (world C K) unit :=
  match op with
  | FLookup dir entry => run_call (uvfs_lookup current dir entry)
  | FCreate dir entry mode => run_call (uvfs_create current dir entry mode)
  | FSymlink dir entry path => run_call (uvfs_symlink current dir entry path)
  | FMkdir dir entry mode => run_call (uvfs_mkdir current dir entry mode)
  | FUnlink dir entry => run_call (uvfs_unlink current dir entry)
  | FRmdir dir entry => run_call (uvfs_rmdir current dir entry)
  | FRename srcdir src dstdir dst => run_call (uvfs_rename current srcdir src dstdir dst)
  | FRevalidate entry => run_call (uvfs_dentry_revalidate current entry)
  | FRefresh p => run_call (uvfs_revalidate_inode current p)
  | FPermission p mask => run_call (uvfs_permission current p mask)
  | FSetattr entry attr => run_call (uvfs_setattr current entry attr)
  | FStatfs entry stat => run_call (uvfs_statfs entry stat)
  | FReadpage pg => run_call (uvfs_readpage current pg)
  | FWritepage pg => run_call (uvfs_writepage current pg)
  | FWriteEnd pos n copied pg => run_call (uvfs_write_end current pos n copied pg)
  | FGetDentry sb h => run_call (uvfs_get_dentry current sb h)
  | FGetParent child => run_call (uvfs_get_parent current child)
  | FMount sb data silent => run_call (uvfs_read_super current sb data silent)
  end.

(** A dentry with an inode. *)
Definition positive (k : kernel K) (e : dptr) (p : iptr) : Prop :=
  exists d, dentries k !! e = Some d /\ d_inode d = Some p /\ is_Some (inodes k !! p).

(** What the kernel guarantees of a call: its pointers are live, and the arguments are
    those of a file that fits 32 bits.  READ is only right with a server that counts the
    bytes of its replies. *)
Definition callable (op : fs_op) (k : kernel K) : Prop :=
  match op with
  | FLookup dir entry | FCreate dir entry _ | FSymlink dir entry _ | FMkdir dir entry _ =>
      is_Some (inodes k !! dir) /\ is_Some (dentries k !! entry)
  | FUnlink dir entry | FRmdir dir entry =>
      is_Some (inodes k !! dir) /\ exists p, positive k entry p
  | FRename srcdir src dstdir dst =>
      is_Some (inodes k !! srcdir) /\ is_Some (inodes k !! dstdir) /\
      (exists p, positive k src p) /\
      exists dd, dentries k !! dst = Some dd /\
                 forall q, d_inode dd = Some q -> is_Some (inodes k !! q)
  | FRevalidate entry =>
      exists d dir, dentries k !! entry = Some d /\ positive k (d_parent d) dir /\
                    forall p, d_inode d = Some p -> is_Some (inodes k !! p)
  | FRefresh p => is_Some (inodes k !! p)
  | FPermission p _ => exists i, inodes k !! p = Some i /\ is_Some (supers k !! i_sb i)
  | FSetattr entry _ | FStatfs entry _ | FGetParent entry => exists p, positive k entry p
  | FReadpage pg =>
      exists g i, pages k !! pg = Some g /\ inodes k !! pg_host g = Some i /\
        forall uid gid offset, replies C (RqRead uid gid (i_fh i) offset) page_reply
  | FWritepage pg =>
      exists g i, pages k !! pg = Some g /\ inodes k !! pg_host g = Some i /\
        0 <= pg_index g /\ 0 <= i_size (i_attrs i) < 2 ^ 32
  | FWriteEnd pos n copied pg =>
      exists g i, pages k !! pg = Some g /\ inodes k !! pg_host g = Some i /\
        0 <= pos /\ 0 <= copied <= n /\ pos + n < 2 ^ 32 /\
        pg_index g = pos / PAGE_CACHE_SIZE /\ pos mod PAGE_CACHE_SIZE + n <= PAGE_CACHE_SIZE
  | FGetDentry _ _ => True
  | FMount sb _ _ => is_Some (supers k !! sb)
  end.

Definition fs_step (w w' : world C K) : Prop :=
  exists op, callable op (kern w) /\ exec op w = Some (tt, w').
End exec.

(** ** The identity of inodes *)

(** What [cache_ok] looks at. *)
Definition identity (i : inode) : fhandle * sbptr * Z * bool := (i_fh i, i_sb i, i_hash i, I_NEW i).

Definition same_identities (m m' : gmap iptr inode) : Prop :=
  forall p, identity <$> (m' !! p) = identity <$> (m !! p).

#[export] Instance same_identities_preorder : PreOrder same_identities.
Proof. split; [done|]. intros m1 m2 m3 H1 H2 p. by rewrite H2, H1. Qed.

Lemma same_identities_insert m p i i' :
  m !! p = Some i -> identity i' = identity i -> same_identities m (<[p := i']> m).
Proof.
  intros Hp Hi q. destruct (decide (p = q)) as [<-|Hne].
  - rewrite lookup_insert_eq, Hp. cbn. by rewrite Hi.
  - by rewrite lookup_insert_ne.
Qed.

Lemma same_identities_alter m p f :
  (forall i, identity (f i) = identity i) -> same_identities m (alter f p m).
Proof.
  intros Hf q. destruct (decide (p = q)) as [<-|Hne].
  - rewrite lookup_alter_eq. destruct (m !! p); [|done]. cbn. by rewrite Hf.
  - by rewrite lookup_alter_ne.
Qed.

Lemma same_identities_nlink m p n : same_identities m (alter (add_nlink n) p m).
Proof. by apply same_identities_alter. Qed.

Lemma same_identities_rename m srcdir dstdir p o :
  same_identities m (rename_links srcdir dstdir p o m).
Proof.
  assert (same_identities m (replace_links dstdir o m)) as Hr.
  { unfold replace_links. destruct o as [q|]; [|done].
    case_match; [|apply same_identities_nlink]. etrans; apply same_identities_nlink. }
  unfold rename_links. case_match; [|done]. etrans; [exact Hr|].
  etrans; apply same_identities_nlink.
Qed.

Lemma cache_ok_identities {K} (k k' : kernel K) :
  same_identities (inodes k) (inodes k') -> cache_ok k -> cache_ok k'.
Proof.
  intros Hs [H1 H2 H3].
  assert (forall p i', inodes k' !! p = Some i' ->
    exists i, inodes k !! p = Some i /\ identity i' = identity i) as Hb.
  { intros p i' Hp. specialize (Hs p). rewrite Hp in Hs. cbn in Hs.
    destruct (inodes k !! p) as [i|]; [|done]. exists i. split; [done|]. by apply (inj Some) in Hs. }
  unfold identity in Hb. split.
  - intros p i' (i & Hi & [= _ _ _ ->])%Hb. eauto.
  - intros p i' (i & Hi & [= -> _ -> _])%Hb. eauto.
  - intros p q i' j' (i & Hi & [= -> -> _ _])%Hb (j & Hj & [= -> -> _ _])%Hb. eauto.
Qed.

(** ** One call *)

Section theorems.
Context {C K : Type} `{ConduitLaws C} `{VFSLaws K} `{FileVFSLaws K} (current : task_cred).
Implicit Types (c : C) (k : kernel K).

(** The inode cache is in order, and every transaction is given back. *)
Definition in_order (c : C) (w' : world C K) : Prop :=
  cache_ok (kern w') /\ live (conduit w') = live c.

Definition keeps (op : fs_op) : Prop :=
  forall c k, cache_ok k -> callable op k ->
  wp (exec current op) (fun _ w' => in_order c w') (World c k).

Lemma wp_call {A} (m : M (world C K) A) (post : A -> world C K -> Prop) c w :
  wp m post w -> (forall a w', post a w' -> in_order c w') ->
  wp (run_call m) (fun _ w' => in_order c w') w.
Proof. intros Hm Hp. apply wp_bind. eapply wp_mono; [exact Hm|]. intros a w' Ha. wp_go. eauto. Qed.

Lemma got_in_order c c' k k1 k' sb fh a o :
  cache_ok k -> got k k1 sb fh (current_fsuid current) a o -> inodes k' = inodes k1 ->
  live c' = live c -> in_order c (World c' k').
Proof. intros Hok Hg Hi Hl. split; [|done]. by eapply cache_ok_same, cache_ok_got. Qed.

Lemma kept_in_order c w' k :
  cache_ok k -> same_identities (inodes k) (inodes (kern w')) ->
  live (conduit w') = live c -> in_order c w'.
Proof. intros Hok Hs Hl. split; [by eapply cache_ok_identities|done]. Qed.

(** An operation that makes one request and keeps the identities. *)
Lemma makes_in_order c k ok r (post : mem -> Z -> kernel K -> Prop) ret w' :
  cache_ok k -> (forall u k', post u ret k' -> cache_ok k') ->
  makes_if ok r post (World c k) ret w' -> in_order c w'.
Proof.
  intros Hok Hpost Hm. unfold in_order. unfold makes_if, makes in Hm. cbn [conduit kern] in Hm.
  destruct ok; [|destruct Hm as [_ ->]; by split].
  destruct Hm as [(_ & [_ Hl] & ->)|(u & [Hl _] & Hu)]; [by split|]. split; [by eapply Hpost|done].
Qed.

Lemma made_in_order t sb e d k u ret k' :
  cache_ok k -> entry_made current t sb e d k u ret k' -> cache_ok k'.
Proof.
  intros Hok. unfold entry_made. destruct (_ <? 0); [intros [_ ->]; by apply (cache_ok_same k)|].
  intros (o & k1 & _ & Hg & Ho). pose proof (cache_ok_got _ _ _ _ _ _ _ Hok Hg) as Hok1.
  destruct o as [p|]; [|by destruct Ho as [_ ->]].
  destruct Ho as (_ & (Hi & _) & _). by eapply cache_ok_same.
Qed.

Lemma keeps_lookup dir entry : keeps (FLookup dir entry).
Proof.
  intros c k Hok ([i Hi] & [d Hd]). eapply wp_call; [by apply uvfs_lookup_spec|].
  intros r w' Hpost. unfold lookup_post in Hpost. cbn [conduit kern] in Hpost.
  destruct Hpost as [[[(Hs & _) _] [_ Hl]]|(_ & u & [Hl _] & Hu)].
  - split; [by eapply cache_ok_same|done].
  - destruct (_ <? 0).
    + destruct Hu as [(Hs & _) _]. split; [by eapply cache_ok_same|done].
    + destruct Hu as (o & k1 & _ & Hg & (Hs & _) & _). destruct w'. by eapply got_in_order.
Qed.

Lemma keeps_create dir entry mode : keeps (FCreate dir entry mode).
Proof.
  intros c k Hok ([i Hi] & [d Hd]). eapply wp_call; [by apply uvfs_create_spec|].
  intros r w'. apply makes_in_order; [done|]. intros u k'. by apply made_in_order.
Qed.

Lemma keeps_symlink dir entry path : keeps (FSymlink dir entry path).
Proof.
  intros c k Hok ([i Hi] & [d Hd]). eapply wp_call; [by apply uvfs_symlink_correct|].
  intros r w'. apply makes_in_order; [done|]. intros u k'. by apply made_in_order.
Qed.

Lemma keeps_mkdir dir entry mode : keeps (FMkdir dir entry mode).
Proof.
  intros c k Hok ([i Hi] & [d Hd]). eapply wp_call; [by apply uvfs_mkdir_spec|].
  intros r w'. apply makes_in_order; [done|]. intros u k' (k2 & Hm & ->).
  pose proof (made_in_order _ _ _ _ _ _ _ _ Hok Hm) as Hok2.
  destruct (_ =? 0); [|done]. by eapply cache_ok_identities, Hok2; apply same_identities_nlink.
Qed.

Lemma keeps_unlink dir entry : keeps (FUnlink dir entry).
Proof.
  intros c k Hok ([i Hi] & p & d & Hd & Hp & [j Hj]).
  eapply wp_call; [by eapply uvfs_unlink_spec|].
  intros r w'. apply makes_in_order; [done|]. intros u k' (_ & ->). destruct (_ =? 0); [|done].
  by eapply cache_ok_identities, Hok; apply same_identities_nlink.
Qed.

Lemma keeps_rmdir dir entry : keeps (FRmdir dir entry).
Proof.
  intros c k Hok ([i Hi] & p & d & Hd & Hp & [j Hj]).
  eapply wp_call; [by eapply uvfs_rmdir_spec|].
  intros r w'. apply makes_in_order; [done|]. intros u k' (_ & ->). destruct (_ =? 0); [|done].
  eapply cache_ok_identities, Hok. cbn. etrans; apply same_identities_nlink.
Qed.

Lemma keeps_rename srcdir src dstdir dst : keeps (FRename srcdir src dstdir dst).
Proof.
  intros c k Hok ([si Hsi] & [di Hdi] & (p & sd & Hsd & Hp & [j Hj]) & dd & Hdd & Hq).
  eapply wp_call; [by eapply uvfs_rename_spec|].
  intros r w'. apply makes_in_order; [done|]. intros u k' (_ & ->). destruct (_ =? 0); [|done].
  eapply cache_ok_identities, Hok. apply same_identities_rename.
Qed.

Lemma keeps_revalidate entry : keeps (FRevalidate entry).
Proof.
  intros c k Hok (d & dir & Hd & (pd & Hpd & Hdir & [i Hi]) & Hq).
  eapply wp_call; [by eapply uvfs_dentry_revalidate_spec|].
  intros r w' (x & Hk & Hpost). split; [rewrite Hk; by apply (cache_ok_same k)|].
  destruct (d_inode d); [|by destruct Hpost as [[_ ?] _]].
  destruct Hpost as (j & _ & [[[_ ?] _]|(u & [? _] & _)]); done.
Qed.

Lemma keeps_refresh p : keeps (FRefresh p).
Proof.
  intros c k Hok [i Hi]. eapply wp_call; [by apply uvfs_revalidate_spec|].
  intros r w' [(_ & [_ Hl] & Hk)|(u & [Hl _] & _ & Hk)]; (split; [rewrite Hk|done]); [done|].
  destruct (_ =? 0); [|done]. eapply cache_ok_identities, Hok. by eapply same_identities_insert.
Qed.

Lemma keeps_permission p mask : keeps (FPermission p mask).
Proof.
  intros c k Hok (i & Hi & [s Hs]). eapply wp_call; [by eapply uvfs_permission_spec|].
  intros r w' (Hk & Hpost). split; [by rewrite Hk|].
  destruct (write_refused _ _ _); [by destruct Hpost as [_ ->]|].
  destruct (_ =? _); [by destruct Hpost as [-> _]|].
  destruct Hpost as [(_ & [_ ?])|(u & [? _] & _)]; done.
Qed.

Lemma keeps_setattr entry attr : keeps (FSetattr entry attr).
Proof.
  intros c k Hok (p & d & Hd & Hp & [i Hi]). eapply wp_call; [by eapply uvfs_setattr_spec|].
  intros [r a'] w' (error & attr0 & _ & _ & Hpost). unfold attributes_asked in Hpost. revert Hpost.
  destruct (setattr_law p (locally attr0) k i Hi) as (a & Ha).
  assert (cache_ok (snd (inode_setattr p (locally attr0) k))) as Hok'.
  { eapply cache_ok_identities, Hok. rewrite Ha. by eapply same_identities_insert. }
  destruct (_ <? 0); [by intros (_ & _ & ->)|].
  destruct (negb _); [by intros (_ & _ & ->)|].
  intros (_ & Hk & [[_ [_ Hl]]|(u & [Hl _] & _)]); (split; [by rewrite Hk|done]).
Qed.

Lemma keeps_statfs entry stat : keeps (FStatfs entry stat).
Proof.
  intros c k Hok (p & d & Hd & Hp & [i Hi]). eapply wp_call; [by eapply uvfs_statfs_correct|].
  intros r w' (Hk & [[_ [_ Hl]]|(u & [Hl _] & _)]); (split; [by rewrite Hk|done]).
Qed.

Lemma keeps_readpage pg : keeps (FReadpage pg).
Proof.
  intros c k Hok (g & i & Hg & Hi & Hrep). eapply wp_call; [by eapply uvfs_readpage_spec|].
  intros r w' [(_ & [_ Hl] & Hk)|(u & g' & [Hl _] & Hk & _)]; (split; [rewrite Hk|done]); [done|].
  by apply (cache_ok_same k).
Qed.

Lemma keeps_writepage pg : keeps (FWritepage pg).
Proof.
  intros c k Hok (g & i & Hg & Hi & Hidx & Hsize).
  eapply wp_call; [by eapply uvfs_writepage_spec|].
  intros r w'. unfold page_written, wrote. destruct (_ <=? 0).
  - intros (_ & Hw & Hk). split; [rewrite Hk; by apply (cache_ok_same k)|by rewrite Hw].
  - intros ([[_ [_ Hl]]|(u & [Hl _] & _)] & Hk);
      (split; [rewrite Hk; by apply (cache_ok_same k)|done]).
Qed.

Lemma keeps_write_end pos n copied pg : keeps (FWriteEnd pos n copied pg).
Proof.
  intros c k Hok (g & i & Hg & Hi & ? & ? & ? & ? & ?).
  eapply wp_call; [by eapply uvfs_write_end_spec|].
  intros r w' (_ & (e & He) & Hin & _). apply (kept_in_order c w' k); [done| |].
  - rewrite Hin. by eapply same_identities_insert.
  - destruct He as [[_ [_ Hl]]|(u & [Hl _] & _)]; done.
Qed.

Lemma keeps_get_dentry sb h : keeps (FGetDentry sb h).
Proof.
  intros c k Hok _. eapply wp_call; [by apply wp_get_dentry_of|].
  intros r w' [(p & i & _ & _ & _ & Hw & (Hs & _) & _)|(_ & [(_ & [_ Hl] & Hu)|(u & [Hl _] & Hu)])].
  - split; [by eapply cache_ok_same|by rewrite Hw].
  - split; [|done]. eapply cache_ok_same, Hok. apply Hu.
  - cbv zeta in Hu. destruct (_ =? 0).
    + destruct Hu as (o & k1 & _ & Hg & Ho). destruct o as [p|], w'; cbn in *.
      * destruct Ho as ((Hs & _) & _). by eapply got_in_order.
      * destruct Ho as [_ ->]. by eapply got_in_order.
    + destruct Hu as [_ Hu]. split; [|done]. eapply cache_ok_same, Hok. apply Hu.
Qed.

Lemma keeps_get_parent child : keeps (FGetParent child).
Proof.
  intros c k Hok (p & d & Hd & Hp & [i Hi]). eapply wp_call; [by eapply uvfs_get_parent_spec|].
  intros r w' [(_ & [_ Hl] & Hk)|(u & [Hl _] & Hu)]; [split; [by rewrite Hk|done]|].
  cbv zeta in Hu. destruct (_ =? 0).
  - destruct Hu as (o & k1 & _ & Hg & Ho). destruct o as [q|], w'; cbn in *.
    + destruct Ho as ((Hs & _) & _). by eapply got_in_order.
    + destruct Ho as [_ ->]. by eapply got_in_order.
  - destruct Hu as [_ Hk]. split; [by rewrite Hk|done].
Qed.

Lemma keeps_mount sb data silent : keeps (FMount sb data silent).
Proof.
  intros c k Hok [s Hs]. eapply wp_call; [by eapply uvfs_read_super_spec|].
  intros r w'. unfold super_read. destruct (data ≫= _) as [arg|]; [|by intros [_ ->]].
  destruct (_ <=? _); [by intros [_ ->]|].
  intros [(_ & [_ Hl] & Hk)|(u & [Hl _] & Hm)]; [split; [by rewrite Hk|done]|].
  split; [|done]. unfold mounted in Hm. cbv zeta in Hm. destruct (_ <? 0); [by destruct Hm as [_ ->]|].
  destruct Hm as (o & k1 & Hg & _ & _ & Ho).
  pose proof (cache_ok_got _ _ _ _ _ _ _ Hok Hg) as Hok1. destruct o as [p|].
  - destruct Ho as (_ & Hi & _). by eapply cache_ok_same.
  - destruct Ho as (_ & Hi & _). by eapply cache_ok_same.
Qed.

Lemma keeps_any op : keeps op.
Proof.
  destruct op.
  - apply keeps_lookup.
  - apply keeps_create.
  - apply keeps_symlink.
  - apply keeps_mkdir.
  - apply keeps_unlink.
  - apply keeps_rmdir.
  - apply keeps_rename.
  - apply keeps_revalidate.
  - apply keeps_refresh.
  - apply keeps_permission.
  - apply keeps_setattr.
  - apply keeps_statfs.
  - apply keeps_readpage.
  - apply keeps_writepage.
  - apply keeps_write_end.
  - apply keeps_get_dentry.
  - apply keeps_get_parent.
  - apply keeps_mount.
Qed.

Lemma session_in_order w w' :
  cache_ok (kern w) -> rtc (fs_step current) w w' -> in_order (conduit w) w'.
Proof.
  intros Hok Hr. induction Hr as [w|w1 w2 w3 (op & Hc & E) _ IH]; [by split|].
  destruct w1 as [c k]. pose proof (keeps_any op c k Hok Hc) as Hk.
  unfold wp in Hk. rewrite E in Hk. destruct Hk as [Hok2 Hl2].
  destruct (IH Hok2) as [Hok3 Hl3]. split; [done|]. by rewrite Hl3.
Qed.

(** C9: however the kernel's calls follow each other, and whatever the server answers,
    the inode cache keeps one inode for each file of a super block, every transaction
    that was allocated has been given back when the calls are over, and the next call
    does not fault. *)
Theorem file_system_invariant w w' :
  cache_ok (kern w) -> rtc (fs_step current) w w' ->
  cache_ok (kern w') /\ live (conduit w') = live (conduit w) /\
  forall op, callable op (kern w') -> exists w2, exec current op w' = Some (tt, w2).
Proof.
  intros Hok Hr. destruct (session_in_order w w' Hok Hr) as [Hok' Hl]. split_and!; [done|done|].
  intros op Hc. destruct w' as [c k].
  pose proof (keeps_any op c k Hok' Hc) as (a & w2 & E & _)%wp_elim. destruct a. by exists w2.
Qed.
End theorems.

(** ** An example *)

(** Look the file up, rename it within its directory, remove it. *)
Definition demo_calls : list fs_op :=
  [FLookup 0%nat 1%nat; FMkdir 0%nat 2%nat 493; FUnlink 0%nat 1%nat].

Fixpoint exec_all {C K} `{Conduit C} `{VFS K} `{FileVFS K} (current : task_cred) (l : list fs_op)
    (w : world C K) : option (world C K) :=
  match l with
  | [] => Some w
  | op :: l' => match exec current op w with
                | Some (_, w') => exec_all current l' w'
                | None => None
                end
  end.

Example demo_session :
  option_map (fun w => bool_decide (live (conduit w) = ∅)) (exec_all demo_cred demo_calls demo_world)
  = Some true.
Proof. by vm_compute. Qed.

(** The next call after the file has been looked up. *)
Lemma file_system_invariant_witness :
  exists w' w2, rtc (fs_step demo_cred) demo_world w' /\ cache_ok (kern w') /\
    exec demo_cred (FGetDentry 0%nat (demo_fh 7)) w' = Some (tt, w2).
Proof.
  assert (exists w', exec demo_cred (FLookup 0%nat 1%nat) demo_world = Some (tt, w')) as [w' E].
  { pose proof (keeps_any demo_cred (FLookup 0%nat 1%nat) demo_alone demo_kernel demo_cache_ok
      ltac:(split; by eexists)) as H.
    apply wp_elim in H as (a & w' & E & _). destruct a. by exists w'. }
  assert (rtc (fs_step demo_cred) demo_world w') as Hr.
  { apply rtc_once. exists (FLookup 0%nat 1%nat). split; [|exact E]. split; by eexists. }
  destruct (file_system_invariant demo_cred demo_world w' demo_cache_ok Hr) as (Hok & _ & Hn).
  destruct (Hn (FGetDentry 0%nat (demo_fh 7)) I) as [w2 E2]. exists w', w2. by split_and!.
Defined.
