(* ===== verification/Operations.v ===== *)
(** * The operation tables (operations.c)

    The tables through which the kernel calls the file system: which operation each
    table offers, with the definition that models it.  A member that the code sets to
    one of the kernel's own functions, or leaves out, is listed with the others in the
    comments below and is not part of the record.  With [uvfs_iget] they say what can
    be done with a file of each type. *)

From stdpp Require Import prelude gmap list strings.
From Stdlib Require Import ZArith Lia.
From S2P Require Import Prelude Protocol Driver DriverSteps Requests RequestProps Conduit.
From S2P Require Import ConduitDriver Kernel Calls VFSModel Demo InodeAlloc Inode Dir Readdir.
From S2P Require Import Permission File FileProps Symlink Export Mount.

Open Scope string_scope.
Open Scope list_scope.
Open Scope Z_scope.

Section operations.
Context {C K kstat D : Type} `{Conduit C} `{VFS K} `{FileVFS K} (current : task_cred).
Context (generic_fillattr : inode -> kstat)
        (vfs_readlink : list Z -> kernel K -> Z * kernel K)
        (vfs_follow_link : list Z -> M (world C K) Z)
        (filldir : D -> list Z -> Z -> Z -> Z -> Z * D).

(** [struct inode_operations]: the members that some table of the module sets. *)
Record inode_operations := InodeOperations {
  op_create : option (iptr -> dptr -> Z -> M (world C K) Z);
  op_lookup : option (iptr -> dptr -> M (world C K) ptr_or_err);
  op_unlink : option (iptr -> dptr -> M (world C K) Z);
  op_symlink : option (iptr -> dptr -> list Z -> M (world C K) Z);
  op_mkdir : option (iptr -> dptr -> Z -> M (world C K) Z);
  op_rmdir : option (iptr -> dptr -> M (world C K) Z);
  op_rename : option (iptr -> dptr -> iptr -> dptr -> M (world C K) Z);
  op_readlink : option (dptr -> M (world C K) Z);
  op_follow_link : option (dptr -> M (world C K) ptr_or_err);
  op_permission : option (iptr -> Z -> M (world C K) Z);
  op_setattr : option (dptr -> iattr -> M (world C K) (Z * iattr));
  op_getattr : option (dptr -> M (world C K) (Z * kstat)) }.

Definition Uvfs_file_inode_table : inode_operations := {|
  op_create := None; op_lookup := None; op_unlink := None; op_symlink := None;
  op_mkdir := None; op_rmdir := None; op_rename := None;
  op_readlink := None; op_follow_link := None;
  op_permission := Some (uvfs_permission current);
  op_setattr := Some (uvfs_setattr current);
  op_getattr := Some (uvfs_getattr current generic_fillattr) |}.

Definition Uvfs_dir_inode_table : inode_operations := {|
  op_create := Some (uvfs_create current);
  op_lookup := Some (uvfs_lookup current);
  op_unlink := Some (uvfs_unlink current);
  op_symlink := Some (uvfs_symlink current);
  op_mkdir := Some (uvfs_mkdir current);
  op_rmdir := Some (uvfs_rmdir current);
  op_rename := Some (uvfs_rename current);
  op_readlink := None; op_follow_link := None;
  op_permission := Some (uvfs_permission current);
  op_setattr := Some (uvfs_setattr current);
  op_getattr := Some (uvfs_getattr current generic_fillattr) |}.

Definition Uvfs_symlink_inode_table : inode_operations := {|
  op_create := None; op_lookup := None; op_unlink := None; op_symlink := None;
  op_mkdir := None; op_rmdir := None; op_rename := None;
  op_readlink := Some (uvfs_readlink current vfs_readlink);
  op_follow_link := Some (uvfs_follow_link current vfs_follow_link);
  op_permission := None;
  op_setattr := Some (uvfs_setattr current);
  op_getattr := Some (uvfs_getattr current generic_fillattr) |}.

(** [struct file_operations]: reading and writing are given the kernel's own function,
    reading a directory its buffer and position.  The kernel's [generic_file_open],
    [file_fsync], [generic_file_aio_read], [generic_file_aio_write] and
    [generic_read_dir] fill other members. *)
Record file_operations := FileOperations {
  op_read : option (M (world C K) Z -> iptr -> M (world C K) Z);
  op_write : option (M (world C K) Z -> iptr -> M (world C K) Z);
  op_mmap : option (M (world C K) Z -> iptr -> M (world C K) Z);
  op_readdir : option (nat -> iptr -> Z -> D -> M (world C K) (option (Z * Z * D))) }.

Definition Uvfs_file_file_table : file_operations := {|
  op_read := Some (uvfs_file_read current);
  op_write := Some (uvfs_file_write current);
  op_mmap := Some (uvfs_file_mmap current);
  op_readdir := None |}.

Definition Uvfs_dir_file_table : file_operations := {|
  op_read := None; op_write := None; op_mmap := None;
  op_readdir := Some (uvfs_readdir current filldir) |}.

(** [struct address_space_operations]. *)
Record address_space_operations := AddressSpaceOperations {
  op_writepage : pgptr -> M (world C K) Z;
  op_readpage : pgptr -> M (world C K) Z;
  op_write_begin : iptr -> Z -> Z -> Z -> M (world C K) (Z * option pgptr);
  op_write_end : Z -> Z -> Z -> pgptr -> M (world C K) Z }.

Definition Uvfs_file_aops_table : address_space_operations := {|
  op_writepage := uvfs_writepage current;
  op_readpage := uvfs_readpage current;
  op_write_begin := uvfs_write_begin;
  op_write_end := uvfs_write_end current |}.

(** [struct dentry_operations], [super_operations] and [export_operations]; the memory of
    inodes is a state of its own (InodeAlloc.v). *)
Definition Uvfs_dentry_table : dptr -> M (world C K) Z := uvfs_dentry_revalidate current.

Record super_operations := SuperOperations {
  op_alloc_inode : option Z -> M slab (option Z);
  op_destroy_inode : Z -> M slab unit;
  op_statfs : dptr -> kstatfs -> M (world C K) (Z * kstatfs) }.

Definition Uvfs_super_table : super_operations := {|
  op_alloc_inode := uvfs_alloc_inode;
  op_destroy_inode := uvfs_destroy_inode;
  op_statfs := uvfs_statfs |}.

Record export_operations := ExportOperations {
  op_encode_fh : dptr -> list Z -> Z -> bool -> M (world C K) (Z * list Z * Z);
  op_get_parent : dptr -> M (world C K) ptr_or_err;
  op_fh_to_dentry : sbptr -> list Z -> Z -> Z -> M (world C K) ptr_or_err;
  op_fh_to_parent : sbptr -> list Z -> Z -> Z -> M (world C K) ptr_or_err }.

Definition Uvfs_export_table : export_operations := {|
  op_encode_fh := uvfs_encode_fh;
  op_get_parent := uvfs_get_parent current;
  op_fh_to_dentry := uvfs_fh_to_dentry current;
  op_fh_to_parent := uvfs_fh_to_parent current |}.

(** The table that the pointer in an inode stands for. *)
Definition inode_table (o : inode_ops) : option inode_operations :=
  match o with
  | Uvfs_file_inode_operations => Some Uvfs_file_inode_table
  | Uvfs_dir_inode_operations => Some Uvfs_dir_inode_table
  | Uvfs_symlink_inode_operations => Some Uvfs_symlink_inode_table
  | other_inode_operations => None
  end.
Definition file_table (o : file_ops) : option file_operations :=
  match o with
  | Uvfs_file_file_operations => Some Uvfs_file_file_table
  | Uvfs_dir_file_operations => Some Uvfs_dir_file_table
  | other_file_operations => None
  end.

Definition aops_table (o : aops) : option address_space_operations :=
  match o with Uvfs_file_aops => Some Uvfs_file_aops_table | other_aops => None end.

(** ** Specification *)

(** The member [f] for the types of file it is meant for, and no other. *)
Definition only {A} (b : bool) (f : A) : option A := if b then Some f else None.

(** What an inode of the mode [m] offers through the table of its type: each operation
    on entries if it is a directory, those on targets if it is a link; attributes
    always, permissions except on links. *)
Definition offers_inode (m : Z) (t : inode_operations) : Prop :=
  let dir := S_ISDIR m in
  op_create t = only dir (uvfs_create current) /\
  op_lookup t = only dir (uvfs_lookup current) /\
  op_unlink t = only dir (uvfs_unlink current) /\
  op_symlink t = only dir (uvfs_symlink current) /\
  op_mkdir t = only dir (uvfs_mkdir current) /\
  op_rmdir t = only dir (uvfs_rmdir current) /\
  op_rename t = only dir (uvfs_rename current) /\
  op_readlink t = only (S_ISLNK m) (uvfs_readlink current vfs_readlink) /\
  op_follow_link t = only (S_ISLNK m) (uvfs_follow_link current vfs_follow_link) /\
  op_permission t = only (negb (S_ISLNK m)) (uvfs_permission current) /\
  op_setattr t = Some (uvfs_setattr current) /\
  op_getattr t = Some (uvfs_getattr current generic_fillattr).

(** An open file of that mode: data if it is a regular file, entries if a directory. *)
Definition offers_file (m : Z) (f : file_operations) : Prop :=
  op_read f = only (S_ISREG m) (uvfs_file_read current) /\
  op_write f = only (S_ISREG m) (uvfs_file_write current) /\
  op_mmap f = only (S_ISREG m) (uvfs_file_mmap current) /\
  op_readdir f = only (S_ISDIR m) (uvfs_readdir current filldir).

(** The pages of a regular file. *)
Definition offers_pages (t : address_space_operations) : Prop :=
  op_writepage t = uvfs_writepage current /\ op_readpage t = uvfs_readpage current /\
  op_write_begin t = uvfs_write_begin /\ op_write_end t = uvfs_write_end current.

(** The three tables an inode of the mode [m] leads to. *)
Definition offers (m : Z) (i : inode) : Prop :=
  match inode_table (i_op i) with Some t => offers_inode m t | None => False end /\
  match file_table (i_fop i) with Some f => offers_file m f | None => S_ISLNK m = true end /\
  match aops_table (a_ops i) with
  | Some t => S_ISREG m = true /\ offers_pages t
  | None => S_ISREG m = false
  end.

Lemma offers_made m i :
  (S_ISREG m || S_ISDIR m || S_ISLNK m) = true -> i_mode (i_attrs i) = m -> ops_ok i -> offers m i.
Proof.
  intros Hm <- (Hreg & Hdir & Hlnk). unfold offers, offers_inode, offers_file, only.
  destruct (ops_exclusive (i_mode (i_attrs i))) as (X1 & X2 & X3).
  set (m := i_mode _) in *.
  destruct (S_ISREG m); [|destruct (S_ISDIR m); [|destruct (S_ISLNK m); [|done]]].
  - destruct (Hreg eq_refl) as (-> & -> & ->). by destruct (X1 eq_refl) as [-> ->].
  - destruct (Hdir eq_refl) as (-> & -> & ->). by destruct (X2 eq_refl) as [_ ->].
  - by destruct (Hlnk eq_refl) as (-> & -> & ->).
Qed.

(** C35: a file of the server gets the operations of its type, and no others: through the
    inode that is made for it the kernel reaches [uvfs_create], [uvfs_lookup],
    [uvfs_unlink], [uvfs_symlink], [uvfs_mkdir], [uvfs_rmdir], [uvfs_rename] and
    [uvfs_readdir] exactly if it is a directory, [uvfs_readlink] and [uvfs_follow_link]
    exactly if it is a symbolic link, reading, writing, mapping and the operations on
    pages exactly if it is a regular file, each under its own name; and every type has
    its attributes read and changed, every type but links its permissions checked.
    An inode that was cached keeps its tables even if the type has changed. *)
Theorem iget_offers `{!ConduitLaws C} `{!VFSLaws K} c k sb fh a :
  cache_ok k ->
  (S_ISREG (u16 (a_mode a)) || S_ISDIR (u16 (a_mode a)) || S_ISLNK (u16 (a_mode a))) = true ->
  wp (uvfs_iget current sb fh a)
     (fun o (w' : world C K) => forall p i', o = Some p -> inodes (kern w') !! p = Some i' ->
        match inodes k !! p with
        | None => offers (u16 (a_mode a)) i'
        | Some i => i_op i' = i_op i /\ i_fop i' = i_fop i /\ a_ops i' = a_ops i
        end)
     (World c k).
Proof.
  intros Hok Hm. apply wp_iget; [done|]. intros o k' Hs Hg p i' -> Hi'. cbn in Hi'.
  inversion Hg as [|? i Hp Hsb Hf E|? i Hno Hp Hmd E]; subst;
    rewrite E, lookup_insert_eq in Hi'; injection Hi' as <-.
  - by rewrite Hp.
  - rewrite Hp. apply offers_made; [done|apply Hmd|apply Hmd].
Qed.
End operations.

Lemma iget_offers_witness :
  exists o w', uvfs_iget demo_cred 0%nat (demo_fh 9) (demo_attr (S_IFDIR + 493)) demo_world =
      Some (o, w') /\
    forall p i', o = Some p -> inodes (kern w') !! p = Some i' ->
      match inodes demo_kernel !! p with
      | None => offers (C:=alone) (K:=list call) (D:=unit) demo_cred (fun i => i) (fun _ k => (0, k)) (fun _ => mret 0)
                  (fun d _ _ _ _ => (0, d)) (u16 (S_IFDIR + 493)) i'
      | Some i => i_op i' = i_op i /\ i_fop i' = i_fop i /\ a_ops i' = a_ops i
      end.
Proof.
  pose proof (iget_offers (C:=alone) (K:=list call) (D:=unit) demo_cred (fun i => i)
    (fun _ k => (0, k)) (fun _ => mret 0) (fun d _ _ _ _ => (0, d))
    demo_alone demo_kernel 0%nat (demo_fh 9) (demo_attr (S_IFDIR + 493)) demo_cache_ok
    ltac:(by vm_compute)) as H.
  apply wp_elim in H as (o & w' & E & H). exists o, w'. split; [exact E|exact H].
Defined.

(** A regular file that the server has turned into a directory, under the same handle:
    the cached inode has the new mode and the tables of a file. *)
Example demo_type_change :
  (fun r => (fun i => (S_ISDIR (i_mode (i_attrs i)), i_op i)) <$>
            inodes (kern (snd r)) !! 1%nat) <$>
  uvfs_iget demo_cred 0%nat (demo_fh 3) (demo_attr (S_IFDIR + 493)) demo_world =
  Some (Some (true, Uvfs_file_inode_operations)).
Proof. by vm_compute. Qed.
