(* ===== verification/Signal.v ===== *)
(** * The command [uvfs_signal] (uvfs_signal.cc)

    It opens the device as any other process does, makes one ioctl and closes it. *)

From stdpp Require Import prelude gmap list strings.
From Stdlib Require Import ZArith Lia.
From S2P Require Import Prelude Protocol Driver.

Open Scope string_scope.
Open Scope list_scope.
Open Scope Z_scope.

(** ** Definitions *)

(** The command that the third argument names. *)
Definition signal_command (arg : string) : option Z :=
  if bool_decide (arg = "shutdown") then Some UVFS_IOCTL_SHUTDOWN
  else if bool_decide (arg = "status") then Some UVFS_IOCTL_STATUS
  else if bool_decide (arg = "count") then Some UVFS_IOCTL_USE_COUNT
  else None.

(** [opened] says whether [open] succeeds; the result is the exit status with the number
    printed.  Messages to the standard error are left out. *)
Definition main (argv : list string) (opened mounted : bool) : M driver (Z * option Z) :=
  match argv with
  | _ :: _ :: command :: _ =>
      match signal_command command with
      | None => mret (1, None)
      | Some cmd =>
          if negb opened then mret (1, None)
          else
            _ ← uvfsd_open;
            r ← uvfsd_ioctl mounted cmd;
            let result := r.1.1 in
            if result <? 0 then
              _ ← uvfsd_release; mret (1, None)
            else
              _ ← uvfsd_release;
              mret (0, if cmd =? UVFS_IOCTL_USE_COUNT then Some result else None)
      end
  | _ => mret (1, None)
  end.

(** ** Theorems *)

(** Opening and closing the device around something that leaves the count alone. *)
Lemma release_open (d : driver) :
  0 < uvfs_use_count d < 2 ^ 31 - 1 ->
  uvfsd_release (set_use_count (uvfs_use_count d + 1) d) = Some (0, d).
Proof.
  intros Hn. unfold uvfsd_release, mbind, M_bind, modify, gets, whenb, mret, M_ret. cbn.
  rewrite Z.add_simpl_r, s32_small by (unfold int_range; lia).
  rewrite (proj2 (Z.eqb_neq _ _)) by lia. by destruct d.
Qed.

Lemma open_spec (d : driver) :
  0 < uvfs_use_count d < 2 ^ 31 - 1 ->
  uvfsd_open d = Some (0, set_use_count (uvfs_use_count d + 1) d).
Proof.
  intros Hn. unfold uvfsd_open, mbind, M_bind, modify, mret, M_ret.
  by rewrite s32_small by (unfold int_range; lia).
Qed.

(** C38: while a server has the device open, the command [count] prints the number of
    opens - one more than the servers', for it has the device open itself - and changes
    nothing; [shutdown] leaves the flag set for the servers and wakes one of them, and
    nothing else changes.  With any other argument, too few, or a device that cannot be
    opened the command fails without effect. *)
Theorem uvfs_signal_correct (d : driver) prog dev mounted :
  0 < uvfs_use_count d < 2 ^ 31 - 1 ->
  main [prog; dev; "count"] true mounted d = Some (0, Some (uvfs_use_count d + 1), d) /\
  main [prog; dev; "shutdown"] true mounted d =
    Some (0, None, set_queue (wake_first (Uvfs_driver_queue d)) (set_ShuttingDown true d)) /\
  (forall argv opened, opened = false \/ (length argv < 3)%nat \/
      (exists command rest, argv = prog :: dev :: command :: rest /\
                            signal_command command = None) ->
    main argv opened mounted d = Some (1, None, d)).
Proof.
  intros Hn. pose proof (open_spec d Hn) as Ho. split; [|split].
  - unfold main. change (signal_command "count") with (Some UVFS_IOCTL_USE_COUNT).
    cbn [negb]. unfold mbind, M_bind. rewrite Ho.
    change (uvfsd_ioctl _ _ ?x) with (Some (uvfs_use_count x, @nil (Z * string), @nil (Z * string), x)).
    cbn [fst uvfs_use_count set_use_count]. rewrite (proj2 (Z.ltb_ge _ _)) by lia.
    by rewrite release_open.
  - unfold main. change (signal_command "shutdown") with (Some UVFS_IOCTL_SHUTDOWN).
    cbn [negb]. unfold mbind, M_bind. rewrite Ho.
    set (d' := set_queue (wake_first (Uvfs_driver_queue d)) (set_ShuttingDown true d)).
    change (uvfsd_ioctl mounted UVFS_IOCTL_SHUTDOWN _)
      with (Some (0, @nil (Z * string), @nil (Z * string), set_use_count (uvfs_use_count d' + 1) d')).
    cbn [fst Z.ltb Z.compare]. by rewrite release_open.
  - intros argv opened Hbad. unfold main.
    destruct argv as [|a [|b [|command rest]]]; try done.
    destruct (signal_command command) eqn:Ec; [|done].
    destruct Hbad as [->|[Hl|(? & ? & [= -> -> -> ->] & ?)]]; [done|cbn in Hl; lia|congruence].
Qed.

Lemma uvfs_signal_correct_witness :
  main ["uvfs_signal"; "/proc/fs/pmfs"; "count"] true true (set_use_count 1 driver_init) =
  Some (0, Some 2, set_use_count 1 driver_init).
Proof.
  exact (proj1 (uvfs_signal_correct (set_use_count 1 driver_init) "uvfs_signal" "/proc/fs/pmfs"
    true ltac:(cbn; lia))).
Defined.

(** When no server has the device open a shutdown is forgotten at once: the command's own
    close is the last one, and clears the flag. *)
Example shutdown_forgotten :
  (fun r => (fst r, ShuttingDown (snd r))) <$>
  main ["uvfs_signal"; "/proc/fs/pmfs"; "shutdown"] true true driver_init =
  Some (0, None, false).
Proof. by vm_compute. Qed.
